(* ===== verification/_CoqProject ===== *)
-Q . S2P
Prelude.v
PyStr.v
PyFloat.v
PyVal.v
Json.v
JsonText.v
PyDecimal.v
JsonFloat.v
JsonFacts.v
Digest.v
Metrics.v
Contract.v
Registry.v
HashChain.v
EventStore.v
Agent.v
Forge.v
Ddl.v
Ledger.v
Sales.v
Write.v
Breaker.v
WriteAgent.v
NetSuite.v
Mapper.v
Http.v
ErpMap.v
Reconcile.v
Query.v
PyTime.v
Vault.v
VaultService.v
Beacon.v
BeaconReport.v
Ticker.v
Webhook.v
Files.v
Bootstrap.v
Migrate.v
Health.v
Settings.v
System.v
Alerts.v
Recovery.v
Deploy.v
SchemaDocs.v
Schemas.v
Conformance.v
Contracts.v
Concurrent.v
Transactions.v
SignedWrite.v
DbSchema.v
Upgrade.v
