(* ===== verification/Prelude.v ===== *)
(** * Cavi ERP: a verification development

    Cavi ERP is a set of agents on a publish/subscribe bus.  An agent never
    calls another: it validates, records and publishes events, and runs its
    handler on the events of the subjects it listens to.  The development models
    the agents and what they share, states what makes each part correct, and
    composes them.

    ** The program and the files

    Python itself, as far as the program uses it:
    - [Prelude]: exceptions and their classes, the [result] and state-and-exception
      monads, [transaction] (shared/db.py), relations kept by programs ([keeps],
      [hoare]) and their automation.
    - [PyStr], [PyFloat], [PyVal], [PyDecimal], [PyTime]: strings as UTF-8 text,
      binary64 floats, dicts and JSON data, decimal numbers, ISO dates.
    - [Json], [JsonText], [JsonFloat], [JsonFacts]: [json.dumps] and [json.loads],
      their round trip, and that the text of every float is read back as a float.
      A float inside a payload is taken to be finite and to read back as itself
      ([float_ok], a check that is evaluated), as CPython's [repr] makes it.
    - [Digest]: SHA-256, SHA-1, HMAC, base64 and UUIDs, executable.
    - [Files]: directories, [glob] and the two file-name patterns.

    What the agents share:
    - [Metrics] (shared/metrics.py), [Contract] (agents/base/contract.py: [event],
      [to_dict], [from_dict]), [Registry] (agents/base/registry.py: [registry_get],
      [validate]), [HashChain] (shared/audit.py: [chain_hash], [verify_chain]),
      [EventStore] (shared/events.py, scripts/audit_export.py: the protocol with
      its laws and the two stores), [Agent] (agents/base/agent.py: [emit],
      [dead_letter], [dispatch], [run]).
    - [Http]: what the two HTTP servers write to a client ([_send] of
      shared/health.py and of agents/vault/service.py).

    The agents, each a state, its operations and a [handle]:
    - [Forge] (agents/forge/forge.py, agent.py), [Ledger] (agents/ledger/ledger.py,
      agent.py), and [Sales], the flow from one to the other.
    - [Write] (agents/forge/write.py), [Breaker] (breaker.py), [WriteAgent]
      (write_agent.py), [NetSuite] (netsuite.py), and [Recovery], the write path
      after a failure.
    - [Mapper] (agents/mapper/mapper.py, transforms.py, agent.py) and [ErpMap]
      (netsuite_records.py, erp.py, erp_agent.py).
    - [Reconcile] (agents/ledger/reconcile.py, reconcile_agent.py) and [Query]
      (query.py, query_agent.py).
    - [Vault] (agents/vault/vault.py, agent.py) and [VaultService] (service.py,
      shared/auth.py).
    - [Beacon] (agents/beacon/beacon.py, agent.py) and [BeaconReport] (report.py,
      report_agent.py).
    - [Ticker] (agents/ticker/ticker.py, agent.py) and [Webhook] (webhook.py,
      webhook_agent.py).

    Around them: [Bootstrap] (scripts/bootstrap.py), [Migrate]
    (scripts/migrate.py), [Health] (shared/health.py, the tenant allowlist of
    shared/settings.py, the start-up of agents/vault/service.py), [Settings]
    (shared/settings.py, shared/cache.py, the pool of shared/db.py,
    agents/base/runtime.py), [Deploy] (shared/logging.py, [serve] of
    agents/vault/service.py, the wiring of the write agent); and the database
    (schema_registry/migrations): [Ddl], the SQL the scripts and the stores'
    INSERTs are written in, [DbSchema], the scripts and the stores' statements
    on the tables they build, and [Upgrade], the runner on a database in use.

    Across them: [System] puts the agents together; [Alerts] follows an incident
    to Beacon.  [SchemaDocs] (schema_registry/schemas) and [Schemas] give the
    contracts their meaning, and [Conformance] and [Contracts] settle which of
    the payloads the agents build they accept.  [Concurrent] takes the critical
    sections apart into statements and interleaves their callers;
    [Transactions] does so with the transactions of several workers posting to
    PostgreSQL.  [SignedWrite] runs the NetSuite client against the Vault service,
    request and answer as text.

    ** State and interaction

    The state of a process is [proc T A]: the [world T] of every agent (the
    schema client, the event store [T], the bus, the metrics and a count of the
    reads made from outside) and the agent's own fields [A].  A method is a
    program [M S A]: from a state to an outcome, a value or an exception, and the
    state it leaves; an exception keeps what was changed before it.  [run] is the
    loop over the messages of a finite time.  The bus is the list of messages
    published so far; a message is a channel and a text, so what one agent
    publishes reaches another only through [parse_wire].

    Interfaces are classes with laws, discharged by each implementation:
    [EventStore] (in memory and PostgreSQL), [LedgerStore] (both),
    [CredentialStore] (in memory and keyring), [DedupStore], [CacheBackend],
    [RateSource], [Erp], [Sources], [ErpReader].  The theorems on an agent hold
    for every implementation of what it is given.

    ** Parameters

    Code that is not in the repository is a parameter: [Externals] (the
    jsonschema package, random UUIDs, the clocks), [PgServer] and [JsonbText]
    (what a JSONB column keeps), [Sql] (what a migration does to the data; in
    [Upgrade] only how PostgreSQL reads the text of a script is left open),
    [Keyring], [Nonces], [Poster] and the HTTP transport of [NetSuite], [Httpx]
    (how the client library writes a body and a header), [RedisSet] and
    [RedisStrings].  The [n]-th read of a source gives its [n]-th value, so
    nothing is assumed of clocks.  PostgreSQL tables are lists of rows (or maps
    from the primary key) with the constraints of schema_registry/migrations,
    which [DbSchema] derives from the scripts; a block under [connection()] is
    atomic, except where [Concurrent] and [Transactions] take it apart.

    ** What the theorems show

    - Money: no unbalanced entry is booked, an entry is booked once, a completed
      sale is booked in balance ([Ledger], [Sales]); prices and conversions are
      exact ([ErpMap], [Ticker]).
    - Writes to the ERP: only approved ones, each at most once; batches report
      exactly what they did; the preview shows every change; the breaker opens
      once and, once it has cooled down, lets exactly one probe through; what an
      approval does that is delivered again, which nothing in the repository does
      by itself ([Write], [WriteAgent], [Breaker], [Recovery], [NetSuite]).
    - The record: nothing is published that is not on record, every published
      event fits its schema, envelopes survive the bus, the hash chain verifies
      over events the store gives back as they were hashed, and its last hash
      pins the log up to a collision of SHA-256 or a link that hashes to the
      genesis value ([Agent], [Contract], [HashChain], [EventStore]).  The store
      in memory gives back any event; PostgreSQL those with an id in canonical
      spelling and no float from 1e16 up or -0.0 ([pg_accepts]).
    - Credentials: no signature without the shared secret, the permission and
      the credentials; stored secrets do not show in anything the vault answers
      or publishes but signatures; the vault is a table ([Vault], [VaultService]).
      A write reaches the ERP with the signature of its own tenant's credentials
      for its own verb and URL or not at all, and one whose deployment is in
      order goes through; a secret that cannot be written in a header raises in
      the client ([SignedWrite]).
    - Data in and out: nothing is dropped in a mapping, the version search is
      shortest and ends, reconciliation and queries report exactly ([Mapper],
      [ErpMap], [Reconcile], [Query], [Webhook]).
    - People: what is paged, what is suppressed, what a report counts ([Beacon],
      [BeaconReport]).
    - Deployment: a half-configured write agent fails closed; a process with
      nothing configured does nothing outside; settings are read once and one
      pool is opened ([Settings]); migrations apply
      wholly or not at all and once; a load puts the schemas of the files into
      the schema table and leaves its other rows, so that from an empty table the
      two are the same registry ([Deploy], [Migrate], [Bootstrap]).
    - The database: the tables the stores are modelled on are those the
      migrations build, statement for statement ([DbSchema]); an upgrade of a
      database in use is accepted, idempotent, leaves rows that fit the new
      tables, and is undone exactly by rolling back ([Upgrade]).
    - The whole: eleven agents speak a fixed vocabulary of registered events, the
      Mapper whatever it is asked for that has a schema, and the subjects that carry commands have no schema, so that no command is
      ever handled ([System]); a refused entry is reported, and no one is ever
      paged ([Alerts]).
    - Contracts: for each payload, exactly what its schema asks of the values in
      it; Ledger always answers an entry that was let in; when a sale is
      announced but its revenue refused ([Conformance], [Contracts]).
    - Concurrency: callers that hold a lock, interleaved statement by statement
      in any order, come to an end and leave what they leave one after another;
      so the hash chain does not fork, a double post has one winner and no
      increment is lost ([Concurrent]).  Workers posting to PostgreSQL at READ
      COMMITTED, which wait on each other's ids and may lose their connections,
      before or during the COMMIT, come to an end too, leave the tables and answers of calls made one after
      another, and post each entry once, whole ([Transactions]).

    Several theorems that are not part of the promises show where the code and
    its comments part: the dead letter that echoes, the entry of a second tenant
    that is swallowed, the reversal without a target, the silent failure, the
    truncated log, the noncanonical id, the secret that fits no header, the page that collapses, the page that
    never goes out, the revenue refused for its memo, the rate with an exponent.

    ** Fuel and bounds

    The version search of [Mapper] runs on fuel, one more than the registered
    edges and one for the empty queue, which is proved enough.  [loads] starts
    with twice the length of its text and two, proved enough for every text
    [dumps] writes.  [subclass_of] takes three steps, the depth of the exception
    classes.  [conforms] runs on seven levels of schemas within schemas, proved
    enough for the 24 documents.  All other recursion is structural or a fixed number of rounds.
    Integers are Python's, hence [Z]; the 32-bit column of the schema table
    refuses larger versions; decimals have 28 digits.

    ** Not modelled

    Sockets (the bytes and threads of the two servers, Redis subscriptions); who
    delivers a decision again after a failed write, if anyone; argument parsing, most printing, and the log lines the code writes (only their format
    is); how pydantic reads the environment and jsonschema implements the
    keywords, which are parameters; SQL that changes no rows (comments, the
    predicate and order of an index); the gaps that a failed INSERT leaves in
    generated numbers, of which the code only uses the order.  Concurrent callers are modelled where the
    code takes a lock ([Concurrent]) or relies on ON CONFLICT ([Transactions]);
    [InMemoryEventStore], which has no lock and is for tests, has one caller.  Reads that break a type
    annotation are marked [IllTyped] where the model does not follow them.
    Where the code says [except Exception], [ErpMap] and [Query] take it that
    what they call raises nothing beyond [Exception]; [Health] lets a
    [SystemExit] pass. *)

From Stdlib Require Export ZArith Lia.
From stdpp Require Export base tactics option list gmap strings sorting.

(** ** Exceptions

    The exception classes the program raises or catches, with the class each
    one derives from; [isinstance] is the test an [except] clause makes. *)
Inductive exn_class : Type :=
  | KeyError | ValueError | TypeError | AttributeError | OSError
  | JSONDecodeError | UnicodeError | DecimalError | SystemExit
  | ValidationError | HTTPError | DatabaseError
  | SchemaNotFound
  | LedgerError | UnbalancedEntry | LedgerQueryError
  | ForgeError | InvalidTransition | ErpWriteError | BreakerOpen
  | MapperError | NoTransformPath | ErpTransformError | MappingBlocked
  | VaultError | UnsupportedPlatform | CredentialNotFound | TokenExpired
  | TickerError | RateNotFound | MalformedWebhook
  | SourceUnavailable
  | IllTyped.

#[export] Instance exn_class_eq_dec : EqDecision exn_class.
Proof. solve_decision. Defined.

(** The base class of each class, as the [class] statements declare it.
    [UnicodeError] also stands for its own subclasses.
    [IllTyped] is no Python class: it marks the inputs that break a type
    annotation at a point whose behaviour the model does not follow. *)
Definition base_class (c : exn_class) : option exn_class :=
  match c with
  | JSONDecodeError | UnicodeError => Some ValueError
  | UnbalancedEntry | LedgerQueryError => Some LedgerError
  | InvalidTransition | ErpWriteError => Some ForgeError
  | BreakerOpen => Some ErpWriteError
  | NoTransformPath | ErpTransformError => Some MapperError
  | MappingBlocked => Some ErpTransformError
  | UnsupportedPlatform | CredentialNotFound | TokenExpired => Some VaultError
  | RateNotFound | MalformedWebhook => Some TickerError
  | _ => None
  end.

Record exn : Type := Exn { exn_cls : exn_class; exn_msg : string }.

#[export] Instance exn_eq_dec : EqDecision exn.
Proof. solve_decision. Defined.

(** The chain of bases is at most three long, so three steps reach its end. *)
Fixpoint subclass_of (fuel : nat) (c d : exn_class) : bool :=
  bool_decide (c = d) ||
  match fuel, base_class c with
  | S fuel, Some b => subclass_of fuel b d
  | _, _ => false
  end.

Definition isinstance (e : exn) (d : exn_class) : bool :=
  subclass_of 3 (exn_cls e) d.

(** ** Results and the state-and-exception monad

    Python code that raises is a [result]; code that also changes state is
    an [M S A]: it returns the outcome together with the state it leaves, and
    an exception keeps the state changes made before it. *)
Inductive result (A : Type) : Type :=
  | Ok (a : A)
  | Err (e : exn).
Arguments Ok {_} _.
Arguments Err {_} _.

#[export] Instance result_eq_dec `{EqDecision A} : EqDecision (result A).
Proof. solve_decision. Defined.

Definition is_ok {A} (r : result A) : bool :=
  match r with Ok _ => true | Err _ => false end.

#[export] Instance result_ret : MRet result := λ A a, Ok a.
#[export] Instance result_bind : MBind result := λ A B f r,
  match r with Ok a => f a | Err e => Err e end.
#[export] Instance result_fmap : FMap result := λ A B f r,
  match r with Ok a => Ok (f a) | Err e => Err e end.

Definition raise_r {A} (c : exn_class) (msg : string) : result A := Err (Exn c msg).

Definition M (S A : Type) : Type := S → result A * S.

#[export] Instance M_ret S : MRet (M S) := λ A a s, (Ok a, s).
#[export] Instance M_bind S : MBind (M S) := λ A B f m s,
  match m s with
  | (Ok a, s') => f a s'
  | (Err e, s') => (Err e, s')
  end.
#[export] Instance M_fmap S : FMap (M S) := λ A B f m s,
  match m s with
  | (Ok a, s') => (Ok (f a), s')
  | (Err e, s') => (Err e, s')
  end.

Section monad.
Context {S : Type}.

Definition raise {A} (c : exn_class) (msg : string) : M S A := λ s, (raise_r c msg, s).
Definition of_result {A} (r : result A) : M S A := λ s, (r, s).
Definition gets {A} (f : S → A) : M S A := λ s, (Ok (f s), s).
Definition modify (f : S → S) : M S unit := λ s, (Ok tt, f s).

(** [try: m; except d as exc: h exc]. *)
Definition try_except {A} (m : M S A) (d : exn_class) (h : exn → M S A) : M S A := λ s,
  match m s with
  | (Ok a, s') => (Ok a, s')
  | (Err e, s') => if isinstance e d then h e s' else (Err e, s')
  end.

(** [try: m; except (d1, d2, ...) as exc: h exc]. *)
Definition try_excepts {A} (m : M S A) (ds : list exn_class) (h : exn → M S A) : M S A := λ s,
  match m s with
  | (Ok a, s') => (Ok a, s')
  | (Err e, s') => if existsb (isinstance e) ds then h e s' else (Err e, s')
  end.

(** [with connection(): m]: the changes are kept on a clean exit and rolled
    back when [m] raises. *)
Definition transaction {A} (m : M S A) : M S A := λ s,
  match m s with
  | (Ok a, s') => (Ok a, s')
  | (Err e, _) => (Err e, s)
  end.

(** [for x in l: f x]. *)
Fixpoint for_each {A} (l : list A) (f : A → M S unit) : M S unit :=
  match l with
  | [] => mret tt
  | x :: l => f x ;; for_each l f
  end.
End monad.

(** Runs [m] on the part of the state that [get] and [set] select. *)
Definition zoom {S T A} (get : S → T) (set : T → S → S) (m : M T A) : M S A := λ s,
  match m (get s) with (r, t) => (r, set t s) end.

(** ** Automation *)

Create HintDb cavi.
Create HintDb keeps.

(** Splits every [match] of the goal and of the hypotheses, and uses the
    equations this gives. *)
Ltac py_cases :=
  repeat (case_match || simplify_eq/= ); try done.

(** Turns a run of a bind that succeeded into the runs of its parts. *)
Lemma M_bind_ok {S A B} (m : M S A) (f : A → M S B) s b s' :
  (m ≫= f) s = (Ok b, s') → ∃ a s1, m s = (Ok a, s1) ∧ f a s1 = (Ok b, s').
Proof.
  unfold mbind, M_bind. destruct (m s) as [[a|e] s1] eqn:E; intros H; [|done].
  by exists a, s1.
Qed.

Lemma result_bind_ok {A B} (r : result A) (f : A → result B) b :
  (r ≫= f) = Ok b → ∃ a, r = Ok a ∧ f a = Ok b.
Proof. destruct r as [a|e]; simpl; intros H; [by exists a|done]. Qed.

Lemma M_bind_run {S A B} (m : M S A) (f : A → M S B) s a s1 :
  m s = (Ok a, s1) → (m ≫= f) s = f a s1.
Proof. unfold mbind, M_bind. by intros ->. Qed.

Lemma transaction_err {S A} (m : M S A) s e s' :
  transaction m s = (Err e, s') → s' = s.
Proof. unfold transaction. destruct (m s) as [[|] ?]; congruence. Qed.

Lemma transaction_ok {S A} (m : M S A) s a s' :
  transaction m s = (Ok a, s') → m s = (Ok a, s').
Proof. unfold transaction. destruct (m s) as [[|] ?]; congruence. Qed.

Lemma M_bind_run_err {S A B} (m : M S A) (f : A → M S B) s e s1 :
  m s = (Err e, s1) → (m ≫= f) s = (Err e, s1).
Proof. unfold mbind, M_bind. by intros ->. Qed.

Lemma result_ret_ok {A} (a b : A) : (mret a : result A) = Ok b → a = b.
Proof. by intros [= ->]. Qed.

Lemma M_ret_ok {S A} (a b : A) (s s' : S) : (mret a : M S A) s = (Ok b, s') → a = b ∧ s = s'.
Proof. by intros [= -> ->]. Qed.

Ltac inv_ok :=
  repeat match goal with
  | H : mret _ = Ok _ |- _ => apply result_ret_ok in H
  | H : mret _ _ = (Ok _, _) |- _ => apply M_ret_ok in H; destruct H
  | H : (_ ≫= _) _ = (Ok _, _) |- _ =>
      apply M_bind_ok in H; destruct H as (? & ? & ? & H)
  | H : (_ ≫= _) = Ok _ |- _ =>
      apply result_bind_ok in H; destruct H as (? & ? & H)
  end.

(** ** Lists *)
Lemma filter_none {A} (P : A → Prop) `{∀ x, Decision (P x)} (l : list A) :
  (∀ x, x ∈ l → ¬ P x) → filter P l = [].
Proof.
  induction l as [|x l IH]; intros Hl; [done|].
  rewrite filter_cons_False by (apply Hl; left). apply IH. intros y Hy. apply Hl. by right.
Qed.

Lemma filter_every {A} (P : A → Prop) `{∀ x, Decision (P x)} (l : list A) :
  (∀ x, x ∈ l → P x) → filter P l = l.
Proof.
  induction l as [|x l IH]; intros Hl; [done|].
  rewrite filter_cons_True by (apply Hl; left). f_equal. apply IH. intros y Hy. apply Hl. by right.
Qed.

(** ** Runs and relations on states

    [keeps R m]: every run of [m], raised exceptions included, goes from a
    state to an [R]-later one.  The lemmas go through a program by its
    constructors; [keeps_tac] applies them. *)
Definition keeps {S A} (R : S → S → Prop) (m : M S A) : Prop :=
  ∀ s r s', m s = (r, s') → R s s'.

Section keeps.
Context {S : Type} (R : S → S → Prop) {HR : PreOrder R}.

Lemma keeps_pure {A} (m : M S A) : (∀ s, (m s).2 = s) → keeps R m.
Proof. intros H s r s' E. specialize (H s). rewrite E in H. simpl in H. by subst. Qed.

Lemma keeps_ret {A} (a : A) : keeps R (mret a).
Proof. by apply keeps_pure. Qed.
Lemma keeps_raise {A} c msg : keeps R (raise c msg : M S A).
Proof. by apply keeps_pure. Qed.
Lemma keeps_of_result {A} (r : result A) : keeps R (of_result r).
Proof. by apply keeps_pure. Qed.
Lemma keeps_gets {A} (f : S → A) : keeps R (gets f).
Proof. by apply keeps_pure. Qed.
Lemma keeps_modify f : (∀ s, R s (f s)) → keeps R (modify f).
Proof. intros H s r s' [= _ <-]. apply H. Qed.

Lemma keeps_bind {A B} (m : M S A) (f : A → M S B) :
  keeps R m → (∀ a, keeps R (f a)) → keeps R (m ≫= f).
Proof.
  intros Hm Hf s r s'. unfold mbind, M_bind. destruct (m s) as [[a|e] s1] eqn:E.
  - intros H. transitivity s1; [by eapply Hm|by eapply Hf].
  - intros [= _ <-]. by eapply Hm.
Qed.

Lemma keeps_fmap {A B} (f : A → B) (m : M S A) : keeps R m → keeps R (f <$> m).
Proof.
  intros Hm s r s'. unfold fmap, M_fmap. destruct (m s) as [[a|e] s1] eqn:E;
    intros [= _ <-]; by eapply Hm.
Qed.

Lemma keeps_try_except {A} (m : M S A) d h :
  keeps R m → (∀ e, keeps R (h e)) → keeps R (try_except m d h).
Proof.
  intros Hm Hh s r s'. unfold try_except. destruct (m s) as [[a|e] s1] eqn:E.
  - intros [= _ <-]. by eapply Hm.
  - case_match; [intros Hr; transitivity s1; [by eapply Hm|by eapply Hh]|].
    intros [= _ <-]. by eapply Hm.
Qed.

Lemma keeps_try_excepts {A} (m : M S A) ds h :
  keeps R m → (∀ e, keeps R (h e)) → keeps R (try_excepts m ds h).
Proof.
  intros Hm Hh s r s'. unfold try_excepts. destruct (m s) as [[a|e] s1] eqn:E.
  - intros [= _ <-]. by eapply Hm.
  - case_match; [intros Hr; transitivity s1; [by eapply Hm|by eapply Hh]|].
    intros [= _ <-]. by eapply Hm.
Qed.

Lemma keeps_for_each {A} (l : list A) f : (∀ x, keeps R (f x)) → keeps R (for_each l f).
Proof.
  intros Hf. induction l; simpl; [apply keeps_ret|]. by apply keeps_bind.
Qed.
End keeps.

(** Goes through a program, splitting its matches, down to the steps the hint
    database [keeps] knows. *)
Ltac keeps_leaf :=
  solve [ first [apply keeps_ret | apply keeps_raise | apply keeps_of_result | apply keeps_gets];
          apply _
        | eauto 4 with keeps typeclass_instances ].

Ltac keeps_tac :=
  repeat first
    [ progress intros
    | keeps_leaf
    | apply keeps_bind; [apply _| |]
    | apply keeps_fmap; [apply _|]
    | apply keeps_try_except; [apply _| |]
    | apply keeps_try_excepts; [apply _| |]
    | apply keeps_for_each; [apply _|]
    | case_match ].

(** ** Triples

    [hoare P m Q]: from a state with [P], a run of [m] ends, normally or not,
    with an outcome and a state that satisfy [Q]. *)
Definition hoare {S A} (P : S → Prop) (m : M S A) (Q : result A → S → Prop) : Prop :=
  ∀ s r s', P s → m s = (r, s') → Q r s'.

Section hoare.
Context {S : Type}.

Lemma hoare_bind {A B} (P : S → Prop) (m : M S A) (f : A → M S B) (R : A → S → Prop) Q :
  hoare P m (λ r s, match r with Ok a => R a s | Err e => Q (Err e) s end) →
  (∀ a, hoare (R a) (f a) Q) → hoare P (m ≫= f) Q.
Proof.
  intros Hm Hf s r s' HP. unfold mbind, M_bind.
  destruct (m s) as [[a|e] s1] eqn:E; apply (Hm _ _ _ HP) in E.
  - intros E2. exact (Hf a _ _ _ E E2).
  - by intros [= <- <-].
Qed.

Lemma hoare_ret {A} (P : S → Prop) (a : A) (Q : result A → S → Prop) :
  (∀ s, P s → Q (Ok a) s) → hoare P (mret a) Q.
Proof. intros HQ s r s' HP [= <- <-]. auto. Qed.

Lemma hoare_of_result {A} (P : S → Prop) (x : result A) (Q : result A → S → Prop) :
  (∀ s, P s → Q x s) → hoare P (of_result x) Q.
Proof. intros HQ s r s' HP [= <- <-]. auto. Qed.

Lemma hoare_gets {A} (P : S → Prop) (f : S → A) (Q : result A → S → Prop) :
  (∀ s, P s → Q (Ok (f s)) s) → hoare P (gets f) Q.
Proof. intros HQ s r s' HP [= <- <-]. auto. Qed.

Lemma hoare_try {A} (P : S → Prop) (m : M S A) d h Q :
  hoare P m (λ r s, match r with
                    | Ok a => Q (Ok a) s
                    | Err e => if isinstance e d then hoare (λ s', s' = s) (h e) Q
                               else Q (Err e) s end) →
  hoare P (try_except m d h) Q.
Proof.
  intros Hm s r s' HP. unfold try_except.
  destruct (m s) as [[a|e] s1] eqn:E; apply (Hm _ _ _ HP) in E; [by intros [= <- <-]|].
  cbn beta iota in E. destruct (isinstance e d); [intros E2; exact (E _ _ _ eq_refl E2)|by intros [= <- <-]].
Qed.

Lemma hoare_fmap {A B} (P : S → Prop) (m : M S A) (f : A → B) Q :
  hoare P m (λ r s, Q (f <$> r) s) → hoare P (f <$> m) Q.
Proof.
  intros Hm s r s' HP. unfold fmap, M_fmap.
  destruct (m s) as [[a|e] s1] eqn:E; apply (Hm _ _ _ HP) in E; by intros [= <- <-].
Qed.

Lemma hoare_weaken {A} (P P' : S → Prop) (m : M S A) (Q Q' : result A → S → Prop) :
  hoare P' m Q' → (∀ s, P s → P' s) → (∀ r s, Q' r s → Q r s) → hoare P m Q.
Proof. intros H ?? s r s' ??. eauto. Qed.

(** A predicate that a relation preserves survives what keeps the relation. *)
Definition stable (R : S → S → Prop) (P : S → Prop) : Prop := ∀ s s', R s s' → P s → P s'.

Lemma hoare_keeps {A} (R : S → S → Prop) (P : S → Prop) (m : M S A) (Q : result A → S → Prop) :
  keeps R m → stable R P → (∀ r s, P s → Q r s) → hoare P m Q.
Proof. intros Hm HP HQ s r s' Hs E. eapply HQ, HP; [by eapply Hm|done]. Qed.
End hoare.

(** ** Programs with an outcome

    [ends R Q m]: runs of [m] go along [R], and what they return satisfies
    [Q].
    [returns Q m] is the second half alone. *)
Definition ends {S A} (R : S → S → Prop) (Q : A → Prop) (m : M S A) : Prop :=
  ∀ s r s', m s = (r, s') → R s s' ∧ ∀ a, r = Ok a → Q a.

Section ends.
Context {S : Type} (R : S → S → Prop) {HR : PreOrder R}.

Lemma ends_ret {A} (Q : A → Prop) a : Q a → ends R Q (mret a).
Proof. intros Ha s r s' [= <- <-]. split; [done|]. by intros ? [= <-]. Qed.

Lemma ends_keeps {A} (m : M S A) : keeps R m → ends R (λ _, True) m.
Proof. intros Hm s r s' E. split; [by eapply Hm|done]. Qed.

Lemma ends_bind {A B} (Q : A → Prop) (Q' : B → Prop) (m : M S A) (f : A → M S B) :
  ends R Q m → (∀ a, Q a → ends R Q' (f a)) → ends R Q' (m ≫= f).
Proof.
  intros Hm Hf s r s'. unfold mbind, M_bind.
  destruct (m s) as [[a|e] s1] eqn:E; destruct (Hm _ _ _ E) as [H1 HQ].
  - intros E2. destruct (Hf a (HQ _ eq_refl) _ _ _ E2) as [H2 ?]. split; [by trans s1|done].
  - by intros [= <- <-].
Qed.

Lemma keeps_bind_ends {A B} (Q : A → Prop) (m : M S A) (f : A → M S B) :
  ends R Q m → (∀ a, Q a → keeps R (f a)) → keeps R (m ≫= f).
Proof.
  intros Hm Hf s r s'. unfold mbind, M_bind.
  destruct (m s) as [[a|e] s1] eqn:E; destruct (Hm _ _ _ E) as [H1 HQ].
  - intros E2. trans s1; [done|]. by eapply Hf; [apply HQ|].
  - by intros [= _ <-].
Qed.

Lemma ends_fmap {A B} (Q : B → Prop) (f : A → B) (m : M S A) :
  ends R (λ a, Q (f a)) m → ends R Q (f <$> m).
Proof.
  intros Hm s r s'. unfold fmap, M_fmap.
  destruct (m s) as [[a|e] s1] eqn:E; destruct (Hm _ _ _ E) as [H1 HQ]; intros [= <- <-].
  - split; [done|]. intros ? [= <-]. auto.
  - done.
Qed.

Lemma ends_try {A} (Q : A → Prop) (m : M S A) d h :
  ends R Q m → (∀ e, ends R Q (h e)) → ends R Q (try_except m d h).
Proof.
  intros Hm Hh s r s'. unfold try_except.
  destruct (m s) as [[a|e] s1] eqn:E; destruct (Hm _ _ _ E) as [H1 HQ].
  - by intros [= <- <-].
  - case_match; [|by intros [= <- <-]]. intros E2. destruct (Hh e _ _ _ E2). split; [by trans s1|done].
Qed.
End ends.

(** [returns Q m]: what a run of [m] returns satisfies [Q]. *)
Definition returns {S A} (Q : A → Prop) (m : M S A) : Prop := ∀ s a s', m s = (Ok a, s') → Q a.

Lemma returns_bind {S A B} (Q : B → Prop) (m : M S A) (f : A → M S B) :
  (∀ a, returns Q (f a)) → returns Q (m ≫= f).
Proof. intros Hf s b s' (a & s1 & _ & E)%M_bind_ok. by eapply Hf. Qed.

Lemma returns_ret {S A} (Q : A → Prop) (a : A) : Q a → returns Q (mret a : M S A).
Proof. by intros Ha s b s' [= <- _]. Qed.
