(* ===== verification/PyStr.v ===== *)
(** * Python strings

    A Python [str] is a Rocq [string] holding its UTF-8 encoding: equality,
    concatenation, [startswith] and (because UTF-8 keeps code-point order)
    comparison are then the byte-wise ones, and [.encode("utf-8")] is the
    identity.  Where Python works on characters ([strip], slicing, escaping)
    the definitions below decode first.  [upper] and [lower] map the ASCII
    letters and leave every other character alone. *)

From S2P Require Import Prelude.
From Stdlib Require Import DecimalString DecimalZ DecimalN.
From Stdlib Require Export Ascii.

Local Open Scope string_scope.

#[global] Arguments String.append !_ _ / : assert.

(** ** UTF-8 *)

Definition byte (n : N) : ascii := ascii_of_N n.
Definition str1 (n : N) : string := String (byte n) EmptyString.

Definition utf8_encode1 (c : N) : string :=
  (if c <? 128 then str1 c
   else if c <? 2048 then str1 (192 + c / 64) +:+ str1 (128 + c mod 64)
   else if c <? 65536 then
     str1 (224 + c / 4096) +:+ str1 (128 + c / 64 mod 64) +:+ str1 (128 + c mod 64)
   else
     str1 (240 + c / 262144) +:+ str1 (128 + c / 4096 mod 64)
       +:+ str1 (128 + c / 64 mod 64) +:+ str1 (128 + c mod 64))%N.

Fixpoint utf8_encode (l : list N) : string :=
  match l with
  | [] => EmptyString
  | c :: l => utf8_encode1 c +:+ utf8_encode l
  end.

(** The encoded strings of a program are valid; a stray byte decodes to itself. *)
Fixpoint utf8_decode (s : string) : list N :=
  match s with
  | EmptyString => []
  | String a s1 =>
      let a := N_of_ascii a in
      if (a <? 192)%N then a :: utf8_decode s1 else
      match s1 with
      | EmptyString => [a]
      | String b s2 =>
          let b := (N_of_ascii b - 128)%N in
          if (a <? 224)%N then ((a - 192) * 64 + b)%N :: utf8_decode s2 else
          match s2 with
          | EmptyString => [a]
          | String c s3 =>
              let c := (N_of_ascii c - 128)%N in
              if (a <? 240)%N then ((a - 224) * 4096 + b * 64 + c)%N :: utf8_decode s3 else
              match s3 with
              | EmptyString => [a]
              | String d s4 =>
                  let d := (N_of_ascii d - 128)%N in
                  ((a - 240) * 262144 + b * 4096 + c * 64 + d)%N :: utf8_decode s4
              end
          end
      end
  end.

(** The Unicode scalar values: the code points of text, surrogates excluded. *)
Definition is_code_point (c : N) : Prop := (c < 55296 ∨ 57344 ≤ c < 1114112)%N.

Definition valid_str (s : string) : Prop :=
  ∃ l, Forall is_code_point l ∧ s = utf8_encode l.

(** ** Slicing, searching, trimming *)

(** [s[:n]], on characters. *)
Definition str_take (n : nat) (s : string) : string :=
  utf8_encode (take n (utf8_decode s)).

Definition startswith (p s : string) : bool := String.prefix p s.

Fixpoint str_drop (n : nat) (s : string) : string :=
  match n, s with
  | S n, String _ s => str_drop n s
  | _, _ => s
  end.

(** [s[len(p):]] for a prefix [p] of [s]; byte and character offsets agree. *)
Definition removeprefix (p s : string) : string := str_drop (String.length p) s.

Fixpoint str_rev (acc s : string) : string :=
  match s with
  | EmptyString => acc
  | String c s => str_rev (String c acc) s
  end.

Definition endswith (p s : string) : bool :=
  String.prefix (str_rev EmptyString p) (str_rev EmptyString s).

(** The characters [str.isspace] accepts, and so [strip] removes. *)
Definition is_space (c : N) : bool :=
  ((9 <=? c) && (c <=? 13) || (28 <=? c) && (c <=? 32) || (c =? 133) || (c =? 160)
   || (c =? 5760) || (8192 <=? c) && (c <=? 8202) || (c =? 8232) || (c =? 8233)
   || (c =? 8239) || (c =? 8287) || (c =? 12288))%N.

Fixpoint drop_while (f : N → bool) (l : list N) : list N :=
  match l with
  | [] => []
  | c :: l' => if f c then drop_while f l' else l
  end.

Definition strip (s : string) : string :=
  utf8_encode (reverse (drop_while is_space (reverse (drop_while is_space (utf8_decode s))))).

(** [s.rstrip(c)] for one ASCII character [c]. *)
Fixpoint rstrip_char (c : ascii) (s : string) : string :=
  match s with
  | EmptyString => EmptyString
  | String d s =>
      match rstrip_char c s with
      | EmptyString => if Ascii.eqb c d then EmptyString else String d EmptyString
      | s' => String d s'
      end
  end.

(** [s.split(c)] for one ASCII character [c]. *)
Fixpoint split_char (c : ascii) (s : string) : list string :=
  match s with
  | EmptyString => [EmptyString]
  | String d s =>
      let rest := split_char c s in
      if Ascii.eqb c d then EmptyString :: rest
      else match rest with
           | w :: ws => String d w :: ws
           | [] => [String d EmptyString]
           end
  end.

(** [s.rsplit(c, 1)[-1]]. *)
Definition after_last (c : ascii) (s : string) : string :=
  default s (last (split_char c s)).

Definition ascii_lower (c : ascii) : ascii :=
  let n := N_of_ascii c in
  if ((65 <=? n) && (n <=? 90))%N then byte (n + 32) else c.
Definition ascii_upper (c : ascii) : ascii :=
  let n := N_of_ascii c in
  if ((97 <=? n) && (n <=? 122))%N then byte (n - 32) else c.

Fixpoint str_map (f : ascii → ascii) (s : string) : string :=
  match s with
  | EmptyString => EmptyString
  | String c s => String (f c) (str_map f s)
  end.
Definition lower : string → string := str_map ascii_lower.
Definition upper : string → string := str_map ascii_upper.

Definition join (sep : string) (l : list string) : string := String.concat sep l.

Definition str_empty (s : string) : bool :=
  match s with EmptyString => true | _ => false end.

(** ** Numbers as text *)

(** [str(z)] of an int. *)
Definition Z_str (z : Z) : string := NilZero.string_of_int (Z.to_int z).
Definition nat_str (n : nat) : string := Z_str (Z.of_nat n).

Definition digit (n : N) : string := str1 (48 + n).
Definition hex_digit (n : N) : string :=
  str1 (if n <? 10 then 48 + n else 87 + n)%N.
(** [%02x] and [%04x]. *)
Definition hex2 (n : N) : string := (hex_digit (n / 16) +:+ hex_digit (n mod 16))%N.
Definition hex4 (n : N) : string := (hex2 (n / 256) +:+ hex2 (n mod 256))%N.

(** ** Quoting *)

Definition dquote : string := str1 34.
Definition squote : string := str1 39.
Definition newline : string := str1 10.

Fixpoint str_mem (c : ascii) (s : string) : bool :=
  match s with
  | EmptyString => false
  | String d s => Ascii.eqb c d || str_mem c s
  end.

(** [repr(s)]: single quotes unless the text has one and no double quote.
    Non-ASCII characters count as printable. *)
Fixpoint repr_body (q : ascii) (s : string) : string :=
  match s with
  | EmptyString => EmptyString
  | String c s =>
      let n := N_of_ascii c in
      (if Ascii.eqb c q || (n =? 92)%N then str1 92 +:+ str1 n
       else if (n =? 10)%N then "\n" else if (n =? 13)%N then "\r"
       else if (n =? 9)%N then "\t"
       else if ((n <? 32) || (n =? 127))%N then "\x" +:+ hex2 n
       else str1 n) +:+ repr_body q s
  end.

Definition str_repr (s : string) : string :=
  let q := if str_mem (byte 39) s && negb (str_mem (byte 34) s) then byte 34 else byte 39 in
  String q EmptyString +:+ repr_body q s +:+ String q EmptyString.

(** ** Order and sorting *)

Definition str_le (a b : string) : Prop := Is_true (String.leb a b).

#[export] Instance str_le_dec : RelDecision str_le.
Proof. intros a b. unfold str_le. apply _. Defined.

Lemma ascii_compare_N (a b : ascii) :
  Ascii.compare a b = N.compare (N_of_ascii a) (N_of_ascii b).
Proof. done. Qed.

Lemma str_le_cons a b s t :
  str_le (String a s) (String b t) ↔
  (N_of_ascii a < N_of_ascii b)%N ∨ a = b ∧ str_le s t.
Proof.
  unfold str_le, String.leb. simpl. rewrite ascii_compare_N.
  destruct (N.compare_spec (N_of_ascii a) (N_of_ascii b)) as [E|E|E].
  - assert (a = b) as -> by (rewrite <-(ascii_N_embedding a), <-(ascii_N_embedding b); by f_equal).
    split; [by right|]. intros [?|[_ ?]]; [lia|done].
  - simpl. naive_solver.
  - simpl. split; [done|]. intros [?|[-> _]]; lia.
Qed.

#[export] Instance str_le_total : Total str_le.
Proof.
  intros a. induction a as [|a s IH]; intros [|b t]; [by left..|by right|].
  rewrite !str_le_cons.
  destruct (N.lt_trichotomy (N_of_ascii a) (N_of_ascii b)) as [?|[E|?]]; [tauto| |tauto].
  assert (a = b) as -> by (rewrite <-(ascii_N_embedding a), <-(ascii_N_embedding b); by f_equal).
  destruct (IH t); tauto.
Qed.

#[export] Instance str_le_trans : Transitive str_le.
Proof.
  intros a. induction a as [|a s IH]; intros [|b t] [|c u]; try done.
  rewrite !str_le_cons.
  intros [?|[-> ?]] [?|[-> ?]]; [left; lia|tauto|tauto|right; eauto].
Qed.

#[export] Instance str_le_antisym : AntiSymm (=) str_le.
Proof.
  intros a. induction a as [|a s IH]; intros [|b t]; try done.
  rewrite !str_le_cons.
  intros [?|[-> ?]] [?|[? ?]]; [lia|subst; lia|lia|]. f_equal. auto.
Qed.

(** [sorted(l)] of strings. *)
Definition sorted_strs (l : list string) : list string := merge_sort str_le l.

Lemma sorted_strs_perm l : sorted_strs l ≡ₚ l.
Proof. apply merge_sort_Permutation. Qed.

Lemma sorted_strs_sorted l : StronglySorted str_le (sorted_strs l).
Proof. apply (StronglySorted_merge_sort _ _). Qed.

Lemma sorted_strs_proper l1 l2 : l1 ≡ₚ l2 → sorted_strs l1 = sorted_strs l2.
Proof.
  intros H. eapply (StronglySorted_unique str_le); [apply sorted_strs_sorted..|].
  by rewrite !sorted_strs_perm.
Qed.

Lemma elem_of_sorted_strs x l : x ∈ sorted_strs l ↔ x ∈ l.
Proof. by rewrite sorted_strs_perm. Qed.

(** ** Facts about UTF-8 *)

Lemma N_of_byte n : (n < 256)%N → N_of_ascii (byte n) = n.
Proof. apply N_ascii_embedding. Qed.

Lemma str_app_assoc (a b c : string) : (a +:+ b) +:+ c = a +:+ b +:+ c.
Proof. induction a; simpl; congruence. Qed.

Lemma str_app_nil_r (a : string) : a +:+ EmptyString = a.
Proof. induction a; simpl; congruence. Qed.

(** The base-64 digits of a code point. *)
Lemma base64_digits c :
  ∃ q0 q1 q2 r0 r1 r2, (r0 < 64 ∧ r1 < 64 ∧ r2 < 64
    ∧ c mod 64 = r0 ∧ c / 64 mod 64 = r1 ∧ c / 4096 mod 64 = r2
    ∧ c / 64 = q0 ∧ c / 4096 = q1 ∧ c / 262144 = q2
    ∧ c = q0 * 64 + r0 ∧ q0 = q1 * 64 + r1 ∧ q1 = q2 * 64 + r2)%N.
Proof.
  exists (c / 64)%N, (c / 64 / 64)%N, (c / 64 / 64 / 64)%N.
  exists (c mod 64)%N, (c / 64 mod 64)%N, (c / 64 / 64 mod 64)%N.
  change 4096%N with (64 * 64)%N. change 262144%N with (64 * 64 * 64)%N.
  rewrite <-!N.Div0.div_div.
  pose proof (N.div_mod' c 64). pose proof (N.div_mod' (c / 64) 64).
  pose proof (N.div_mod' (c / 64 / 64) 64).
  repeat split; try (by apply N.mod_lt); lia.
Qed.

Lemma utf8_decode_encode1 c rest :
  is_code_point c → utf8_decode (utf8_encode1 c +:+ rest) = c :: utf8_decode rest.
Proof.
  unfold is_code_point, utf8_encode1. intros Hc.
  destruct (base64_digits c)
    as (q0 & q1 & q2 & r0 & r1 & r2 & ? & ? & ? & E0 & E1 & E2 & F0 & F1 & F2 & ? & ? & ?).
  rewrite E0, E1, E2, F0, F1, F2. clear E0 E1 E2 F0 F1 F2.
  destruct (N.ltb_spec c 128); [|destruct (N.ltb_spec c 2048);
    [|destruct (N.ltb_spec c 65536)]]; cbn [str1 String.append utf8_decode];
  rewrite ?N_of_byte by lia;
  repeat match goal with
  | |- context [(?a <? ?b)%N] =>
      first [replace (a <? b)%N with true by (symmetry; apply N.ltb_lt; lia)
            |replace (a <? b)%N with false by (symmetry; apply N.ltb_ge; lia)]
  end; f_equal; lia.
Qed.

Lemma utf8_decode_encode l :
  Forall is_code_point l → utf8_decode (utf8_encode l) = l.
Proof.
  induction 1 as [|c l Hc _ IH]; [done|].
  simpl. by rewrite utf8_decode_encode1, IH.
Qed.

Lemma utf8_encode_app l k : utf8_encode (l ++ k)%list = utf8_encode l +:+ utf8_encode k.
Proof. induction l; simpl; [done|]. by rewrite IHl, str_app_assoc. Qed.

Lemma valid_str_app a b : valid_str a → valid_str b → valid_str (a +:+ b).
Proof.
  intros (l & ? & ->) (k & ? & ->). exists (l ++ k)%list.
  rewrite utf8_encode_app. split; [by apply Forall_app|done].
Qed.

(** ** Prefixes *)

Lemma startswith_spec p s : startswith p s = true ↔ ∃ t, s = p +:+ t.
Proof.
  unfold startswith. revert s. induction p as [|c p IH]; intros s; simpl.
  { split; [by exists s|by destruct s]. }
  destruct s as [|d s]; simpl; [split; [done|by intros [? ?]]|].
  destruct (ascii_dec c d) as [->|]; [|split; [done|intros [? ?]; congruence]].
  rewrite IH. split; intros [t Ht]; exists t; [by rewrite Ht|by simplify_eq].
Qed.

Lemma startswith_app p t : startswith p (p +:+ t) = true.
Proof. apply startswith_spec. by exists t. Qed.

Lemma removeprefix_app p t : removeprefix p (p +:+ t) = t.
Proof. unfold removeprefix. induction p; simpl; auto. Qed.

Lemma str_app_inj_l (a b c : string) : a +:+ b = a +:+ c → b = c.
Proof. induction a; simpl; intros H; [done|]. injection H. auto. Qed.

#[export] Hint Rewrite str_app_assoc str_app_nil_r removeprefix_app startswith_app : cavi.
