(* ===== verification/PyFloat.v ===== *)
(** * Python floats

    A Python [float] is an IEEE binary64 number, here the inductive
    [spec_float] of the Standard Library at precision 53 and exponent bound
    1024.  Arithmetic rounds to nearest even as the hardware does, and the
    text forms are the ones CPython prints: [repr] is the shortest decimal
    that reads back to the same number. *)

From S2P Require Import Prelude PyStr.
From Stdlib Require Import SpecFloat.
Local Open Scope string_scope.
Local Open Scope Z_scope.

Definition float : Type := spec_float.

#[export] Instance float_eq_dec : EqDecision float.
Proof. unfold float. solve_decision. Defined.

Definition fadd : float → float → float := SFadd 53 1024.
Definition fsub : float → float → float := SFsub 53 1024.
Definition feqb (x y : float) : bool := SFeqb x y.
Definition fltb (x y : float) : bool := SFltb x y.
Definition fleb (x y : float) : bool := SFleb x y.
Definition fzero : float := S754_zero false.

Definition is_nan (x : float) : bool :=
  match x with S754_nan => true | _ => false end.

(** [n * 10^k] rounded to a float; the quotient of two integers is rounded once. *)
Definition float_of_ratio (neg : bool) (p q : positive) : float :=
  SFdiv 53 1024 (S754_finite neg p 0) (S754_finite false q 0).

Definition float_of_decimal (neg : bool) (n : N) (k : Z) : float :=
  match n with
  | 0%N => S754_zero neg
  | N.pos p =>
      match k with
      | Z0 => float_of_ratio neg p 1
      | Zpos k => float_of_ratio neg (p * Pos.pow 10 k) 1
      | Zneg k => float_of_ratio neg p (Pos.pow 10 k)
      end
  end.

(** [float(z)]. *)
Definition float_of_Z (z : Z) : float :=
  float_of_decimal (z <? 0) (Z.abs_N z) 0.

(** The built-in [max(a, b)]: the first of equals. *)
Definition fmax (a b : float) : float := if fltb a b then b else a.

(** [z == x] compares exactly, never after rounding. *)
Definition Z_eq_float (z : Z) (x : float) : bool :=
  match x with
  | S754_zero _ => z =? 0
  | S754_finite s m e =>
      let m := if s then Zneg m else Zpos m in
      if 0 <=? e then z =? m * 2 ^ e else z * 2 ^ (- e) =? m
  | _ => false
  end.

(** ** Shortest decimal text *)

(** [v = p / q] with [10^(x-1) <= v < 10^x]: the [x] for a positive float. *)
Definition pow10 (k : Z) : Z := 10 ^ k.

Definition ratio_of (m : positive) (e : Z) : Z * Z :=
  if 0 <=? e then (Zpos m * 2 ^ e, 1) else (Zpos m, 2 ^ (- e)).

(** Starts below any exponent (a binary64 is above 10^-325) and counts up. *)
Fixpoint find_exp10 (fuel : nat) (x : Z) (p q : Z) : Z :=
  match fuel with
  | O => x
  | S fuel =>
      let below := if 0 <=? x then p <? q * pow10 x else p * pow10 (- x) <? q in
      if below then x else find_exp10 fuel (x + 1) p q
  end.

(** An estimate from the bit length, then a few exact steps. *)
Definition exp10_of (m : positive) (e : Z) (p q : Z) : Z :=
  find_exp10 8 ((Zpos (Pos.size m) + e - 2) * 30103 / 100000 - 1) p q.

Fixpoint strip_zeros (fuel : nat) (d k : Z) : Z * Z :=
  match fuel with
  | O => (d, k)
  | S fuel => if (d mod 10 =? 0) && (0 <? d) then strip_zeros fuel (d / 10) (k + 1) else (d, k)
  end.

(** The [n]-digit decimals just below and above [p/q], the closer first. *)
Definition candidates (p q x : Z) (n : Z) : list (Z * Z) :=
  let k := x - n in
  let '(p', q') := if 0 <=? k then (p, q * pow10 k) else (p * pow10 (- k), q) in
  let lo := p' / q' in
  let rest := p' mod q' in
  if (2 * rest <? q') || ((2 * rest =? q') && Z.even lo)
  then [(lo, k); (lo + 1, k)] else [(lo + 1, k); (lo, k)].

Definition reads_back (x : float) (c : Z * Z) : bool :=
  bool_decide (float_of_decimal false (Z.to_N c.1) c.2 = x).

Fixpoint shortest (fuel : nat) (n : Z) (x : float) (p q e10 : Z) : option (Z * Z) :=
  match fuel with
  | O => None
  | S fuel =>
      match List.find (reads_back x) (candidates p q e10 n) with
      | Some c => Some c
      | None => shortest fuel (n + 1) x p q e10
      end
  end.

(** Digits and exponent: the float is [d * 10^k], [d] not ending in zero. *)
Definition shortest_decimal (m : positive) (e : Z) : Z * Z :=
  let '(p, q) := ratio_of m e in
  let x := exp10_of m e p q in
  match shortest 17 1 (S754_finite false m e) p q x with
  | Some (d, k) => strip_zeros 20 d k
  | None => (0, 0)
  end.

Fixpoint zeros (n : nat) : string :=
  match n with O => EmptyString | S n => "0" +:+ zeros n end.

Definition format_short (d k : Z) : string :=
  let ds := Z_str d in
  let nd := Z.of_nat (String.length ds) in
  let decpt := nd + k in
  if (decpt <=? -4) || (16 <? decpt) then
    let ex := decpt - 1 in
    let mant := match ds with
                | String c EmptyString => ds
                | String c rest => String c EmptyString +:+ "." +:+ rest
                | EmptyString => ds end in
    let ea := Z_str (Z.abs ex) in
    mant +:+ "e" +:+ (if ex <? 0 then "-" else "+")
      +:+ (if Z.abs ex <? 10 then "0" else EmptyString) +:+ ea
  else if decpt <=? 0 then "0." +:+ zeros (Z.to_nat (- decpt)) +:+ ds
  else if nd <=? decpt then ds +:+ zeros (Z.to_nat (decpt - nd)) +:+ ".0"
  else String.substring 0 (Z.to_nat decpt) ds +:+ "."
         +:+ str_drop (Z.to_nat decpt) ds.

(** [repr(x)]. *)
Definition float_repr (x : float) : string :=
  match x with
  | S754_zero s => if s then "-0.0" else "0.0"
  | S754_infinity s => if s then "-inf" else "inf"
  | S754_nan => "nan"
  | S754_finite s m e =>
      let '(d, k) := shortest_decimal m e in
      (if s then "-" else EmptyString) +:+ format_short d k
  end.

(** [f"{x:.0f}"]: the exact value rounded half to even. *)
Definition float_fmt0 (x : float) : string :=
  match x with
  | S754_zero s => if s then "-0" else "0"
  | S754_infinity s => if s then "-inf" else "inf"
  | S754_nan => "nan"
  | S754_finite s m e =>
      let '(p, q) := ratio_of m e in
      let lo := p / q in
      let r := p mod q in
      let n := if (2 * r <? q) || ((2 * r =? q) && Z.even lo) then lo else lo + 1 in
      (if s then "-" else EmptyString) +:+ Z_str n
  end.

(** ** Checks against CPython's output *)

Example repr_tenth : float_repr (float_of_decimal false 1 (-1)) = "0.1".
Proof. vm_compute. reflexivity. Qed.
Example repr_300 : float_repr (float_of_Z 300) = "300.0".
Proof. vm_compute. reflexivity. Qed.
Example repr_small : float_repr (float_of_decimal false 15 (-6)) = "1.5e-05".
Proof. vm_compute. reflexivity. Qed.
Example repr_sum :
  float_repr (fadd (float_of_decimal false 1 (-1)) (float_of_decimal false 2 (-1)))
  = "0.30000000000000004".
Proof. vm_compute. reflexivity. Qed.
Example fmt0_half : float_fmt0 (float_of_decimal false 25 (-1)) = "2".
Proof. vm_compute. reflexivity. Qed.
