(* ===== verification/PyVal.v ===== *)
(** * Python values: dicts and JSON data

    [dict V] is a Python [dict] with string keys: an association list in
    insertion order.  [pyval] is the data that event payloads, ERP records and
    JSON documents are made of.  [py_eq] is Python's [==] on it, [norm] sorts
    the keys of every dict, and [≡] is equality up to key order. *)

From S2P Require Import Prelude PyStr PyFloat.
From Stdlib Require Import SpecFloat.
Local Open Scope string_scope.

(** ** Ordered dictionaries *)
Section dict.
Context {V : Type}.
Implicit Types (k : string) (v : V) (d : list (string * V)).

(** [d.get(k)]. *)
Fixpoint dget k d : option V :=
  match d with
  | [] => None
  | (k', v) :: d => if String.eqb k k' then Some v else dget k d
  end.

(** [d[k] = v]: an existing key keeps its place. *)
Fixpoint dset k v d : list (string * V) :=
  match d with
  | [] => [(k, v)]
  | (k', v') :: d => if String.eqb k k' then (k', v) :: d else (k', v') :: dset k v d
  end.

(** [d.pop(k, None)]. *)
Definition ddel k d : list (string * V) := filter (λ p, p.1 ≠ k) d.

Definition dkeys d : list string := map fst d.
Definition dmem k d : bool := bool_decide (is_Some (dget k d)).

(** [{**d, **e}]. *)
Definition dupdate d (e : list (string * V)) : list (string * V) :=
  foldl (λ d p, dset p.1 p.2 d) d e.

(** Dict displays and [dict(pairs)]: a later pair overrides an earlier one. *)
Definition dict_of (l : list (string * V)) : list (string * V) := dupdate [] l.

Definition wf_dict d : Prop := NoDup (dkeys d).

Lemma dget_dset_eq k v d : dget k (dset k v d) = Some v.
Proof.
  induction d as [|[k' v'] d IH]; simpl; [by rewrite String.eqb_refl|].
  destruct (String.eqb k k') eqn:E; simpl; by rewrite E.
Qed.

Lemma dget_dset_ne k k' v d : k ≠ k' → dget k' (dset k v d) = dget k' d.
Proof.
  intros Hne. induction d as [|[k1 v1] d IH]; simpl.
  - by rewrite (proj2 (String.eqb_neq k' k)).
  - destruct (String.eqb_spec k k1) as [->|]; simpl; [|by rewrite IH].
    by rewrite (proj2 (String.eqb_neq k' k1)).
Qed.

Lemma dget_dset k k' v d :
  dget k' (dset k v d) = if decide (k = k') then Some v else dget k' d.
Proof. case_decide as E; [subst; apply dget_dset_eq|by apply dget_dset_ne]. Qed.

Lemma dget_None k d : dget k d = None ↔ k ∉ dkeys d.
Proof.
  induction d as [|[k' v] d IH]; simpl; [set_solver|].
  destruct (String.eqb_spec k k') as [->|]; [set_solver|]. rewrite IH. set_solver.
Qed.

Lemma dget_Some_elem k v d : dget k d = Some v → (k, v) ∈ d.
Proof.
  induction d as [|[k' v'] d IH]; simpl; [done|].
  destruct (String.eqb_spec k k') as [->|]; intros; simplify_eq; set_solver.
Qed.

Lemma dget_elem_Some k v d : wf_dict d → (k, v) ∈ d → dget k d = Some v.
Proof.
  unfold wf_dict. induction d as [|[k' v'] d IH]; simpl; [set_solver|].
  rewrite NoDup_cons. intros [Hk Hd] [E|Hin]%elem_of_cons; simplify_eq.
  - by rewrite String.eqb_refl.
  - destruct (String.eqb_spec k k') as [->|]; [|auto].
    destruct Hk. apply list_elem_of_fmap. by exists (k', v).
Qed.

Lemma dmem_keys k d : dmem k d = true ↔ k ∈ dkeys d.
Proof.
  unfold dmem. rewrite bool_decide_eq_true, <-not_eq_None_Some, dget_None.
  destruct (decide (k ∈ dkeys d)); naive_solver.
Qed.

Lemma dkeys_dset k v d :
  dkeys (dset k v d) = if decide (k ∈ dkeys d) then dkeys d else (dkeys d ++ [k])%list.
Proof.
  induction d as [|[k' v'] d IH]; simpl; [done|].
  destruct (String.eqb_spec k k') as [->|]; simpl.
  - rewrite decide_True; [done|set_solver].
  - rewrite IH. repeat case_decide; set_solver.
Qed.

Lemma wf_dset k v d : wf_dict d → wf_dict (dset k v d).
Proof.
  unfold wf_dict. rewrite dkeys_dset. case_decide; [done|].
  intros. apply NoDup_app. split_and!; [done|set_solver|apply NoDup_singleton].
Qed.

Lemma wf_dupdate d e : wf_dict d → wf_dict (dupdate d e).
Proof. unfold dupdate. revert d. induction e; simpl; auto using wf_dset. Qed.

Lemma dset_fresh k v d : k ∉ dkeys d → dset k v d = (d ++ [(k, v)])%list.
Proof.
  induction d as [|[k' v'] d IH]; simpl; [done|]. intros Hk.
  rewrite (proj2 (String.eqb_neq k k')) by set_solver.
  rewrite IH by set_solver. done.
Qed.

Lemma dict_of_wf d : wf_dict d → dict_of d = d.
Proof.
  unfold dict_of, dupdate, wf_dict.
  enough (∀ e, NoDup (dkeys (e ++ d)%list) →
    foldl (λ d p, dset p.1 p.2 d) e d = (e ++ d)%list) as H by apply (H []).
  induction d as [|[k v] d IH]; intros e He; simpl; [by rewrite app_nil_r|].
  rewrite dset_fresh.
  - rewrite IH; by rewrite <-(assoc_L (++)).
  - unfold dkeys in He. rewrite map_app in He. simpl in He.
    apply NoDup_app in He as (_ & He & _). intros Hk. apply (He _ Hk). set_solver.
Qed.

Lemma dget_dupdate k d e :
  wf_dict e →
  dget k (dupdate d e) = match dget k e with Some v => Some v | None => dget k d end.
Proof.
  unfold dupdate, wf_dict. revert d.
  induction e as [|[k' v'] e IH]; intros d; simpl; [done|].
  rewrite NoDup_cons. intros [Hk He]. rewrite IH by done.
  destruct (String.eqb_spec k k') as [->|].
  - rewrite (proj2 (dget_None k' e)) by done. apply dget_dset_eq.
  - rewrite dget_dset_ne by done. done.
Qed.
End dict.
Arguments dget {_} _ !_ / : assert.
Arguments dset {_} _ _ !_ / : assert.

Lemma wf_dict_cons {V} (k : string) (v : V) d :
  wf_dict ((k, v) :: d) ↔ k ∉ dkeys d ∧ wf_dict d.
Proof. unfold wf_dict. simpl. apply NoDup_cons. Qed.

#[export] Hint Resolve wf_dset wf_dupdate : cavi.

(** Sorting a dict by key. *)
Definition key_le {V} (p q : string * V) : Prop := str_le p.1 q.1.
#[export] Instance key_le_dec {V} : RelDecision (@key_le V).
Proof. intros p q. unfold key_le. apply _. Defined.
#[export] Instance key_le_total {V} : Total (@key_le V).
Proof. intros p q. unfold key_le. apply (total str_le). Qed.
#[export] Instance key_le_trans {V} : Transitive (@key_le V).
Proof. intros p q r. unfold key_le. apply (transitivity (R := str_le)). Qed.

Definition sort_dict {V} (d : list (string * V)) : list (string * V) := merge_sort key_le d.

Lemma sort_dict_perm {V} (d : list (string * V)) : sort_dict d ≡ₚ d.
Proof. apply merge_sort_Permutation. Qed.

Lemma wf_dict_perm {V} (d e : list (string * V)) : d ≡ₚ e → wf_dict d → wf_dict e.
Proof. unfold wf_dict, dkeys. by intros <-. Qed.

Lemma wf_sort_dict {V} (d : list (string * V)) : wf_dict d → wf_dict (sort_dict d).
Proof. apply wf_dict_perm. by rewrite sort_dict_perm. Qed.

Lemma wf_dict_functional {V} (d : list (string * V)) k v w :
  wf_dict d → (k, v) ∈ d → (k, w) ∈ d → v = w.
Proof.
  intros Hd Hv%dget_elem_Some Hw%dget_elem_Some; [|done..]. congruence.
Qed.

Lemma sort_dict_proper {V} (d e : list (string * V)) :
  wf_dict d → d ≡ₚ e → sort_dict d = sort_dict e.
Proof.
  intros Hd Hde.
  eapply (StronglySorted_unique_strong key_le);
    [|apply (StronglySorted_merge_sort _ _)..|by rewrite !sort_dict_perm].
  unfold sort_dict. intros [k v] [k' w] Hv Hw H1 H2.
  rewrite merge_sort_Permutation in Hv. rewrite merge_sort_Permutation, <-Hde in Hw.
  assert (k = k') as -> by (by apply (anti_symm str_le)).
  f_equal. by eapply wf_dict_functional.
Qed.

Lemma dget_perm {V} (d e : list (string * V)) k :
  wf_dict d → d ≡ₚ e → dget k d = dget k e.
Proof.
  intros Hd Hde. destruct (dget k d) as [v|] eqn:E.
  - symmetry. apply dget_elem_Some; [by eapply wf_dict_perm|].
    rewrite <-Hde. by apply dget_Some_elem.
  - symmetry. apply dget_None. apply dget_None in E. unfold dkeys. by rewrite <-Hde.
Qed.

(** ** Values *)

#[local] Unset Elimination Schemes.
Inductive pyval : Type :=
  | VNone
  | VBool (b : bool)
  | VInt (z : Z)
  | VFloat (f : float)
  | VStr (s : string)
  | VList (l : list pyval)
  | VDict (d : list (string * pyval)).
#[local] Set Elimination Schemes.

(** Induction through the lists and dicts a value holds. *)
Section pyval_ind.
Variable P : pyval → Prop.
Hypothesis HNone : P VNone.
Hypothesis HBool : ∀ b, P (VBool b).
Hypothesis HInt : ∀ z, P (VInt z).
Hypothesis HFloat : ∀ f, P (VFloat f).
Hypothesis HStr : ∀ s, P (VStr s).
Hypothesis HList : ∀ l, Forall P l → P (VList l).
Hypothesis HDict : ∀ d, Forall (λ kv, P kv.2) d → P (VDict d).

Fixpoint pyval_ind (v : pyval) : P v :=
  match v with
  | VNone => HNone
  | VBool b => HBool b
  | VInt z => HInt z
  | VFloat f => HFloat f
  | VStr s => HStr s
  | VList l => HList l ((fix go l : Forall P l :=
      match l with
      | [] => Forall_nil_2 _
      | v :: l => Forall_cons_2 _ v l (pyval_ind v) (go l)
      end) l)
  | VDict d => HDict d ((fix go d : Forall (λ kv, P kv.2) d :=
      match d with
      | [] => Forall_nil_2 _
      | kv :: d => Forall_cons_2 _ kv d (pyval_ind kv.2) (go d)
      end) d)
  end.
End pyval_ind.

#[export] Instance pyval_eq_dec : EqDecision pyval.
Proof.
  refine (fix go v w := let _ : EqDecision pyval := @go in
    match v, w with
    | VNone, VNone => left _
    | VBool a, VBool b => cast_if (decide (a = b))
    | VInt a, VInt b => cast_if (decide (a = b))
    | VFloat a, VFloat b => cast_if (decide (a = b))
    | VStr a, VStr b => cast_if (decide (a = b))
    | VList a, VList b => cast_if (decide (a = b))
    | VDict a, VDict b => cast_if (decide (a = b))
    | _, _ => right _
    end); abstract congruence.
Defined.

Definition pydict : Type := list (string * pyval).

(** [bool(v)]. *)
Definition truthy (v : pyval) : bool :=
  match v with
  | VNone => false
  | VBool b => b
  | VInt z => negb (z =? 0)%Z
  | VFloat f => match f with S754_zero _ => false | _ => true end
  | VStr s => negb (str_empty s)
  | VList l => match l with [] => false | _ => true end
  | VDict d => match d with [] => false | _ => true end
  end.

(** A Python number: an int (a bool is 0 or 1) or a float. *)
Definition as_number (v : pyval) : option (Z + float) :=
  match v with
  | VBool b => Some (inl (if b then 1 else 0)%Z)
  | VInt z => Some (inl z)
  | VFloat f => Some (inr f)
  | _ => None
  end.

Definition num_eq (a b : Z + float) : bool :=
  match a, b with
  | inl x, inl y => (x =? y)%Z
  | inl x, inr y | inr y, inl x => Z_eq_float x y
  | inr x, inr y => feqb x y
  end.

(** [v == w]. *)
Fixpoint py_eq (v w : pyval) {struct v} : bool :=
  match v, w with
  | VNone, VNone => true
  | VStr a, VStr b => String.eqb a b
  | VList l, VList k =>
      (fix go l k :=
         match l, k with
         | [], [] => true
         | x :: l, y :: k => py_eq x y && go l k
         | _, _ => false
         end) l k
  | VDict d, VDict e =>
      Nat.eqb (length d) (length e) &&
      (fix go d :=
         match d with
         | [] => true
         | (k, x) :: d =>
             match dget k e with Some y => py_eq x y | None => false end && go d
         end) d
  | _, _ =>
      match as_number v, as_number w with
      | Some a, Some b => num_eq a b
      | _, _ => false
      end
  end.

(** [repr(v)] and [str(v)]. *)
Fixpoint py_repr (v : pyval) : string :=
  match v with
  | VNone => "None"
  | VBool b => if b then "True" else "False"
  | VInt z => Z_str z
  | VFloat f => float_repr f
  | VStr s => str_repr s
  | VList l => "[" +:+ join ", " (map py_repr l) +:+ "]"
  | VDict d =>
      "{" +:+ join ", " (map (λ kv, str_repr kv.1 +:+ ": " +:+ py_repr kv.2) d) +:+ "}"
  end.

Definition py_str (v : pyval) : string :=
  match v with VStr s => s | _ => py_repr v end.

Definition opt_str (o : option string) : pyval :=
  match o with Some s => VStr s | None => VNone end.

(** ** Equality up to key order *)

Lemma foldr_and_Forall {A} (P : A → Prop) l :
  foldr (λ x Q, P x ∧ Q) True l ↔ Forall P l.
Proof. induction l; simpl; [done|]. by rewrite Forall_cons, IHl. Qed.

(** Sorts the keys of every dict, as [sort_keys=True] does. *)
Fixpoint norm (v : pyval) : pyval :=
  match v with
  | VList l => VList (map norm l)
  | VDict d => VDict (sort_dict (map (λ kv, (kv.1, norm kv.2)) d))
  | _ => v
  end.

Definition norm_dict (d : pydict) : pydict :=
  sort_dict (map (λ kv, (kv.1, norm kv.2)) d).

#[export] Instance pyval_equiv : Equiv pyval := λ v w, norm v = norm w.
#[export] Instance pydict_equiv : Equiv pydict := λ d e, norm_dict d = norm_dict e.
#[export] Instance pyval_equivalence : Equivalence (≡@{pyval}).
Proof. unfold equiv, pyval_equiv. split; congruence. Qed.
#[export] Instance pydict_equivalence : Equivalence (≡@{pydict}).
Proof. unfold equiv, pydict_equiv. split; congruence. Qed.
#[export] Instance VDict_proper : Proper ((≡) ==> (≡)) VDict.
Proof. intros d e. unfold equiv, pydict_equiv, pyval_equiv, norm_dict. simpl. congruence. Qed.

Lemma dkeys_map_values {V W} (f : V → W) (d : list (string * V)) :
  dkeys (map (λ kv, (kv.1, f kv.2)) d) = dkeys d.
Proof. unfold dkeys. rewrite map_map. by apply map_ext. Qed.

Lemma wf_map_values {V W} (f : V → W) (d : list (string * V)) :
  wf_dict (map (λ kv, (kv.1, f kv.2)) d) ↔ wf_dict d.
Proof. unfold wf_dict. by rewrite dkeys_map_values. Qed.

(** Reordering the keys of a dict gives an equivalent dict. *)
Lemma pydict_perm_equiv (d e : pydict) : wf_dict d → d ≡ₚ e → d ≡ e.
Proof.
  intros Hd Hde. unfold equiv, pydict_equiv, norm_dict.
  apply sort_dict_proper; [by apply wf_map_values|by rewrite Hde].
Qed.

(** The same keys in the same places with equivalent values. *)
Lemma pydict_values_equiv (d e : pydict) :
  Forall2 (λ p q, p.1 = q.1 ∧ p.2 ≡ q.2) d e → d ≡ e.
Proof.
  intros H. unfold equiv, pydict_equiv, norm_dict. f_equal.
  induction H as [|[k v] [k' w] d e [Ek Ev] _ IH]; [done|]. simpl in *.
  rewrite IH, (Ev : norm v = norm w). by subst.
Qed.

Lemma dget_map {V W} (f : V → W) k (d : list (string * V)) :
  dget k (map (λ kv, (kv.1, f kv.2)) d) = f <$> dget k d.
Proof. induction d as [|[k' v] d IH]; simpl; [done|]. by destruct (String.eqb k k'). Qed.

(** Equivalent dicts have equivalent values under each key. *)
Lemma dget_equiv (d e : pydict) k :
  wf_dict d → wf_dict e → d ≡ e → norm <$> dget k d = norm <$> dget k e.
Proof.
  intros Hd He E. unfold equiv, pydict_equiv, norm_dict in E. rewrite <-!dget_map.
  etrans; [|etrans; [exact (f_equal (dget k) E)|]].
  - apply dget_perm; [by apply wf_map_values|]. symmetry. apply sort_dict_perm.
  - symmetry. apply dget_perm; [by apply wf_map_values|]. symmetry. apply sort_dict_perm.
Qed.

(** ** Reading the fields of a payload

    [d[k]] raises [KeyError] when the key is absent.  The [as_*] functions are
    where the code gives a field a type by annotation alone. *)
Definition ill_typed {A} (what : string) : result A := raise_r IllTyped what.

Definition getitem (k : string) (d : pydict) : result pyval :=
  match dget k d with
  | Some v => Ok v
  | None => raise_r KeyError (str_repr k)
  end.

(** [d.get(k)] and [d.get(k, default)]. *)
Definition get_or (k : string) (dflt : pyval) (d : pydict) : pyval :=
  default dflt (dget k d).

Definition as_str (v : pyval) : result string :=
  match v with VStr s => Ok s | _ => ill_typed "str" end.
Definition as_opt_str (v : pyval) : result (option string) :=
  match v with VStr s => Ok (Some s) | VNone => Ok None | _ => ill_typed "str | None" end.
Definition as_dict (v : pyval) : result pydict :=
  match v with VDict d => Ok d | _ => ill_typed "dict" end.
Definition as_list (v : pyval) : result (list pyval) :=
  match v with VList l => Ok l | _ => ill_typed "list" end.
Definition as_int (v : pyval) : result Z :=
  match v with VInt z => Ok z | _ => ill_typed "int" end.

Definition get_str (k : string) (d : pydict) : result string := v ← getitem k d; as_str v.
Definition get_dict (k : string) (d : pydict) : result pydict := v ← getitem k d; as_dict v.

(** [int(v)]: an int, a bool, or the text of an int; a float truncates.  Other
    text is a [ValueError] and other values are a [TypeError]. *)
Definition float_trunc (f : float) : result Z :=
  match f with
  | S754_zero _ => Ok 0%Z
  | S754_finite s m e =>
      let '(p, q) := ratio_of m e in Ok (if s then - (p / q) else p / q)%Z
  | S754_nan => raise_r ValueError "cannot convert float NaN to integer"
  | S754_infinity _ => raise_r ValueError "cannot convert float infinity to integer"
  end.

Fixpoint all_digits (s : string) : bool :=
  match s with
  | EmptyString => true
  | String c s => let n := N_of_ascii c in ((48 <=? n) && (n <=? 57))%N && all_digits s
  end.

Fixpoint digits_Z (acc : Z) (s : string) : Z :=
  match s with
  | EmptyString => acc
  | String c s => digits_Z (acc * 10 + Z.of_N (N_of_ascii c) - 48)%Z s
  end.

(** The text forms [int] accepts here: blanks around an optional sign and
    ASCII digits (underscores between digits and non-ASCII digits are left out). *)
Definition parse_int (s : string) : option Z :=
  let num (t : string) (sgn : Z) :=
    if negb (str_empty t) && all_digits t then Some (sgn * digits_Z 0 t)%Z else None in
  match strip s with
  | String c t =>
      if (N_of_ascii c =? 45)%N then num t (-1)%Z
      else if (N_of_ascii c =? 43)%N then num t 1%Z else num (String c t) 1%Z
  | EmptyString => None
  end.

Definition py_int (v : pyval) : result Z :=
  match v with
  | VInt z => Ok z
  | VBool b => Ok (if b then 1 else 0)%Z
  | VFloat f => float_trunc f
  | VStr s =>
      match parse_int s with
      | Some z => Ok z
      | None => raise_r ValueError
          ("invalid literal for int() with base 10: " +:+ str_repr s)
      end
  | _ => raise_r TypeError "int() argument must be a string or a number"
  end.

Lemma get_str_ok k d s : get_str k d = Ok s ↔ dget k d = Some (VStr s).
Proof.
  unfold get_str, getitem. destruct (dget k d) as [[]|]; simpl; split; intros; simplify_eq; done.
Qed.

(** Runs the dict reads of a display of fields. *)
Ltac dict_simp := repeat (simpl in *; try rewrite String.eqb_refl in *).
