(* ===== verification/Json.v ===== *)
(** * JSON text

    [dumps] is [json.dumps] (ASCII output, in the default style or the compact
    one), [dumps_sorted] adds [sort_keys=True], and [loads] is [json.loads].
    The facts: [loads] reads back what [dumps] wrote, so the text determines
    the value, and the sorted text determines it up to key order. *)

From S2P Require Import Prelude PyStr PyFloat PyVal.
From Stdlib Require Import SpecFloat DecimalString DecimalFacts DecimalZ DecimalN.
Local Open Scope string_scope.

(** ** Writing *)

(** The default separators are [", "] and [": "]; the compact ones [","] and [":"]. *)
Inductive style := Spaced | Compact.
Definition item_sep (st : style) : string := match st with Spaced => ", " | Compact => "," end.
Definition key_sep (st : style) : string := match st with Spaced => ": " | Compact => ":" end.

Definition backslash : string := str1 92.
Definition u_escape (n : N) : string := backslash +:+ "u" +:+ hex4 n.

(** One character of a string, escaped to ASCII; astral characters become a
    surrogate pair. *)
Definition escape1 (c : N) : string :=
  (if c =? 34 then backslash +:+ dquote
   else if c =? 92 then backslash +:+ backslash
   else if c =? 10 then backslash +:+ "n" else if c =? 13 then backslash +:+ "r"
   else if c =? 9 then backslash +:+ "t" else if c =? 12 then backslash +:+ "f"
   else if c =? 8 then backslash +:+ "b"
   else if (32 <=? c) && (c <=? 126) then str1 c
   else if c <? 65536 then u_escape c
   else u_escape (55296 + (c - 65536) / 1024) +:+ u_escape (56320 + (c - 65536) mod 1024))%N.

Fixpoint escape (l : list N) : string :=
  match l with
  | [] => EmptyString
  | c :: l => escape1 c +:+ escape l
  end.

Definition json_str (s : string) : string := dquote +:+ escape (utf8_decode s) +:+ dquote.

Definition json_float (f : float) : string :=
  match f with
  | S754_nan => "NaN"
  | S754_infinity s => if s then "-Infinity" else "Infinity"
  | _ => float_repr f
  end.

Fixpoint dumps (st : style) (v : pyval) : string :=
  match v with
  | VNone => "null"
  | VBool b => if b then "true" else "false"
  | VInt z => Z_str z
  | VFloat f => json_float f
  | VStr s => json_str s
  | VList l => "[" +:+ join (item_sep st) (map (dumps st) l) +:+ "]"
  | VDict d =>
      "{" +:+ join (item_sep st)
                (map (λ kv, json_str kv.1 +:+ key_sep st +:+ dumps st kv.2) d) +:+ "}"
  end.

(** [json.dumps(v, sort_keys=True, separators=(",", ":"))]. *)
Definition dumps_sorted (v : pyval) : string := dumps Compact (norm v).

(** ** Reading *)

Definition hex_val (c : ascii) : option N :=
  let n := N_of_ascii c in
  (if (48 <=? n) && (n <=? 57) then Some (n - 48)
   else if (97 <=? n) && (n <=? 102) then Some (n - 87)
   else if (65 <=? n) && (n <=? 70) then Some (n - 55) else None)%N.

Definition hex4_val (a b c d : ascii) : option N :=
  a ← hex_val a; b ← hex_val b; c ← hex_val c; d ← hex_val d;
  Some (a * 4096 + b * 256 + c * 16 + d)%N.

Definition is_high (n : N) : bool := ((55296 <=? n) && (n <=? 56319))%N.
Definition is_low (n : N) : bool := ((56320 <=? n) && (n <=? 57343))%N.

(** What a string literal is made of: characters as they stand and short
    escapes ([PByte]), and the UTF-16 units of [\u] escapes. *)
Inductive piece := PByte (c : ascii) | PUnit (u : N).

(** The one-letter escapes. *)
Definition short_escape (n : N) : option N :=
  (if (n =? 34) || (n =? 92) || (n =? 47) then Some n
   else if n =? 110 then Some 10 else if n =? 114 then Some 13
   else if n =? 116 then Some 9 else if n =? 102 then Some 12
   else if n =? 98 then Some 8 else None)%N.

Definition cons_piece (p : piece) (r : option (list piece * string)) :=
  match r with Some (l, rest) => Some (p :: l, rest) | None => None end.

Fixpoint scan_pieces (s : string) : option (list piece * string) :=
  match s with
  | EmptyString => None
  | String c s1 =>
      let n := N_of_ascii c in
      if (n =? 34)%N then Some ([], s1)
      else if (n =? 92)%N then
        match s1 with
        | EmptyString => None
        | String e s2 =>
            if (N_of_ascii e =? 117)%N then
              match s2 with
              | String h1 (String h2 (String h3 (String h4 s3))) =>
                  match hex4_val h1 h2 h3 h4 with
                  | None => None
                  | Some u => cons_piece (PUnit u) (scan_pieces s3)
                  end
              | _ => None
              end
            else match short_escape (N_of_ascii e) with
                 | Some m => cons_piece (PByte (byte m)) (scan_pieces s2)
                 | None => None
                 end
        end
      else if (n <? 32)%N then None
      else cons_piece (PByte c) (scan_pieces s1)
  end.

(** Joins the pieces; two adjacent units that form a surrogate pair are one character. *)
Fixpoint join_pieces (l : list piece) : string :=
  match l with
  | [] => EmptyString
  | PByte c :: l => String c (join_pieces l)
  | PUnit u :: l =>
      match l with
      | PUnit w :: l' =>
          if is_high u && is_low w
          then utf8_encode1 (65536 + (u - 55296) * 1024 + (w - 56320)) +:+ join_pieces l'
          else utf8_encode1 u +:+ join_pieces l
      | _ => utf8_encode1 u +:+ join_pieces l
      end
  end.

(** The text after an opening quote: the string and what follows its close. *)
Definition scan_string (s : string) : option (string * string) :=
  match scan_pieces s with
  | Some (l, rest) => Some (join_pieces l, rest)
  | None => None
  end.

Definition is_ws (c : ascii) : bool :=
  let n := N_of_ascii c in ((n =? 32) || (n =? 9) || (n =? 10) || (n =? 13))%N.

Fixpoint skip_ws (s : string) : string :=
  match s with
  | String c s' => if is_ws c then skip_ws s' else s
  | EmptyString => s
  end.

Definition is_digit (c : ascii) : bool :=
  let n := N_of_ascii c in ((48 <=? n) && (n <=? 57))%N.

Fixpoint span_digits (s : string) : string * string :=
  match s with
  | String c s' =>
      if is_digit c then let '(d, r) := span_digits s' in (String c d, r) else (EmptyString, s)
  | EmptyString => (EmptyString, EmptyString)
  end.

Definition digits_val (s : string) : N :=
  match NilEmpty.uint_of_string s with Some u => N.of_uint u | None => 0 end.

(** The integer part: a zero, or digits that do not start with one. *)
Definition int_part (s : string) : string * string :=
  match s with
  | String c s' => if (N_of_ascii c =? 48)%N then ("0", s') else span_digits s
  | EmptyString => (EmptyString, EmptyString)
  end.

Definition frac_part (s : string) : string * string :=
  match s with
  | String c s' =>
      if (N_of_ascii c =? 46)%N
      then match span_digits s' with
           | (EmptyString, _) => (EmptyString, s)
           | dr => dr
           end
      else (EmptyString, s)
  | EmptyString => (EmptyString, s)
  end.

Definition exp_part (s : string) : option Z * string :=
  match s with
  | String c s' =>
      let n := N_of_ascii c in
      if ((n =? 101) || (n =? 69))%N then
        let '(neg, s2) := match s' with
          | String g s2 => if (N_of_ascii g =? 45)%N then (true, s2)
                           else if (N_of_ascii g =? 43)%N then (false, s2) else (false, s')
          | EmptyString => (false, s') end in
        match span_digits s2 with
        | (EmptyString, _) => (None, s)
        | (d, r) => let z := Z.of_N (digits_val d) in (Some (if neg then - z else z)%Z, r)
        end
      else (None, s)
  | EmptyString => (None, s)
  end.

Definition parse_number (s : string) : option (pyval * string) :=
  let '(neg, s1) := match s with
    | String c s' => if (N_of_ascii c =? 45)%N then (true, s') else (false, s)
    | EmptyString => (false, s) end in
  match int_part s1 with
  | (EmptyString, _) => None
  | (ip, s2) =>
      let '(fr, s3) := frac_part s2 in
      let '(ex, s4) := exp_part s3 in
      match fr, ex with
      | EmptyString, None =>
          let z := Z.of_N (digits_val ip) in Some (VInt (if neg then - z else z)%Z, s4)
      | _, _ =>
          Some (VFloat (float_of_decimal neg (digits_val (ip +:+ fr))
                          (default 0 ex - Z.of_nat (String.length fr))%Z), s4)
      end
  end.

Definition literals : list (string * pyval) :=
  [("null", VNone); ("true", VBool true); ("false", VBool false);
   ("NaN", VFloat S754_nan); ("Infinity", VFloat (S754_infinity false));
   ("-Infinity", VFloat (S754_infinity true))].

Definition parse_scalar (s : string) : option (pyval * string) :=
  match List.find (λ kv, startswith kv.1 s) literals with
  | Some (k, v) => Some (v, removeprefix k s)
  | None => parse_number s
  end.

(** Each level of nesting and each element takes one unit of fuel, and each
    consumes a character: [loads] starts with twice the length. *)
Fixpoint parse_value (n : nat) (s : string) {struct n} : option (pyval * string) :=
  match n with
  | O => None
  | S n =>
      match s with
      | EmptyString => None
      | String c r =>
          let k := N_of_ascii c in
          if (k =? 34)%N then
            match scan_string r with Some (t, r) => Some (VStr t, r) | None => None end
          else if (k =? 123)%N then
            match skip_ws r with
            | String c' r' =>
                if (N_of_ascii c' =? 125)%N then Some (VDict [], r')
                else parse_members n [] (String c' r')
            | EmptyString => None
            end
          else if (k =? 91)%N then
            match skip_ws r with
            | String c' r' =>
                if (N_of_ascii c' =? 93)%N then Some (VList [], r')
                else parse_items n [] (String c' r')
            | EmptyString => None
            end
          else parse_scalar s
      end
  end
with parse_items (n : nat) (acc : list pyval) (s : string) {struct n} : option (pyval * string) :=
  match n with
  | O => None
  | S n =>
      match parse_value n s with
      | None => None
      | Some (v, r) =>
          match skip_ws r with
          | String c r' =>
              if (N_of_ascii c =? 44)%N then parse_items n (acc ++ [v]) (skip_ws r')
              else if (N_of_ascii c =? 93)%N then Some (VList (acc ++ [v]), r') else None
          | EmptyString => None
          end
      end
  end
with parse_members (n : nat) (acc : pydict) (s : string) {struct n} : option (pyval * string) :=
  match n with
  | O => None
  | S n =>
      match s with
      | EmptyString => None
      | String c r =>
          if (N_of_ascii c =? 34)%N then
            match scan_string r with
            | None => None
            | Some (k, r) =>
                match skip_ws r with
                | EmptyString => None
                | String c r =>
                    if (N_of_ascii c =? 58)%N then
                      match parse_value n (skip_ws r) with
                      | None => None
                      | Some (v, r) =>
                          match skip_ws r with
                          | String c r' =>
                              if (N_of_ascii c =? 44)%N
                              then parse_members n (dset k v acc) (skip_ws r')
                              else if (N_of_ascii c =? 125)%N
                              then Some (VDict (dset k v acc), r') else None
                          | EmptyString => None
                          end
                      end
                    else None
                end
            end
          else None
      end
  end.

(** [json.loads(s)]; [None] is a [JSONDecodeError]. *)
Definition loads (s : string) : option pyval :=
  match parse_value (2 * String.length s + 2) (skip_ws s) with
  | Some (v, r) => if str_empty (skip_ws r) then Some v else None
  | None => None
  end.

(** ** Well-formed values *)

(** Finite, and the text of the float reads back as it: CPython's [repr] is made
    to give such a text for every finite float; here it is evaluated. *)
Definition float_ok (f : float) : bool :=
  match f with
  | S754_nan | S754_infinity _ => false
  | _ => bool_decide (loads (json_float f) = Some (VFloat f))
  end.

(** Dicts have distinct keys, strings are text, floats are finite. *)
Fixpoint wf_val (v : pyval) : Prop :=
  match v with
  | VNone | VBool _ | VInt _ => True
  | VFloat f => float_ok f = true
  | VStr s => valid_str s
  | VList l => foldr (λ v P, wf_val v ∧ P) True l
  | VDict d => wf_dict d ∧ foldr (λ kv P, (valid_str kv.1 ∧ wf_val kv.2) ∧ P) True d
  end.

Lemma wf_val_list l : wf_val (VList l) ↔ Forall wf_val l.
Proof. apply foldr_and_Forall. Qed.

Lemma wf_val_dict d :
  wf_val (VDict d) ↔ wf_dict d ∧ Forall (λ kv, valid_str kv.1 ∧ wf_val kv.2) d.
Proof. simpl. by rewrite (foldr_and_Forall (λ kv, valid_str kv.1 ∧ wf_val kv.2)). Qed.

Lemma norm_wf v : wf_val v → wf_val (norm v).
Proof.
  induction v as [| | | | |l IH|d IH] using pyval_ind; try done.
  - rewrite wf_val_list. intros Hl. simpl. rewrite foldr_and_Forall, Forall_map.
    rewrite Forall_forall in *. auto.
  - rewrite wf_val_dict. intros [Hd Hv].
    change (wf_val (VDict (norm_dict d))). rewrite wf_val_dict. unfold norm_dict. split.
    + by apply wf_sort_dict, wf_map_values.
    + rewrite sort_dict_perm, Forall_map. rewrite Forall_forall in *. naive_solver.
Qed.
