(* ===== verification/JsonText.v ===== *)
(** * The texts of strings and numbers

    What [json.loads] makes of a string literal, an integer and a literal name,
    whatever follows them. *)

From S2P Require Import Prelude PyStr PyFloat PyVal Json.
From Stdlib Require Import DecimalString DecimalFacts DecimalZ DecimalN.
Local Open Scope string_scope.
Local Open Scope nat_scope.

(** ** Strings *)

Lemma N_of_str1 n : (n < 256)%N → str1 n = String (byte n) EmptyString.
Proof. done. Qed.

Definition hex_char (n : N) : ascii := byte (if n <? 10 then 48 + n else 87 + n)%N.

Lemma hex_val_char n : (n < 16)%N → hex_val (hex_char n) = Some n.
Proof.
  intros Hn. assert (n = 0 ∨ n = 1 ∨ n = 2 ∨ n = 3 ∨ n = 4 ∨ n = 5 ∨ n = 6 ∨ n = 7 ∨ n = 8
    ∨ n = 9 ∨ n = 10 ∨ n = 11 ∨ n = 12 ∨ n = 13 ∨ n = 14 ∨ n = 15)%N as Hc by lia.
  repeat destruct Hc as [->|Hc]; [reflexivity..|]. by rewrite Hc.
Qed.

Lemma hex4_read n :
  (n < 65536)%N → ∃ a b c d,
    hex4 n = String a (String b (String c (String d EmptyString)))
    ∧ hex4_val a b c d = Some n.
Proof.
  intros Hn. exists (hex_char (n / 256 / 16)), (hex_char (n / 256 mod 16)),
    (hex_char (n mod 256 / 16)), (hex_char (n mod 256 mod 16)). split; [done|].
  pose proof (N.div_mod' n 256). pose proof (N.div_mod' (n / 256) 16).
  pose proof (N.div_mod' (n mod 256) 16).
  pose proof (N.mod_lt n 256 ltac:(done)). pose proof (N.mod_lt (n / 256) 16 ltac:(done)).
  pose proof (N.mod_lt (n mod 256) 16 ltac:(done)).
  set (q := (n / 256)%N) in *. set (r := (n mod 256)%N) in *.
  set (q1 := (q / 16)%N) in *. set (r1 := (q mod 16)%N) in *.
  set (q2 := (r / 16)%N) in *. set (r2 := (r mod 16)%N) in *.
  clearbody q1 r1 q2 r2. clearbody q r.
  unfold hex4_val. rewrite !hex_val_char by lia. simpl. f_equal. lia.
Qed.

Lemma u_escape_app n t :
  (n < 65536)%N → ∃ a b c d,
    u_escape n +:+ t = String (byte 92) (String (byte 117)
      (String a (String b (String c (String d t)))))
    ∧ hex4_val a b c d = Some n.
Proof.
  intros Hn. destruct (hex4_read n Hn) as (a & b & c & d & E & Hv).
  exists a, b, c, d. split; [|done]. unfold u_escape. by rewrite E.
Qed.

Lemma scan_u_escape n t :
  (n < 65536)%N → scan_pieces (u_escape n +:+ t) = cons_piece (PUnit n) (scan_pieces t).
Proof.
  intros Hn. destruct (u_escape_app n t Hn) as (a & b & c & d & -> & Hv).
  cbn -[hex4_val]. by rewrite Hv.
Qed.

(** The pieces [escape1] writes for a character. *)
Definition pieces1 (c : N) : list piece :=
  (if existsb (N.eqb c) [34; 92; 10; 13; 9; 12; 8] || (32 <=? c) && (c <=? 126)
   then [PByte (byte c)]
   else if c <? 65536 then [PUnit c]
   else [PUnit (55296 + (c - 65536) / 1024); PUnit (56320 + (c - 65536) mod 1024)])%N.

Lemma surrogates c :
  (65536 <= c < 1114112)%N → ∃ h l,
    (h = 55296 + (c - 65536) / 1024 ∧ l = 56320 + (c - 65536) mod 1024
    ∧ h < 65536 ∧ l < 65536 ∧ is_high h = true ∧ is_low l = true
    ∧ 65536 + (h - 55296) * 1024 + (l - 56320) = c)%N.
Proof.
  intros Hc. eexists _, _. split; [done|]. split; [done|].
  pose proof (N.div_mod' (c - 65536) 1024).
  pose proof (N.mod_lt (c - 65536) 1024 ltac:(done)).
  assert ((c - 65536) / 1024 < 1024)%N by (apply N.Div0.div_lt_upper_bound; lia).
  set (q := ((c - 65536) / 1024)%N) in *. set (r := ((c - 65536) mod 1024)%N) in *.
  clearbody q r. unfold is_high, is_low. rewrite !andb_true_iff, !N.leb_le. lia.
Qed.

Definition app_pieces (ps : list piece) (r : option (list piece * string)) :=
  match r with Some (l, rest) => Some ((ps ++ l)%list, rest) | None => None end.

Lemma scan_escape1 c t :
  is_code_point c →
  scan_pieces (escape1 c +:+ t) = app_pieces (pieces1 c) (scan_pieces t).
Proof.
  intros Hc. unfold escape1, pieces1. cbn [existsb].
  repeat match goal with
  | |- context [if (c =? ?k)%N then _ else _] =>
      destruct (N.eqb_spec c k) as [->|?]; [reflexivity|]
  end. cbn [orb].
  destruct (_ && _) eqn:E.
  - apply andb_true_iff in E as [E1 E2]. apply N.leb_le in E1, E2.
    cbn -[str1]. unfold str1. cbn [String.append scan_pieces]. rewrite N_of_byte by lia.
    rewrite !(proj2 (N.eqb_neq _ _)) by done. rewrite (proj2 (N.ltb_ge c 32)) by lia. done.
  - destruct (N.ltb_spec c 65536); [by apply scan_u_escape|].
    destruct (surrogates c) as (h & l & -> & -> & Hh & Hl & _).
    { destruct Hc; lia. }
    rewrite str_app_assoc, !scan_u_escape by done.
    by destruct (scan_pieces t) as [[??]|].
Qed.

Lemma scan_escape l rest :
  Forall is_code_point l →
  scan_pieces (escape l +:+ dquote +:+ rest) = Some (mbind pieces1 l, rest).
Proof.
  induction 1 as [|c l Hc Hl IH]; [done|].
  cbn [escape]. by rewrite str_app_assoc, scan_escape1, IH.
Qed.

Lemma join_pieces1 c l :
  is_code_point c → join_pieces (pieces1 c ++ l)%list = utf8_encode1 c +:+ join_pieces l.
Proof.
  intros Hc. unfold pieces1.
  destruct (_ || _) eqn:E; [|destruct (N.ltb_spec c 65536)].
  - assert (c < 128)%N as Hlt.
    { apply orb_true_iff in E as [E|[_ E%N.leb_le]%andb_true_iff]; [|lia].
      apply existsb_exists in E as (x & Hx & ->%N.eqb_eq). simpl in Hx. lia. }
    simpl. unfold utf8_encode1. by rewrite (proj2 (N.ltb_lt c 128)).
  - simpl. assert (is_high c = false) as ->; [|by destruct l as [|[] ?]].
    unfold is_high. apply andb_false_iff. destruct Hc; [left|right]; apply N.leb_gt; lia.
  - destruct (surrogates c) as (h & k & <- & <- & _ & _ & Hh & Hk & Hc').
    { destruct Hc; lia. }
    simpl. by rewrite Hh, Hk, Hc'.
Qed.

Lemma join_pieces_encode l :
  Forall is_code_point l → join_pieces (mbind pieces1 l) = utf8_encode l.
Proof.
  induction 1 as [|c l Hc Hl IH]; [done|].
  change (mbind pieces1 (c :: l)) with (pieces1 c ++ mbind pieces1 l)%list.
  cbn [utf8_encode]. by rewrite join_pieces1, IH.
Qed.

Lemma scan_json_str s rest :
  valid_str s →
  scan_string (escape (utf8_decode s) +:+ dquote +:+ rest) = Some (s, rest).
Proof.
  intros (l & Hl & ->). unfold scan_string. rewrite utf8_decode_encode by done.
  by rewrite scan_escape, join_pieces_encode.
Qed.

(** ** Integers *)

(** What may follow a number without becoming part of it. *)
Definition ends_number (s : string) : Prop :=
  match s with
  | EmptyString => True
  | String c _ =>
      is_digit c = false ∧ (N_of_ascii c ≠ 46 ∧ N_of_ascii c ≠ 101 ∧ N_of_ascii c ≠ 69)%N
  end.

Lemma span_digits_uint u rest :
  ends_number rest →
  span_digits (NilEmpty.string_of_uint u +:+ rest) = (NilEmpty.string_of_uint u, rest).
Proof.
  intros Hr. induction u; simpl; try (by rewrite IHu).
  destruct rest as [|c rest]; [done|]. destruct Hr as [Hd _]. simpl. by rewrite Hd.
Qed.

Lemma to_uint_unorm n : Decimal.unorm (N.to_uint n) = N.to_uint n.
Proof. by rewrite <-DecimalN.Unsigned.to_of, DecimalN.Unsigned.of_to. Qed.

Lemma nzhead_D0 u w : Decimal.nzhead u ≠ Decimal.D0 w.
Proof. by induction u. Qed.

(** A normal form starts with a zero only if it is that zero. *)
Lemma unorm_D0 u : Decimal.unorm (Decimal.D0 u) = Decimal.D0 u → u = Decimal.Nil.
Proof.
  unfold Decimal.unorm. cbn [Decimal.nzhead]. intros H.
  destruct (Decimal.nzhead u) eqn:E; simplify_eq; try done.
  by destruct (nzhead_D0 _ _ E).
Qed.

Lemma int_part_uint u rest :
  Decimal.unorm u = u → ends_number rest →
  int_part (NilEmpty.string_of_uint u +:+ rest) = (NilEmpty.string_of_uint u, rest)
  ∧ NilEmpty.string_of_uint u ≠ EmptyString.
Proof.
  intros Hu Hr. destruct u as [|u|u|u|u|u|u|u|u|u|u]; [done|..];
    [apply unorm_D0 in Hu as ->; by destruct rest|..];
    (split; [|done]); cbn; by rewrite span_digits_uint.
Qed.

Lemma digits_val_to_uint n : digits_val (NilEmpty.string_of_uint (N.to_uint n)) = n.
Proof. unfold digits_val. by rewrite NilEmpty.usu, DecimalN.Unsigned.of_to. Qed.

(** [Z_str] is a sign and the digits of the absolute value. *)
Lemma Z_str_digits z :
  Z_str z = (if (z <? 0)%Z then "-" else EmptyString)
            +:+ NilEmpty.string_of_uint (N.to_uint (Z.abs_N z)).
Proof.
  unfold Z_str. destruct z as [|p|p]; [done|..]; cbn;
    pose proof (DecimalPos.Unsigned.to_uint_nonnil p); by destruct (Pos.to_uint p).
Qed.

Lemma ends_number_tail rest :
  ends_number rest → frac_part rest = (EmptyString, rest) ∧ exp_part rest = (None, rest).
Proof.
  destruct rest as [|c rest]; [done|]. intros (_ & H1 & H2 & H3). simpl.
  rewrite !(proj2 (N.eqb_neq _ _)) by done. done.
Qed.

Lemma parse_number_Z z rest :
  ends_number rest → parse_number (Z_str z +:+ rest) = Some (VInt z, rest).
Proof.
  intros Hr. rewrite Z_str_digits. set (u := N.to_uint (Z.abs_N z)).
  destruct (int_part_uint u rest (to_uint_unorm _) Hr) as [Hi Hne].
  assert (∃ c t, NilEmpty.string_of_uint u = String c t ∧ (N_of_ascii c =? 45)%N = false)
    as (c & t & Ec & Hc).
  { destruct u; [done|..]; simpl; by eexists _, _. }
  destruct (ends_number_tail rest Hr) as [Hf He].
  assert (Z.of_N (digits_val (NilEmpty.string_of_uint u)) = Z.abs z) as Hv.
  { unfold u. rewrite digits_val_to_uint. lia. }
  unfold parse_number. destruct (Z.ltb_spec z 0).
  - cbn [String.append]. change (N_of_ascii "-" =? 45)%N with true. cbv iota.
    change (String.append EmptyString ?x) with x. rewrite Hi, Hf, He, Hv.
    destruct (NilEmpty.string_of_uint u); [done|]. do 3 f_equal. lia.
  - change (EmptyString +:+ NilEmpty.string_of_uint u) with (NilEmpty.string_of_uint u).
    rewrite Ec. cbn [String.append]. rewrite Hc.
    change (String c (t +:+ rest)) with (String c t +:+ rest). rewrite <-Ec, Hi, Hf, He, Hv.
    destruct (NilEmpty.string_of_uint u); [done|]. do 3 f_equal. lia.
Qed.

Lemma parse_literal k v rest :
  (k, v) ∈ literals → k ≠ "-Infinity" → parse_scalar (k +:+ rest) = Some (v, rest).
Proof.
  unfold parse_scalar, literals. rewrite !elem_of_cons, elem_of_nil.
  intros H Hk. repeat destruct H as [H|H]; simplify_eq; cbn [List.find fst];
    rewrite startswith_app;
    repeat match goal with
    | |- context [startswith ?a (?b +:+ rest)] => change (startswith a (b +:+ rest)) with false
    end; cbv iota; by rewrite removeprefix_app.
Qed.

Lemma length_app_str (a b : string) :
  String.length (a +:+ b) = String.length a + String.length b.
Proof. induction a; simpl; congruence. Qed.

(** The first character of a value's text: no blank, and no closing bracket. *)
Definition value_start (c : ascii) : Prop :=
  is_ws c = false ∧ (N_of_ascii c ≠ 93 ∧ N_of_ascii c ≠ 125)%N.

Lemma skip_ws_start c t : is_ws c = false → skip_ws (String c t) = String c t.
Proof. intros H. simpl. by rewrite H. Qed.
