(* ===== verification/PyDecimal.v ===== *)
(** * Python's decimal numbers

    The finite part of [decimal.Decimal] under the default context: 28
    significant digits and ROUND_HALF_EVEN for arithmetic.  Infinities and NaN,
    and the exponent limits of the context (a million digits away), are left
    out.  A number is (-1)^neg * coeff * 10^exp, and numbers that differ in
    trailing zeros are different representations of the same value, as in
    Python. *)

From S2P Require Import Prelude PyStr PyFloat PyVal Json JsonText.
From stdpp Require Import numbers.
From Stdlib Require Import DecimalString.
Local Open Scope string_scope.
Local Open Scope Z_scope.

Record decimal : Type := Dec { d_neg : bool; d_coeff : Z; d_exp : Z }.

#[export] Instance decimal_eq_dec : EqDecision decimal.
Proof. solve_decision. Defined.

(** The precision of the default context. *)
Definition prec : Z := 28.

(** The signed coefficient. *)
Definition signed (d : decimal) : Z := if d_neg d then - d_coeff d else d_coeff d.

(** [Decimal(z)] is exact. *)
Definition dec_of_Z (z : Z) : decimal := Dec (z <? 0) (Z.abs z) 0.

(** The number of decimal digits of a coefficient, at least one. *)
Fixpoint digits_go (fuel : nat) (n : Z) : Z :=
  match fuel with
  | O => 1
  | S fuel => if n <? 10 then 1 else 1 + digits_go fuel (n / 10)
  end.
Definition ndigits (n : Z) : Z := digits_go (S (Z.to_nat (Z.log2 n))) n.

(** ** Rounding *)
Inductive rounding : Type :=
  | ROUND_UP | ROUND_DOWN | ROUND_CEILING | ROUND_FLOOR
  | ROUND_HALF_UP | ROUND_HALF_DOWN | ROUND_HALF_EVEN | ROUND_05UP.

(** Whether the quotient [q] of a coefficient by [m], with remainder [r], is
    moved away from zero. *)
Definition away (mode : rounding) (neg : bool) (q r m : Z) : bool :=
  match mode with
  | ROUND_UP => negb (r =? 0)
  | ROUND_DOWN => false
  | ROUND_CEILING => negb neg && negb (r =? 0)
  | ROUND_FLOOR => neg && negb (r =? 0)
  | ROUND_HALF_UP => m <=? 2 * r
  | ROUND_HALF_DOWN => m <? 2 * r
  | ROUND_HALF_EVEN => (m <? 2 * r) || ((2 * r =? m) && Z.odd q)
  | ROUND_05UP => negb (r =? 0) && ((q mod 10 =? 0) || (q mod 10 =? 5))
  end.

(** The coefficient without its last [k] digits, rounded. *)
Definition round_off (mode : rounding) (neg : bool) (c k : Z) : Z :=
  let m := 10 ^ k in
  let q := c / m in
  if away mode neg q (c mod m) m then q + 1 else q.

(** [_fix]: at most 28 digits are kept; a carry can make one more. *)
Definition fix_prec (d : decimal) : decimal :=
  let k := ndigits (d_coeff d) - prec in
  if k <=? 0 then d else
  let c := round_off ROUND_HALF_EVEN (d_neg d) (d_coeff d) k in
  if c <? 10 ^ prec then Dec (d_neg d) c (d_exp d + k)
  else Dec (d_neg d) (c / 10) (d_exp d + k + 1).

(** ** Arithmetic *)
Definition dec_mul (a b : decimal) : decimal :=
  fix_prec (Dec (xorb (d_neg a) (d_neg b)) (d_coeff a * d_coeff b) (d_exp a + d_exp b)).

(** An exact quotient loses its trailing zeros down to the ideal exponent. *)
Fixpoint strip_to (fuel : nat) (c e ideal : Z) : Z * Z :=
  match fuel with
  | O => (c, e)
  | S fuel =>
      if (e <? ideal) && (c mod 10 =? 0) then strip_to fuel (c / 10) (e + 1) ideal else (c, e)
  end.

(** [a / b] for a divisor that is not zero. *)
Definition dec_quot (a b : decimal) : decimal :=
  let neg := xorb (d_neg a) (d_neg b) in
  let ideal := d_exp a - d_exp b in
  if d_coeff a =? 0 then fix_prec (Dec neg 0 ideal) else
  let shift := ndigits (d_coeff b) - ndigits (d_coeff a) + prec + 1 in
  let n := d_coeff a * 10 ^ Z.max 0 shift in
  let m := d_coeff b * 10 ^ Z.max 0 (- shift) in
  let q := n / m in
  if n mod m =? 0
  then let '(c, e) := strip_to (Z.to_nat shift) q (ideal - shift) ideal in
       fix_prec (Dec neg c e)
  else fix_prec (Dec neg (if q mod 5 =? 0 then q + 1 else q) (ideal - shift)).

Definition dec_div (a b : decimal) : result decimal :=
  if d_coeff b =? 0
  then raise_r DecimalError "division by zero"
  else Ok (dec_quot a b).

(** [d.quantize(Decimal(1), rounding)]: an [InvalidOperation] when the result
    needs more than 28 digits. *)
Definition quantize1 (mode : rounding) (d : decimal) : result decimal :=
  let c := if 0 <=? d_exp d then d_coeff d * 10 ^ d_exp d
           else round_off mode (d_neg d) (d_coeff d) (- d_exp d) in
  if prec <? ndigits c
  then raise_r DecimalError "quantize result has too many digits for current context"
  else Ok (Dec (d_neg d) c 0).

(** [int(d)] truncates. *)
Definition dec_int (d : decimal) : Z :=
  let c := if 0 <=? d_exp d then d_coeff d * 10 ^ d_exp d else d_coeff d / 10 ^ (- d_exp d) in
  if d_neg d then - c else c.

(** ** Text *)
Definition dec_str (d : decimal) : string :=
  let s := Z_str (d_coeff d) in
  let len := Z.of_nat (String.length s) in
  let left := d_exp d + len in
  let dot := if (d_exp d <=? 0) && (-6 <? left) then left else 1 in
  let digits :=
    if dot <=? 0 then "0." +:+ zeros (Z.to_nat (- dot)) +:+ s
    else if len <=? dot then s +:+ zeros (Z.to_nat (dot - len))
    else String.substring 0 (Z.to_nat dot) s +:+ "." +:+ str_drop (Z.to_nat dot) s in
  let e := left - dot in
  (if d_neg d then "-" else EmptyString) +:+ digits
    +:+ (if e =? 0 then EmptyString
         else "E" +:+ (if e <? 0 then EmptyString else "+") +:+ Z_str e).

(** ** Facts *)

(** The value of [d] is the fraction [p / q]. *)
Definition dec_is (d : decimal) (p q : Z) : Prop :=
  0 < q ∧ signed d * 10 ^ Z.max 0 (d_exp d) * q = p * 10 ^ Z.max 0 (- d_exp d).

Lemma digits_go_spec fuel n k :
  0 ≤ n < 10 ^ (Z.of_nat fuel) → 0 < k → digits_go fuel n ≤ k ↔ n < 10 ^ k.
Proof.
  revert n k. induction fuel as [|fuel IH]; intros n k [H0 Hn] Hk; cbn [digits_go].
  { change (10 ^ Z.of_nat 0) with 1 in Hn. assert (10 ^ 0 < 10 ^ k) by (apply Z.pow_lt_mono_r; lia).
    change (10 ^ 0) with 1 in *. split; lia. }
  assert (Hp : 10 ^ k = 10 * 10 ^ (k - 1)) by (rewrite <-Z.pow_succ_r by lia; f_equal; lia).
  destruct (Z.ltb_spec n 10) as [Hlt|Hge].
  { assert (1 ≤ 10 ^ (k - 1)) by (apply (Z.pow_le_mono_r 10 0); lia). split; lia. }
  rewrite Nat2Z.inj_succ, Z.pow_succ_r in Hn by lia.
  destruct (Z.eq_dec k 1) as [->|Hk1].
  { change (10 ^ 1) with 10. assert (0 < digits_go fuel (n / 10)); [|split; lia].
    clear. generalize (n / 10). induction fuel; intros z; cbn [digits_go]; [lia|].
    case_match; [lia|]. specialize (IHfuel (z / 10)). lia. }
  assert (n / 10 < 10 ^ (k - 1) ↔ n < 10 ^ k) as <-.
  { rewrite Hp. split; intros H; [|apply Z.div_lt_upper_bound; lia].
    pose proof (Z.div_mod n 10). pose proof (Z.mod_pos_bound n 10). lia. }
  rewrite <-(IH (n / 10) (k - 1)); [lia| |lia].
  split; [apply Z.div_pos; lia|apply Z.div_lt_upper_bound; lia].
Qed.

Lemma ndigits_le n k : 0 ≤ n → 0 < k → ndigits n ≤ k ↔ n < 10 ^ k.
Proof.
  intros Hn Hk. apply digits_go_spec; [|done]. split; [done|].
  destruct (Z.eq_dec n 0) as [->|]; [by apply Z.pow_pos_nonneg|].
  apply Z.lt_le_trans with (2 ^ Z.succ (Z.log2 n)); [apply Z.log2_spec; lia|].
  pose proof (Z.log2_nonneg n). rewrite Nat2Z.inj_succ, Z2Nat.id by done.
  apply Z.pow_le_mono_l. lia.
Qed.

(** Numbers of at most 28 digits are kept as they are. *)
Lemma fix_prec_small d : 0 ≤ d_coeff d < 10 ^ prec → fix_prec d = d.
Proof.
  intros [H0 Hc]. unfold fix_prec.
  assert (ndigits (d_coeff d) ≤ prec) by (apply ndigits_le; done).
  by rewrite (proj2 (Z.leb_le _ 0)) by lia.
Qed.

Lemma pow10_pos k : 0 < 10 ^ Z.max 0 k.
Proof. apply Z.pow_pos_nonneg; lia. Qed.

(** Rounding half up is within half a unit of the exact quotient, ties going
    away from zero; of the magnitude, so it is symmetric in the sign. *)
Lemma round_half_up_spec neg c k :
  0 ≤ c → 0 ≤ k →
  let q := round_off ROUND_HALF_UP neg c k in
  0 ≤ q ∧ - 10 ^ k < 2 * (c - q * 10 ^ k) < 10 ^ k ∨
  0 ≤ q ∧ 2 * (c - q * 10 ^ k) = - 10 ^ k.
Proof.
  intros Hc Hk. unfold round_off, away. assert (0 < 10 ^ k) by (apply Z.pow_pos_nonneg; lia).
  pose proof (Z.div_mod c (10 ^ k)). pose proof (Z.mod_pos_bound c (10 ^ k)).
  assert (0 ≤ c / 10 ^ k) by (apply Z.div_pos; lia).
  destruct (Z.leb_spec (10 ^ k) (2 * (c mod 10 ^ k))); simpl; nia.
Qed.

(** Stripping zeros does not change the value. *)
Lemma strip_to_spec fuel c e ideal :
  let '(c', e') := strip_to fuel c e ideal in
  ∃ j, 0 ≤ j ∧ c = c' * 10 ^ j ∧ e' = e + j ∧ (e ≤ ideal → e' ≤ ideal).
Proof.
  revert c e. induction fuel as [|fuel IH]; intros c e; cbn [strip_to].
  { exists 0. split_and!; [lia|rewrite Z.mul_1_r; done|lia|lia]. }
  destruct (_ && _) eqn:E.
  - apply andb_true_iff in E as [E1%Z.ltb_lt E2%Z.eqb_eq].
    specialize (IH (c / 10) (e + 1)). destruct (strip_to _ _ _ _) as [c' e'].
    destruct IH as (j & Hj & Ec & -> & He). exists (j + 1). split_and!; [lia| |lia|lia].
    rewrite Z.pow_add_r, Z.mul_assoc, <-Ec by lia. change (10 ^ 1) with 10.
    pose proof (Z.div_mod c 10). lia.
  - exists 0. split_and!; [lia|rewrite Z.mul_1_r; done|lia|lia].
Qed.

(** Stripping removes at least the zeros that are known to be there. *)
Lemma strip_to_zeros fuel x k e ideal :
  0 ≤ k ≤ Z.of_nat fuel → e + k ≤ ideal →
  e + k ≤ (strip_to fuel (x * 10 ^ k) e ideal).2.
Proof.
  revert k e. induction fuel as [|fuel IH]; intros k e Hk He; cbn [strip_to]; [simpl; lia|].
  destruct (Z.eq_dec k 0) as [->|Hk0].
  { pose proof (strip_to_spec (S fuel) (x * 10 ^ 0) e ideal) as Hs. cbn [strip_to] in Hs.
    destruct (if _ : bool then _ else _) as [c' e']. destruct Hs as (j & ? & _ & -> & _). simpl. lia. }
  assert (Hp : 10 ^ k = 10 ^ (k - 1) * 10)
    by (rewrite Z.mul_comm, <-Z.pow_succ_r by lia; f_equal; lia).
  rewrite (proj2 (Z.ltb_lt e ideal)) by lia. rewrite Hp, Z.mul_assoc, Z.mod_mul by lia.
  cbn [andb Z.eqb]. rewrite Z.div_mul by lia.
  specialize (IH (k - 1) (e + 1) ltac:(lia) ltac:(lia)). lia.
Qed.

(** [Decimal(z) / 100] is exact up to 28 digits, and is never written with
    an exponent that would hide its cents. *)
Lemma hundredth_exact z :
  Z.abs z < 10 ^ prec →
  let d := dec_quot (dec_of_Z z) (dec_of_Z 100) in
  dec_is d z 100 ∧ -2 ≤ d_exp d ≤ 0 ∧ 0 ≤ d_coeff d ≤ Z.abs z.
Proof.
  intros Hz. unfold dec_quot, dec_of_Z. cbn [d_coeff d_exp d_neg].
  change (ndigits (Z.abs 100)) with 3. change (Z.abs 100) with 100.
  change (100 <? 0) with false. rewrite xorb_false_r.
  destruct (Z.eqb_spec (Z.abs z) 0) as [Ez|Ez].
  { assert (z = 0) as -> by lia. by vm_compute. }
  assert (Hd : ndigits (Z.abs z) ≤ 28) by (apply ndigits_le; [lia|lia|done]).
  set (shift := 3 - ndigits (Z.abs z) + prec + 1). unfold prec in *.
  assert (Hs : 4 ≤ shift) by (subst shift; lia).
  rewrite (Z.max_r 0 shift), (Z.max_l 0 (- shift)) by lia. change (10 ^ 0) with 1.
  rewrite Z.mul_1_r.
  assert (Hn : Z.abs z * 10 ^ shift = Z.abs z * 10 ^ (shift - 2) * 100).
  { rewrite <-Z.mul_assoc. f_equal. change 100 with (10 ^ 2). rewrite <-Z.pow_add_r by lia.
    f_equal. lia. }
  rewrite Hn, Z.mod_mul, Z.div_mul by lia. cbn [Z.eqb].
  pose proof (strip_to_spec (Z.to_nat shift) (Z.abs z * 10 ^ (shift - 2)) (0 - 0 - shift) (0 - 0)) as H1.
  pose proof (strip_to_zeros (Z.to_nat shift) (Z.abs z) (shift - 2) (0 - 0 - shift) (0 - 0)
                ltac:(lia) ltac:(lia)) as H2.
  destruct (strip_to _ _ _ _) as [c e]. destruct H1 as (j & Hj & Ec & -> & He). cbn [snd] in H2.
  assert (Hc : Z.abs z = c * 10 ^ (j - (shift - 2))).
  { apply (Z.mul_reg_r _ _ (10 ^ (shift - 2))); [apply Z.pow_nonzero; lia|].
    rewrite <-Z.mul_assoc, <-Z.pow_add_r, Ec by lia. f_equal. f_equal. lia. }
  assert (1 ≤ 10 ^ (j - (shift - 2))) by (apply (Z.pow_le_mono_r 10 0); lia).
  assert (0 ≤ c ≤ Z.abs z) by nia.
  rewrite fix_prec_small by (cbn [d_coeff]; unfold prec; lia).
  cbn [d_coeff d_exp]. split_and!; try lia.
  split; [lia|]. unfold signed. cbn [d_coeff d_exp d_neg].
  rewrite (Z.max_l 0) by lia. change (10 ^ 0) with 1. rewrite Z.mul_1_r, Z.max_r by lia.
  assert (E : Z.abs z * 10 ^ (- (0 - 0 - shift + j)) = c * 100).
  { rewrite Hc, <-Z.mul_assoc, <-Z.pow_add_r by lia. f_equal.
    replace (j - (shift - 2) + - (0 - 0 - shift + j)) with 2 by lia. done. }
  destruct (Z.ltb_spec z 0); [|by rewrite <-E, Z.abs_eq by lia].
  rewrite Z.abs_neq in E by lia. lia.
Qed.

(** ** [Decimal(text)]

    Blanks around, an optional sign, digits with at most one point, and an
    optional exponent; underscores, infinities and NaN are left out (such text
    is an error here). *)
(** The sign, if there is one. *)
Definition split_sign (s : string) : bool * string :=
  match s with
  | String c r =>
      if (N_of_ascii c =? 45)%N then (true, r) else if (N_of_ascii c =? 43)%N then (false, r) else (false, s)
  | EmptyString => (false, s)
  end.

(** [E] and an integer, or nothing. *)
Definition parse_exponent (s : string) : option Z :=
  match s with
  | EmptyString => Some 0
  | String c r =>
      if ((N_of_ascii c =? 69) || (N_of_ascii c =? 101))%N then
        let '(neg, r) := split_sign r in
        let '(d, rest) := span_digits r in
        match d, rest with
        | String _ _, EmptyString => Some (if neg then - Z.of_N (digits_val d) else Z.of_N (digits_val d))
        | _, _ => None
        end
      else None
  end.

Definition parse_decimal (s : string) : option decimal :=
  let '(neg, s) := split_sign s in
  let '(whole, s) := span_digits s in
  let '(frac, s) := match s with
                    | String c r => if (N_of_ascii c =? 46)%N then span_digits r else (EmptyString, s)
                    | EmptyString => (EmptyString, s)
                    end in
  match (whole +:+ frac)%string with
  | EmptyString => None
  | digits => e ← parse_exponent s;
              Some (Dec neg (Z.of_N (digits_val digits)) (e - Z.of_nat (String.length frac)))
  end.

Definition dec_of_str (s : string) : result decimal :=
  match parse_decimal (strip s) with
  | Some d => Ok d
  | None => raise_r DecimalError "invalid literal for Decimal"
  end.

Example dec_texts :
  map (λ d, parse_decimal (dec_str d))
    [Dec false 92 (-2); Dec true 5 (-9); Dec false 0 3; Dec false 12345 2; Dec false 7 0; Dec true 1205 (-3)]
  = map Some [Dec false 92 (-2); Dec true 5 (-9); Dec false 0 3; Dec false 12345 2; Dec false 7 0;
              Dec true 1205 (-3)].
Proof. reflexivity. Qed.

(** ** The text reads back *)
Fixpoint all_digit (s : string) : Prop :=
  match s with EmptyString => True | String c s => is_digit c = true ∧ all_digit s end.

Definition no_digit (s : string) : Prop :=
  match s with EmptyString => True | String c _ => is_digit c = false end.

Lemma span_digits_app a rest : all_digit a → no_digit rest → span_digits (a +:+ rest) = (a, rest).
Proof.
  intros Ha Hr. induction a as [|c a IH]; simpl.
  - destruct rest as [|c rest]; [done|]. simpl in *. by rewrite Hr.
  - destruct Ha as [Hc Ha]. by rewrite Hc, IH.
Qed.

Lemma all_digit_app a b : all_digit (a +:+ b) ↔ all_digit a ∧ all_digit b.
Proof. induction a as [|c a IH]; simpl; [tauto|]. rewrite IH. tauto. Qed.

Lemma all_digit_uint u : all_digit (NilEmpty.string_of_uint u).
Proof. induction u; simpl; done. Qed.

Lemma Z_str_nonneg z : 0 ≤ z →
  all_digit (Z_str z) ∧ Z_str z ≠ EmptyString ∧ digits_val (Z_str z) = Z.to_N z.
Proof.
  intros Hz. rewrite Z_str_digits. rewrite (proj2 (Z.ltb_ge z 0)) by done. cbn [String.append].
  replace (Z.abs_N z) with (Z.to_N z) by lia.
  split; [apply all_digit_uint|]. split; [|apply digits_val_to_uint].
  pose proof (to_uint_unorm (Z.to_N z)) as Hu. intros E.
  destruct (N.to_uint (Z.to_N z)); done.
Qed.

Lemma digits_val_zero s : all_digit s → digits_val (String "0" s) = digits_val s.
Proof.
  intros Hs. unfold digits_val. simpl.
  assert (is_Some (NilEmpty.uint_of_string s)) as [u Eu].
  { induction s as [|c s IH]; [by eexists|]. destruct Hs as [Hc Hs]. destruct (IH Hs) as [u Eu].
    simpl. rewrite Eu. unfold is_digit in Hc.
    destruct c as [[] [] [] [] [] [] [] []]; try discriminate Hc; by eexists. }
  by rewrite Eu.
Qed.

Lemma all_digit_zeros n : all_digit (zeros n).
Proof. induction n; simpl; done. Qed.

Lemma digits_val_zeros n s : all_digit s → digits_val (zeros n +:+ s) = digits_val s.
Proof.
  intros Hs. induction n as [|n IH]; [done|]. cbn [zeros String.append].
  rewrite digits_val_zero; [done|]. apply all_digit_app. split; [apply all_digit_zeros|done].
Qed.

Lemma length_zeros n : String.length (zeros n) = n.
Proof. induction n; simpl; congruence. Qed.

Lemma take_drop_str n s : String.substring 0 n s +:+ str_drop n s = s.
Proof. revert s. induction n as [|n IH]; intros [|c s]; simpl; try done. by rewrite IH. Qed.

Lemma length_str_drop n s : String.length (str_drop n s) = (String.length s - n)%nat.
Proof. revert s. induction n as [|n IH]; intros [|c s]; simpl; done. Qed.

(** The exponent part of a text, and what it says. *)
Definition exponent_text (e : Z) : string :=
  if e =? 0 then EmptyString
  else "E" +:+ (if e <? 0 then EmptyString else "+") +:+ Z_str e.

Lemma exponent_text_no_digit e : no_digit (exponent_text e) ∧
  match exponent_text e with String c _ => N_of_ascii c ≠ 46%N | _ => True end.
Proof. unfold exponent_text. by destruct (e =? 0). Qed.

Lemma parse_exponent_text e : parse_exponent (exponent_text e) = Some e.
Proof.
  unfold exponent_text. destruct (Z.eqb_spec e 0) as [->|He]; [done|].
  destruct (Z.ltb_spec e 0) as [Hn|Hp].
  - destruct (Z_str_nonneg (- e)) as (Hd & Hne & Hv); [lia|].
    assert (Z_str e = "-" +:+ Z_str (- e)) as ->.
    { rewrite !Z_str_digits. rewrite (proj2 (Z.ltb_lt e 0)), (proj2 (Z.ltb_ge (- e) 0)) by lia.
      replace (Z.abs_N (- e)) with (Z.abs_N e) by lia. done. }
    unfold parse_exponent. cbn [String.append split_sign].
    pose proof (span_digits_app (Z_str (- e)) EmptyString Hd I) as Hs.
    change (N_of_ascii "E") with 69%N. cbn [N.eqb Pos.eqb orb].
    change (N_of_ascii "-") with 45%N. cbn [N.eqb Pos.eqb].
    rewrite str_app_nil_r in Hs. rewrite Hs, Hv.
    destruct (Z_str (- e)); [done|]. f_equal. lia.
  - destruct (Z_str_nonneg e) as (Hd & Hne & Hv); [lia|].
    unfold parse_exponent. cbn [String.append split_sign].
    pose proof (span_digits_app (Z_str e) EmptyString Hd I) as Hs.
    change (N_of_ascii "E") with 69%N. cbn [N.eqb Pos.eqb orb].
    change (N_of_ascii "+") with 43%N. cbn [N.eqb Pos.eqb].
    rewrite str_app_nil_r in Hs. rewrite Hs, Hv.
    destruct (Z_str e); [done|]. f_equal. lia.
Qed.

(** The digits with the point, and what the parser makes of them. *)
Lemma parse_digits whole frac e :
  all_digit whole → all_digit frac → whole ≠ EmptyString → frac ≠ EmptyString →
  parse_decimal (whole +:+ "." +:+ frac +:+ exponent_text e)
  = Some (Dec false (Z.of_N (digits_val (whole +:+ frac))) (e - Z.of_nat (String.length frac))).
Proof.
  intros Hw Hf Hnw Hnf. unfold parse_decimal.
  assert (Hs : split_sign (whole +:+ "." +:+ frac +:+ exponent_text e)
             = (false, whole +:+ "." +:+ frac +:+ exponent_text e)).
  { destruct whole as [|c w]; [done|]. destruct Hw as [Hc _]. simpl. unfold is_digit in Hc.
    destruct (N.eqb_spec (N_of_ascii c) 45) as [E|]; [rewrite E in Hc; done|].
    destruct (N.eqb_spec (N_of_ascii c) 43) as [E|]; [rewrite E in Hc; done|done]. }
  rewrite Hs, span_digits_app by done. cbn [String.append].
  change (N_of_ascii ".") with 46%N. cbn [N.eqb Pos.eqb].
  rewrite span_digits_app by (try done; apply exponent_text_no_digit).
  destruct (whole +:+ frac) as [|c w] eqn:E; [by destruct whole|].
  by rewrite parse_exponent_text.
Qed.

Lemma parse_whole whole e :
  all_digit whole → whole ≠ EmptyString →
  parse_decimal (whole +:+ exponent_text e) = Some (Dec false (Z.of_N (digits_val whole)) e).
Proof.
  intros Hw Hnw. unfold parse_decimal.
  assert (Hs : split_sign (whole +:+ exponent_text e) = (false, whole +:+ exponent_text e)).
  { destruct whole as [|c w]; [done|]. destruct Hw as [Hc _]. simpl. unfold is_digit in Hc.
    destruct (N.eqb_spec (N_of_ascii c) 45) as [E|]; [rewrite E in Hc; done|].
    destruct (N.eqb_spec (N_of_ascii c) 43) as [E|]; [rewrite E in Hc; done|done]. }
  rewrite Hs, span_digits_app by (try done; apply exponent_text_no_digit).
  destruct (exponent_text_no_digit e) as [_ Hdot]. pose proof (parse_exponent_text e) as He.
  destruct (exponent_text e) as [|c r].
  - rewrite str_app_nil_r. destruct whole; [done|]. rewrite He. simpl. do 2 f_equal. lia.
  - apply N.eqb_neq in Hdot. rewrite Hdot, str_app_nil_r. destruct whole; [done|].
    rewrite He. simpl. do 2 f_equal. lia.
Qed.

(** A sign in front changes the sign alone. *)
Lemma parse_minus s d : parse_decimal s = Some d → (∀ c r, s = String c r → is_digit c = true) →
  parse_decimal (String "-" s) = Some (Dec true (d_coeff d) (d_exp d)).
Proof.
  intros E Hs. unfold parse_decimal in *. destruct s as [|c r]; [done|].
  specialize (Hs c r eq_refl). unfold is_digit in Hs. cbn [split_sign] in *.
  change (N_of_ascii "-") with 45%N. cbn [N.eqb Pos.eqb].
  destruct (N.eqb_spec (N_of_ascii c) 45) as [E'|]; [rewrite E' in Hs; done|].
  destruct (N.eqb_spec (N_of_ascii c) 43) as [E'|]; [rewrite E' in Hs; done|].
  destruct (span_digits (String c r)) as [w rest].
  destruct (match rest with String c0 r0 => if (N_of_ascii c0 =? 46)%N then span_digits r0 else (EmptyString, rest)
            | EmptyString => (EmptyString, rest) end) as [f rest'].
  destruct (w +:+ f); [done|]. destruct (parse_exponent rest'); [|done]. by injection E as <-.
Qed.

(** The three layouts of the digits: after the point and zeros, whole, and
    cut by the point. *)
Lemma parse_after_point s k e :
  all_digit s → s ≠ EmptyString →
  parse_decimal ("0." +:+ (zeros k +:+ s) +:+ exponent_text e)
  = Some (Dec false (Z.of_N (digits_val s)) (e - Z.of_nat k - Z.of_nat (String.length s))).
Proof.
  intros Hd Hne. change ("0." +:+ ?a) with ("0" +:+ "." +:+ a).
  assert (Hall : all_digit (zeros k +:+ s))
    by (apply all_digit_app; split; [apply all_digit_zeros|done]).
  rewrite parse_digits; [|done|done|done|destruct (zeros k); done].
  change ("0" +:+ ?a) with (String "0" a). rewrite digits_val_zero, digits_val_zeros by done.
  rewrite length_app_str, length_zeros. do 2 f_equal; lia.
Qed.

Lemma parse_cut s n e :
  all_digit s → (0 < n < String.length s)%nat →
  parse_decimal (String.substring 0 n s +:+ "." +:+ str_drop n s +:+ exponent_text e)
  = Some (Dec false (Z.of_N (digits_val s)) (e - Z.of_nat (String.length s - n))).
Proof.
  intros Hd Hn. pose proof (take_drop_str n s) as Hs.
  rewrite <-Hs in Hd. apply all_digit_app in Hd as [Ht Hr].
  pose proof (length_str_drop n s) as Hl.
  assert (Hnt : String.substring 0 n s ≠ EmptyString)
    by (destruct n, s; simpl in Hn; (lia || done)).
  assert (Hnr : str_drop n s ≠ EmptyString)
    by (intros E; rewrite E in Hl; simpl in Hl; lia).
  rewrite parse_digits by done. by rewrite Hs, Hl.
Qed.

(** The text of a number without its sign, which starts with a digit. *)
Lemma unsigned_text c x :
  0 ≤ c →
  parse_decimal (dec_str (Dec false c x)) = Some (Dec false c x)
  ∧ ∀ a r, dec_str (Dec false c x) = String a r → is_digit a = true.
Proof.
  intros Hc. destruct (Z_str_nonneg c Hc) as (Hd & Hne & Hv).
  unfold dec_str. cbn [d_coeff d_exp d_neg].
  change (String.append EmptyString) with (λ s : string, s). cbn beta.
  set (s := Z_str c) in *. set (len := Z.of_nat (String.length s)).
  assert (Hlen : 0 < len) by (unfold len; destruct s; [done|simpl; lia]).
  set (dot := if _ : bool then x + len else 1).
  assert (Hdot : dot = x + len ∧ x ≤ 0 ∨ dot = 1).
  { unfold dot. destruct (Z.leb_spec x 0); simpl; [destruct (_ <? _); auto|auto]. }
  change (if x + len - dot =? 0 then EmptyString
          else "E" +:+ (if x + len - dot <? 0 then EmptyString else "+") +:+ Z_str (x + len - dot))
    with (exponent_text (x + len - dot)).
  destruct (Z.leb_spec dot 0) as [H0|H0]; [|destruct (Z.leb_spec len dot) as [H1|H1]].
  - split; [|intros a r E; by injection E as <- _].
    rewrite !str_app_assoc, <-(str_app_assoc (zeros _)), parse_after_point, Hv by done.
    do 2 f_equal; lia.
  - assert (dot = len) as Hdl by lia. rewrite Hdl, Z.sub_diag. cbn [Z.to_nat zeros].
    rewrite str_app_nil_r. split; [|intros a r E; destruct s; [done|]; injection E as <- _; apply Hd].
    rewrite parse_whole by done. rewrite Hv. do 2 f_equal; lia.
  - rewrite !str_app_assoc. split.
    + rewrite parse_cut, Hv by (done || lia). do 2 f_equal; lia.
    + intros a r E. destruct s as [|b s']; [done|]. destruct (Z.to_nat dot) eqn:En; [lia|].
      injection E as <- _. apply Hd.
Qed.

(** [Decimal(str(d)) == d], sign, digits and exponent. *)
Theorem decimal_text d : 0 ≤ d_coeff d → parse_decimal (dec_str d) = Some d.
Proof.
  intros Hc. destruct d as [neg c x]. cbn [d_coeff] in Hc.
  destruct (unsigned_text c x Hc) as [Hp Hs]. destruct neg; [|exact Hp].
  exact (parse_minus _ _ Hp Hs).
Qed.

(** Text of visible ASCII characters has nothing to strip. *)
Fixpoint plain (s : string) : bool :=
  match s with
  | EmptyString => true
  | String c s => let n := N_of_ascii c in ((33 <=? n) && (n <? 127))%N && plain s
  end.

Lemma plain_app a b : plain (a +:+ b) = plain a && plain b.
Proof. induction a as [|c a IH]; simpl; [done|]. by rewrite IH, andb_assoc. Qed.

Lemma all_digit_plain s : all_digit s → plain s = true.
Proof.
  induction s as [|c s IH]; [done|]. intros [Hc Hs]. simpl. rewrite IH by done.
  unfold is_digit in Hc. cbv zeta in *. rewrite andb_true_iff, !N.leb_le in Hc.
  rewrite andb_true_r, andb_true_iff, N.leb_le, N.ltb_lt. lia.
Qed.

Fixpoint codes (s : string) : list N :=
  match s with EmptyString => [] | String c s => N_of_ascii c :: codes s end.

Lemma plain_codes s : plain s = true →
  utf8_decode s = codes s ∧ utf8_encode (codes s) = s ∧ ∀ n, n ∈ codes s → is_space n = false.
Proof.
  induction s as [|c s IH]; intros Hp; [split_and!; try done; intros n Hn; by apply not_elem_of_nil in Hn|].
  cbn [plain] in Hp. cbv zeta in Hp. apply andb_true_iff in Hp as [Hc Hp].
  rewrite andb_true_iff, N.leb_le, N.ltb_lt in Hc. destruct (IH Hp) as (Ed & Ee & Hs).
  cbn [utf8_decode codes utf8_encode]. rewrite (proj2 (N.ltb_lt (N_of_ascii c) 192)) by lia.
  rewrite Ed, Ee. split; [done|]. split.
  - unfold utf8_encode1. rewrite (proj2 (N.ltb_lt (N_of_ascii c) 128)) by lia.
    unfold str1, byte. by rewrite ascii_N_embedding.
  - intros n [->|Hn]%elem_of_cons; [|by apply Hs]. apply not_true_is_false.
    unfold is_space.
    rewrite !orb_true_iff, !andb_true_iff, !N.leb_le, !N.eqb_eq. lia.
Qed.

Lemma drop_while_none f l : (∀ n, n ∈ l → f n = false) → drop_while f l = l.
Proof. destruct l as [|n l]; [done|]. intros H. simpl. by rewrite (H n) by left. Qed.

Lemma strip_plain s : plain s = true → strip s = s.
Proof.
  intros Hp. destruct (plain_codes s Hp) as (Ed & Ee & Hs). unfold strip. rewrite Ed.
  rewrite (drop_while_none _ (codes s)) by done.
  rewrite drop_while_none by (intros n Hn; apply Hs; by rewrite elem_of_reverse in Hn).
  by rewrite reverse_involutive.
Qed.

Lemma Z_str_plain z : plain (Z_str z) = true.
Proof.
  rewrite Z_str_digits, plain_app. rewrite (all_digit_plain _ (all_digit_uint _)).
  by destruct (z <? 0).
Qed.

Lemma substring_plain n s : plain s = true → plain (String.substring 0 n s) = true.
Proof. intros H. rewrite <-(take_drop_str n s), plain_app in H. apply andb_true_iff in H. tauto. Qed.
Lemma drop_plain n s : plain s = true → plain (str_drop n s) = true.
Proof. intros H. rewrite <-(take_drop_str n s), plain_app in H. apply andb_true_iff in H. tauto. Qed.

Lemma dec_str_plain d : plain (dec_str d) = true.
Proof.
  unfold dec_str. rewrite !plain_app, !andb_true_iff. split_and!.
  - by destruct (d_neg d).
  - pose proof (Z_str_plain (d_coeff d)) as Hp.
    assert (Hz : ∀ n, plain (zeros n) = true) by (intros n; apply all_digit_plain, all_digit_zeros).
    match goal with |- context [if ?b <=? 0 then _ else _] => generalize b end. intros dot.
    destruct (dot <=? 0); [by rewrite !plain_app, Hz, Hp|].
    destruct (_ <=? dot); [by rewrite plain_app, Hz, Hp|].
    by rewrite !plain_app, substring_plain, drop_plain.
  - case_match; [done|]. rewrite !plain_app, Z_str_plain. rewrite andb_true_r. by destruct (_ <? 0).
Qed.

(** The text of a decimal is that decimal again. *)
Lemma dec_of_str_str d : 0 ≤ d_coeff d → dec_of_str (dec_str d) = Ok d.
Proof.
  intros Hd. unfold dec_of_str. by rewrite strip_plain, decimal_text by (done || apply dec_str_plain).
Qed.
