(* ===== verification/JsonFloat.v ===== *)
(** * Floats on the wire

    The text [json.dumps] writes for a float is a JSON number, or one of the
    three names Python adds, and [json.loads] reads it as a float, whatever
    follows it.  That the float is the same one is evaluated ([float_ok]) where it
    matters: CPython's [repr] is made so, and [shortest] tries the candidates by
    reading them back. *)

From S2P Require Import Prelude PyStr PyFloat PyVal Json JsonText PyDecimal.
From Stdlib Require Import SpecFloat DecimalString DecimalFacts DecimalN.
Local Open Scope string_scope.
Local Open Scope Z_scope.

(** ** Digits *)
Lemma all_digit_drop n s : all_digit s → all_digit (str_drop n s).
Proof. intros H. rewrite <-(take_drop_str n s) in H. apply all_digit_app in H. tauto. Qed.
Lemma all_digit_take n s : all_digit s → all_digit (String.substring 0 n s).
Proof. intros H. rewrite <-(take_drop_str n s) in H. apply all_digit_app in H. tauto. Qed.

(** The text of a non-negative integer: digits, and no leading zero. *)
Lemma Z_str_nat d :
  0 ≤ d → ∃ c s, Z_str d = String c s ∧ is_digit c = true ∧ all_digit s
    ∧ (0 < d → (N_of_ascii c =? 48)%N = false).
Proof.
  intros Hd. destruct (Z_str_nonneg d Hd) as (Ha & Hne & _).
  rewrite Z_str_digits, (proj2 (Z.ltb_ge d 0)) in * by done.
  change (EmptyString +:+ ?x) with x in *.
  pose proof (to_uint_unorm (Z.abs_N d)) as Hu.
  destruct (N.to_uint (Z.abs_N d)) as [|u|u|u|u|u|u|u|u|u|u] eqn:Eu; [done|..];
    destruct Ha as [Hc Ha];
    (eexists _, _; split; [reflexivity|]; split; [done|]; split; [done|]; intros Hp); try reflexivity.
  apply JsonText.unorm_D0 in Hu as ->. assert (Z.abs_N d = 0%N) as H0; [|lia].
  by rewrite <-(DecimalN.Unsigned.of_to (Z.abs_N d)), Eu.
Qed.

(** ** A decimal number *)

(** The exponent of a number, or nothing. *)
Definition exponent_of (e : string) : Prop :=
  e = EmptyString
  ∨ ∃ g s, e = "e" +:+ String g s ∧ (g = byte 45 ∨ g = byte 43) ∧ all_digit s ∧ s ≠ EmptyString.

Lemma ends_no_digit rest : ends_number rest → no_digit rest.
Proof. destruct rest as [|c rest]; [done|]. by intros [? _]. Qed.

Lemma exp_part_text e :
  exponent_of e →
  ∃ x, (e ≠ EmptyString → x ≠ None) ∧ ∀ rest, ends_number rest →
    no_digit (e +:+ rest) ∧ frac_part (e +:+ rest) = (EmptyString, e +:+ rest)
    ∧ exp_part (e +:+ rest) = (x, rest).
Proof.
  intros [->|(g & s & -> & Hg & Hs & Hne)].
  - exists None. split; [done|]. intros rest Hr. destruct (ends_number_tail rest Hr) as [Hf He].
    split_and!; [by apply ends_no_digit|done|done].
  - exists (Some (if (N_of_ascii g =? 45)%N then - Z.of_N (digits_val s) else Z.of_N (digits_val s))).
    split; [done|]. intros rest Hr. split; [done|]. split; [done|]. destruct s as [|c s]; [done|].
    cbn [String.append exp_part].
    change ((N_of_ascii "e" =? 101)%N || (N_of_ascii "e" =? 69)%N) with true. cbv iota.
    assert (Hspan : span_digits (String c (s +:+ rest)) = (String c s, rest))
      by (by apply (span_digits_app (String c s)); [|apply ends_no_digit]).
    destruct Hg as [->| ->];
      [change (N_of_ascii (byte 45) =? 45)%N with true
      |change (N_of_ascii (byte 43) =? 45)%N with false; change (N_of_ascii (byte 43) =? 43)%N with true];
      cbv iota; by rewrite Hspan.
Qed.

Definition is_float (v : pyval) : Prop := ∃ f, v = VFloat f.

(** Read after its sign: an integer part without a leading zero, then a
    fraction or an exponent or both. *)
Lemma parse_number_decimal neg ip fr e :
  all_digit ip → ip ≠ EmptyString →
  (ip = "0" ∨ ∃ c s, ip = String c s ∧ (N_of_ascii c =? 48)%N = false) →
  all_digit fr → exponent_of e → fr ≠ EmptyString ∨ e ≠ EmptyString →
  ∃ v, is_float v ∧ ∀ rest, ends_number rest →
    parse_number ((if neg : bool then "-" else EmptyString) +:+ ip
      +:+ (if str_empty fr then EmptyString else "." +:+ fr) +:+ e +:+ rest) = Some (v, rest).
Proof.
  intros Hip Hne Hz Hfr He Hsome. destruct (exp_part_text e He) as (x & Hxn & Hrest).
  exists (VFloat (float_of_decimal neg (digits_val (ip +:+ fr))
                    (default 0 x - Z.of_nat (String.length fr)))).
  split; [by eexists|]. intros rest Hr. destruct (Hrest rest Hr) as (Hd & Hf & Hx). clear Hrest.
  set (tail := (if str_empty fr then EmptyString else "." +:+ fr) +:+ e +:+ rest).
  assert (Htail : no_digit tail) by (subst tail; destruct fr; done).
  assert (Hint : int_part (ip +:+ tail) = (ip, tail)).
  { destruct Hz as [->|(c & s & -> & Hc)]; [done|]. cbn [String.append int_part]. rewrite Hc.
    by apply (span_digits_app (String c s)). }
  assert (Hfrac : frac_part tail = (fr, e +:+ rest)).
  { subst tail. destruct fr as [|c fr]; [done|]. cbn [str_empty].
    rewrite (str_app_assoc "." (String c fr)). cbn [String.append frac_part].
    change (N_of_ascii "." =? 46)%N with true. cbv iota.
    change (String c (fr +:+ e +:+ rest)) with (String c fr +:+ (e +:+ rest)).
    by rewrite span_digits_app. }
  unfold parse_number.
  assert (Hsign : ∀ c s, ip = String c s → (N_of_ascii c =? 45)%N = false).
  { intros c s ->. destruct Hip as [Hc _]. unfold is_digit in Hc.
    apply andb_true_iff in Hc as [H1 H2]. apply N.leb_le in H1. apply N.eqb_neq. lia. }
  assert (Hgoal : match int_part (ip +:+ tail) with
    | (EmptyString, _) => None
    | (ip, s2) =>
        let '(fr, s3) := frac_part s2 in
        let '(ex, s4) := exp_part s3 in
        match fr, ex with
        | EmptyString, None =>
            let z := Z.of_N (digits_val ip) in Some (VInt (if neg then - z else z)%Z, s4)
        | _, _ => Some (VFloat (float_of_decimal neg (digits_val (ip +:+ fr))
                                  (default 0 ex - Z.of_nat (String.length fr))%Z), s4)
        end
    end = Some (VFloat (float_of_decimal neg (digits_val (ip +:+ fr))
                          (default 0 x - Z.of_nat (String.length fr))), rest)).
  { rewrite Hint. destruct ip as [|c s]; [done|]. rewrite Hfrac, Hx.
    destruct fr; [|done]. destruct x; [done|]. destruct Hsome as [?|He']; [done|]. by destruct (Hxn He'). }
  destruct neg.
  - cbn [String.append]. change (N_of_ascii "-" =? 45)%N with true. exact Hgoal.
  - destruct ip as [|c s]; [done|]. change (EmptyString +:+ ?y) with y. cbn [String.append].
    rewrite (Hsign c s eq_refl). exact Hgoal.
Qed.

(** ** The text of a float *)

Lemma strip_zeros_pos fuel d k : 0 < d → 0 < (strip_zeros fuel d k).1.
Proof.
  revert d k. induction fuel as [|fuel IH]; intros d k Hd; simpl; [done|].
  destruct (_ && _) eqn:E; [|done]. apply IH.
  apply andb_true_iff in E as [E%Z.eqb_eq _]. pose proof (Z.div_mod d 10 ltac:(done)). lia.
Qed.

Lemma shortest_pos fuel n m e p q x d k :
  shortest fuel n (S754_finite false m e) p q x = Some (d, k) → 0 < d.
Proof.
  revert n. induction fuel as [|fuel IH]; intros n; [done|]. cbn [shortest].
  destruct (List.find _ _) as [c|] eqn:Ef; [|apply IH]. intros [= ->].
  apply List.find_some in Ef as [_ Hr]. unfold reads_back in Hr.
  apply bool_decide_eq_true in Hr. cbn [fst snd] in Hr. destruct d as [|d|d]; [done|lia|done].
Qed.

(** The digits are a positive number, or the zero with exponent zero. *)
Lemma shortest_decimal_shape m e :
  let dk := shortest_decimal m e in 0 < dk.1 ∨ dk.1 = 0 ∧ dk.2 = 0.
Proof.
  unfold shortest_decimal. destruct (ratio_of m e) as [p q].
  destruct (shortest _ _ _ _ _ _) as [[d k]|] eqn:Es; [|by right].
  left. apply strip_zeros_pos. by eapply shortest_pos.
Qed.

(** An integer part, a fraction and an exponent that [parse_number_decimal] reads. *)
Definition float_text (t : string) : Prop :=
  ∃ ip fr e, t = ip +:+ (if str_empty fr then EmptyString else "." +:+ fr) +:+ e
    ∧ all_digit ip ∧ ip ≠ EmptyString
    ∧ (ip = "0" ∨ ∃ c s, ip = String c s ∧ (N_of_ascii c =? 48)%N = false)
    ∧ all_digit fr ∧ exponent_of e ∧ (fr ≠ EmptyString ∨ e ≠ EmptyString).

Lemma digit_alone c : (N_of_ascii c =? 48)%N = true → c = "0"%char.
Proof. intros H%N.eqb_eq. rewrite <-(ascii_N_embedding c), H. reflexivity. Qed.

Lemma str_app_empty a b : a +:+ b = EmptyString → b = EmptyString.
Proof. by destruct a. Qed.

Lemma format_exponent c s ex (pad : bool) :
  is_digit c = true → all_digit s → (s ≠ EmptyString → (N_of_ascii c =? 48)%N = false) →
  float_text ((match s with EmptyString => String c s | _ => String c EmptyString +:+ "." +:+ s end)
    +:+ "e" +:+ (if ex <? 0 then "-" else "+") +:+ (if pad then "0" else EmptyString) +:+ Z_str (Z.abs ex)).
Proof.
  intros Hc Hs Hz. destruct (Z_str_nonneg (Z.abs ex) ltac:(lia)) as (Hd & Hn & _).
  set (body := (if pad then "0" else EmptyString) +:+ Z_str (Z.abs ex)).
  assert (Hb : all_digit body) by (apply all_digit_app; split; [by destruct pad|done]).
  assert (Hne : body ≠ EmptyString) by (by intros H%str_app_empty).
  exists (String c EmptyString), s,
    ("e" +:+ String (if ex <? 0 then byte 45 else byte 43) body).
  split_and!; try done.
  - destruct s; destruct (ex <? 0); reflexivity.
  - destruct (N_of_ascii c =? 48)%N eqn:E; [left; by rewrite (digit_alone c E)|].
    right. eauto.
  - right. exists (if ex <? 0 then byte 45 else byte 43), body.
    split_and!; [done|destruct (ex <? 0); auto|done|done].
  - by right.
Qed.

Lemma decimal_plain ip fr :
  all_digit ip → all_digit fr → ip ≠ EmptyString → fr ≠ EmptyString →
  (ip = "0" ∨ ∃ c s, ip = String c s ∧ (N_of_ascii c =? 48)%N = false) →
  float_text (ip +:+ "." +:+ fr).
Proof.
  intros. exists ip, fr, EmptyString. split_and!; try done; [|by left|by left].
  destruct fr; [done|]. by rewrite str_app_nil_r.
Qed.

Lemma str_drop_more n s : (n < String.length s)%nat → str_drop n s ≠ EmptyString.
Proof.
  revert s. induction n as [|n IH]; intros [|c s] Hn; simpl in *; try lia; [done|].
  apply IH. lia.
Qed.

Lemma format_short_text d k : 0 < d ∨ d = 0 ∧ k = 0 → float_text (format_short d k).
Proof.
  intros Hd. destruct (Z_str_nat d ltac:(lia)) as (c & s & Ec & Hc & Hs & Hz).
  assert (Hds : all_digit (Z_str d)) by (rewrite Ec; done).
  assert (Hnz : (N_of_ascii c =? 48)%N = false ∨ d = 0 ∧ k = 0 ∧ Z_str d = "0").
  { destruct Hd as [Hd|[-> ->]]; [left; by apply Hz|by right]. }
  unfold format_short. set (nd := Z.of_nat (String.length (Z_str d))).
  destruct (_ || _) eqn:Ex.
  { rewrite Ec. change (match String c s with
      | String c EmptyString => String c s
      | String c (String _ _ as rest) => String c EmptyString +:+ "." +:+ rest
      | EmptyString => String c s end)
      with (match s with EmptyString => String c s | _ => String c EmptyString +:+ "." +:+ s end).
    apply format_exponent; [done|done|]. intros Hse. destruct Hnz as [?|(_ & _ & E0)]; [done|].
    rewrite Ec in E0. injection E0 as _ E0. by destruct Hse. }
  destruct (Z.leb_spec (nd + k) 0) as [Hk|Hk].
  { change ("0." +:+ zeros (Z.to_nat (- (nd + k))) +:+ Z_str d)
      with ("0" +:+ "." +:+ (zeros (Z.to_nat (- (nd + k))) +:+ Z_str d)).
    apply decimal_plain; [done| |done| |by left].
    - apply all_digit_app. split; [apply all_digit_zeros|done].
    - intros H%str_app_empty. by rewrite Ec in H. }
  destruct (Z.leb_spec nd (nd + k)) as [Hk2|Hk2].
  { change (Z_str d +:+ zeros (Z.to_nat (nd + k - nd)) +:+ ".0")
      with (Z_str d +:+ zeros (Z.to_nat (nd + k - nd)) +:+ "." +:+ "0").
    rewrite <-str_app_assoc. apply decimal_plain; [|done|by rewrite Ec|done|].
    - apply all_digit_app. split; [done|apply all_digit_zeros].
    - destruct Hnz as [Hn|(-> & -> & E0)].
      + right. rewrite Ec. by eexists _, _.
      + left. replace (nd + 0 - nd) with 0 by lia. reflexivity. }
  destruct Hnz as [Hn|(-> & -> & E0)]; [|lia].
  apply decimal_plain.
  - by apply all_digit_take.
  - by apply all_digit_drop.
  - rewrite Ec. destruct (Z.to_nat (nd + k)) eqn:E; [lia|done].
  - apply str_drop_more. unfold nd in *. lia.
  - right. rewrite Ec. destruct (Z.to_nat (nd + k)) eqn:E; [lia|]. simpl. by eexists _, _.
Qed.

(** ** Reading it back *)

(** No literal starts the way a number does. *)
Lemma number_no_literal (neg : bool) c t :
  is_digit c = true →
  List.find (λ kv : string * pyval, startswith kv.1 ((if neg then "-" else EmptyString) +:+ String c t))
    literals = None.
Proof.
  intros Hc.
  unfold literals. cbn [List.find fst]. unfold startswith.
  destruct neg; cbn [String.append String.prefix];
    repeat match goal with
    | |- context [ascii_dec ?a c] =>
        destruct (ascii_dec a c) as [<-|_]; [exfalso; vm_compute in Hc; discriminate Hc|]
    | |- context [ascii_dec ?a ?b] => destruct (ascii_dec a b) as [E|_]; [discriminate E|]
    end; reflexivity.
Qed.

Lemma digit_dispatch c :
  is_digit c = true → is_ws c = false
    ∧ (N_of_ascii c ≠ 34 ∧ N_of_ascii c ≠ 123 ∧ N_of_ascii c ≠ 91)%N
    ∧ (N_of_ascii c ≠ 93 ∧ N_of_ascii c ≠ 125)%N.
Proof.
  unfold is_digit, is_ws. rewrite andb_true_iff, !N.leb_le. intros [H1 H2].
  split; [|lia]. repeat (apply orb_false_iff; split); apply N.eqb_neq; lia.
Qed.

Lemma parse_value_scalar n c t :
  (N_of_ascii c ≠ 34 ∧ N_of_ascii c ≠ 123 ∧ N_of_ascii c ≠ 91)%N →
  parse_value (S n) (String c t) = parse_scalar (String c t).
Proof. intros (H1 & H2 & H3). cbn [parse_value]. by rewrite !(proj2 (N.eqb_neq _ _)). Qed.

(** The text begins as a value does, and is read as one float, whatever follows. *)
Definition read_as (text : string) (v : pyval) : Prop :=
  ∀ n rest, (1 ≤ n)%nat → ends_number rest →
    (∃ c t, text +:+ rest = String c t ∧ value_start c)
    ∧ parse_value n (text +:+ rest) = Some (v, rest).

Definition read_as_float (text : string) : Prop := ∃ v, is_float v ∧ read_as text v.

Lemma decimal_read (neg : bool) t :
  float_text t → read_as_float ((if neg then "-" else EmptyString) +:+ t).
Proof.
  intros (ip & fr & e & -> & Hip & Hne & Hz & Hfr & He & Hsome).
  destruct (parse_number_decimal neg ip fr e) as (v & Hv & Hp); [done..|].
  exists v. split; [done|]. intros [|n] rest Hn Hr; [lia|]. specialize (Hp rest Hr).
  destruct ip as [|c s]; [done|]. pose proof Hip as [Hc _]. rewrite !str_app_assoc.
  set (tail := (if str_empty fr then EmptyString else "." +:+ fr) +:+ e +:+ rest) in *.
  change (String c s +:+ tail) with (String c (s +:+ tail)) in *.
  destruct (digit_dispatch c Hc) as (Hw & (H1 & H2 & H3) & H4 & H5). split.
  - destruct neg; eexists _, _; (split; [reflexivity|]); [done|]. split; [done|]. lia.
  - pose proof (number_no_literal neg c (s +:+ tail) Hc) as Hl.
    destruct neg; cbn [String.append] in *; rewrite parse_value_scalar by done;
      unfold parse_scalar; by rewrite Hl.
Qed.

(** The names of the infinities and of the missing number. *)
Lemma literal_read k v :
  (k, v) ∈ literals → is_float v → read_as_float k.
Proof.
  unfold literals. rewrite !elem_of_cons, elem_of_nil.
  intros H Hf. exists v. split; [done|]. intros [|n] rest Hn Hr; [lia|]. destruct Hf as [f Hf].
  repeat destruct H as [H|H]; try done; simplify_eq; (split; [by eexists _, _|]);
    cbn [String.append]; rewrite parse_value_scalar by done.
  1: by apply (parse_literal "NaN"); [set_solver|].
  1: by apply (parse_literal "Infinity"); [set_solver|].
  unfold parse_scalar, literals. cbn [List.find fst]. unfold startswith. cbn [String.prefix].
  repeat match goal with
  | |- context [ascii_dec ?a ?b] => destruct (ascii_dec a b) as [E|_]; [discriminate E|]
  end; cbv iota.
  by destruct rest.
Qed.

(** [json.loads] reads every float [json.dumps] writes, as a float. *)
Theorem json_float_read f : read_as_float (json_float f).
Proof.
  destruct f as [neg|neg| |neg m e]; cbn [json_float float_repr].
  - replace (if neg then "-0.0" else "0.0")
      with ((if neg then "-" else EmptyString) +:+ ("0" +:+ "." +:+ "0")) by (by destruct neg).
    apply decimal_read, decimal_plain; try done. by left.
  - destruct neg; [apply (literal_read _ (VFloat (S754_infinity true)))
                  |apply (literal_read _ (VFloat (S754_infinity false)))]; (set_solver || by eexists).
  - apply (literal_read _ (VFloat S754_nan)); [set_solver|by eexists].
  - pose proof (shortest_decimal_shape m e) as Hs. destruct (shortest_decimal m e) as [d k].
    by apply decimal_read, format_short_text.
Qed.

(** A float that [loads] gives back alone is read as itself anywhere. *)
Lemma float_ok_read f : float_ok f = true → read_as (json_float f) (VFloat f).
Proof.
  intros Hf. destruct (json_float_read f) as (v & Hv & Hr).
  assert (Hl : loads (json_float f) = Some (VFloat f))
    by (destruct f; try done; by apply bool_decide_eq_true in Hf).
  destruct (Hr 1%nat EmptyString ltac:(lia) I) as [(c & t & Ec & Hc & _) _]. rewrite str_app_nil_r in Ec.
  destruct (Hr (2 * String.length (json_float f) + 2)%nat EmptyString ltac:(lia) I) as [_ Hp].
  rewrite str_app_nil_r in Hp. unfold loads in Hl.
  assert (skip_ws (json_float f) = json_float f) as Hs by (rewrite Ec; by apply skip_ws_start).
  rewrite Hs, Hp in Hl. cbn in Hl. by injection Hl as ->.
Qed.
