(* ===== verification/JsonFacts.v ===== *)
(** * [json.loads] inverts [json.dumps]

    The round trip for every well-formed value and both styles, and from it the
    injectivity of the two text forms. *)

From S2P Require Import Prelude PyStr PyFloat PyVal Json JsonText PyDecimal JsonFloat.
From Stdlib Require Import DecimalString DecimalFacts DecimalZ DecimalN SpecFloat.
Local Open Scope string_scope.
Local Open Scope nat_scope.

(** ** Values *)

(** The first character of a value's text: no blank, and no closing bracket. *)
Definition value_start (c : ascii) : Prop :=
  is_ws c = false ∧ (N_of_ascii c ≠ 93 ∧ N_of_ascii c ≠ 125)%N.

Lemma Z_str_start z rest : ∃ c t, Z_str z +:+ rest = String c t
  ∧ value_start c ∧ (N_of_ascii c ≠ 34 ∧ N_of_ascii c ≠ 123 ∧ N_of_ascii c ≠ 91)%N
  ∧ List.find (λ kv : string * pyval, startswith kv.1 (Z_str z +:+ rest)) literals = None.
Proof.
  rewrite Z_str_digits. pose proof (to_uint_unorm (Z.abs_N z)) as Hu.
  destruct (z <? 0)%Z; cbn [String.append].
  - eexists _, _. split; [done|]. split; [done|]. split; [done|].
    destruct (N.to_uint (Z.abs_N z)); done.
  - destruct (N.to_uint (Z.abs_N z)); [done|..]; by eexists _, _.
Qed.

Lemma json_str_app s rest :
  json_str s +:+ rest = String (byte 34) (escape (utf8_decode s) +:+ dquote +:+ rest).
Proof. unfold json_str. by rewrite !str_app_assoc. Qed.

Lemma dumps_start st v rest :
  wf_val v → ∃ c t, dumps st v +:+ rest = String c t ∧ value_start c.
Proof.
  destruct v as [|[]|z|f|s|l|d]; simpl; intros Hv; try done;
    try (eexists _, _; split; [reflexivity|]; done).
  - destruct (Z_str_start z rest) as (c & t & ? & ? & _). by exists c, t.
  - destruct (float_ok_read f Hv 1 EmptyString) as [(c & t & E & Hc) _]; [lia|done|].
    rewrite str_app_nil_r in E. rewrite E. cbn [String.append]. by eexists _, _.
Qed.

Fixpoint vsize (v : pyval) : nat :=
  match v with
  | VList l => S (foldr (λ v k, S (vsize v) + k) 0 l)
  | VDict d => S (foldr (λ kv k, S (vsize kv.2) + k) 0 d)
  | _ => 1
  end.

(** [v] is read back whatever follows it. *)
Definition reads (st : style) (v : pyval) : Prop :=
  ∀ n rest, vsize v ≤ n → ends_number rest →
    parse_value n (dumps st v +:+ rest) = Some (v, rest).

Lemma ends_item_sep st rest : ends_number (item_sep st +:+ rest).
Proof. by destruct st. Qed.

Lemma after_item_sep st c t :
  is_ws c = false →
  ∃ r, skip_ws (item_sep st +:+ String c t) = String (byte 44) r ∧ skip_ws r = String c t.
Proof. intros Hc. destruct st; simpl; eexists; (split; [done|]); simpl; by rewrite Hc. Qed.

Lemma after_key_sep st c t :
  is_ws c = false →
  ∃ r, skip_ws (key_sep st +:+ String c t) = String (byte 58) r ∧ skip_ws r = String c t.
Proof. intros Hc. destruct st; simpl; eexists; (split; [done|]); simpl; by rewrite Hc. Qed.

Lemma join_cons2 sep x y l : join sep (x :: y :: l) = x +:+ sep +:+ join sep (y :: l).
Proof. done. Qed.

Lemma items_start st l rest :
  l ≠ [] → Forall wf_val l →
  ∃ c t, join (item_sep st) (map (dumps st) l) +:+ rest = String c t ∧ value_start c.
Proof.
  intros Hl Hw. destruct l as [|v [|w l]]; [done|..]; apply Forall_cons in Hw as [Hv _].
  - by apply dumps_start.
  - cbn [map]. rewrite join_cons2, !str_app_assoc. by apply dumps_start.
Qed.

Lemma parse_items_reads st l :
  l ≠ [] → Forall (reads st) l → Forall wf_val l → ∀ n acc rest,
  foldr (λ v k, S (vsize v) + k) 0 l ≤ n →
  parse_items n acc (join (item_sep st) (map (dumps st) l) +:+ "]" +:+ rest)
  = Some (VList (acc ++ l)%list, rest).
Proof.
  induction l as [|v [|w l] IH]; intros Hne Hr Hw n acc rest Hn; [done|..];
    apply Forall_cons in Hr as [Hv Hr]; apply Forall_cons in Hw as [Wv Ww];
    (destruct n as [|n]; [simpl in Hn; lia|]).
  - cbn [map join String.concat parse_items]. rewrite Hv; [done|simpl in Hn; lia|done].
  - cbn [map]. rewrite join_cons2, !str_app_assoc. cbn [parse_items].
    rewrite Hv; [|simpl in Hn; lia|apply ends_item_sep].
    destruct (items_start st (w :: l) ("]" +:+ rest)) as (c & t & E & Hc); [done..|].
    cbn [map] in E. rewrite E. destruct (after_item_sep st c t) as (r & -> & Hs); [apply Hc|].
    change (N_of_ascii (byte 44) =? 44)%N with true. cbv iota.
    rewrite Hs, <-E. cbn [map] in IH. rewrite IH; [|done..|simpl in *; lia].
    by rewrite <-(assoc_L (++)).
Qed.

Definition member_text (st : style) (kv : string * pyval) : string :=
  json_str kv.1 +:+ key_sep st +:+ dumps st kv.2.

Lemma parse_members_step st n acc k v tail :
  valid_str k → wf_val v → reads st v → vsize v ≤ n → ends_number tail →
  parse_members (S n) acc (member_text st (k, v) +:+ tail) =
  match skip_ws tail with
  | String c r' =>
      if (N_of_ascii c =? 44)%N then parse_members n (dset k v acc) (skip_ws r')
      else if (N_of_ascii c =? 125)%N then Some (VDict (dset k v acc), r') else None
  | EmptyString => None
  end.
Proof.
  intros Hk Hw Hv Hn Ht. unfold member_text. cbn [fst snd].
  rewrite !str_app_assoc, json_str_app. cbn [parse_members].
  change (N_of_ascii (byte 34) =? 34)%N with true. cbv iota.
  rewrite scan_json_str by done.
  destruct (dumps_start st v tail Hw) as (c & t & E & Hc). rewrite E.
  destruct (after_key_sep st c t) as (r & -> & Hs); [apply Hc|].
  change (N_of_ascii (byte 58) =? 58)%N with true. cbv iota.
  rewrite Hs, <-E, Hv by done. done.
Qed.

Lemma members_start st d rest :
  d ≠ [] → ∃ t, join (item_sep st) (map (member_text st) d) +:+ rest = String (byte 34) t.
Proof.
  intros Hd. destruct d as [|kv [|kw d]]; [done|..]; cbn [map];
    rewrite ?join_cons2; cbn [join String.concat]; unfold member_text at 1;
    rewrite !str_app_assoc, json_str_app; by eexists.
Qed.

Lemma parse_members_reads st d :
  d ≠ [] → Forall (λ kv, reads st kv.2) d →
  Forall (λ kv, valid_str kv.1 ∧ wf_val kv.2) d → ∀ n acc rest,
  foldr (λ kv k, S (vsize kv.2) + k) 0 d ≤ n →
  parse_members n acc (join (item_sep st) (map (member_text st) d) +:+ "}" +:+ rest)
  = Some (VDict (dupdate acc d), rest).
Proof.
  induction d as [|[k v] [|[k' v'] d] IH]; intros Hne Hr Hw n acc rest Hn; [done|..];
    apply Forall_cons in Hr as [Hv Hr]; apply Forall_cons in Hw as [[Wk Wv] Ww];
    (destruct n as [|n]; [simpl in Hn; lia|]); simpl in Hv, Wk, Wv.
  - cbn [map join String.concat]. rewrite parse_members_step; [done..|simpl in Hn; lia|done].
  - cbn [map]. rewrite join_cons2, !str_app_assoc.
    rewrite parse_members_step; [|done..|simpl in Hn; lia|apply ends_item_sep].
    destruct (members_start st ((k', v') :: d) ("}" +:+ rest)) as [t E]; [done|].
    cbn [map] in E.
    rewrite E. destruct (after_item_sep st (byte 34) t) as (r & -> & Hs); [done|].
    change (N_of_ascii (byte 44) =? 44)%N with true. cbv iota.
    rewrite Hs, <-E. cbn [map] in IH. rewrite IH; [done|done..|simpl in *; lia].
Qed.

Lemma parse_open_list n s c t :
  s = String c t → value_start c → parse_value (S n) ("[" +:+ s) = parse_items n [] s.
Proof.
  intros -> (H & H1 & _). cbn [parse_value String.append].
  change (N_of_ascii "[" =? 34)%N with false. change (N_of_ascii "[" =? 123)%N with false.
  change (N_of_ascii "[" =? 91)%N with true. cbv iota. rewrite skip_ws_start by done.
  by rewrite (proj2 (N.eqb_neq _ _)).
Qed.

Lemma parse_open_dict n s c t :
  s = String c t → value_start c → parse_value (S n) ("{" +:+ s) = parse_members n [] s.
Proof.
  intros -> (H & _ & H1). cbn [parse_value String.append].
  change (N_of_ascii "{" =? 34)%N with false.
  change (N_of_ascii "{" =? 123)%N with true. cbv iota. rewrite skip_ws_start by done.
  by rewrite (proj2 (N.eqb_neq _ _)).
Qed.

Theorem parse_dumps st v : wf_val v → reads st v.
Proof.
  unfold reads. induction v as [|b|z|f|s|l IH|d IH] using pyval_ind;
    intros Hw n rest Hn Hr; (destruct n as [|n]; [simpl in Hn; lia|]); try done.
  - apply (parse_literal "null"); [set_solver|done].
  - destruct b; [apply (parse_literal "true")|apply (parse_literal "false")]; set_solver.
  - cbn [dumps]. destruct (Z_str_start z rest) as (c & t & E & Hc & (H1 & H2 & H3) & Hl).
    cbn [parse_value]. rewrite E, !(proj2 (N.eqb_neq _ _)) by done. rewrite <-E.
    unfold parse_scalar. rewrite Hl. by apply parse_number_Z.
  - apply (float_ok_read f Hw); [lia|done].
  - cbn [dumps]. rewrite json_str_app. cbn [parse_value].
    change (N_of_ascii (byte 34) =? 34)%N with true. cbv iota.
    by rewrite scan_json_str.
  - apply wf_val_list in Hw. cbn [dumps]. rewrite !str_app_assoc.
    destruct l as [|v l]; [done|].
    destruct (items_start st (v :: l) ("]" +:+ rest)) as (c & t & E & Hc); [done..|].
    rewrite (parse_open_list n _ c t E Hc).
    apply (parse_items_reads st (v :: l)); [done| |done|simpl in *; lia].
    rewrite Forall_forall in *. unfold reads. naive_solver.
  - apply wf_val_dict in Hw as [Hd Hw]. cbn [dumps]. rewrite !str_app_assoc.
    destruct d as [|kv d]; [done|].
    change (map _ (kv :: d)) with (map (member_text st) (kv :: d)).
    destruct (members_start st (kv :: d) ("}" +:+ rest)) as [t E]; [done|].
    rewrite (parse_open_dict n _ (byte 34) t E) by done.
    rewrite parse_members_reads; [|done| |done|simpl in *; lia].
    + by rewrite (dict_of_wf (kv :: d) Hd : dupdate [] (kv :: d) = kv :: d).
    + rewrite Forall_forall in *. unfold reads. naive_solver.
Qed.

(** The fuel [loads] starts with covers every text [dumps] writes. *)
Lemma join_length sep l :
  1 ≤ String.length sep →
  foldr (λ s k, S (String.length s) + k) 0 l ≤ S (String.length (join sep l)).
Proof.
  intros Hs. induction l as [|x [|y l] IH]; [simpl; lia|simpl; lia|].
  rewrite join_cons2, !length_app_str. cbn [foldr] in *. lia.
Qed.

Lemma dumps_length st v : wf_val v → vsize v ≤ 2 * String.length (dumps st v).
Proof.
  induction v as [|b|z|f|s|l IH|d IH] using pyval_ind; intros Hw.
  - simpl; lia.
  - destruct b; simpl; lia.
  - cbn [dumps]. rewrite Z_str_digits, length_app_str. simpl.
    pose proof (to_uint_unorm (Z.abs_N z)).
    destruct (N.to_uint (Z.abs_N z)); [done|simpl; lia..].
  - destruct (float_ok_read f Hw 1 EmptyString) as [(c & t & E & _) _]; [lia|done|].
    rewrite str_app_nil_r in E. cbn [dumps vsize]. rewrite E. simpl. lia.
  - unfold dumps, json_str. rewrite length_app_str. simpl. lia.
  - apply wf_val_list in Hw.
    assert (foldr (λ v k, S (vsize v) + k) 0 l ≤
      2 * foldr (λ s k, S (String.length s) + k) 0 (map (dumps st) l)).
    { clear -IH Hw. induction l; [simpl; lia|]. cbn [foldr map]. apply Forall_cons in IH as [H1 H2], Hw as [W1 W2].
      specialize (H1 W1). specialize (IHl H2 W2). lia. }
    pose proof (join_length (item_sep st) (map (dumps st) l) ltac:(destruct st; simpl; lia)).
    cbn [dumps vsize]. rewrite !length_app_str.
    change (String.length "[") with 1. change (String.length "]") with 1. lia.
  - apply wf_val_dict in Hw as [_ Hw].
    assert (foldr (λ kv k, S (vsize kv.2) + k) 0 d ≤
      2 * foldr (λ s k, S (String.length s) + k) 0 (map (member_text st) d)).
    { clear -IH Hw. induction d as [|[k v] d IHd]; [simpl; lia|]. cbn [foldr map].
      apply Forall_cons in IH as [H1 H2], Hw as [[_ W1] W2].
      specialize (H1 W1). specialize (IHd H2 W2).
      unfold member_text at 1. rewrite !length_app_str. cbn [fst snd] in *. lia. }
    pose proof (join_length (item_sep st) (map (member_text st) d) ltac:(destruct st; simpl; lia)).
    cbn [dumps vsize]. rewrite !length_app_str.
    change (String.length "{") with 1. change (String.length "}") with 1.
    change (map _ d) with (map (member_text st) d). lia.
Qed.

(** [json.loads(json.dumps(v)) == v]. *)
Theorem loads_dumps st v : wf_val v → loads (dumps st v) = Some v.
Proof.
  intros Hw. unfold loads. pose proof (dumps_length st v Hw).
  destruct (dumps_start st v EmptyString Hw) as (c & t & E & Hc & _).
  rewrite str_app_nil_r in E.
  assert (skip_ws (dumps st v) = dumps st v +:+ EmptyString) as ->.
  { by rewrite str_app_nil_r, E, skip_ws_start. }
  by rewrite parse_dumps by (done || lia).
Qed.

(** The text of a value determines it, in either style. *)
Corollary dumps_inj st v w : wf_val v → wf_val w → dumps st v = dumps st w → v = w.
Proof.
  intros Hv Hw E. apply (f_equal loads) in E. rewrite !loads_dumps in E by done. congruence.
Qed.

(** The sorted text determines a value up to the order of keys, and only up to that. *)
Theorem dumps_sorted_equiv v w :
  wf_val v → wf_val w → dumps_sorted v = dumps_sorted w ↔ v ≡ w.
Proof.
  intros Hv Hw. unfold dumps_sorted, equiv, pyval_equiv. split; [|congruence].
  apply dumps_inj; by apply norm_wf.
Qed.

#[export] Instance dumps_sorted_proper : Proper ((≡) ==> (=)) dumps_sorted.
Proof. intros v w E. unfold dumps_sorted. by rewrite (E : norm v = norm w). Qed.

(** A dict of texts and a float in the last place is read back with the texts
    it had. *)
Theorem loads_text_float st k1 s k2 f :
  valid_str k1 → valid_str s → valid_str k2 →
  ∃ v, is_float v ∧
    loads (dumps st (VDict [(k1, VStr s); (k2, VFloat f)])) = Some (VDict (dset k2 v [(k1, VStr s)])).
Proof.
  intros H1 Hs H2.
  set (whole := dumps st (VDict [(k1, VStr s); (k2, VFloat f)])).
  assert (Ew : whole = "{" +:+ member_text st (k1, VStr s) +:+ item_sep st
                 +:+ json_str k2 +:+ key_sep st +:+ json_float f +:+ "}").
  { unfold whole. cbn [dumps map join String.concat]. unfold member_text. cbn [fst snd dumps].
    by rewrite !str_app_assoc. }
  assert (Hfuel : ∃ n, (2 * String.length whole + 2)%nat = S (S (S (S n)))).
  { exists (2 * String.length whole - 2)%nat. rewrite Ew. cbn [String.append String.length]. lia. }
  destruct Hfuel as [n En].
  destruct (json_float_read f) as (v & Hv & Hread).
  destruct (Hread (S n) "}") as [(c & t & Ec & Hc & _) Hp]; [lia|done|].
  exists v. split; [done|]. unfold loads. fold whole. rewrite En, Ew.
  set (tail := json_str k2 +:+ key_sep st +:+ json_float f +:+ "}").
  assert (Et : tail = String (byte 34) (escape (utf8_decode k2) +:+ dquote +:+ key_sep st
                 +:+ json_float f +:+ "}")) by (unfold tail; apply json_str_app).
  assert (Hm : member_text st (k1, VStr s) +:+ item_sep st +:+ tail
    = String (byte 34) (escape (utf8_decode k1) +:+ dquote +:+ key_sep st
        +:+ json_str s +:+ item_sep st +:+ tail)).
  { unfold member_text. cbn [fst snd dumps]. by rewrite !str_app_assoc, json_str_app. }
  change (skip_ws ("{" +:+ ?x)) with ("{" +:+ x).
  rewrite (parse_open_dict _ _ _ _ Hm) by done.
  rewrite parse_members_step; [|done|done|by apply parse_dumps|simpl; lia|apply ends_item_sep].
  rewrite Et. destruct (after_item_sep st (byte 34) (escape (utf8_decode k2) +:+ dquote
    +:+ key_sep st +:+ json_float f +:+ "}")) as (r & -> & Hskip); [done|].
  change (N_of_ascii (byte 44) =? 44)%N with true. cbv iota. rewrite Hskip.
  cbn [parse_members]. change (N_of_ascii (byte 34) =? 34)%N with true. cbv iota.
  rewrite scan_json_str by done. rewrite Ec.
  destruct (after_key_sep st c t Hc) as (r2 & -> & Hskip2).
  change (N_of_ascii (byte 58) =? 58)%N with true. cbv iota. rewrite Hskip2, <-Ec, Hp. reflexivity.
Qed.

(** ** Well-formedness of ASCII values *)
Lemma valid_ascii s : Forall (λ c, (c < 128)%N) (map N_of_ascii (String.list_ascii_of_string s)) →
  valid_str s.
Proof.
  intros H. exists (map N_of_ascii (String.list_ascii_of_string s)).
  induction s as [|c s IH]; [done|]. simpl in *. apply Forall_cons in H as [Hc Hs].
  destruct (IH Hs) as [? Es]. split; [constructor; [left; lia|done]|].
  unfold utf8_encode1. rewrite (proj2 (N.ltb_lt _ _)) by done.
  unfold str1, byte. rewrite ascii_N_embedding. simpl. congruence.
Qed.

(** A test that implies well-formedness, for concrete ASCII values. *)
Fixpoint ascii_str (s : string) : bool :=
  match s with
  | EmptyString => true
  | String c s => (N_of_ascii c <? 128)%N && ascii_str s
  end.

Lemma ascii_str_app a b : ascii_str (a +:+ b) = ascii_str a && ascii_str b.
Proof. induction a as [|c a IH]; simpl; [done|]. by rewrite IH, andb_assoc. Qed.

Lemma ascii_str_valid s : ascii_str s = true → valid_str s.
Proof.
  intros H. apply valid_ascii. induction s as [|c s IH]; simpl in *; [done|].
  apply andb_true_iff in H as [Hc Hs]. apply N.ltb_lt in Hc. auto.
Qed.

Fixpoint ascii_val (v : pyval) : bool :=
  match v with
  | VNone | VBool _ | VInt _ => true
  | VFloat f => float_ok f
  | VStr s => ascii_str s
  | VList l => forallb ascii_val l
  | VDict d => bool_decide (NoDup (dkeys d))
               && forallb (λ kv, ascii_str kv.1 && ascii_val kv.2) d
  end.

Lemma ascii_val_wf v : ascii_val v = true → wf_val v.
Proof.
  induction v as [|b|z|f|s|l IH|d IH] using pyval_ind; try done.
  - apply ascii_str_valid.
  - rewrite wf_val_list. simpl. rewrite forallb_forall. intros Hl.
    rewrite Forall_forall in *. intros v Hv. apply IH, Hl; [done|]. by apply list_elem_of_In.
  - rewrite wf_val_dict. cbn [ascii_val]. rewrite andb_true_iff, forallb_forall.
    intros [Hd%bool_decide_eq_true Hl]. split; [done|].
    rewrite Forall_forall in *. intros [k v] Hv.
    specialize (Hl _ (proj1 (list_elem_of_In _ _) Hv)). apply andb_true_iff in Hl as [Hk Hw].
    split; [by apply ascii_str_valid|by apply (IH (k, v))].
Qed.

