(* ===== verification/Digest.v ===== *)
(** * Digests, encodings and UUIDs

    The parts of [hashlib], [hmac], [base64] and [uuid] that the program
    calls: SHA-256 and SHA-1 with their hex digests, HMAC-SHA256, base64, and
    UUID text in its canonical form.  Strings are byte strings here, which is
    what [.encode("utf-8")] makes of a Python string. *)

From S2P Require Import Prelude PyStr.
Local Open Scope string_scope.
Local Open Scope N_scope.

Fixpoint bytes_of (s : string) : list N :=
  match s with
  | EmptyString => []
  | String c s => N_of_ascii c :: bytes_of s
  end.

Fixpoint string_of_bytes (l : list N) : string :=
  match l with
  | [] => EmptyString
  | b :: l => String (byte b) (string_of_bytes l)
  end.

Fixpoint hexdigest (l : list N) : string :=
  match l with
  | [] => EmptyString
  | b :: l => hex2 b +:+ hexdigest l
  end.

(** ** 32-bit words *)

Definition mask32 : N := 4294967295.
Definition w32 (n : N) : N := N.land n mask32.
Definition add32 (a b : N) : N := w32 (a + b).
Definition rotr (n x : N) : N := N.lor (N.shiftr x n) (w32 (N.shiftl x (32 - n))).
Definition rotl (n x : N) : N := rotr (32 - n) x.
Definition not32 (x : N) : N := N.lxor x mask32.

Fixpoint be_bytes (k : nat) (n : N) : list N :=
  match k with
  | O => []
  | S k => (be_bytes k (N.shiftr n 8) ++ [N.land n 255])%list
  end.

Fixpoint words (l : list N) : list N :=
  match l with
  | a :: b :: c :: d :: l => (((a * 256 + b) * 256 + c) * 256 + d) :: words l
  | _ => []
  end.

(** The message, a one bit, zeros up to 56 bytes mod 64, the bit length. *)
Definition pad (l : list N) : list N :=
  let n := length l in
  let z := ((119 - n mod 64) mod 64)%nat in
  (l ++ 128 :: repeat 0 z ++ be_bytes 8 (8 * N.of_nat n))%list.

Fixpoint blocks (k : nat) (ws : list N) : list (list N) :=
  match k with
  | O => []
  | S k => take 16 ws :: blocks k (drop 16 ws)
  end.

Definition blocks_of (l : list N) : list (list N) :=
  let ws := words (pad l) in blocks (length ws / 16)%nat ws.

Definition at_ (l : list N) (i : nat) : N := nth i l 0.

(** ** SHA-256 *)

Definition k256 : list N :=
  [1116352408; 1899447441; 3049323471; 3921009573; 961987163; 1508970993; 2453635748;
   2870763221; 3624381080; 310598401; 607225278; 1426881987; 1925078388; 2162078206;
   2614888103; 3248222580; 3835390401; 4022224774; 264347078; 604807628; 770255983;
   1249150122; 1555081692; 1996064986; 2554220882; 2821834349; 2952996808; 3210313671;
   3336571891; 3584528711; 113926993; 338241895; 666307205; 773529912; 1294757372;
   1396182291; 1695183700; 1986661051; 2177026350; 2456956037; 2730485921; 2820302411;
   3259730800; 3345764771; 3516065817; 3600352804; 4094571909; 275423344; 430227734;
   506948616; 659060556; 883997877; 958139571; 1322822218; 1537002063; 1747873779;
   1955562222; 2024104815; 2227730452; 2361852424; 2428436474; 2756734187; 3204031479;
   3329325298].

Definition h256 : list N :=
  [1779033703; 3144134277; 1013904242; 2773480762; 1359893119; 2600822924; 528734635;
   1541459225].

(** The message schedule, newest word first. *)
Fixpoint extend256 (k : nat) (w : list N) : list N :=
  match k with
  | O => w
  | S k =>
      let x := at_ w 14 in let y := at_ w 1 in
      let s0 := N.lxor (N.lxor (rotr 7 x) (rotr 18 x)) (N.shiftr x 3) in
      let s1 := N.lxor (N.lxor (rotr 17 y) (rotr 19 y)) (N.shiftr y 10) in
      extend256 k (w32 (at_ w 15 + s0 + at_ w 6 + s1) :: w)
  end.

Definition round256 (st : list N) (kw : N * N) : list N :=
  match st with
  | [a; b; c; d; e; f; g; h] =>
      let s1 := N.lxor (N.lxor (rotr 6 e) (rotr 11 e)) (rotr 25 e) in
      let ch := N.lxor (N.land e f) (N.land (not32 e) g) in
      let t1 := h + s1 + ch + kw.1 + kw.2 in
      let s0 := N.lxor (N.lxor (rotr 2 a) (rotr 13 a)) (rotr 22 a) in
      let maj := N.lxor (N.lxor (N.land a b) (N.land a c)) (N.land b c) in
      [w32 (t1 + s0 + maj); a; b; c; add32 d t1; e; f; g]
  | _ => st
  end.

Definition compress256 (st block : list N) : list N :=
  let w := rev (extend256 48 (rev block)) in
  zip_with add32 st (foldl round256 st (zip k256 w)).

(** [hashlib.sha256(s).digest()] and [.hexdigest()]. *)
Definition sha256 (l : list N) : list N :=
  mbind (be_bytes 4) (foldl compress256 h256 (blocks_of l)).
Definition sha256_hex (s : string) : string := hexdigest (sha256 (bytes_of s)).

(** ** HMAC-SHA256 *)

Definition hmac_key (k : list N) : list N :=
  let k := if Nat.leb (length k) 64 then k else sha256 k in
  (k ++ repeat 0 (64 - length k))%list.

Definition hmac_sha256 (key msg : list N) : list N :=
  let k := hmac_key key in
  sha256 (map (N.lxor 92) k ++ sha256 (map (N.lxor 54) k ++ msg)%list)%list.

(** ** SHA-1, for [uuid5] *)

Fixpoint extend1 (k : nat) (w : list N) : list N :=
  match k with
  | O => w
  | S k =>
      extend1 k (rotl 1 (N.lxor (N.lxor (at_ w 2) (at_ w 7)) (N.lxor (at_ w 13) (at_ w 15))) :: w)
  end.

Definition f1 (t : nat) (b c d : N) : N * N :=
  if Nat.ltb t 20 then (N.lor (N.land b c) (N.land (not32 b) d), 1518500249)
  else if Nat.ltb t 40 then (N.lxor (N.lxor b c) d, 1859775393)
  else if Nat.ltb t 60
       then (N.lor (N.lor (N.land b c) (N.land b d)) (N.land c d), 2400959708)
       else (N.lxor (N.lxor b c) d, 3395469782).

Definition round1 (st : list N) (tw : nat * N) : list N :=
  match st with
  | [a; b; c; d; e] =>
      let '(f, k) := f1 tw.1 b c d in
      [w32 (rotl 5 a + f + e + k + tw.2); a; rotl 30 b; c; d]
  | _ => st
  end.

Definition compress1 (st block : list N) : list N :=
  let w := rev (extend1 64 (rev block)) in
  zip_with add32 st (foldl round1 st (zip (seq 0 80) w)).

Definition sha1 (l : list N) : list N :=
  mbind (be_bytes 4)
    (foldl compress1 [1732584193; 4023233417; 2562383102; 271733878; 3285377520] (blocks_of l)).

(** ** Base64 *)

Definition b64_char (n : N) : N :=
  if n <? 26 then 65 + n else if n <? 52 then 71 + n else if n <? 62 then n - 4
  else if n =? 62 then 43 else 47.

(** [base64.b64encode(l).decode()]. *)
Fixpoint b64encode (l : list N) : string :=
  match l with
  | a :: b :: c :: l =>
      string_of_bytes (map b64_char [a / 4; a mod 4 * 16 + b / 16; b mod 16 * 4 + c / 64; c mod 64])
        +:+ b64encode l
  | [a; b] =>
      string_of_bytes (map b64_char [a / 4; a mod 4 * 16 + b / 16; b mod 16 * 4]) +:+ "="
  | [a] => string_of_bytes (map b64_char [a / 4; a mod 4 * 16]) +:+ "=="
  | [] => EmptyString
  end.

(** ** UUIDs *)

(** The canonical text [8-4-4-4-12] of sixteen bytes. *)
Definition uuid_str (l : list N) : string :=
  hexdigest (take 4 l) +:+ "-" +:+ hexdigest (take 2 (drop 4 l)) +:+ "-"
    +:+ hexdigest (take 2 (drop 6 l)) +:+ "-" +:+ hexdigest (take 2 (drop 8 l)) +:+ "-"
    +:+ hexdigest (take 6 (drop 10 l)).

Definition hex_digit_val (c : ascii) : option N :=
  let n := N_of_ascii c in
  if (48 <=? n) && (n <=? 57) then Some (n - 48)
  else if (97 <=? n) && (n <=? 102) then Some (n - 87)
  else if (65 <=? n) && (n <=? 70) then Some (n - 55) else None.

Fixpoint hex_bytes (s : string) : option (list N) :=
  match s with
  | EmptyString => Some []
  | String a (String b s) =>
      a ← hex_digit_val a; b ← hex_digit_val b; l ← hex_bytes s; Some ((a * 16 + b) :: l)
  | _ => None
  end.

Fixpoint str_remove (c : ascii) (s : string) : string :=
  match s with
  | EmptyString => EmptyString
  | String d s => if Ascii.eqb c d then str_remove c s else String d (str_remove c s)
  end.

Fixpoint str_remove_word (w : string) (n : nat) (s : string) : string :=
  match n with
  | O => s
  | S n =>
      match s with
      | EmptyString => EmptyString
      | String c s' =>
          if startswith w s then str_remove_word w n (removeprefix w s)
          else String c (str_remove_word w n s')
      end
  end.

(** [s.strip("{}")]. *)
Fixpoint lstrip_braces (s : string) : string :=
  match s with
  | String c s' =>
      if Ascii.eqb c (byte 123) || Ascii.eqb c (byte 125) then lstrip_braces s' else s
  | EmptyString => s
  end.
Definition strip_braces (s : string) : string :=
  str_rev EmptyString (lstrip_braces (str_rev EmptyString (lstrip_braces s))).

(** [uuid.UUID(s)]: the prefixes [urn:] and [uuid:], braces and hyphens are
    dropped, then 32 hex digits must remain.  Python's [int(s, 16)] would also
    take an underscore or a sign among them; those are rejected here. *)
Definition parse_uuid (s : string) : option (list N) :=
  let n := String.length s in
  let s := str_remove_word "uuid:" n (str_remove_word "urn:" n s) in
  let s := str_remove (byte 45) (strip_braces s) in
  if Nat.eqb (String.length s) 32 then hex_bytes s else None.

(** [uuid.uuid5(ns, name)]: SHA-1, with the version and variant bits set. *)
Definition uuid5 (ns : list N) (name : string) : list N :=
  let h := take 16 (sha1 (ns ++ bytes_of name)%list) in
  <[8%nat := N.lor 128 (N.land (at_ h 8) 63)]>
    (<[6%nat := N.lor 80 (N.land (at_ h 6) 15)]> h).

Example sha256_abc :
  sha256_hex "abc" = "ba7816bf8f01cfea414140de5dae2223b00361a396177a9cb410ff61f20015ad".
Proof. vm_compute. reflexivity. Qed.
