(* ===== verification/Metrics.v ===== *)
(** * Metrics registry (shared/metrics.py)

    Counters keyed by a metric name and its sorted labels, in insertion order.
    The lock that guards them is not modelled: each operation below is one
    critical section of the code. *)

From S2P Require Import Prelude PyStr PyFloat PyVal.
Local Open Scope string_scope.

(** Metric names. *)
Definition EVENTS_EMITTED : string := "cavi_events_emitted_total".
Definition EVENTS_DISPATCHED : string := "cavi_events_dispatched_total".
Definition DEADLETTERS : string := "cavi_deadletters_total".
Definition ERP_WRITES : string := "cavi_erp_writes_total".
Definition ERP_WRITE_FAILURES : string := "cavi_erp_write_failures_total".
Definition ERP_WRITE_SECONDS : string := "cavi_erp_write_seconds_total".
Definition BREAKER_OPENS : string := "cavi_erp_breaker_opens_total".
Definition RECONCILIATIONS : string := "cavi_erp_reconciliations_total".
Definition DRIFT_FOUND : string := "cavi_erp_drift_total".

Definition labels : Type := list (string * string).
Definition series : Type := (string * labels)%type.
Definition metrics : Type := list (series * float).

Definition one : float := float_of_Z 1.

(** [(name, tuple(sorted(labels.items())))]; keyword labels have distinct names. *)
Definition series_key (name : string) (ls : labels) : series := (name, sort_dict ls).

Fixpoint mget (k : series) (m : metrics) : option float :=
  match m with
  | [] => None
  | (k', v) :: m => if decide (k = k') then Some v else mget k m
  end.

(** [self._counters[key] += value] on a [defaultdict(float)]. *)
Fixpoint madd (k : series) (v : float) (m : metrics) : metrics :=
  match m with
  | [] => [(k, fadd fzero v)]
  | (k', w) :: m => if decide (k = k') then (k', fadd w v) :: m else (k', w) :: madd k v m
  end.

Definition inc (name : string) (v : float) (ls : labels) (m : metrics) : metrics :=
  madd (series_key name ls) v m.

Definition value (name : string) (ls : labels) (m : metrics) : float :=
  default fzero (mget (series_key name ls) m).

Definition reset (m : metrics) : metrics := [].

(** [_render]: [name{k="v",...}]. *)
Definition render (k : series) : string :=
  match k.2 with
  | [] => k.1
  | ls => k.1 +:+ "{" +:+ join "," (map (λ p, p.1 +:+ "=" +:+ dquote +:+ p.2 +:+ dquote) ls)
            +:+ "}"
  end.

Definition snapshot (m : metrics) : list (string * float) :=
  dict_of (map (λ p, (render p.1, p.2)) m).

(** Tuple order on the keys: by name, then label by label. *)
Fixpoint labels_leb (a b : labels) : bool :=
  match a, b with
  | [], _ => true
  | _ :: _, [] => false
  | (k, v) :: a, (k', v') :: b =>
      if String.eqb k k'
      then if String.eqb v v' then labels_leb a b else String.leb v v'
      else String.leb k k'
  end.
Definition series_le (p q : series * float) : Prop :=
  Is_true (if String.eqb p.1.1 q.1.1 then labels_leb p.1.2 q.1.2 else String.leb p.1.1 q.1.1).
#[export] Instance series_le_dec : RelDecision series_le.
Proof. intros p q. unfold series_le. apply _. Defined.

Definition prometheus (m : metrics) : string :=
  join EmptyString
    (map (λ p, render p.1 +:+ " " +:+ float_repr p.2 +:+ newline) (merge_sort series_le m)).

Lemma mget_madd k k' v m :
  mget k' (madd k v m)
  = if decide (k = k') then Some (fadd (default fzero (mget k m)) v) else mget k' m.
Proof.
  induction m as [|[k1 w] m IH]; simpl.
  - repeat case_decide; naive_solver.
  - destruct (decide (k = k1)) as [->|]; simpl; repeat case_decide; naive_solver.
Qed.

(** One increment adds to exactly its own series, however the labels are ordered. *)
Lemma value_inc name ls v m name' ls' :
  value name' ls' (inc name v ls m)
  = if decide (series_key name ls = series_key name' ls')
    then fadd (value name ls m) v else value name' ls' m.
Proof. unfold value, inc. rewrite mget_madd. by case_decide. Qed.

Lemma series_key_perm name ls ls' :
  wf_dict ls → ls ≡ₚ ls' → series_key name ls = series_key name ls'.
Proof. intros. unfold series_key. f_equal. by apply sort_dict_proper. Qed.
