(* ===== verification/Contract.v ===== *)
(** * The event envelope (agents/base/contract.py)

    [event] is the dataclass, [to_dict] and [from_dict] its wire form.  The
    facts: the two are inverse, and the envelope survives the JSON text that
    travels on the bus. *)

From S2P Require Import Prelude PyStr PyFloat PyVal Json JsonText JsonFacts.
Local Open Scope string_scope.

Record event : Type := Event {
  ev_subject : string;
  ev_schema_version : Z;
  ev_source : string;
  ev_payload : pydict;
  ev_id : string;
  ev_correlation_id : option string;
  ev_tenant_id : option string;
}.

Definition to_dict (e : event) : pydict :=
  [("id", VStr (ev_id e));
   ("subject", VStr (ev_subject e));
   ("schema_version", VInt (ev_schema_version e));
   ("source", VStr (ev_source e));
   ("correlation_id", opt_str (ev_correlation_id e));
   ("tenant_id", opt_str (ev_tenant_id e));
   ("payload", VDict (ev_payload e))].

(** The reads happen in the order of the keyword arguments. *)
Definition from_dict (data : pydict) : result event :=
  i ← get_str "id" data;
  s ← get_str "subject" data;
  v ← getitem "schema_version" data;
  v ← as_int v;
  src ← get_str "source" data;
  c ← as_opt_str (get_or "correlation_id" VNone data);
  t ← as_opt_str (get_or "tenant_id" VNone data);
  p ← get_dict "payload" data;
  Ok (Event s v src p i c t).

(** Envelopes whose strings are text and whose payload is well formed. *)
Definition wf_event (e : event) : Prop := wf_val (VDict (to_dict e)).

(** What the bus carries for an event: [json.dumps(event.to_dict())]. *)
Definition wire (e : event) : string := dumps Spaced (VDict (to_dict e)).

(** What [run] makes of a message body. *)
Definition parse_wire (s : string) : result event :=
  match loads s with
  | Some (VDict d) => from_dict d
  | Some _ => raise_r TypeError "message body is not an object"
  | None => raise_r JSONDecodeError "invalid JSON"
  end.

Lemma as_opt_str_opt o : as_opt_str (opt_str o) = Ok o.
Proof. by destruct o. Qed.

Lemma from_to_dict e : from_dict (to_dict e) = Ok e.
Proof.
  destruct e as [s v src p i c t]. unfold from_dict, get_str, get_dict, get_or, getitem.
  cbn. rewrite !as_opt_str_opt. done.
Qed.

(** Extra keys, such as the [error] of a dead-letter envelope, are ignored. *)
Lemma from_dict_extra e k v :
  k ∉ dkeys (to_dict e) → from_dict (dset k v (to_dict e)) = Ok e.
Proof.
  intros Hk. destruct e as [s n src p i c t].
  unfold from_dict, get_str, get_dict, get_or, getitem.
  rewrite !dget_dset_ne; [|intros ->; apply Hk; set_solver..].
  cbn. rewrite !as_opt_str_opt. done.
Qed.

Lemma wire_roundtrip e : wf_event e → parse_wire (wire e) = Ok e.
Proof.
  intros He. unfold parse_wire, wire. rewrite loads_dumps by done. apply from_to_dict.
Qed.

Lemma ascii_event_wf e : ascii_val (VDict (to_dict e)) = true → wf_event e.
Proof. apply ascii_val_wf. Qed.

(** What a read that succeeds has found. *)
Lemma get_str_inv k d s : get_str k d = Ok s → get_or k VNone d = VStr s.
Proof. unfold get_str, getitem, get_or. by destruct (dget k d) as [[]|]; intros [= ->]. Qed.

Lemma get_dict_inv k d p : get_dict k d = Ok p → get_or k VNone d = VDict p.
Proof. unfold get_dict, getitem, get_or. by destruct (dget k d) as [[]|]; intros [= ->]. Qed.

Lemma getitem_inv k d v : getitem k d = Ok v → get_or k VNone d = v.
Proof. unfold getitem, get_or. by destruct (dget k d); intros [= ->]. Qed.

Lemma as_opt_str_inv v o : as_opt_str v = Ok o → v = opt_str o.
Proof. by destruct v; intros [= <-]. Qed.

Lemma as_int_inv v n : as_int v = Ok n → v = VInt n.
Proof. by destruct v; intros [= <-]. Qed.

(** An envelope that reads as [e] agrees with [to_dict e] on its keys; the two
    optional ones may be absent. *)
Lemma from_dict_agrees d e k :
  from_dict d = Ok e → k ∈ dkeys (to_dict e) → get_or k VNone d = get_or k VNone (to_dict e).
Proof.
  unfold from_dict. intros E.
  apply result_bind_ok in E as (i & Ei%get_str_inv & E).
  apply result_bind_ok in E as (s & Es%get_str_inv & E).
  apply result_bind_ok in E as (v & Ev%getitem_inv & E).
  apply result_bind_ok in E as (n & En & E).
  apply result_bind_ok in E as (src & Esrc%get_str_inv & E).
  apply result_bind_ok in E as (c & Ec%as_opt_str_inv & E).
  apply result_bind_ok in E as (t & Et%as_opt_str_inv & E).
  apply result_bind_ok in E as (p & Ep%get_dict_inv & E).
  apply as_int_inv in En as ->.
  injection E as <-. unfold dkeys. simpl.
  rewrite !elem_of_cons, elem_of_nil. intros Hk. destruct_or?; subst k; done.
Qed.

(** C26: the envelope survives the bus.  The text published for a well-formed
    event reads back as the event, also with a further key in the envelope as
    dead letters have; two well-formed events with the same text are equal; and
    an envelope from elsewhere that reads as [e] agrees with [to_dict e] on each
    key, so that reading drops no field. *)
Theorem event_roundtrip e :
  wf_event e →
  parse_wire (wire e) = Ok e
  ∧ (∀ k v, k ∉ dkeys (to_dict e) → wf_val (VDict (dset k v (to_dict e))) →
       parse_wire (dumps Spaced (VDict (dset k v (to_dict e)))) = Ok e)
  ∧ (∀ e', wf_event e' → wire e' = wire e → e' = e)
  ∧ (∀ d k, from_dict d = Ok e → k ∈ dkeys (to_dict e) →
       get_or k VNone d = get_or k VNone (to_dict e)).
Proof.
  intros He. split_and!.
  - by apply wire_roundtrip.
  - intros k v Hk Hw. unfold parse_wire. rewrite loads_dumps by done. by apply from_dict_extra.
  - intros e' He' E. pose proof (wire_roundtrip _ He'). rewrite E, wire_roundtrip in * by done.
    congruence.
  - intros d k. apply from_dict_agrees.
Qed.

#[export] Hint Resolve from_to_dict : cavi.

(** A concrete envelope. *)
Definition sample_event : event :=
  Event "ledger.entry" 2 "forge" [("memo", VStr "paid"); ("lines", VList [VInt (-5); VDict []])]
    "id-1" (Some "c-1") None.

Lemma event_roundtrip_witness :
  wf_event sample_event ∧ parse_wire (wire sample_event) = Ok sample_event
  ∧ parse_wire (dumps Spaced (VDict (dset "error" (VStr "bad") (to_dict sample_event))))
    = Ok sample_event.
Proof.
  assert (wf_event sample_event) as Hw by (apply ascii_event_wf; reflexivity).
  destruct (event_roundtrip sample_event Hw) as (H1 & H2 & _).
  refine (conj Hw (conj H1 (H2 "error" (VStr "bad") _ _))).
  - apply (bool_decide_unpack _). vm_compute. exact I.
  - apply ascii_val_wf. reflexivity.
Defined.
