(* ===== verification/Registry.v ===== *)
(** * The schema registry client (agents/base/registry.py)

    The registry keeps the directory of schema files (file name to text, as on
    disk) and the cache of parsed schemas.  The JSON Schema checker is the
    [jsonschema] package: the parameter [jsonschema_validate], which returns
    the exception [jsonschema.validate] raises, if any. *)

From S2P Require Import Prelude PyStr PyFloat PyVal Json.
Local Open Scope string_scope.

(** What the program takes from outside: the [jsonschema] package, random
    UUIDs and the clocks.  The [n]-th read of a source gives its [n]-th value. *)
Class Externals : Type := {
  jsonschema_validate : pyval → pyval → option exn;
  uuid4 : nat → string;
  clock_iso : nat → string;
  clock_time : nat → float;
  clock_monotonic : nat → float;
}.

Record registry : Type := Registry {
  reg_dir : string;
  reg_files : gmap string string;
  reg_cache : gmap string pyval;
}.

Definition schema_key (subject : string) (version : Z) : string :=
  subject +:+ ".v" +:+ Z_str version.

(** The file name; the directory only shows in messages.  Subjects hold no
    slash, so the path stays in the directory. *)
Definition schema_file (subject : string) (version : Z) : string :=
  schema_key subject version +:+ ".json".

Definition schema_path (r : registry) (subject : string) (version : Z) : string :=
  reg_dir r +:+ "/" +:+ schema_file subject version.

Definition cache_schema (k : string) (v : pyval) (r : registry) : registry :=
  Registry (reg_dir r) (reg_files r) (<[k:=v]> (reg_cache r)).

Definition registry_get (subject : string) (version : Z) : M registry pyval := λ r,
  let key := schema_key subject version in
  match reg_cache r !! key with
  | Some v => (Ok v, r)
  | None =>
      match reg_files r !! schema_file subject version with
      | None => (raise_r SchemaNotFound
                   ("No schema registered for " +:+ key +:+ " at "
                      +:+ schema_path r subject version), r)
      | Some text =>
          match loads text with
          | Some v => (Ok v, cache_schema key v r)
          | None => (raise_r JSONDecodeError ("in " +:+ schema_path r subject version), r)
          end
      end
  end.

(** [validate]: looks the schema up, then checks the payload. *)
Definition validate `{Externals} (subject : string) (version : Z) (payload : pydict)
    : M registry unit :=
  schema ← registry_get subject version;
  match jsonschema_validate schema (VDict payload) with
  | None => mret tt
  | Some e => of_result (Err e)
  end.

(** ** The cache never changes an answer

    [schema_of] is what a fresh client reads for a key; the invariant is that
    every cached schema is that one. *)
Definition schema_of (r : registry) (subject : string) (version : Z) : result pyval :=
  match reg_files r !! schema_file subject version with
  | None => raise_r SchemaNotFound
              ("No schema registered for " +:+ schema_key subject version +:+ " at "
                 +:+ schema_path r subject version)
  | Some text =>
      match loads text with
      | Some v => Ok v
      | None => raise_r JSONDecodeError ("in " +:+ schema_path r subject version)
      end
  end.

Definition registry_ok (r : registry) : Prop :=
  ∀ k v, reg_cache r !! k = Some v → ∃ text,
    reg_files r !! (k +:+ ".json") = Some text ∧ loads text = Some v.

(** Same files: a run of the client changes only its cache. *)
Definition same_files (r r' : registry) : Prop :=
  reg_dir r = reg_dir r' ∧ reg_files r = reg_files r'.

#[export] Instance same_files_equiv : Equivalence same_files.
Proof. unfold same_files. split; [done|by intros ?? []|intros ??? [] []; split; congruence]. Qed.

#[export] Instance schema_of_proper : Proper (same_files ==> (=) ==> (=) ==> (=)) schema_of.
Proof. intros r r' [E1 E2] ?? -> ?? ->. unfold schema_of, schema_path. by rewrite E1, E2. Qed.

Lemma registry_get_spec subject version r :
  registry_ok r → ∃ r',
    registry_get subject version r = (schema_of r subject version, r')
    ∧ registry_ok r' ∧ same_files r r'.
Proof.
  intros Hr. unfold registry_get, schema_of, schema_file.
  destruct (reg_cache r !! _) as [v|] eqn:Ec.
  { destruct (Hr _ _ Ec) as (text & -> & ->). by exists r. }
  destruct (reg_files r !! _) as [text|] eqn:Ef; [|by exists r].
  destruct (loads text) as [v|] eqn:El; [|by exists r].
  eexists. split; [done|]. split; [|done]. intros k w. simpl.
  rewrite lookup_insert. case_decide as Ek; [|apply Hr].
  intros [= <-]. subst k. by exists text.
Qed.

Section validate.
Context `{Externals}.

(** [validate] as a function of the files alone. *)
Definition check (r : registry) (subject : string) (version : Z) (payload : pydict)
    : result unit :=
  schema ← schema_of r subject version;
  match jsonschema_validate schema (VDict payload) with
  | None => Ok tt
  | Some e => Err e
  end.

#[export] Instance check_proper : Proper (same_files ==> (=) ==> (=) ==> (=) ==> (=)) check.
Proof. intros r r' E ?? -> ?? -> ?? ->. unfold check. by rewrite E. Qed.

Lemma validate_spec subject version payload r :
  registry_ok r → ∃ r',
    validate subject version payload r = (check r subject version payload, r')
    ∧ registry_ok r' ∧ same_files r r'.
Proof.
  intros Hr. destruct (registry_get_spec subject version r Hr) as (r' & E & Hr' & Hs).
  exists r'. split; [|done]. unfold validate, check.
  destruct (schema_of r subject version) as [v|e].
  - rewrite (M_bind_run _ _ _ _ _ E). simpl. by destruct (jsonschema_validate v _).
  - by rewrite (M_bind_run_err _ _ _ _ _ E).
Qed.
End validate.

(** ** The registered contracts *)

(** The files of [schema_registry/schemas]. *)
Definition schema_files : list string :=
  ["beacon.report.generated.v1.json"; "deadletter.envelope.v1.json";
   "forge.completed.v1.json"; "forge.write.approved.v1.json"; "forge.write.completed.v1.json";
   "forge.write.rejected.v1.json"; "forge.write.requested.v1.json";
   "forge.write.requested.v2.json"; "forge.write.requested.v3.json";
   "ledger.drift.detected.v1.json"; "ledger.entry.v1.json"; "ledger.entry.v2.json";
   "ledger.posted.v1.json"; "ledger.query.completed.v1.json"; "ledger.query.failed.v1.json";
   "ledger.reconciliation.completed.v1.json"; "ledger.rejected.v1.json";
   "mapper.transform.completed.v1.json"; "mapper.transform.failed.v1.json";
   "ticker.event.received.v1.json"; "ticker.price.v1.json"; "ticker.reconciliation.due.v1.json";
   "vault.secret.denied.v1.json"; "vault.secret.granted.v1.json"].

(** No version of the subject has a file. *)
Definition unregistered (subject : string) : bool :=
  forallb (λ f, negb (startswith (subject +:+ ".v") f)) schema_files.

Definition repository_files (r : registry) : Prop :=
  ∀ f, f ∈ dom (reg_files r) ↔ f ∈ schema_files.

Lemma unregistered_schema r subject version :
  repository_files r → unregistered subject = true →
  schema_of r subject version
  = raise_r SchemaNotFound ("No schema registered for " +:+ schema_key subject version
      +:+ " at " +:+ schema_path r subject version).
Proof.
  intros Hr Hu. unfold schema_of.
  destruct (reg_files r !! schema_file subject version) as [text|] eqn:E; [|done].
  apply elem_of_dom_2, Hr in E. unfold unregistered in Hu.
  rewrite forallb_forall in Hu. specialize (Hu _ (proj1 (list_elem_of_In _ _) E)).
  unfold schema_file, schema_key in Hu. rewrite !str_app_assoc, <-str_app_assoc in Hu.
  by rewrite startswith_app in Hu.
Qed.

(** ** A concrete outside world, for the examples *)
Module Demo.
Definition uuid_of (n : nat) : string :=
  "00000000-0000-4000-8000-0000000000" +:+ hex2 (N.of_nat n).

(** A tally: injective, and quick to compute. *)
Fixpoint str_of_nat (n : nat) : string :=
  match n with O => EmptyString | S n => String (byte 73) (str_of_nat n) end.

Lemma str_of_nat_inj j k : "w-" +:+ str_of_nat j = "w-" +:+ str_of_nat k → j = k.
Proof.
  intros E%str_app_inj_l. revert k E. induction j as [|j IH]; intros [|k] E; try done.
  simpl in E. injection E as E. by rewrite (IH k).
Qed.

(** Accepts every payload. *)
Definition externals : Externals := {|
  jsonschema_validate _ _ := None;
  uuid4 := uuid_of;
  clock_iso _ := "2024-01-01T00:00:00+00:00";
  clock_time n := float_of_Z (Z.of_nat n);
  clock_monotonic n := float_of_Z (Z.of_nat n);
|}.

(** Ids that never repeat. *)
Definition unique : Externals := {|
  jsonschema_validate _ _ := None;
  uuid4 n := "w-" +:+ str_of_nat n;
  clock_iso _ := "2024-01-01T00:00:00+00:00";
  clock_time n := float_of_Z (Z.of_nat n);
  clock_monotonic n := float_of_Z (Z.of_nat n);
|}.

(** Rejects every payload. *)
Definition strict : Externals := {|
  jsonschema_validate _ _ := Some (Exn ValidationError "invalid");
  uuid4 := uuid_of;
  clock_iso _ := "2024-01-01T00:00:00+00:00";
  clock_time n := float_of_Z (Z.of_nat n);
  clock_monotonic n := float_of_Z (Z.of_nat n);
|}.

(** Every schema file holds the schema that allows anything. *)
Definition files : gmap string string := list_to_map ((λ f, (f, "{}")) <$> schema_files).
Definition registry : Registry.registry := Registry "schemas" files ∅.

(** The same with a schema for more subjects. *)
Definition registry_with (subjects : list string) : Registry.registry :=
  Registry "schemas"
    (list_to_map ((λ f, (f, "{}"))
       <$> (((λ s, schema_file s 1) <$> subjects) ++ schema_files)%list)) ∅.

Lemma registry_with_fresh subjects : registry_ok (registry_with subjects).
Proof. intros k v H. change (reg_cache (registry_with subjects)) with (∅ : gmap string pyval) in H.
  by rewrite lookup_empty in H. Qed.

Lemma registry_fresh : registry_ok registry.
Proof. intros k v H. change (reg_cache registry) with (∅ : gmap string pyval) in H.
  by rewrite lookup_empty in H. Qed.

Lemma registry_files : repository_files registry.
Proof.
  intros f. change (reg_files registry) with files. unfold files.
  rewrite dom_list_to_map_L, elem_of_list_to_set, <-list_fmap_compose.
  unfold compose. cbn [fst]. by rewrite list_fmap_id.
Qed.
End Demo.
