(* ===== verification/HashChain.v ===== *)
(** * The hash chain (shared/audit.py)

    [chain_hash] links an event to its predecessor's hash; [verify_chain]
    recomputes the links and reports each break.  The theorems: a log verifies
    exactly when its hashes are the recomputed ones, key order never matters,
    and two verifying logs with the same last hash hold the same events, or the
    run exhibits a SHA-256 collision between two of its links, or a link that
    hashes to the genesis value. *)

From S2P Require Import Prelude PyStr PyFloat PyVal Json JsonText JsonFacts Digest.
Local Open Scope string_scope.
Local Open Scope nat_scope.

Fixpoint str_repeat (n : nat) (s : string) : string :=
  match n with O => EmptyString | S n => s +:+ str_repeat n s end.

Definition GENESIS_HASH : string := "sha256:" +:+ str_repeat 64 "0".

Definition canonical_event (e : pydict) : string := dumps_sorted (VDict e).

(** [prev_hash + "\n" + canonical_event(event)]. *)
Definition material (prev : string) (e : pydict) : string :=
  prev +:+ newline +:+ canonical_event e.

Definition chain_hash (prev : string) (e : pydict) : string :=
  "sha256:" +:+ sha256_hex (material prev e).

Definition break_message (position : nat) (e : pydict) (recorded expected : string) : string :=
  "chain break at position " +:+ nat_str position +:+ " (event "
    +:+ py_str (get_or "id" (VStr "?") e) +:+ "): recorded " +:+ str_repr recorded
    +:+ ", expected " +:+ str_repr expected.

(** The loop of [verify_chain]; it goes on from the recorded hash. *)
Fixpoint verify_from (position : nat) (prev : string) (entries : list (pydict * string))
    : list string :=
  match entries with
  | [] => []
  | (e, recorded) :: entries =>
      let expected := chain_hash prev e in
      let rest := verify_from (S position) recorded entries in
      if String.eqb recorded expected then rest
      else break_message position e recorded expected :: rest
  end.

Definition verify_chain (entries : list (pydict * string)) (genesis : string) : list string :=
  verify_from 0 genesis entries.

(** ** Reference definition: the hashes an untouched log has *)
Fixpoint chain_of (prev : string) (es : list pydict) : list string :=
  match es with
  | [] => []
  | e :: es => let h := chain_hash prev e in h :: chain_of h es
  end.

#[export] Instance canonical_event_proper : Proper ((≡) ==> (=)) canonical_event.
Proof. intros d e E. unfold canonical_event. by apply dumps_sorted_proper, VDict_proper. Qed.
#[export] Instance material_proper : Proper ((=) ==> (≡) ==> (=)) material.
Proof. intros p ? <- d e E. unfold material. by rewrite E. Qed.
#[export] Instance chain_hash_proper : Proper ((=) ==> (≡) ==> (=)) chain_hash.
Proof. intros p ? <- d e E. unfold chain_hash. by rewrite E. Qed.

Lemma verify_from_nil n prev es hs :
  length es = length hs →
  verify_from n prev (zip es hs) = [] ↔ hs = chain_of prev es.
Proof.
  revert n prev hs. induction es as [|e es IH]; intros n prev [|h hs] Hl; try done.
  simpl. destruct (String.eqb_spec h (chain_hash prev e)) as [->|Hne].
  - rewrite IH by (simpl in Hl; lia). split; congruence.
  - split; [done|]. congruence.
Qed.

Lemma verify_from_app n prev l k :
  verify_from n prev (l ++ k)%list
  = (verify_from n prev l
     ++ verify_from (n + length l) (default prev (snd <$> last l)) k)%list.
Proof.
  revert n prev. induction l as [|[e h] l IH]; intros n prev; simpl.
  { by rewrite Nat.add_0_r. }
  rewrite IH, <-plus_n_Sm. simpl.
  assert (default h (snd <$> last l) = default prev (snd <$> last ((e, h) :: l))) as ->.
  { rewrite last_cons. by destruct (last l). }
  by destruct (String.eqb h _).
Qed.

(** Positions only show in the messages. *)
Lemma verify_from_shift n m prev l : verify_from n prev l = [] → verify_from m prev l = [].
Proof.
  revert n m prev. induction l as [|[e h] l IH]; intros n m prev; simpl; [done|].
  destruct (String.eqb h _); [apply IH|done].
Qed.

(** The number of breaks is the number of links that do not recompute. *)
Fixpoint broken_links (prev : string) (entries : list (pydict * string)) : nat :=
  match entries with
  | [] => 0
  | (e, h) :: l => (if decide (h = chain_hash prev e) then 0 else 1) + broken_links h l
  end.

Lemma verify_from_count n prev l : length (verify_from n prev l) = broken_links prev l.
Proof.
  revert n prev. induction l as [|[e h] l IH]; intros n prev; simpl; [done|].
  destruct (String.eqb_spec h (chain_hash prev e)); case_decide; try done; simpl;
    by rewrite IH.
Qed.

(** ** The material determines the event *)

Lemma length_hexdigest l : String.length (hexdigest l) = 2 * length l.
Proof.
  induction l; [done|]. cbn [hexdigest length]. rewrite length_app_str, IHl. simpl. lia.
Qed.

Lemma length_round256 st kw : length (round256 st kw) = length st.
Proof. by destruct st as [|? [|? [|? [|? [|? [|? [|? [|? [|? ?]]]]]]]]]. Qed.

Lemma length_compress256 st b : length (compress256 st b) = length st.
Proof.
  unfold compress256. rewrite length_zip_with.
  assert (∀ l st, length (foldl round256 st l) = length st) as ->; [|lia].
  intros l. induction l; intros st'; [done|]. simpl. by rewrite IHl, length_round256.
Qed.

Lemma length_sha256 l : length (sha256 l) = 32.
Proof.
  unfold sha256.
  assert (length (foldl compress256 h256 (blocks_of l)) = 8) as E.
  { generalize (blocks_of l). intros bs. change 8 with (length h256). generalize h256.
    induction bs; intros st; [done|]. simpl. by rewrite IHbs, length_compress256. }
  revert E. generalize (foldl compress256 h256 (blocks_of l)).
  assert (∀ k n, length (be_bytes k n) = k) as Hb.
  { induction k; intros n; [done|]. simpl. rewrite length_app, IHk. simpl. lia. }
  assert (∀ st, length (mbind (be_bytes 4) st) = 4 * length st) as Hl.
  { induction st; [done|]. change (mbind (be_bytes 4) (a :: st))
      with (be_bytes 4 a ++ mbind (be_bytes 4) st)%list.
    rewrite length_app, Hb, IHst. simpl. lia. }
  intros st E. rewrite Hl, E. done.
Qed.

(** Every link and the anchor are strings of one length. *)
Definition hash_length : nat := 71.
Lemma length_chain_hash prev e : String.length (chain_hash prev e) = hash_length.
Proof. unfold chain_hash, sha256_hex. by rewrite length_app_str, length_hexdigest, length_sha256. Qed.
Lemma length_genesis : String.length GENESIS_HASH = hash_length.
Proof. done. Qed.

Lemma str_app_inj_len (a b c d : string) :
  String.length a = String.length b → a +:+ c = b +:+ d → a = b ∧ c = d.
Proof.
  revert b. induction a as [|x a IH]; intros [|y b]; simpl; try done.
  intros Hl [= -> E]. destruct (IH b) as [-> ->]; [lia|done|done].
Qed.

Lemma material_inj p1 e1 p2 e2 :
  String.length p1 = String.length p2 → wf_val (VDict e1) → wf_val (VDict e2) →
  material p1 e1 = material p2 e2 → p1 = p2 ∧ e1 ≡ e2.
Proof.
  intros Hl H1 H2 E. apply str_app_inj_len in E as [-> E]; [|done]. split; [done|].
  apply str_app_inj_l in E. unfold canonical_event in E.
  apply dumps_sorted_equiv in E; [|done..].
  unfold equiv, pyval_equiv in E. simpl in E. by injection E.
Qed.

(** ** Tamper evidence *)

(** The links of a log: each event with the hash it is chained onto. *)
Fixpoint links (prev : string) (es : list pydict) : list (string * pydict) :=
  match es with
  | [] => []
  | e :: es => (prev, e) :: links (chain_hash prev e) es
  end.

(** Two of the links hash different texts to the same digest. *)
Definition collision (l1 l2 : list (string * pydict)) : Prop :=
  ∃ p1 e1 p2 e2, (p1, e1) ∈ l1 ∧ (p2, e2) ∈ l2
    ∧ material p1 e1 ≠ material p2 e2
    ∧ sha256_hex (material p1 e1) = sha256_hex (material p2 e2).

Lemma collision_mono l1 l2 k1 k2 : l1 ⊆ k1 → l2 ⊆ k2 → collision l1 l2 → collision k1 k2.
Proof. intros ?? (p1 & e1 & p2 & e2 & ? & ? & ?). exists p1, e1, p2, e2. set_solver. Qed.

Lemma links_snoc prev es e :
  links prev (es ++ [e])%list
  = (links prev es ++ [(default prev (last (chain_of prev es)), e)])%list.
Proof.
  revert prev. induction es as [|x es IH]; intros prev; simpl; [done|].
  rewrite IH. do 4 f_equal. rewrite last_cons. by destruct (last _).
Qed.

Lemma chain_of_snoc prev es e :
  chain_of prev (es ++ [e])%list
  = (chain_of prev es ++ [chain_hash (default prev (last (chain_of prev es))) e])%list.
Proof.
  revert prev. induction es as [|x es IH]; intros prev; simpl; [done|].
  rewrite IH. do 3 f_equal. rewrite last_cons. by destruct (last _).
Qed.

Lemma length_chain_of prev es : length (chain_of prev es) = length es.
Proof. revert prev. induction es; intros; simpl; [done|]. by rewrite IHes. Qed.

Lemma last_chain_length prev es :
  String.length prev = hash_length →
  String.length (default prev (last (chain_of prev es))) = hash_length.
Proof.
  revert prev. induction es as [|e es IH]; intros prev Hp; [done|].
  cbn [chain_of]. rewrite last_cons.
  specialize (IH (chain_hash prev e) (length_chain_hash _ _)).
  by destruct (last _); [|apply length_chain_hash].
Qed.

(** One of the links hashes to the anchor [g] itself. *)
Definition hits (g : string) (l : list (string * pydict)) : Prop :=
  ∃ p e, (p, e) ∈ l ∧ chain_hash p e = g.

Lemma hits_mono g l k : l ⊆ k → hits g l → hits g k.
Proof. intros ? (p & e & ? & ?). exists p, e. set_solver. Qed.

(** Same tip: same events, or a collision among the links, or a link that
    hashes to the anchor. *)
Lemma same_tip_same_log g es1 es2 :
  String.length g = hash_length →
  Forall (λ e, wf_val (VDict e)) es1 → Forall (λ e, wf_val (VDict e)) es2 →
  default g (last (chain_of g es1)) = default g (last (chain_of g es2)) →
  Forall2 (≡) es1 es2 ∨ collision (links g es1) (links g es2)
  ∨ hits g (links g es1 ++ links g es2)%list.
Proof.
  intros Hg. revert es2. induction es1 as [|e1 es1 IH] using rev_ind; intros es2 W1 W2 Ht;
    (destruct es2 as [|e2 es2 _] using rev_ind; [|apply Forall_app in W2 as [W2 [w2 _]%Forall_cons]]).
  - by left.
  - right. right. rewrite chain_of_snoc, last_snoc in Ht. rewrite links_snoc. simpl in Ht.
    eexists _, _. split; [|symmetry; exact Ht]. set_solver.
  - right. right. rewrite chain_of_snoc, last_snoc in Ht. rewrite links_snoc. simpl in Ht.
    eexists _, _. split; [|exact Ht]. set_solver.
  - apply Forall_app in W1 as [W1 [w1 _]%Forall_cons].
    rewrite !chain_of_snoc, !last_snoc in Ht. injection Ht as Ht. rewrite !links_snoc.
    set (p1 := default g (last (chain_of g es1))) in *.
    set (p2 := default g (last (chain_of g es2))) in *.
    assert (String.length p1 = hash_length ∧ String.length p2 = hash_length) as [Hp1 Hp2]
      by (by split; apply last_chain_length).
    destruct (decide (material p1 e1 = material p2 e2)) as [Em|Hne].
    + apply material_inj in Em as [Ep Ee]; [|congruence|done..].
      destruct (IH es2 W1 W2 Ep) as [H|[H|H]].
      * left. by apply Forall2_app; [|constructor].
      * right. left. eapply collision_mono; [| |exact H]; set_solver.
      * right. right. eapply hits_mono; [|exact H]. set_solver.
    + right. left. exists p1, e1, p2, e2. by split_and!; [set_solver|set_solver|done|].
Qed.

(** ** What the audit check promises *)

Lemma zip_fst_snd (l : list (pydict * string)) : l = zip l.*1 l.*2.
Proof. induction l as [|[e h] l IH]; [done|]. simpl. f_equal. exact IH. Qed.

Lemma verify_chain_spec l : verify_chain l GENESIS_HASH = [] ↔ l.*2 = chain_of GENESIS_HASH l.*1.
Proof.
  unfold verify_chain. rewrite (zip_fst_snd l) at 1. apply verify_from_nil.
  by rewrite !length_fmap.
Qed.

(** The last hash of a log, onto which the next entry is chained. *)
Definition tip_of (l : list (pydict * string)) : string := default GENESIS_HASH (last l.*2).

(** C22: the last hash pins the whole log, its length included.  Two logs that
    both verify and have the same tip hold the same events in the same order,
    up to the key order of each event; or among their links are two different
    texts with one SHA-256 digest; or one of the links hashes to the genesis
    value, sixty-four zeros. *)
Theorem tip_pins_log l1 l2 :
  Forall (λ e, wf_val (VDict e)) l1.*1 → Forall (λ e, wf_val (VDict e)) l2.*1 →
  verify_chain l1 GENESIS_HASH = [] → verify_chain l2 GENESIS_HASH = [] →
  tip_of l1 = tip_of l2 →
  Forall2 (≡) l1.*1 l2.*1
  ∨ collision (links GENESIS_HASH l1.*1) (links GENESIS_HASH l2.*1)
  ∨ hits GENESIS_HASH (links GENESIS_HASH l1.*1 ++ links GENESIS_HASH l2.*1)%list.
Proof.
  rewrite !verify_chain_spec. unfold tip_of. intros W1 W2 -> -> Ht.
  by apply same_tip_same_log.
Qed.

Lemma verify_chain_app l k :
  verify_chain (l ++ k)%list GENESIS_HASH
  = (verify_chain l GENESIS_HASH ++ verify_from (length l) (tip_of l) k)%list.
Proof. unfold verify_chain, tip_of. by rewrite verify_from_app, fmap_last. Qed.

Lemma verify_chain_cons l e h k :
  verify_chain (l ++ (e, h) :: k)%list GENESIS_HASH = [] ↔
  verify_chain l GENESIS_HASH = [] ∧ h = chain_hash (tip_of l) e
  ∧ verify_from (S (length l)) h k = [].
Proof.
  rewrite verify_chain_app. simpl. destruct (String.eqb_spec h (chain_hash (tip_of l) e)); split.
  - intros [? ?]%app_nil. done.
  - intros (-> & _ & ->). done.
  - intros [_ ?]%app_nil. done.
  - intros (_ & ? & _). done.
Qed.

(** Two texts that differ and hash alike. *)
Definition collides (a b : string) : Prop := a ≠ b ∧ sha256_hex a = sha256_hex b.

Lemma chain_hash_differs p1 e1 p2 e2 :
  chain_hash p1 e1 ≠ chain_hash p2 e2
  ∨ material p1 e1 = material p2 e2 ∨ collides (material p1 e1) (material p2 e2).
Proof.
  destruct (decide (chain_hash p1 e1 = chain_hash p2 e2)) as [E|]; [|by left]. right.
  destruct (decide (material p1 e1 = material p2 e2)); [by left|]. right. split; [done|].
  by apply str_app_inj_l in E.
Qed.

Lemma tip_of_length l :
  verify_chain l GENESIS_HASH = [] → String.length (tip_of l) = hash_length.
Proof.
  intros Hl%verify_chain_spec. unfold tip_of. rewrite Hl. by apply last_chain_length.
Qed.

(** C23: edits and deletions inside a verified log are reported where they are.
    Replacing an event by one with other content, the hashes left alone, gives
    exactly one report, at its position; removing an entry that has a successor
    gives exactly one report, at the successor.  The only escape is a SHA-256
    collision. *)
Theorem tamper_reported l e h k e' :
  Forall (λ e, wf_val (VDict e)) (e :: e' :: (k.*1)) →
  verify_chain (l ++ (e, h) :: k)%list GENESIS_HASH = [] →
  (¬ e' ≡ e →
     verify_chain (l ++ (e', h) :: k)%list GENESIS_HASH
       = [break_message (length l) e' h (chain_hash (tip_of l) e')]
     ∨ collides (material (tip_of l) e) (material (tip_of l) e'))
  ∧ (∀ e1 h1 k1, k = (e1, h1) :: k1 → h ≠ tip_of l →
     verify_chain (l ++ k)%list GENESIS_HASH
       = [break_message (length l) e1 h1 (chain_hash (tip_of l) e1)]
     ∨ collides (material h e1) (material (tip_of l) e1)).
Proof.
  intros [We [We' Wk]%Forall_cons]%Forall_cons Hv.
  apply verify_chain_cons in Hv as (Hl & Hh & Hk).
  pose proof (tip_of_length l Hl) as Ht. split.
  - intros Hne. rewrite verify_chain_app, Hl. simpl.
    destruct (chain_hash_differs (tip_of l) e (tip_of l) e') as [Hd|[Em|Hc]]; [|exfalso|by right].
    + left. rewrite (proj2 (String.eqb_neq _ _)) by congruence. by rewrite Hk.
    + apply material_inj in Em as [_ Em]; [|done..]. by apply Hne.
  - intros e1 h1 k1 -> Hne. rewrite verify_chain_app, Hl. simpl. simpl in Hk.
    destruct (String.eqb_spec h1 (chain_hash h e1)) as [Eh1|]; [|done].
    destruct (chain_hash_differs h e1 (tip_of l) e1) as [Hd|[Em|Hc]]; [|exfalso|by right].
    + left. rewrite (proj2 (String.eqb_neq _ _)) by congruence. f_equal.
      by apply (verify_from_shift (S (S (length l)))).
    + simpl in Wk. apply Forall_cons in Wk as [W1 _].
      apply material_inj in Em as [Em _]; [done| |done..].
      rewrite Ht, Hh. apply length_chain_hash.
Qed.

(** Cutting the tail goes unnoticed.  Any prefix of a log that verifies
    verifies too, the empty one included. *)
Theorem truncation_unnoticed l n :
  verify_chain l GENESIS_HASH = [] → verify_chain (take n l) GENESIS_HASH = [].
Proof.
  intros Hl. rewrite <-(take_drop n l), verify_chain_app in Hl. by apply app_nil in Hl as [? _].
Qed.

(** ** Examples *)
Section witnesses.
Definition sale (amount : Z) : pydict := [("id", VStr "e-1"); ("amount", VInt amount)].
Definition sale' : pydict := [("amount", VInt 5); ("id", VStr "e-1")].

(** The log of the given events. *)
Definition chained_log (es : list pydict) : list (pydict * string) :=
  zip es (chain_of GENESIS_HASH es).

Lemma chained_log_ok es : verify_chain (chained_log es) GENESIS_HASH = [].
Proof. apply verify_from_nil; [by rewrite length_chain_of|done]. Qed.

Lemma sale_wf amount : wf_val (VDict (sale amount)).
Proof. apply ascii_val_wf. reflexivity. Qed.

Lemma sale_equiv : sale 5 ≡ sale'.
Proof. done. Qed.

(** Two logs whose last events differ in the order of their keys. *)
Lemma tip_pins_log_witness :
  tip_of (chained_log [sale 7; sale 5]) = tip_of (chained_log [sale 7; sale'])
  ∧ [sale 7; sale 5] ≠ [sale 7; sale']
  ∧ (Forall2 (≡) [sale 7; sale 5] [sale 7; sale']
     ∨ collision (links GENESIS_HASH [sale 7; sale 5]) (links GENESIS_HASH [sale 7; sale'])
     ∨ hits GENESIS_HASH (links GENESIS_HASH [sale 7; sale 5] ++ links GENESIS_HASH [sale 7; sale'])%list).
Proof.
  assert (Ht : tip_of (chained_log [sale 7; sale 5]) = tip_of (chained_log [sale 7; sale']))
    by (vm_compute; reflexivity).
  split; [exact Ht|]. split; [discriminate|].
  refine (tip_pins_log (chained_log [sale 7; sale 5]) (chained_log [sale 7; sale']) _ _
    (chained_log_ok _) (chained_log_ok _) Ht);
    repeat (apply Forall_cons; split; [apply ascii_val_wf; reflexivity|]); apply Forall_nil; exact I.
Defined.

Lemma tamper_reported_witness :
  let h := chain_hash GENESIS_HASH (sale 5) in
  verify_chain [(sale 500, h)] GENESIS_HASH
    = [break_message 0 (sale 500) h (chain_hash GENESIS_HASH (sale 500))]
  ∨ collides (material GENESIS_HASH (sale 5)) (material GENESIS_HASH (sale 500)).
Proof.
  intros h. destruct (tamper_reported [] (sale 5) h [] (sale 500)) as [Hedit _].
  - repeat (apply Forall_cons; split; [apply sale_wf|]). apply Forall_nil. exact I.
  - exact (chained_log_ok [sale 5]).
  - apply Hedit. discriminate.
Defined.

Lemma truncation_unnoticed_witness :
  verify_chain (take 1 (chained_log [sale 5; sale 7])) GENESIS_HASH = [].
Proof. exact (truncation_unnoticed _ 1 (chained_log_ok [sale 5; sale 7])). Defined.
End witnesses.
