(* ===== verification/EventStore.v ===== *)
(** * The durable event log (shared/events.py, scripts/audit_export.py)

    [EventStore] is the protocol the agents rely on, and [EventStoreLaws] what
    an implementation promises: the log only grows, a redelivered event is
    recorded once, and the chain over the log verifies.  [InMemoryEventStore] and
    [PostgresEventStore] are the two stores; both discharge the laws.  [Export] is the
    audit export and its check. *)

From S2P Require Import Prelude PyStr PyFloat PyVal Json JsonText JsonFacts Digest HashChain Contract.
Local Open Scope string_scope.

(** [_as_uuid]: nothing for a falsy value and for text that is no UUID. *)
Definition as_uuid (v : pyval) : option (list N) :=
  if truthy v then parse_uuid (py_str v) else None.

Lemma as_uuid_str v b : as_uuid v = Some b → as_uuid (VStr (py_str v)) = Some b.
Proof.
  unfold as_uuid. destruct (truthy v); [|done].
  change (py_str (VStr (py_str v))) with (py_str v).
  destruct (py_str v); [|done]. vm_compute. done.
Qed.

(** [chain_envelope]: the envelope the hash covers. *)
Definition chain_envelope (e : event) : pydict :=
  dset "correlation_id" (opt_str (uuid_str <$> as_uuid (opt_str (ev_correlation_id e)))) (to_dict e).

(** [self.chain_hashes[-1] if self.chain_hashes else GENESIS_HASH]. *)
Definition tip (hs : list string) : string := default GENESIS_HASH (last hs).

(** ** The protocol *)
Class EventStore (T : Type) : Type := {
  record_event : event → M T unit;
  record_deadletter : pydict → M T unit;
  es_log : T → list (pydict * string);
  es_dead : T → list pydict;
}.

(** The log [l] is intact: the audit check reports nothing. *)
Definition intact (l : list (pydict * string)) : Prop := verify_chain l GENESIS_HASH = [].

(** What an implementation promises.  [es_has] and [es_dead_has] say that an id
    is on record, [es_ok] that the chain is good, [es_accepts] that an event
    reads back from the store as it was hashed, and [es_ready] that nothing
    makes the write fail. *)
Class EventStoreLaws (T : Type) `{EventStore T} : Type := {
  es_ok : T → Prop;
  es_has : T → string → Prop;
  es_dead_has : T → string → Prop;
  es_accepts : event → Prop;
  es_ready : T → event → Prop;
  es_has_dec : ∀ t i, Decision (es_has t i);
  es_intact : ∀ t, es_ok t → intact (es_log t);
  record_event_ready : ∀ t e, es_ready t e → ∃ t', record_event e t = (Ok tt, t');
  record_event_err : ∀ t e x t', record_event e t = (Err x, t') → t' = t;
  record_event_has : ∀ t e t', record_event e t = (Ok tt, t') → es_has t' (ev_id e);
  record_event_again : ∀ t e, es_has t (ev_id e) → ∀ t',
    record_event e t = (Ok tt, t') → t' = t;
  record_event_keeps : ∀ t e r t', record_event e t = (r, t') →
    es_dead t' = es_dead t ∧ (∀ i, es_has t i → es_has t' i)
    ∧ (∀ i, es_dead_has t i → es_dead_has t' i);
  record_event_chain : ∀ t e t', es_ok t → es_accepts e → ¬ es_has t (ev_id e) →
    record_event e t = (Ok tt, t') →
    es_ok t' ∧ ∃ d, d ≡ chain_envelope e
      ∧ es_log t' = (es_log t ++ [(d, chain_hash (tip (snd <$> es_log t)) (chain_envelope e))])%list;
  record_deadletter_keeps : ∀ t env r t', record_deadletter env t = (r, t') →
    (es_ok t → es_ok t') ∧ es_log t' = es_log t ∧ es_dead t `prefix_of` es_dead t'
    ∧ (∀ i, es_has t i → es_has t' i) ∧ (∀ i, es_dead_has t i → es_dead_has t' i);
  record_deadletter_has : ∀ t env t', record_deadletter env t = (Ok tt, t') →
    es_dead_has t' (py_str (get_or "id" VNone env));
}.

Lemma verify_from_snoc n prev l d h :
  verify_from n prev l = [] →
  h = chain_hash (default prev (last (snd <$> l))) d →
  verify_from n prev (l ++ [(d, h)])%list = [].
Proof.
  intros Hl ->. rewrite verify_from_app, Hl. simpl. rewrite <-fmap_last, String.eqb_refl. done.
Qed.

Lemma intact_snoc l d e :
  intact l → d ≡ e → intact (l ++ [(d, chain_hash (tip (snd <$> l)) e)])%list.
Proof. intros Hl E. apply verify_from_snoc; [done|]. unfold tip. by rewrite E. Qed.

(** ** The volatile store *)
Module InMemoryEventStore.
Record store : Type := Store {
  events : list event;
  chain_hashes : list string;
  deadletters : list pydict;
  event_ids : gset string;
  deadletter_ids : gset string;
}.

Definition init : store := Store [] [] [] ∅ ∅.

Definition mem_record (e : event) : M store unit := λ t,
  if decide (ev_id e ∈ event_ids t) then (Ok tt, t) else
  (Ok tt, Store (events t ++ [e])%list
     (chain_hashes t ++ [chain_hash (tip (chain_hashes t)) (chain_envelope e)])%list
     (deadletters t) ({[ev_id e]} ∪ event_ids t) (deadletter_ids t)).

Definition mem_record_dead (env : pydict) : M store unit := λ t,
  let key := py_str (get_or "id" VNone env) in
  if decide (key ∈ deadletter_ids t) then (Ok tt, t) else
  (Ok tt, Store (events t) (chain_hashes t) (deadletters t ++ [env])%list
     (event_ids t) ({[key]} ∪ deadletter_ids t)).

Definition mem_log (t : store) : list (pydict * string) :=
  zip (chain_envelope <$> events t) (chain_hashes t).

#[global] Instance memory_store : EventStore store := {
  EventStore.record_event := mem_record;
  EventStore.record_deadletter := mem_record_dead;
  es_log := mem_log;
  es_dead := deadletters;
}.

Definition mem_ok (t : store) : Prop :=
  length (chain_hashes t) = length (events t)
  ∧ intact (mem_log t).

Lemma mem_hashes_of_log t : mem_ok t → (snd <$> mem_log t) = chain_hashes t.
Proof.
  intros (Hl & _). unfold mem_log. apply snd_zip. rewrite length_fmap. lia.
Qed.

Lemma mem_record_step t e t' :
  mem_ok t → ev_id e ∉ event_ids t → mem_record e t = (Ok tt, t') →
  mem_ok t' ∧ mem_log t' = (mem_log t ++ [(chain_envelope e,
                      chain_hash (tip (snd <$> mem_log t)) (chain_envelope e))])%list.
Proof.
  intros Ht Hi. unfold mem_record. rewrite decide_False by done. intros [= <-].
  rewrite (mem_hashes_of_log t Ht). destruct Ht as (Hl & Hin).
  set (h := chain_hash _ _). set (t' := Store _ _ _ _ _).
  assert (mem_log t' = mem_log t ++ [(chain_envelope e, h)])%list as El.
  { unfold mem_log, t'. simpl. rewrite fmap_app.
    apply (zip_with_app pair _ [chain_envelope e] _ [h]). by rewrite length_fmap. }
  split; [|done]. split.
  - simpl. by rewrite !length_app, Hl.
  - rewrite El. unfold h. rewrite <-(mem_hashes_of_log t); [by apply intact_snoc|done].
Qed.

#[global, refine] Instance memory_laws : EventStoreLaws store := {
  es_ok := mem_ok;
  es_has t i := i ∈ event_ids t;
  es_dead_has t i := i ∈ deadletter_ids t;
  es_accepts _ := True;
  es_ready _ _ := True
}.
Proof.
  - intros t i. simpl. apply _.
  - intros t Ht. apply Ht.
  - intros t e _. simpl. unfold mem_record. case_decide; by eexists.
  - intros t e x t'. simpl. unfold mem_record. by case_decide.
  - intros t e t'. simpl. unfold mem_record. case_decide; intros; simplify_eq/=; set_solver.
  - intros t e Hi t'. simpl. unfold mem_record. rewrite decide_True by done. congruence.
  - intros t e r t'. simpl. unfold mem_record. case_decide; intros; simplify_eq/=; set_solver.
  - intros t e t' Ht _ Hi E. destruct (mem_record_step t e t' Ht Hi E) as [? El].
    split; [done|]. by eexists.
  - intros t env r t'. simpl. unfold mem_record_dead. case_decide; intros; simplify_eq/=.
    + by auto.
    + split_and!; [done|done|by apply prefix_app_r|set_solver..].
  - intros t env t'. simpl. unfold mem_record_dead.
    case_decide; intros; simplify_eq/=; set_solver.
Defined.
End InMemoryEventStore.

(** ** The PostgreSQL store

    The tables are the lists of their rows in insertion order.  The server is
    a parameter: [jsonb] is what a JSONB column gives back for a payload
    ([None] when it rejects it), [pg_now] the time it stamps on the [n]-th row.
    [pg_uuid] is how the server reads text in a UUID column.
    [seq] is the position of a row; the gaps of an identity column do not
    matter to the order. *)
Class PgServer : Type := {
  jsonb : pydict → option pydict;
  pg_now : nat → string;
  pg_uuid : string → option (list N);
}.

(** JSONB keeps a number as a decimal, with its fractional digits and without an
    exponent or a sign of zero: 1e-05 comes back as 0.00001, the same float, but
    1e+16 as an integer and -0.0 as 0.0.  Floats from 1e16 up are the ones
    written with [e+]. *)
Fixpoint jsonb_keeps (v : pyval) : bool :=
  match v with
  | VFloat f => negb (str_mem (byte 43) (json_float f)) && negb (String.eqb (json_float f) "-0.0")
  | VList l => forallb jsonb_keeps l
  | VDict d => forallb (λ kv, jsonb_keeps kv.2) d
  | _ => true
  end.

(** Documented: JSONB keeps a value, such numbers apart, up to the order of its
    keys. *)
Class PgServerLaws `{PgServer} : Prop :=
  jsonb_equiv : ∀ d d', wf_val (VDict d) → jsonb_keeps (VDict d) = true → jsonb d = Some d' → d' ≡ d.

Module PostgresEventStore.
Record row : Type := Row {
  row_id : list N;
  row_subject : string;
  row_schema_version : Z;
  row_source : string;
  row_correlation_id : option (list N);
  row_tenant_id : option string;
  row_payload : pydict;
  row_chain_hash : option string;
  row_seq : Z;
  row_created_at : string;
}.

Record dead_row : Type := DeadRow {
  dead_id : list N;
  dead_subject : string;
  dead_source : string;
  dead_raw : pydict;
  dead_error : string;
}.

(** [schemas] holds the primary keys of the [schema_registry] table, which
    [event_log] references. *)
Record tables : Type := Tables {
  event_log : list row;
  event_deadletter : list dead_row;
  schemas : gset (string * Z);
}.

Definition db_error {A} (msg : string) (t : tables) : result A * tables :=
  (raise_r DatabaseError msg, t).

(** [SELECT chain_hash ... ORDER BY seq DESC LIMIT 1]. *)
Definition last_hash (t : tables) : string := tip (omap row_chain_hash (event_log t)).

Definition chained (t : tables) : list row := filter (λ r, is_Some (row_chain_hash r)) (event_log t).

(** The event of an export line. *)
Definition event_of (r : row) : pydict :=
  [("id", VStr (uuid_str (row_id r)));
   ("subject", VStr (row_subject r));
   ("schema_version", VInt (row_schema_version r));
   ("source", VStr (row_source r));
   ("correlation_id", opt_str (uuid_str <$> row_correlation_id r));
   ("tenant_id", opt_str (row_tenant_id r));
   ("payload", VDict (row_payload r))].

Definition export_row (r : row) : pydict :=
  [("seq", VInt (row_seq r));
   ("event", VDict (event_of r));
   ("chain_hash", opt_str (row_chain_hash r));
   ("recorded_at", VStr (row_created_at r))].

Definition verify_export (lines : list pydict) : result (list string) :=
  entries ← mapM (λ line, e ← get_dict "event" line; h ← get_str "chain_hash" line;
                   Ok (e, h)) lines;
  Ok (verify_chain entries GENESIS_HASH).

(** The exit code of [audit_export --verify] on the fetched rows. *)
Definition main_verify (rows : list row) : result Z :=
  problems ← verify_export (map export_row rows);
  Ok (match problems with [] => 0 | _ => 1 end)%Z.

Section store.
Context `{PgServer}.

(** One transaction: the advisory lock makes it atomic.  A NULL id breaks
    the primary key, an unknown schema the foreign key. *)
Definition pg_record (e : event) : M tables unit := transaction (λ t,
  let prev := last_hash t in
  match as_uuid (VStr (ev_id e)), jsonb (ev_payload e) with
  | None, _ => db_error "null value in column id" t
  | _, None => db_error "payload is not JSONB" t
  | Some i, Some p =>
      if decide (i ∈ row_id <$> event_log t) then (Ok tt, t) else
      if decide ((ev_subject e, ev_schema_version e) ∈ schemas t) then
        (Ok tt, Tables (event_log t ++ [
           Row i (ev_subject e) (ev_schema_version e) (ev_source e)
             (as_uuid (opt_str (ev_correlation_id e))) (ev_tenant_id e) p
             (Some (chain_hash prev (chain_envelope e)))
             (Z.of_nat (S (length (event_log t)))) (pg_now (length (event_log t)))])%list
           (event_deadletter t) (schemas t))
      else db_error "foreign key violation on (subject, schema_version)" t
  end).

Definition column (k : string) (env : pydict) : result string :=
  o ← as_opt_str (get_or k VNone env);
  match o with
  | Some s => Ok s
  | None => raise_r DatabaseError ("null value in column " +:+ k)
  end.

Definition dead_row_of (env : pydict) : result dead_row :=
  match as_uuid (get_or "id" VNone env), jsonb env with
  | None, _ => raise_r DatabaseError "null value in column id"
  | _, None => raise_r DatabaseError "envelope is not JSONB"
  | Some i, Some raw =>
      s ← column "subject" env; src ← column "source" env; e ← column "error" env;
      Ok (DeadRow i s src raw e)
  end.

Definition pg_record_dead (env : pydict) : M tables unit := transaction (λ t,
  match dead_row_of env with
  | Err x => (Err x, t)
  | Ok r =>
      if decide (dead_id r ∈ dead_id <$> event_deadletter t) then (Ok tt, t) else
      (Ok tt, Tables (event_log t) (event_deadletter t ++ [r])%list (schemas t))
  end).

(** What an auditor reads: the exported events with their hashes. *)
Definition pg_log (t : tables) : list (pydict * string) :=
  omap (λ r, (event_of r,.) <$> row_chain_hash r) (event_log t).

#[global] Instance pg_store : EventStore tables := {
  EventStore.record_event := pg_record;
  EventStore.record_deadletter := pg_record_dead;
  es_log := pg_log;
  es_dead t := dead_raw <$> event_deadletter t;
}.

(** Ids that read back as themselves. *)
Definition canonical_id (i : string) (b : list N) : Prop :=
  as_uuid (VStr i) = Some b ∧ uuid_str b = i.

Definition pg_ok (t : tables) : Prop := intact (pg_log t).

(** What the columns give back as it was hashed: an id in canonical spelling, and
    a payload that JSONB keeps. *)
Definition pg_accepts (e : event) : Prop :=
  (∃ b, canonical_id (ev_id e) b)
  ∧ wf_val (VDict (ev_payload e)) ∧ jsonb_keeps (VDict (ev_payload e)) = true.

(** The row of an id, chained or from before the chain. *)
Definition pg_has (t : tables) (i : string) : Prop :=
  ∃ b, as_uuid (VStr i) = Some b ∧ b ∈ row_id <$> event_log t.
Definition pg_dead_has (t : tables) (i : string) : Prop :=
  ∃ b, as_uuid (VStr i) = Some b ∧ b ∈ dead_id <$> event_deadletter t.

Definition pg_ready (t : tables) (e : event) : Prop :=
  is_Some (as_uuid (VStr (ev_id e))) ∧ is_Some (jsonb (ev_payload e))
  ∧ (ev_subject e, ev_schema_version e) ∈ schemas t.

Lemma pg_log_hashes t : (snd <$> pg_log t) = omap row_chain_hash (event_log t).
Proof.
  unfold pg_log. induction (event_log t) as [|r l IH]; [done|]. simpl.
  destruct (row_chain_hash r); simpl; [by f_equal|done].
Qed.

(** A stored row reads back as the envelope that was hashed. *)
Lemma event_of_equiv `{!PgServerLaws} e b p h sq ca :
  wf_val (VDict (ev_payload e)) → jsonb_keeps (VDict (ev_payload e)) = true → uuid_str b = ev_id e →
  jsonb (ev_payload e) = Some p →
  event_of (Row b (ev_subject e) (ev_schema_version e) (ev_source e)
    (as_uuid (opt_str (ev_correlation_id e))) (ev_tenant_id e) p h sq ca)
  ≡ chain_envelope e.
Proof.
  intros Hw Hk Hb Hp. pose proof (jsonb_equiv _ _ Hw Hk Hp) as E.
  apply pydict_values_equiv. unfold event_of, chain_envelope. simpl. rewrite Hb.
  repeat (apply Forall2_cons; split; [split; [done|]|]); try done; simpl. by apply VDict_proper.
Qed.

(** Only the spelling of the id can differ. *)
Lemma event_of_id_equiv `{!PgServerLaws} e b p h sq ca :
  wf_val (VDict (ev_payload e)) → jsonb_keeps (VDict (ev_payload e)) = true →
  jsonb (ev_payload e) = Some p →
  event_of (Row b (ev_subject e) (ev_schema_version e) (ev_source e)
    (as_uuid (opt_str (ev_correlation_id e))) (ev_tenant_id e) p h sq ca)
  ≡ dset "id" (VStr (uuid_str b)) (chain_envelope e).
Proof.
  intros Hw Hk Hp. pose proof (jsonb_equiv _ _ Hw Hk Hp) as E.
  apply pydict_values_equiv. unfold event_of, chain_envelope. simpl.
  repeat (apply Forall2_cons; split; [split; [done|]|]); try done; simpl. by apply VDict_proper.
Qed.

(** The three ways an insert can end well or badly. *)
Lemma pg_record_cases e t r t' : pg_record e t = (r, t') →
  (∃ x, r = Err x ∧ t' = t)
  ∨ (r = Ok tt ∧ t' = t ∧ pg_has t (ev_id e))
  ∨ (∃ i p, r = Ok tt ∧ as_uuid (VStr (ev_id e)) = Some i ∧ jsonb (ev_payload e) = Some p
      ∧ i ∉ row_id <$> event_log t
      ∧ t' = Tables (event_log t ++ [Row i (ev_subject e) (ev_schema_version e) (ev_source e)
           (as_uuid (opt_str (ev_correlation_id e))) (ev_tenant_id e) p
           (Some (chain_hash (last_hash t) (chain_envelope e)))
           (Z.of_nat (S (length (event_log t)))) (pg_now (length (event_log t)))])%list
           (event_deadletter t) (schemas t)).
Proof.
  unfold pg_record, transaction, pg_has.
  destruct (as_uuid _) as [i|] eqn:Ei; [|intros [= <- <-]; left; eauto].
  destruct (jsonb _) as [p|] eqn:Ep; [|intros [= <- <-]; left; eauto].
  case_decide; [intros [= <- <-]; right; left; eauto|].
  case_decide; [|intros [= <- <-]; left; eauto].
  intros [= <- <-]. right. right. exists i, p. auto.
Qed.

Lemma pg_record_chain `{!PgServerLaws} t e t' :
  pg_accepts e → pg_ok t → ¬ pg_has t (ev_id e) → pg_record e t = (Ok tt, t') →
  pg_ok t' ∧ ∃ d, d ≡ chain_envelope e
    ∧ pg_log t' = (pg_log t ++ [(d, chain_hash (tip (snd <$> pg_log t)) (chain_envelope e))])%list.
Proof.
  intros ([b [Hb Eb]] & Hw & Hk) Ht Hn
    [(? & ? & _)|[(_ & _ & ?)|(i & p & _ & Ei & Ep & Hi & ->)]]%pg_record_cases; [done..|].
  rewrite Hb in Ei. injection Ei as <-.
  set (r := Row _ _ _ _ _ _ _ _ _ _). set (t' := Tables _ _ _).
  assert (pg_log t' = pg_log t ++ [(event_of r, chain_hash (last_hash t) (chain_envelope e))])%list
    as El by (unfold pg_log, t'; simpl; by rewrite omap_app).
  assert (event_of r ≡ chain_envelope e) as Er by (by apply event_of_equiv).
  assert (last_hash t = tip (snd <$> pg_log t)) as Et by (unfold last_hash; by rewrite pg_log_hashes).
  split; [unfold pg_ok|]; rewrite El, Et; [by apply intact_snoc|eauto].
Qed.

#[export] Instance pg_has_dec t i : Decision (pg_has t i).
Proof.
  unfold pg_has. destruct (as_uuid (VStr i)) as [b|]; [|right; naive_solver].
  destruct (decide (b ∈ row_id <$> event_log t)); [left; eauto|right; naive_solver].
Defined.

#[global, refine] Instance pg_laws `{!PgServerLaws} : EventStoreLaws tables := {
  es_ok := pg_ok; es_has := pg_has; es_dead_has := pg_dead_has;
  es_accepts := pg_accepts; es_ready := pg_ready
}.
Proof.
  - done.
  - intros t e ([i Ei] & [p Ep] & Hs). simpl. unfold pg_record, transaction.
    rewrite Ei, Ep. case_decide; [by eexists|]. rewrite decide_True by done. by eexists.
  - intros t e x t'. apply transaction_err.
  - intros t e t' [(? & ? & _)|[(_ & -> & ?)|(i & p & _ & Ei & _ & _ & ->)]]%pg_record_cases;
      [done..|]. exists i. split; [done|]. simpl. rewrite fmap_app. set_solver.
  - intros t e (b & Eb & Hb) t'
      [(? & ? & _)|[(_ & ? & _)|(i & p & _ & Ei & _ & ? & _)]]%pg_record_cases; [done..|].
    congruence.
  - intros t e r t' [(? & ? & ->)|[(_ & -> & _)|(i & p & _ & _ & _ & _ & ->)]]%pg_record_cases;
      [done..|]. split_and!; [done| |done]. intros j (b & ? & Hb). exists b.
    split; [done|]. simpl. rewrite fmap_app. set_solver.
  - intros t e t' ????. by apply pg_record_chain.
  - intros t env r t'. simpl. unfold pg_record_dead, transaction.
    destruct (dead_row_of env) as [d|x]; [case_decide|]; intros; simplify_eq; [auto| |auto].
    split_and!; [done|done| |done|].
    + simpl. rewrite fmap_app. by apply prefix_app_r.
    + intros j (b & ? & Hb). exists b. split; [done|]. simpl. rewrite fmap_app. set_solver.
  - intros t env t'. simpl. unfold pg_record_dead, transaction.
    destruct (dead_row_of env) as [d|x] eqn:Ed; [|done]. intros E.
    assert (as_uuid (VStr (py_str (get_or "id" VNone env))) = Some (dead_id d)) as Hd.
    { unfold dead_row_of in Ed. destruct (as_uuid _) as [i|] eqn:Ei; [|done].
      destruct (jsonb env); [|done]. inv_ok. simplify_eq. simpl.
      by apply as_uuid_str. }
    exists (dead_id d). split; [done|].
    case_decide; simplify_eq/=; [done|]. rewrite fmap_app. set_solver.
Defined.

(** The export of the chained rows is the log. *)
Lemma verify_export_rows l :
  Forall (λ r, is_Some (row_chain_hash r)) l →
  verify_export (map export_row l)
  = Ok (verify_chain (omap (λ r, (event_of r,.) <$> row_chain_hash r) l) GENESIS_HASH).
Proof.
  intros Hl. unfold verify_export. enough (mapM (λ line, e ← get_dict "event" line;
    h ← get_str "chain_hash" line; Ok (e, h)) (map export_row l)
    = Ok (omap (λ r, (event_of r,.) <$> row_chain_hash r) l)) as -> by done.
  induction Hl as [|r l [h Hr] Hl IH]; [done|]. cbn [map mapM]. rewrite IH.
  unfold export_row. rewrite Hr. simpl. rewrite Hr. done.
Qed.

Lemma pg_log_chained t :
  pg_log t = omap (λ r, (event_of r,.) <$> row_chain_hash r) (chained t).
Proof.
  unfold pg_log, chained. induction (event_log t) as [|r l IH]; [done|].
  rewrite filter_cons. case_decide as Hr; cbn [omap list_omap]; rewrite IH; [done|].
  destruct (row_chain_hash r); [by destruct Hr|done].
Qed.

Lemma main_verify_chained t :
  main_verify (chained t) = Ok (match verify_chain (pg_log t) GENESIS_HASH with
                                | [] => 0 | _ => 1 end)%Z.
Proof.
  unfold main_verify. rewrite verify_export_rows, <-pg_log_chained; [done|].
  apply Forall_forall. intros r. unfold chained. rewrite list_elem_of_filter. by intros [].
Qed.
End store.
End PostgresEventStore.

(** ** The promises of the durable log *)
Section properties.
Import PostgresEventStore.
Context `{PgServer}.

Lemma pg_record_ok `{!PgServerLaws} e t r t' :
  pg_accepts e → pg_ok t → pg_record e t = (r, t') → pg_ok t'.
Proof.
  intros Ha Ht E. destruct r as [[]|x];
    [|unfold pg_record in E; by apply transaction_err in E as ->].
  destruct (decide (pg_has t (ev_id e))) as [Hh|Hn].
  - destruct (pg_record_cases _ _ _ _ E)
      as [(? & ? & _)|[(_ & -> & _)|(i & p & _ & Ei & _ & Hi & _)]]; [done..|].
    destruct Hh as (b & Eb & Hb). congruence.
  - by destruct (pg_record_chain _ _ _ Ha Ht Hn E).
Qed.

(** C25: what PostgreSQL holds passes the audit.  After recording any events
    that the columns give back as they were hashed (the id in canonical
    spelling; a payload of finite floats, none of them from 1e16 up or -0.0), in
    any order, replays and failed inserts included, [audit_export --verify] on
    the exported rows exits with 0. *)
Theorem recorded_rows_verify `{!PgServerLaws} es t r t' :
  Forall pg_accepts es → pg_ok t → for_each es pg_record t = (r, t') →
  main_verify (chained t') = Ok 0%Z.
Proof.
  intros Ha Ht E. rewrite main_verify_chained. assert (pg_ok t') as ->; [|done].
  revert t Ht E. induction Ha as [|e es He _ IH]; intros t Ht; simpl; [by intros [= _ <-]|].
  unfold mbind, M_bind. destruct (pg_record e t) as [[[]|x] t1] eqn:E1;
    apply (pg_record_ok _ _ _ _ He Ht) in E1; [by apply IH|by intros [= _ <-]].
Qed.

(** An id that is a UUID in another spelling breaks the audit.  The hash
    covers the id as sent, the row gives it back in canonical form, so the
    verification of an untouched log reports a break. *)
Theorem noncanonical_id_breaks_audit `{!PgServerLaws} e b t' ss :
  as_uuid (VStr (ev_id e)) = Some b → uuid_str b ≠ ev_id e →
  wf_val (VDict (chain_envelope e)) → jsonb_keeps (VDict (ev_payload e)) = true →
  valid_str (uuid_str b) → pg_record e (Tables [] [] ss) = (Ok tt, t') →
  main_verify (chained t') = Ok 1%Z
  ∨ ∃ m, m ≠ material GENESIS_HASH (chain_envelope e)
         ∧ sha256_hex m = sha256_hex (material GENESIS_HASH (chain_envelope e)).
Proof.
  intros Eb Hne Hw Hk Hb E.
  destruct (pg_record_cases _ _ _ _ E)
    as [(? & ? & _)|[(_ & _ & (b' & _ & Hin))|(i & p & _ & Ei & Ep & _ & Et)]];
    [done|simpl in Hin; set_solver|].
  rewrite Eb in Ei. injection Ei as <-. rewrite main_verify_chained.
  set (r := Row _ _ _ _ _ _ _ _ _ _) in Et.
  assert (pg_log t' = [(event_of r, chain_hash GENESIS_HASH (chain_envelope e))]) as ->
    by (by rewrite Et).
  destruct (verify_chain _ _) eqn:Ev; [right|by left].
  apply verify_chain_spec in Ev. simpl in Ev. injection Ev as Eh.
  set (d := dset "id" (VStr (uuid_str b)) (chain_envelope e)).
  assert (event_of r ≡ d) as Er.
  { apply event_of_id_equiv; [|done|done]. apply wf_val_dict in Hw as [_ Hw].
    unfold chain_envelope in Hw. simpl in Hw.
    do 6 apply Forall_cons in Hw as [_ Hw]. by apply Forall_cons in Hw as [[_ ?] _]. }
  exists (material GENESIS_HASH d). rewrite Er in Eh. split.
  - intros Em. apply wf_val_dict in Hw as [Hwd Hwv].
    apply material_inj in Em as [_ Em]; [|done| |by apply wf_val_dict].
    + apply (dget_equiv _ _ "id") in Em; [|by apply wf_dset|done].
      unfold d in Em. rewrite dget_dset_eq in Em. simpl in Em. congruence.
    + apply wf_val_dict. split; [by apply wf_dset|]. unfold d, chain_envelope in *. simpl in *.
      apply Forall_cons in Hwv as [[? _] ?]. by apply Forall_cons.
  - done.
Qed.
End properties.

(** ** Examples *)
Section witnesses.
Import PostgresEventStore.

(** A server that gives every payload back as it was. *)
Definition demo_server : PgServer := {|
  jsonb d := Some d;
  pg_now _ := "2024-01-01 00:00:00+00";
  pg_uuid := parse_uuid;
|}.
#[local] Existing Instance demo_server.

#[local] Instance demo_server_laws : PgServerLaws.
Proof. intros d d' _ _ [= <-]. done. Qed.

Definition posted_event (i : string) : event :=
  Event "ledger.posted" 1 "ledger" [("total_minor", VInt 5)] i None (Some "acme").
Definition uuid0 : string := "00000000-0000-4000-8000-00000000000a".
Definition uuid0_upper : string := "00000000-0000-4000-8000-00000000000A".
Definition tables0 : tables := Tables [] [] {[("ledger.posted", 1%Z)]}.

(** A price, with the moment it was read as a float. *)
Definition price_event : event :=
  Event "ticker.price" 1 "ticker"
    [("base", VStr "USD"); ("rate", VStr "0.92");
     ("as_of", VFloat (float_of_decimal false 17195000001234567 (-7)))]
    "00000000-0000-4000-8000-00000000000b" None None.
Definition priced : tables := Tables [] [] {[("ledger.posted", 1%Z); ("ticker.price", 1%Z)]}.

Lemma posted_event_accepted : pg_accepts (posted_event uuid0).
Proof.
  split; [|split; [apply ascii_val_wf|]; reflexivity].
  exists [0; 0; 0; 0; 0; 0; 64; 0; 128; 0; 0; 0; 0; 0; 0; 10]%N. split; vm_compute; reflexivity.
Qed.

Lemma price_event_accepted : pg_accepts price_event.
Proof.
  split; [|split; [apply ascii_val_wf|]; vm_compute; reflexivity].
  exists [0; 0; 0; 0; 0; 0; 64; 0; 128; 0; 0; 0; 0; 0; 0; 11]%N. split; vm_compute; reflexivity.
Qed.

(** Floats JSONB does not give back. *)
Example kept_floats :
  map (λ f, jsonb_keeps (VFloat f))
    [float_of_decimal false 1 (-5); float_of_decimal false 1 15; float_of_decimal false 1 16; float_of_decimal true 0 0]
  = [true; true; false; false].
Proof. vm_compute. reflexivity. Qed.

Lemma recorded_rows_verify_witness :
  let '(r, t') := for_each [posted_event uuid0; price_event; posted_event uuid0] pg_record priced in
  r = Ok tt ∧ length (event_log t') = 2%nat ∧ main_verify (chained t') = Ok 0%Z.
Proof.
  destruct (for_each _ _ _) as [r t'] eqn:E.
  assert (Hr : r = Ok tt ∧ length (event_log t') = 2%nat)
    by (assert (Hp : (r, t') = for_each [posted_event uuid0; price_event; posted_event uuid0] pg_record priced)
          by (by rewrite E); vm_compute in Hp; injection Hp as -> ->; by split).
  split; [exact (proj1 Hr)|]. split; [exact (proj2 Hr)|].
  refine (recorded_rows_verify [posted_event uuid0; price_event; posted_event uuid0] priced r t' _ eq_refl E).
  repeat (apply Forall_cons; split; [exact posted_event_accepted || exact price_event_accepted|]).
  by apply Forall_nil.
Defined.

Lemma noncanonical_id_breaks_audit_witness :
  ∃ t', pg_record (posted_event uuid0_upper) tables0 = (Ok tt, t') ∧
  (main_verify (chained t') = Ok 1%Z
   ∨ ∃ m, m ≠ material GENESIS_HASH (chain_envelope (posted_event uuid0_upper))
       ∧ sha256_hex m
         = sha256_hex (material GENESIS_HASH (chain_envelope (posted_event uuid0_upper)))).
Proof.
  destruct (pg_record (posted_event uuid0_upper) tables0) as [r t'] eqn:E.
  assert (r = Ok tt) as -> by (vm_compute in E; by injection E as <- _).
  exists t'. split; [reflexivity|].
  refine (noncanonical_id_breaks_audit (posted_event uuid0_upper)
    [0; 0; 0; 0; 0; 0; 64; 0; 128; 0; 0; 0; 0; 0; 0; 10]%N t' {[("ledger.posted", 1%Z)]}
    _ _ _ _ _ E).
  - vm_compute. reflexivity.
  - discriminate.
  - apply ascii_val_wf. vm_compute. reflexivity.
  - reflexivity.
  - apply ascii_str_valid. vm_compute. reflexivity.
Defined.
End witnesses.
