(* ===== verification/Agent.v ===== *)
(** * The agent runtime (agents/base/agent.py)

    [world] is what a [BaseAgent] holds: the schema client, the event store,
    what has been published on the bus and the metrics, with the count of the
    reads from outside ([Externals]) made so far.  An agent adds its own state:
    its handlers run on the pair.  [emit], [dispatch], [dead_letter] and [run]
    are the methods; the log lines they write are left out. *)

From S2P Require Import Prelude PyStr PyFloat PyVal Json JsonText JsonFacts Metrics Contract Registry HashChain EventStore.
Local Open Scope string_scope.
Local Open Scope nat_scope.

(** A message on the bus: the channel and the text. *)
Definition message : Type := string * string.

Record world (T : Type) : Type := World {
  w_registry : registry;
  w_store : T;
  w_bus : list message;
  w_metrics : metrics;
  w_tick : nat;
}.
Arguments World {_} _ _ _ _ _.
Arguments w_registry {_} _.
Arguments w_store {_} _.
Arguments w_bus {_} _.
Arguments w_metrics {_} _.
Arguments w_tick {_} _.

Section world.
Context {T : Type}.
Definition set_registry (r : registry) (w : world T) : world T :=
  World r (w_store w) (w_bus w) (w_metrics w) (w_tick w).
Definition set_store (t : T) (w : world T) : world T :=
  World (w_registry w) t (w_bus w) (w_metrics w) (w_tick w).
Definition publish_to (m : message) (w : world T) : world T :=
  World (w_registry w) (w_store w) (w_bus w ++ [m])%list (w_metrics w) (w_tick w).
Definition set_metrics (f : metrics → metrics) (w : world T) : world T :=
  World (w_registry w) (w_store w) (w_bus w) (f (w_metrics w)) (w_tick w).
Definition tick (w : world T) : world T :=
  World (w_registry w) (w_store w) (w_bus w) (w_metrics w) (S (w_tick w)).
End world.

Section agent.
Context `{Externals} `{EventStore T}.

Definition w_validate (subject : string) (version : Z) (payload : pydict) : M (world T) unit :=
  zoom w_registry set_registry (validate subject version payload).
Definition w_record (e : event) : M (world T) unit :=
  zoom w_store set_store (record_event e).
Definition w_record_dead (env : pydict) : M (world T) unit :=
  zoom w_store set_store (record_deadletter env).
Definition publish (channel data : string) : M (world T) unit := modify (publish_to (channel, data)).
Definition count (name : string) (v : float) (ls : labels) : M (world T) unit :=
  modify (set_metrics (inc name v ls)).

(** One read from outside. *)
Definition fresh {A} (stream : nat → A) : M (world T) A := λ w, (Ok (stream (w_tick w)), tick w).

(** [Event(subject=..., payload=...)]: the id is a new UUID. *)
Definition new_event (subject : string) (version : Z) (source : string)
    (correlation tenant : option string) (payload : pydict) : M (world T) event :=
  i ← fresh uuid4;
  mret (Event subject version source payload i correlation tenant).

(** Validate, record, publish, count: in this order. *)
Definition emit (name : string) (e : event) : M (world T) unit :=
  w_validate (ev_subject e) (ev_schema_version e) (ev_payload e) ;;
  w_record e ;;
  publish (ev_subject e) (wire e) ;;
  count EVENTS_EMITTED one [("agent", name); ("subject", ev_subject e)].

Definition DEADLETTER : string := "deadletter.".

Definition dead_envelope (e : event) (error : string) : pydict :=
  dset "error" (VStr error) (to_dict e).

Definition contract_errors : list exn_class := [SchemaNotFound; ValidationError].

(** An invalid envelope is only logged; it is recorded and published anyway. *)
Definition dead_letter (name : string) (e : event) (error : string) : M (world T) unit :=
  let envelope := dead_envelope e error in
  try_excepts (w_validate "deadletter.envelope" 1 envelope) contract_errors (λ _, mret tt) ;;
  w_record_dead envelope ;;
  publish (DEADLETTER +:+ ev_subject e) (dumps Spaced (VDict envelope)) ;;
  count DEADLETTERS one [("agent", name); ("subject", ev_subject e)].
End agent.

(** ** Agents *)

(** The state of a running agent: the world and the agent's own fields. *)
Record proc (T A : Type) : Type := Proc { p_world : world T; p_agent : A }.
Arguments Proc {_ _} _ _.
Arguments p_world {_ _} _.
Arguments p_agent {_ _} _.

Definition in_world {T A B} (m : M (world T) B) : M (proc T A) B :=
  zoom p_world (λ w s, Proc w (p_agent s)) m.
Definition in_agent {T A B} (m : M A B) : M (proc T A) B :=
  zoom p_agent (λ a s, Proc (p_world s) a) m.

Section emit_new.
Context `{Externals} `{EventStore T}.

(** [self.emit(Event(subject=..., source=self.name, ...))] *)
Definition emit_new {A} (name subject : string) (version : Z) (correlation tenant : option string)
    (payload : pydict) : M (proc T A) unit :=
  in_world (e ← new_event subject version name correlation tenant payload; emit name e).
End emit_new.

(** The abstract class: a name, the subjects listened to and the handler. *)
Class Agent (T A : Type) : Type := {
  agent_name : string;
  subjects : list string;
  handle : event → M (proc T A) unit;
}.

Section run.
Context `{Externals} `{EventStore T} `{Agent T A}.

(** Only a failed contract is caught; any other exception leaves the loop. *)
Definition dispatch (e : event) : M (proc T A) unit := λ s,
  match in_world (w_validate (ev_subject e) (ev_schema_version e) (ev_payload e)) s with
  | (Ok _, s) =>
      (in_world (count EVENTS_DISPATCHED one
                   [("agent", agent_name); ("subject", ev_subject e)]) ;;
       handle e) s
  | (Err x, s) =>
      if existsb (isinstance x) contract_errors
      then in_world (dead_letter agent_name e (exn_msg x)) s else (Err x, s)
  end.

(** What [pubsub.listen()] yields: the kind of message, its channel and data. *)
Record delivery : Type := Delivery { d_type : string; d_channel : string; d_data : string }.

Definition on_delivery (d : delivery) : M (proc T A) unit :=
  if String.eqb (d_type d) "message"
  then e ← of_result (parse_wire (d_data d)); dispatch e
  else mret tt.

(** [run] on the messages of a finite time. *)
Definition run (l : list delivery) : M (proc T A) unit := for_each l on_delivery.
End run.

(** ** What a run can do to the world

    [evolves w w'] holds between the worlds before and after any code that
    goes through [emit] and [dead_letter]: schema files stay, ids on record
    stay on record, the dead letters and the bus only grow, and every message
    published in between is the text of an event or of a dead letter that is
    on record, the event's payload being one its schema accepts. *)
Section evolves.
Context `{Externals} `{EventStoreLaws T}.

Inductive backed (t : T) : message → Prop :=
  | backed_event e : es_has t (ev_id e) → backed t (ev_subject e, wire e)
  | backed_dead e error :
      es_dead_has t (ev_id e) →
      backed t (DEADLETTER +:+ ev_subject e, dumps Spaced (VDict (dead_envelope e error))).

(** What a message says for itself under the schema files of [reg]. *)
Inductive well_typed (reg : registry) : message → Prop :=
  | typed_event e :
      check reg (ev_subject e) (ev_schema_version e) (ev_payload e) = Ok tt →
      well_typed reg (ev_subject e, wire e)
  | typed_dead e error :
      well_typed reg (DEADLETTER +:+ ev_subject e, dumps Spaced (VDict (dead_envelope e error))).

Lemma well_typed_files reg reg' m : same_files reg reg' → well_typed reg m → well_typed reg' m.
Proof. intros Hf []; constructor. by rewrite <-Hf. Qed.

(** The store's own growth. *)
Record store_le (t t' : T) : Prop := {
  le_has : ∀ i, es_has t i → es_has t' i;
  le_dead_has : ∀ i, es_dead_has t i → es_dead_has t' i;
  le_dead : es_dead t `prefix_of` es_dead t';
}.

#[export] Instance store_le_preorder : PreOrder store_le.
Proof.
  split; [by split; auto|]. intros t1 t2 t3 [] []. split; eauto. by etrans.
Qed.

Lemma backed_le t t' m : store_le t t' → backed t m → backed t' m.
Proof. intros [] []; constructor; auto. Qed.

Record evolves (w w' : world T) : Prop := {
  ev_registry_ok : registry_ok (w_registry w) → registry_ok (w_registry w');
  ev_files : same_files (w_registry w) (w_registry w');
  ev_store : store_le (w_store w) (w_store w');
  ev_bus : ∃ new, w_bus w' = (w_bus w ++ new)%list ∧ Forall (backed (w_store w')) new
    ∧ (registry_ok (w_registry w) → Forall (well_typed (w_registry w)) new);
  ev_tick : w_tick w ≤ w_tick w';
}.

#[export] Instance evolves_preorder : PreOrder evolves.
Proof.
  split.
  - intros w. split; [done|done|done| |done]. exists []. by rewrite app_nil_r.
  - intros w1 w2 w3 [? Hf ? (n1 & E1 & F1 & T1) ?] [? ? ? (n2 & E2 & F2 & T2) ?].
    split; [auto|by etrans|by etrans| |lia].
    exists (n1 ++ n2)%list. rewrite E2, E1, (assoc_L (++)). split_and!; [done| |].
    + apply Forall_app. split; [|done]. eapply Forall_impl; [exact F1|].
      intros m. by apply backed_le.
    + intros Hr. apply Forall_app. split; [auto|]. eapply Forall_impl; [by apply T2; auto|].
      intros m. by apply well_typed_files.
Qed.

Lemma same_bus_evolves (w w' : world T) :
  (registry_ok (w_registry w) → registry_ok (w_registry w')) →
  same_files (w_registry w) (w_registry w') → store_le (w_store w) (w_store w') →
  w_bus w' = w_bus w → w_tick w ≤ w_tick w' → evolves w w'.
Proof. intros. split; try done. exists []. by rewrite app_nil_r. Qed.

Lemma registry_get_keeps subject version r o r' :
  registry_get subject version r = (o, r') →
  (registry_ok r → registry_ok r') ∧ same_files r r'.
Proof.
  intros E. split.
  - intros Hr. destruct (registry_get_spec subject version r Hr) as (r1 & E1 & ? & _). rewrite E1 in E; by simplify_eq.
  - revert E. unfold registry_get. repeat case_match; intros; simplify_eq; done.
Qed.

Lemma validate_keeps subject version payload r o r' :
  validate subject version payload r = (o, r') →
  (registry_ok r → registry_ok r') ∧ same_files r r'.
Proof.
  unfold validate, mbind, M_bind.
  destruct (registry_get subject version r) as [[v|x] r1] eqn:E; intros E';
    apply registry_get_keeps in E; [|by simplify_eq].
  revert E'. case_match; intros [= _ <-]; done.
Qed.

Lemma keeps_w_validate subject version payload :
  keeps evolves (w_validate subject version payload).
Proof.
  intros w r w'. unfold w_validate, zoom.
  destruct (validate _ _ _ _) as [o reg] eqn:E. intros [= _ <-].
  apply validate_keeps in E as [? ?]. by apply same_bus_evolves.
Qed.

Lemma keeps_w_record e : keeps evolves (w_record e).
Proof.
  intros w r w'. unfold w_record, zoom.
  destruct (record_event _ _) as [o t] eqn:E. intros [= _ <-].
  apply record_event_keeps in E as (Ed & ? & ?).
  apply same_bus_evolves; try done. split; try done. simpl. by rewrite Ed.
Qed.

Lemma keeps_w_record_dead env : keeps evolves (w_record_dead env).
Proof.
  intros w r w'. unfold w_record_dead, zoom.
  destruct (record_deadletter _ _) as [o t] eqn:E. intros [= _ <-].
  apply record_deadletter_keeps in E as (? & ? & ? & ? & ?).
  apply same_bus_evolves; try done.
Qed.

Lemma keeps_count name v ls : keeps evolves (count name v ls).
Proof. apply keeps_modify. intros w. by apply same_bus_evolves. Qed.

Lemma keeps_fresh {A} (stream : nat → A) : keeps evolves (fresh stream).
Proof. intros w r w' [= _ <-]. apply same_bus_evolves; simpl; auto with lia; done. Qed.

Lemma keeps_new_event subject version source c t payload :
  keeps evolves (new_event subject version source c t payload).
Proof. unfold new_event. apply keeps_bind; [apply _|apply keeps_fresh|]. intros. apply keeps_ret; apply _. Qed.

Lemma publish_evolves c data w0 w r w' :
  evolves w0 w → backed (w_store w) (c, data) →
  (registry_ok (w_registry w0) → well_typed (w_registry w0) (c, data)) →
  publish c data w = (r, w') → evolves w0 w'.
Proof.
  intros [? ? ? (new & Eb & Fb & Ft) ?] Hb Ht [= _ <-]. split; try done.
  exists (new ++ [(c, data)])%list. simpl. rewrite Eb, (assoc_L (++)).
  split_and!; [done|by apply Forall_app; auto|]. intros Hr. apply Forall_app. auto.
Qed.

(** What a contract check that passed has shown. *)
Lemma w_validate_ok subject version payload (w w' : world T) :
  w_validate subject version payload w = (Ok tt, w') → registry_ok (w_registry w) →
  check (w_registry w') subject version payload = Ok tt.
Proof.
  unfold w_validate, zoom. intros E Hr.
  destruct (validate_spec subject version payload _ Hr) as (reg & Ev & _ & Hf).
  rewrite Ev in E. injection E as Ec <-. simpl. by rewrite <-Hf.
Qed.

Lemma w_record_run e w w' :
  w_record e w = (Ok tt, w') → es_has (w_store w') (ev_id e).
Proof.
  unfold w_record, zoom. destruct (record_event _ _) as [o t] eqn:E. intros [= -> <-].
  by apply record_event_has in E.
Qed.

Lemma w_record_dead_run e error w w' :
  w_record_dead (dead_envelope e error) w = (Ok tt, w') → es_dead_has (w_store w') (ev_id e).
Proof.
  unfold w_record_dead, zoom. destruct (record_deadletter _ _) as [o t] eqn:E.
  intros [= -> <-]. by apply record_deadletter_has in E.
Qed.

Lemma keeps_emit name e : keeps evolves (emit name e).
Proof.
  intros w r w'. unfold emit. unfold mbind at 1, M_bind.
  destruct (w_validate _ _ _ w) as [[[]|x] w0] eqn:Ev; pose proof (keeps_w_validate _ _ _ _ _ _ Ev) as Hw0;
    [|by intros [= _ <-]].
  unfold mbind at 1, M_bind.
  destruct (w_record e w0) as [[[]|x] w1] eqn:E; pose proof (keeps_w_record e _ _ _ E) as Hw1;
    [|by intros [= _ <-]; trans w0].
  intros E2. assert (evolves w w1) as Hw by by trans w0.
  assert (registry_ok (w_registry w) → well_typed (w_registry w) (ev_subject e, wire e)) as Ht.
  { intros Hr. constructor. rewrite (ev_files _ _ Hw0). by eapply w_validate_ok. }
  apply w_record_run in E. revert E2. unfold mbind, M_bind. simpl. intros E2.
  trans (publish_to (ev_subject e, wire e) w1);
    [by eapply publish_evolves; [|constructor| |]|by eapply keeps_count].
Qed.

Lemma keeps_dead_letter name e error : keeps evolves (dead_letter name e error).
Proof.
  unfold dead_letter. apply keeps_bind; [apply _| |intros _].
  { apply keeps_try_excepts; [apply _|apply keeps_w_validate|]. intros. apply keeps_ret; apply _. }
  intros w r w'. unfold mbind at 1, M_bind.
  destruct (w_record_dead _ w) as [[[]|x] w1] eqn:E;
    pose proof (keeps_w_record_dead _ _ _ _ E); [|by intros [= _ <-]].
  intros E2. trans w1; [done|]. apply w_record_dead_run in E. revert E2.
  unfold mbind, M_bind. simpl. intros E2.
  trans (publish_to (DEADLETTER +:+ ev_subject e, dumps Spaced (VDict (dead_envelope e error))) w1);
    [by eapply publish_evolves; [|constructor|intros _; constructor|]|by eapply keeps_count].
Qed.
End evolves.

#[export] Hint Resolve keeps_w_validate keeps_count keeps_fresh keeps_new_event keeps_emit
  keeps_dead_letter : keeps.

(** ** Runs of an agent *)
Section agents.
Context `{Externals} `{EventStoreLaws T} {A : Type}.

Definition proc_evolves (s s' : proc T A) : Prop := evolves (p_world s) (p_world s').

#[export] Instance proc_evolves_preorder : PreOrder proc_evolves.
Proof.
  unfold proc_evolves. split; [by intros s|].
  intros s1 s2 s3 H1' H2'. by trans (p_world s2).
Qed.

Lemma keeps_in_world {B} (m : M (world T) B) :
  keeps evolves m → keeps proc_evolves (in_world m).
Proof.
  intros Hm s r s'. unfold in_world, zoom. destruct (m (p_world s)) as [o w] eqn:E.
  intros [= _ <-]. by apply Hm in E.
Qed.

Lemma keeps_in_agent {B} (m : M A B) : keeps proc_evolves (in_agent m).
Proof.
  intros s r s'. unfold in_agent, zoom. destruct (m (p_agent s)) as [o w] eqn:E.
  intros [= _ <-]. unfold proc_evolves. done.
Qed.

(** The handler publishes only through [emit] and [dead_letter]. *)
Class Disciplined `{Agent T A} : Prop :=
  keeps_handle : ∀ e, keeps proc_evolves (handle e).

Lemma keeps_dispatch `{Disciplined} e : keeps proc_evolves (dispatch e).
Proof.
  intros s r s'. unfold dispatch.
  destruct (in_world (w_validate _ _ _) s) as [[u|x] s1] eqn:E;
    apply (keeps_in_world _ (keeps_w_validate _ _ _)) in E.
  - intros E2. trans s1; [done|]. eapply (keeps_bind proc_evolves); [| |exact E2].
    + apply keeps_in_world, keeps_count.
    + intros ?. apply keeps_handle.
  - case_match; [|by intros [= _ <-]]. intros E2. trans s1; [done|].
    revert E2. apply keeps_in_world, keeps_dead_letter.
Qed.

Lemma keeps_run `{Disciplined} l : keeps proc_evolves (run l).
Proof.
  apply keeps_for_each; [apply _|]. intros d. unfold on_delivery.
  case_match; [|apply keeps_ret; apply _].
  apply keeps_bind; [apply _|apply keeps_of_result; apply _|]. intros. apply keeps_dispatch.
Qed.
End agents.

Lemma keeps_emit_new `{Externals} `{EventStoreLaws T} {A} name subject version c t payload :
  keeps (proc_evolves (T := T) (A := A)) (emit_new name subject version c t payload).
Proof.
  apply keeps_in_world, keeps_bind; [apply _|apply keeps_new_event|]. intros. apply keeps_emit.
Qed.

#[export] Hint Resolve keeps_in_world keeps_in_agent keeps_emit_new : keeps.

(** *** Relations on the agent's own state

    The world's methods leave it alone, so what every run of the handler does
    to it, every run of the agent does. *)
Definition agent_rel {T A} (R : A → A → Prop) (s s' : proc T A) : Prop :=
  R (p_agent s) (p_agent s').

#[export] Instance agent_rel_preorder {T A} (R : A → A → Prop) :
  PreOrder R → PreOrder (@agent_rel T A R).
Proof.
  unfold agent_rel. intros HR. split; [by intros s|]. intros s1 s2 s3 ??. by trans (p_agent s2).
Qed.

(** Keeping an invariant is such a relation. *)
Definition implies {S} (I : S → Prop) (s s' : S) : Prop := I s → I s'.
#[export] Instance implies_preorder {S} (I : S → Prop) : PreOrder (implies I).
Proof. unfold implies. split; [by intros s|]. intros s1 s2 s3. auto. Qed.

Section agent_rel.
Context {T A : Type} (R : A → A → Prop) {HR : PreOrder R}.

Lemma in_world_rel {B} (m : M (world T) B) : keeps (@agent_rel T A R) (in_world m).
Proof.
  intros s r s'. unfold in_world, zoom. destruct (m _). intros [= _ <-].
  unfold agent_rel. simpl. reflexivity.
Qed.

Lemma in_agent_rel {B} (m : M A B) : keeps R m → keeps (@agent_rel T A R) (in_agent m).
Proof.
  intros Hm s r s'. unfold in_agent, zoom. destruct (m _) as [o a] eqn:E. intros [= _ <-].
  by apply Hm in E.
Qed.

Lemma emit_new_rel `{Externals} `{EventStore T} name subject version c t payload :
  keeps (@agent_rel T A R) (emit_new name subject version c t payload).
Proof. apply in_world_rel. Qed.

Lemma run_rel `{Externals} `{EventStore T} `{Agent T A} l :
  (∀ e, keeps (agent_rel R) (handle e)) → keeps (agent_rel R) (run l).
Proof.
  intros Hh. apply keeps_for_each; [apply _|]. intros d. unfold on_delivery.
  case_match; [|apply keeps_ret; apply _].
  apply keeps_bind; [apply _|apply keeps_of_result; apply _|]. intros e s r s'. unfold dispatch.
  destruct (in_world _ s) as [[u|x] s1] eqn:Ev; apply in_world_rel in Ev; intros E.
  - trans s1; [done|]. eapply (keeps_bind (agent_rel R)); [apply in_world_rel| |exact E].
    intros ?. apply Hh.
  - case_match; [|by simplify_eq]. trans s1; [done|]. by eapply in_world_rel.
Qed.
End agent_rel.
#[export] Hint Resolve in_world_rel in_agent_rel emit_new_rel : keeps.

(** ** What each method does, branch by branch *)
Section specs.
Context `{Externals} `{EventStore T}.

Lemma w_validate_spec subject version payload (w : world T) :
  registry_ok (w_registry w) → ∃ reg,
    w_validate subject version payload w
    = (check (w_registry w) subject version payload, set_registry reg w)
    ∧ registry_ok reg ∧ same_files (w_registry w) reg.
Proof.
  intros Hr. destruct (validate_spec subject version payload _ Hr) as (reg & E & ?).
  exists reg. split; [|done]. unfold w_validate, zoom. by rewrite E.
Qed.

(** The world after a record of [e] that gave the store [t]. *)
Definition emitted (name : string) (e : event) (reg : registry) (t : T) (w : world T)
    : world T :=
  World reg t (w_bus w ++ [(ev_subject e, wire e)])%list
    (inc EVENTS_EMITTED one [("agent", name); ("subject", ev_subject e)] (w_metrics w))
    (w_tick w).

Lemma emit_run name e (w : world T) :
  registry_ok (w_registry w) → ∃ reg, registry_ok reg ∧ same_files (w_registry w) reg ∧
    emit name e w =
      match check (w_registry w) (ev_subject e) (ev_schema_version e) (ev_payload e) with
      | Err x => (Err x, set_registry reg w)
      | Ok _ =>
          match record_event e (w_store w) with
          | (Err x, t) => (Err x, set_store t (set_registry reg w))
          | (Ok _, t) => (Ok tt, emitted name e reg t w)
          end
      end.
Proof.
  intros Hr. destruct (w_validate_spec (ev_subject e) (ev_schema_version e) (ev_payload e) w Hr)
    as (reg & E & ? & ?).
  exists reg. split_and!; [done|done|]. unfold emit.
  destruct (check _ _ _ _) as [[]|x].
  - rewrite (M_bind_run _ _ _ _ _ E). unfold mbind, M_bind, w_record, zoom.
    change (w_store (set_registry reg w)) with (w_store w).
    by destruct (record_event e (w_store w)) as [[[]|y] t].
  - by rewrite (M_bind_run_err _ _ _ _ _ E).
Qed.

(** The world after [dead_letter] recorded its envelope. *)
Definition quarantined (name : string) (e : event) (error : string) (reg : registry) (t : T)
    (w : world T) : world T :=
  World reg t
    (w_bus w ++ [(DEADLETTER +:+ ev_subject e, dumps Spaced (VDict (dead_envelope e error)))])%list
    (inc DEADLETTERS one [("agent", name); ("subject", ev_subject e)] (w_metrics w))
    (w_tick w).

Definition is_contract_error (x : exn) : bool := existsb (isinstance x) contract_errors.

Lemma dead_letter_run name e error (w : world T) :
  registry_ok (w_registry w) → ∃ reg, registry_ok reg ∧ same_files (w_registry w) reg ∧
    dead_letter name e error w =
      match check (w_registry w) "deadletter.envelope" 1 (dead_envelope e error) with
      | Err x =>
          if is_contract_error x
          then match record_deadletter (dead_envelope e error) (w_store w) with
               | (Err y, t) => (Err y, set_store t (set_registry reg w))
               | (Ok _, t) => (Ok tt, quarantined name e error reg t w)
               end
          else (Err x, set_registry reg w)
      | Ok _ =>
          match record_deadletter (dead_envelope e error) (w_store w) with
          | (Err y, t) => (Err y, set_store t (set_registry reg w))
          | (Ok _, t) => (Ok tt, quarantined name e error reg t w)
          end
      end.
Proof.
  intros Hr. destruct (w_validate_spec "deadletter.envelope" 1 (dead_envelope e error) w Hr)
    as (reg & E & ? & ?).
  exists reg. split_and!; [done|done|]. unfold dead_letter, is_contract_error.
  unfold mbind, M_bind, try_excepts. rewrite E.
  destruct (check _ _ _ _) as [[]|x]; [|destruct (existsb _ _); [|done]];
    unfold mret, M_ret, w_record_dead, zoom;
    change (w_store (set_registry reg w)) with (w_store w);
    by destruct (record_deadletter _ (w_store w)) as [[[]|y] t].
Qed.

Context `{Agent T A}.

Definition at_registry (reg : registry) (s : proc T A) : proc T A :=
  Proc (set_registry reg (p_world s)) (p_agent s).

Lemma dispatch_run e (s : proc T A) :
  registry_ok (w_registry (p_world s)) → ∃ reg,
    registry_ok reg ∧ same_files (w_registry (p_world s)) reg ∧
    dispatch e s =
      match check (w_registry (p_world s)) (ev_subject e) (ev_schema_version e) (ev_payload e) with
      | Ok _ => handle e (Proc (set_metrics (inc EVENTS_DISPATCHED one
                   [("agent", agent_name); ("subject", ev_subject e)])
                   (set_registry reg (p_world s))) (p_agent s))
      | Err x => if is_contract_error x
                 then in_world (dead_letter agent_name e (exn_msg x)) (at_registry reg s)
                 else (Err x, at_registry reg s)
      end.
Proof.
  intros Hr. destruct (w_validate_spec (ev_subject e) (ev_schema_version e) (ev_payload e)
    (p_world s) Hr) as (reg & E & ? & ?).
  exists reg. split_and!; [done|done|]. unfold dispatch. unfold in_world at 1, zoom. rewrite E.
  by destruct (check _ _ _ _) as [[]|x].
Qed.

(** Messages are handled one after the other: the state carries over, and an
    exception that escapes ends the loop. *)
Lemma run_app l k (s : proc T A) :
  run (l ++ k)%list s = match run l s with
                        | (Ok _, s') => run k s'
                        | (Err x, s') => (Err x, s')
                        end.
Proof.
  unfold run. revert s. induction l as [|d l IH]; intros s; [done|].
  simpl. unfold mbind, M_bind. destruct (on_delivery d s) as [[[]|x] s1]; [apply IH|done].
Qed.
End specs.

(** A successful [self.emit(Event(...))]: the event it made, on record and on
    the bus, and what stayed. *)
Section emit_new_ok.
Context `{Externals} `{EventStoreLaws T} {A : Type}.

Record emitted_new (subject : string) (version : Z) (e : event) (s s' : proc T A) : Prop := {
  en_subject : ev_subject e = subject;
  en_version : ev_schema_version e = version;
  en_id : ev_id e = uuid4 (w_tick (p_world s));
  en_check : check (w_registry (p_world s)) subject version (ev_payload e) = Ok tt;
  en_has : es_has (w_store (p_world s')) (ev_id e);
  en_bus : w_bus (p_world s') = (w_bus (p_world s) ++ [(subject, wire e)])%list;
  en_agent : p_agent s' = p_agent s;
  en_tick : w_tick (p_world s') = S (w_tick (p_world s));
  en_registry : registry_ok (w_registry (p_world s'));
  en_files : same_files (w_registry (p_world s)) (w_registry (p_world s'));
}.

Lemma emit_new_ok name subject version c t payload (s s' : proc T A) :
  registry_ok (w_registry (p_world s)) →
  emit_new name subject version c t payload s = (Ok tt, s') →
  emitted_new subject version
    (Event subject version name payload (uuid4 (w_tick (p_world s))) c t) s s'.
Proof.
  intros Hr E. unfold emit_new, in_world, zoom in E.
  set (e := Event _ _ _ _ _ _ _).
  assert (new_event subject version name c t payload (p_world s) = (Ok e, tick (p_world s)))
    as En by done.
  rewrite (M_bind_run _ _ _ _ _ En) in E.
  destruct (emit_run name e (tick (p_world s))) as (reg & Hreg & Hf & E'); [done|].
  rewrite E' in E. change (w_registry (tick (p_world s))) with (w_registry (p_world s)) in *.
  destruct (check _ _ _ _) as [[]|x] eqn:Ec; [|done].
  destruct (record_event e _) as [[[]|x] st] eqn:Er; [|done]. injection E as <-.
  apply record_event_has in Er. split; try done.
Qed.
End emit_new_ok.

(** ** The promises of the runtime *)
Section properties.
Context `{Externals} `{EventStoreLaws T}.

(** [emit] is durable-first.  A call that returns has passed the
    event's contract, has the event on record and has published exactly its
    text; a call that raises has published, recorded and counted nothing. *)
Theorem emit_durable_first name e (w w' : world T) r :
  registry_ok (w_registry w) → emit name e w = (r, w') →
  match r with
  | Ok _ =>
      check (w_registry w) (ev_subject e) (ev_schema_version e) (ev_payload e) = Ok tt
      ∧ es_has (w_store w') (ev_id e)
      ∧ w_bus w' = (w_bus w ++ [(ev_subject e, wire e)])%list
  | Err _ =>
      w_store w' = w_store w ∧ w_bus w' = w_bus w ∧ w_metrics w' = w_metrics w
  end.
Proof.
  intros Hr E. destruct (emit_run name e w Hr) as (reg & _ & _ & E'). rewrite E' in E.
  destruct (check _ _ _ _) as [[]|x]; [|by simplify_eq].
  destruct (record_event e (w_store w)) as [[[]|x] t] eqn:Er; simplify_eq/=.
  - split_and!; [done|by apply record_event_has in Er|done].
  - by apply record_event_err in Er as ->.
Qed.

(** Redelivery is harmless.  Emitting an event whose id is on record
    leaves the durable log as it is. *)
Theorem emit_idempotent name e (w w' : world T) r :
  registry_ok (w_registry w) → es_has (w_store w) (ev_id e) →
  emit name e w = (r, w') → w_store w' = w_store w.
Proof.
  intros Hr Hi E. destruct (emit_run name e w Hr) as (reg & _ & _ & E'). rewrite E' in E.
  destruct (check _ _ _ _) as [[]|x]; [|by simplify_eq].
  destruct (record_event e (w_store w)) as [[[]|x] t] eqn:Er; simplify_eq/=.
  - by apply record_event_again in Er.
  - by apply record_event_err in Er.
Qed.

(** One [emit] keeps an intact log intact. *)
Lemma emit_intact name e (w w' : world T) r :
  registry_ok (w_registry w) → es_ok (w_store w) → es_accepts e →
  emit name e w = (r, w') → es_ok (w_store w') ∧ registry_ok (w_registry w').
Proof.
  intros Hr Ht Ha E. split; [|by eapply keeps_emit].
  destruct (emit_run name e w Hr) as (reg & _ & _ & E'). rewrite E' in E.
  destruct (check _ _ _ _) as [[]|x]; [|by simplify_eq].
  destruct (record_event e (w_store w)) as [[[]|x] t] eqn:Er; simplify_eq/=.
  - destruct (es_has_dec (w_store w) (ev_id e)).
    + by rewrite (record_event_again _ _ ltac:(done) _ Er).
    + by eapply record_event_chain.
  - by apply record_event_err in Er as ->.
Qed.

(** C24: the audit check stays clean.  Whatever sequence of events an agent
    emits that its store gives back as they were hashed ([es_accepts]: any event
    for the store in memory; for PostgreSQL an id in canonical spelling and a
    payload that JSONB keeps), contract failures and store failures included,
    an auditor who recomputes the chain over the log it leaves finds no break. *)
Theorem emits_stay_intact name es (w w' : world T) r :
  registry_ok (w_registry w) → es_ok (w_store w) → Forall es_accepts es →
  for_each es (emit name) w = (r, w') → verify_chain (es_log (w_store w')) GENESIS_HASH = [].
Proof.
  intros Hr Ht Ha. revert w Hr Ht. induction Ha as [|e es He _ IH]; intros w Hr Ht.
  { intros [= _ <-]. by apply es_intact. }
  simpl. unfold mbind, M_bind. destruct (emit name e w) as [[[]|x] w1] eqn:E;
    apply emit_intact in E as [??]; try done; [by apply IH|].
  intros [= _ <-]. by apply es_intact.
Qed.

Context `{Agent T A}.

(** C13: nothing reaches the bus that is not on record.  For any agent
    whose handler publishes through [emit] and [dead_letter], after any
    sequence of deliveries and even if the loop dies on an exception, the bus
    has only grown, and each new message is the text of an event, or of a
    dead letter, whose id is in the durable store. *)
Theorem run_backed `{!Disciplined} l (s s' : proc T A) r :
  run l s = (r, s') →
  ∃ new, w_bus (p_world s') = (w_bus (p_world s) ++ new)%list
    ∧ Forall (backed (w_store (p_world s'))) new.
Proof. intros E. apply keeps_run in E as [_ _ _ (new & ? & ? & _) _]. eauto. Qed.

(** C14: the bus is typed by the schema files.  For any agent whose handler
    publishes through [emit] and [dead_letter], after any sequence of
    deliveries, every new message is a dead letter or the text of an event
    whose payload the schema of its subject and version accepts; and where such
    an event is well formed, an agent with the same files that receives the
    message runs its handler on that very event: none is dead-lettered. *)
Theorem run_typed `{!Disciplined} l (s s' : proc T A) r :
  registry_ok (w_registry (p_world s)) → run l s = (r, s') →
  ∃ new, w_bus (p_world s') = (w_bus (p_world s) ++ new)%list
    ∧ ∀ channel data, (channel, data) ∈ new →
      startswith DEADLETTER channel = true
      ∨ ∃ e, channel = ev_subject e ∧ data = wire e
          ∧ check (w_registry (p_world s)) (ev_subject e) (ev_schema_version e) (ev_payload e)
            = Ok tt
          ∧ (wf_event e → ∀ q : proc T A,
               registry_ok (w_registry (p_world q)) →
               same_files (w_registry (p_world s)) (w_registry (p_world q)) →
               ∃ q', p_agent q' = p_agent q ∧ w_store (p_world q') = w_store (p_world q)
                 ∧ w_bus (p_world q') = w_bus (p_world q)
                 ∧ on_delivery (Delivery "message" channel data) q = handle e q').
Proof.
  intros Hr E. apply keeps_run in E as [_ _ _ (new & Eb & _ & Ht) _].
  exists new. split; [done|]. intros c d Hcd.
  pose proof (proj1 (Forall_forall _ _) (Ht Hr) _ Hcd) as Hm.
  inversion Hm as [e Hc|e error]; subst; [right|left; exact (startswith_app DEADLETTER _)].
  exists e. split_and!; [done..|]. intros Hw q Hq Hf. unfold on_delivery. simpl.
  rewrite wire_roundtrip by done. unfold mbind, M_bind. simpl.
  assert (check (w_registry (p_world q)) (ev_subject e) (ev_schema_version e) (ev_payload e)
          = Ok tt) as Hcq by by rewrite <-Hf.
  destruct (dispatch_run e q Hq) as (reg & _ & _ & Ed). rewrite Ed, Hcq.
  by eexists (Proc (set_metrics _ (set_registry reg (p_world q))) (p_agent q)).
Qed.

(** C29: a failed contract quarantines the event and nothing else.  The
    handler does not run, the agent's own state is untouched, and the message
    on [deadletter.<subject>] gives the original event back to a reader. *)
Theorem dispatch_quarantines e (s s' : proc T A) x r :
  registry_ok (w_registry (p_world s)) →
  check (w_registry (p_world s)) (ev_subject e) (ev_schema_version e) (ev_payload e) = Err x →
  is_contract_error x = true →
  wf_val (VDict (dead_envelope e (exn_msg x))) →
  dispatch e s = (r, s') →
  p_agent s' = p_agent s
  ∧ match r with
    | Ok _ => ∃ data,
        w_bus (p_world s') = (w_bus (p_world s) ++ [(DEADLETTER +:+ ev_subject e, data)])%list
        ∧ parse_wire data = Ok e ∧ es_dead_has (w_store (p_world s')) (ev_id e)
    | Err _ => w_bus (p_world s') = w_bus (p_world s)
    end.
Proof.
  intros Hr Hc Hx Hw E. destruct (dispatch_run e s Hr) as (reg & Hreg & _ & E').
  rewrite E', Hc, Hx in E. unfold in_world, zoom in E.
  destruct (dead_letter_run agent_name e (exn_msg x) (p_world (at_registry reg s)))
    as (reg' & _ & _ & Ed); [done|]. rewrite Ed in E.
  assert (parse_wire (dumps Spaced (VDict (dead_envelope e (exn_msg x)))) = Ok e) as Hp.
  { unfold parse_wire. rewrite loads_dumps by done. apply from_dict_extra. simpl. set_solver. }
  destruct (record_deadletter _ _) as [[[]|y] t] eqn:Et.
  - apply record_deadletter_has in Et.
    destruct (check _ "deadletter.envelope" _ _); [|destruct (is_contract_error e0)];
      simplify_eq/=; eauto.
  - destruct (check _ "deadletter.envelope" _ _); [|destruct (is_contract_error e0)];
      by simplify_eq/=.
Qed.

(** An event on a subject without a schema file is never handled.
    With the repository's schema files, whatever version and payload a
    producer sends on such a subject, [dispatch] takes the dead-letter path
    with the [SchemaNotFound] text. *)
Theorem unregistered_never_handled e (s : proc T A) :
  registry_ok (w_registry (p_world s)) → repository_files (w_registry (p_world s)) →
  unregistered (ev_subject e) = true →
  ∃ reg msg, registry_ok reg ∧ same_files (w_registry (p_world s)) reg ∧
    dispatch e s = in_world (dead_letter agent_name e msg) (at_registry reg s).
Proof.
  intros Hr Hf Hu. destruct (dispatch_run e s Hr) as (reg & ? & ? & E).
  exists reg. eexists. split_and!; [done|done|]. rewrite E. unfold check.
  rewrite (unregistered_schema _ _ _ Hf Hu). simpl. done.
Qed.

(** A dead letter delivered to a subscriber of its channel is
    quarantined again.  If a message that [dead_letter] published is handed
    to an agent under the same contracts, the agent publishes the same text
    on the same channel and its handler does not run. *)
Theorem dead_letter_echoes e x (s s' : proc T A) r :
  let data := dumps Spaced (VDict (dead_envelope e (exn_msg x))) in
  let channel := DEADLETTER +:+ ev_subject e in
  registry_ok (w_registry (p_world s)) →
  check (w_registry (p_world s)) (ev_subject e) (ev_schema_version e) (ev_payload e) = Err x →
  is_contract_error x = true →
  wf_val (VDict (dead_envelope e (exn_msg x))) →
  on_delivery (Delivery "message" channel data) s = (r, s') →
  p_agent s' = p_agent s
  ∧ (r = Ok tt → w_bus (p_world s') = (w_bus (p_world s) ++ [(channel, data)])%list).
Proof.
  intros data channel Hr Hc Hx Hw E. unfold on_delivery in E. simpl in E.
  unfold parse_wire in E. unfold data in E. rewrite loads_dumps in E by done.
  unfold dead_envelope in E at 1. rewrite from_dict_extra in E by (simpl; set_solver).
  unfold mbind, M_bind in E. simpl in E.
  destruct (dispatch_run e s Hr) as (reg & Hreg & _ & E').
  rewrite E', Hc, Hx in E. unfold in_world, zoom in E.
  destruct (dead_letter_run agent_name e (exn_msg x) (p_world (at_registry reg s)))
    as (reg' & _ & _ & Ed); [done|]. rewrite Ed in E.
  destruct (record_deadletter _ _) as [[[]|y] t];
    (destruct (check _ "deadletter.envelope" _ _); [|destruct (is_contract_error e0)]);
      by simplify_eq/=.
Qed.
End properties.

(** ** Examples *)
Module AgentDemo.
Definition world0 : world InMemoryEventStore.store :=
  World Demo.registry InMemoryEventStore.init [] [] 0.

Definition event0 : event :=
  Event "ledger.posted" 1 "ledger" [("total_minor", VInt 5)] (Demo.uuid_of 7) None (Some "acme").

(** An agent that emits one event for each it receives. *)
Definition echo `{Externals} : Agent InMemoryEventStore.store unit := {|
  agent_name := "echo";
  subjects := ["ledger.posted"];
  handle e := emit_new "echo" "ledger.posted" 1 None None (ev_payload e);
|}.

Definition proc0 : proc InMemoryEventStore.store unit := Proc world0 tt.

Lemma event0_wf : wf_event event0.
Proof. apply ascii_event_wf. reflexivity. Qed.
End AgentDemo.

Section witnesses.
Import AgentDemo.
#[local] Existing Instance Demo.externals.
#[local] Existing Instance demo_server.
#[local] Existing Instance demo_server_laws.

Lemma emit_durable_first_witness :
  is_ok (emit "ledger" event0 world0).1 = true ∧
  let '(r, w') := emit "ledger" event0 world0 in
  match r with
  | Ok _ => check Demo.registry "ledger.posted" 1 (ev_payload event0) = Ok tt
            ∧ es_has (w_store w') (ev_id event0)
            ∧ w_bus w' = [("ledger.posted", wire event0)]
  | Err _ => w_store w' = w_store world0 ∧ w_bus w' = [] ∧ w_metrics w' = []
  end.
Proof.
  split; [vm_compute; reflexivity|]. destruct (emit _ _ _) as [r w'] eqn:E.
  exact (emit_durable_first "ledger" event0 world0 w' r Demo.registry_fresh E).
Defined.

Definition world1 : world InMemoryEventStore.store :=
  set_store (InMemoryEventStore.mem_record event0 InMemoryEventStore.init).2 world0.

Lemma emit_idempotent_witness :
  let '(r, w') := emit "ledger" event0 world1 in w_store w' = w_store world1.
Proof.
  destruct (emit _ _ _) as [r w'] eqn:E.
  refine (emit_idempotent "ledger" event0 world1 w' r Demo.registry_fresh _ E).
  apply (record_event_has InMemoryEventStore.init event0). reflexivity.
Defined.

(** On PostgreSQL: a price with a float in it, and an entry twice. *)
Definition pg_world : world PostgresEventStore.tables := World Demo.registry priced [] [] 0.

Lemma emits_stay_intact_witness :
  let '(r, w') := for_each [price_event; posted_event uuid0; posted_event uuid0]
                    (emit (T := PostgresEventStore.tables) "ledger") pg_world in
  r = Ok tt ∧ length (PostgresEventStore.event_log (w_store w')) = 2
  ∧ verify_chain (es_log (w_store w')) GENESIS_HASH = [].
Proof.
  destruct (for_each _ _ _) as [r w'] eqn:E.
  assert (Hr : is_ok r = true ∧ length (PostgresEventStore.event_log (w_store w')) = 2).
  { split; [change r with (r, w').1|change w' with (r, w').2]; rewrite <-E; vm_compute; reflexivity. }
  split; [by destruct r as [[]|], Hr|]. split; [exact (proj2 Hr)|].
  apply (emits_stay_intact (T := PostgresEventStore.tables) "ledger"
    [price_event; posted_event uuid0; posted_event uuid0] pg_world w' r Demo.registry_fresh).
  - reflexivity.
  - repeat (apply Forall_cons; split; [exact posted_event_accepted || exact price_event_accepted|]).
    by apply Forall_nil.
  - exact E.
Defined.

Definition delivery0 : delivery := Delivery "message" "ledger.posted" (wire event0).

#[local] Instance echo_agent : Agent InMemoryEventStore.store unit := echo.
#[local] Instance echo_disciplined : Disciplined (T := InMemoryEventStore.store).
Proof. intros e. simpl. keeps_tac. Qed.

Lemma run_backed_witness :
  let '(r, s') := run [delivery0; delivery0] proc0 in
  ∃ new, w_bus (p_world s') = new ∧ Forall (backed (w_store (p_world s'))) new.
Proof.
  destruct (run _ _) as [r s'] eqn:E.
  exact (run_backed [delivery0; delivery0] proc0 s' r E).
Defined.

Lemma run_typed_witness :
  let '(r, s') := run [delivery0; delivery0] proc0 in
  length (w_bus (p_world s')) = 2
  ∧ ∃ new, w_bus (p_world s') = new
    ∧ ∀ channel data, (channel, data) ∈ new →
      startswith DEADLETTER channel = true
      ∨ ∃ e, channel = ev_subject e ∧ data = wire e
          ∧ check Demo.registry (ev_subject e) (ev_schema_version e) (ev_payload e) = Ok tt
          ∧ (wf_event e → ∀ q : proc InMemoryEventStore.store unit,
               registry_ok (w_registry (p_world q)) →
               same_files Demo.registry (w_registry (p_world q)) →
               ∃ q', p_agent q' = p_agent q ∧ w_store (p_world q') = w_store (p_world q)
                 ∧ w_bus (p_world q') = w_bus (p_world q)
                 ∧ on_delivery (Delivery "message" channel data) q = handle e q').
Proof.
  assert (length (w_bus (p_world (run [delivery0; delivery0] proc0).2)) = 2) as Hl
    by (vm_compute; reflexivity).
  destruct (run _ _) as [r s'] eqn:E. split; [exact Hl|].
  exact (run_typed [delivery0; delivery0] proc0 s' r Demo.registry_fresh E).
Defined.
End witnesses.

Section strict_witnesses.
Import AgentDemo.
#[local] Existing Instance Demo.strict.
#[local] Instance echo_agent_strict : Agent InMemoryEventStore.store unit := echo.

Lemma event0_fails :
  check Demo.registry "ledger.posted" 1 (ev_payload event0)
  = Err (Exn ValidationError "invalid").
Proof. vm_compute. reflexivity. Qed.

Lemma event0_dead_wf : wf_val (VDict (dead_envelope event0 "invalid")).
Proof. apply ascii_val_wf. reflexivity. Qed.

Lemma dispatch_quarantines_witness :
  let '(r, s') := dispatch event0 proc0 in
  p_agent s' = tt
  ∧ match r with
    | Ok _ => ∃ data, w_bus (p_world s') = [("deadletter.ledger.posted", data)]
                ∧ parse_wire data = Ok event0
                ∧ es_dead_has (w_store (p_world s')) (ev_id event0)
    | Err _ => w_bus (p_world s') = []
    end.
Proof.
  destruct (dispatch _ _) as [r s'] eqn:E.
  exact (dispatch_quarantines event0 proc0 s' (Exn ValidationError "invalid") r
    Demo.registry_fresh event0_fails eq_refl event0_dead_wf E).
Defined.

Definition workorder_event : event :=
  Event "forge.workorder" 1 "api" [] (Demo.uuid_of 8) None (Some "acme").

Lemma unregistered_never_handled_witness :
  ∃ reg msg, registry_ok reg ∧ same_files Demo.registry reg ∧
    dispatch workorder_event proc0
    = in_world (dead_letter "echo" workorder_event msg) (at_registry reg proc0).
Proof.
  exact (unregistered_never_handled workorder_event proc0 Demo.registry_fresh
    Demo.registry_files eq_refl).
Defined.

Lemma dead_letter_echoes_witness :
  let data := dumps Spaced (VDict (dead_envelope event0 "invalid")) in
  let '(r, s') := on_delivery (Delivery "message" "deadletter.ledger.posted" data) proc0 in
  p_agent s' = tt
  ∧ (r = Ok tt → w_bus (p_world s') = [("deadletter.ledger.posted", data)]).
Proof.
  intros data. destruct (on_delivery _ _) as [r s'] eqn:E.
  exact (dead_letter_echoes event0 (Exn ValidationError "invalid") proc0 s' r
    Demo.registry_fresh event0_fails eq_refl event0_dead_wf E).
Defined.
End strict_witnesses.
