(* ===== verification/Forge.v ===== *)
(** * Forge: work orders and revenue recognition (agents/forge/forge.py, agent.py)

    A work order is a small state machine; completing one yields the domain
    event and a ledger entry.  The facts: which moves are legal, that an order
    completes at most once, that the entry balances for every order, and what
    the agent emits. *)

From S2P Require Import Prelude PyStr PyFloat PyVal Json JsonText JsonFacts Digest Metrics Contract Registry HashChain EventStore Agent.
Local Open Scope string_scope.
Local Open Scope Z_scope.

Definition ACCOUNT_RECEIVABLE : string := "1100-accounts-receivable".
Definition ACCOUNT_REVENUE : string := "4000-revenue".
Definition ACCOUNT_TAX_PAYABLE : string := "2200-tax-payable".

(** [uuid.NAMESPACE_DNS]. *)
Definition NAMESPACE_DNS : list N :=
  [107; 167; 184; 16; 157; 173; 17; 209; 128; 180; 0; 192; 79; 212; 48; 200]%N.
Definition ENTRY_NAMESPACE : list N := uuid5 NAMESPACE_DNS "cavi-erp.forge.ledger-entry".

#[global] Opaque ENTRY_NAMESPACE uuid5.

(** ** The state machine *)
Inductive work_order_state : Type := CREATED | IN_PROGRESS | COMPLETED | CANCELLED.

#[export] Instance work_order_state_eq_dec : EqDecision work_order_state.
Proof. solve_decision. Defined.

Definition state_value (s : work_order_state) : string :=
  match s with
  | CREATED => "created" | IN_PROGRESS => "in_progress"
  | COMPLETED => "completed" | CANCELLED => "cancelled"
  end.

Definition all_states : list work_order_state := [CREATED; IN_PROGRESS; COMPLETED; CANCELLED].

(** [_ALLOWED]. *)
Definition allowed (s : work_order_state) : list work_order_state :=
  match s with
  | CREATED => [IN_PROGRESS; CANCELLED]
  | IN_PROGRESS => [COMPLETED; CANCELLED]
  | COMPLETED | CANCELLED => []
  end.

(** [WorkOrderState(v)]: the member with that value. *)
Definition state_of (v : pyval) : result work_order_state :=
  match List.find (λ s, py_eq (VStr (state_value s)) v) all_states with
  | Some s => Ok s
  | None => raise_r ValueError (py_repr v +:+ " is not a valid WorkOrderState")
  end.

Record work_order : Type := WorkOrder {
  work_order_id : string;
  tenant_id : string;
  sku : string;
  quantity : Z;
  unit_price_minor : Z;
  currency : string;
  tax_rate_bps : Z;
  state : work_order_state;
}.

Definition net_minor (o : work_order) : Z := quantity o * unit_price_minor o.
(** Python's [//] rounds down, as [Z.div] does for a positive divisor. *)
Definition tax_minor (o : work_order) : Z := net_minor o * tax_rate_bps o / 10000.
Definition gross_minor (o : work_order) : Z := net_minor o + tax_minor o.

Definition with_state (s : work_order_state) (o : work_order) : work_order :=
  WorkOrder (work_order_id o) (tenant_id o) (sku o) (quantity o) (unit_price_minor o)
    (currency o) (tax_rate_bps o) s.

Definition transition_to (new_state : work_order_state) (o : work_order) : result work_order :=
  if decide (new_state ∈ allowed (state o)) then Ok (with_state new_state o)
  else raise_r InvalidTransition ("work order " +:+ work_order_id o +:+ ": "
         +:+ state_value (state o) +:+ " -> " +:+ state_value new_state).

Definition work_order_of_payload (payload : pydict) : result work_order :=
  wid ← get_str "work_order_id" payload;
  tid ← get_str "tenant_id" payload;
  sku ← get_str "sku" payload;
  q ← getitem "quantity" payload; q ← py_int q;
  p ← getitem "unit_price_minor" payload; p ← py_int p;
  cur ← get_str "currency" payload;
  bps ← py_int (get_or "tax_rate_bps" (VInt 0) payload);
  st ← state_of (get_or "state" (VStr (state_value CREATED)) payload);
  Ok (WorkOrder wid tid sku q p cur bps st).

(** ** Completion *)
Definition ledger_entry_id (o : work_order) : string :=
  uuid_str (uuid5 ENTRY_NAMESPACE (tenant_id o +:+ ":" +:+ work_order_id o)).

Definition line (account direction : string) (amount : Z) : pyval :=
  VDict [("account", VStr account); ("direction", VStr direction); ("amount_minor", VInt amount)].

Definition revenue_lines (o : work_order) : list pyval :=
  [line ACCOUNT_RECEIVABLE "debit" (gross_minor o); line ACCOUNT_REVENUE "credit" (net_minor o)]
  ++ (if tax_minor o =? 0 then [] else [line ACCOUNT_TAX_PAYABLE "credit" (tax_minor o)]).

Record completion_result : Type := CompletionResult {
  cr_order : work_order;
  cr_completed_event : pydict;
  cr_ledger_entry : pydict;
}.

Definition start (o : work_order) : result work_order := transition_to IN_PROGRESS o.
Definition cancel (o : work_order) : result work_order := transition_to CANCELLED o.

Definition completed_event (o : work_order) : pydict :=
  [("work_order_id", VStr (work_order_id o));
   ("tenant_id", VStr (tenant_id o));
   ("sku", VStr (sku o));
   ("quantity", VInt (quantity o));
   ("currency", VStr (currency o));
   ("net_minor", VInt (net_minor o));
   ("tax_minor", VInt (tax_minor o));
   ("gross_minor", VInt (gross_minor o))].

Definition ledger_entry (o : work_order) : pydict :=
  [("entry_id", VStr (ledger_entry_id o));
   ("currency", VStr (currency o));
   ("memo", VStr ("sale " +:+ sku o +:+ " x" +:+ Z_str (quantity o)
                    +:+ " (wo " +:+ work_order_id o +:+ ")"));
   ("lines", VList (revenue_lines o))].

Definition complete (o : work_order) : result completion_result :=
  completed ← transition_to COMPLETED o;
  Ok (CompletionResult completed (completed_event completed) (ledger_entry completed)).

(** ** The agent *)
Section agent.
Context `{Externals} `{EventStore T}.

Definition handle_workorder (event : event) : M (proc T unit) unit :=
  order ← of_result (work_order_of_payload (ev_payload event));
  order ← (if decide (state order = CREATED) then of_result (start order) else mret order);
  match complete order with
  | Err exc => if isinstance exc InvalidTransition then mret tt else of_result (Err exc)
  | Ok result =>
      let tenant_id := Some (tenant_id (cr_order result)) in
      emit_new "forge" "forge.completed" 1 (ev_correlation_id event) tenant_id
        (cr_completed_event result) ;;
      emit_new "forge" "ledger.entry" 1 (ev_correlation_id event) tenant_id
        (cr_ledger_entry result)
  end.

#[export] Instance forge_agent : Agent T unit := {
  agent_name := "forge";
  subjects := ["forge.workorder"];
  handle := handle_workorder;
}.
End agent.

(** ** The life of a work order *)

(** One call of [start], [cancel] or [complete] that succeeds. *)
Inductive moves (o : work_order) : work_order → Prop :=
  | moves_start o' : start o = Ok o' → moves o o'
  | moves_cancel o' : cancel o = Ok o' → moves o o'
  | moves_complete r : complete o = Ok r → moves o (cr_order r).

Lemma transition_to_ok s o o' :
  transition_to s o = Ok o' ↔ s ∈ allowed (state o) ∧ o' = with_state s o.
Proof.
  unfold transition_to. case_decide; split; [naive_solver..|done|naive_solver].
Qed.

Lemma complete_ok o r :
  complete o = Ok r ↔
  state o = IN_PROGRESS ∧ r = CompletionResult (with_state COMPLETED o) (completed_event o) (ledger_entry o).
Proof.
  unfold complete. split.
  - intros (o' & [Hs ->]%transition_to_ok & [= <-])%result_bind_ok.
    split; [|done]. destruct (state o); set_solver.
  - intros [Hs ->]. unfold transition_to. rewrite Hs, decide_True by set_solver. done.
Qed.

Lemma moves_inv o o' : moves o o' → ∃ s, s ∈ allowed (state o) ∧ o' = with_state s o.
Proof.
  intros [? [? ->]%transition_to_ok|? [? ->]%transition_to_ok|r [Hs ->]%complete_ok]; eauto.
  exists COMPLETED. rewrite Hs. split; [set_solver|done].
Qed.

Definition is_terminal (s : work_order_state) : bool := bool_decide (allowed s = []).

(** The work-order state machine.  A move never changes what is billed:
    the ledger entry, its id included, is the same along the whole life of the
    order.  Once an order is completed or cancelled it never changes again, and
    completing, cancelling or starting it raises [InvalidTransition]. *)
Theorem work_order_life o o' :
  rtc moves o o' →
  ledger_entry o' = ledger_entry o ∧ completed_event o' = completed_event o
  ∧ (is_terminal (state o) = true → o' = o
     ∧ ∀ s, ∃ msg, transition_to s o' = raise_r InvalidTransition msg).
Proof.
  induction 1 as [o|o o1 o2 Hm _ (IHl & IHc & IHt)].
  - split_and!; [done..|]. unfold is_terminal, transition_to.
    rewrite bool_decide_eq_true. intros Ht. split; [done|]. intros s.
    rewrite decide_False by (rewrite Ht; apply not_elem_of_nil). by eexists.
  - apply moves_inv in Hm as (s & Hs & ->).
    split_and!; [by rewrite IHl|by rewrite IHc|].
    unfold is_terminal. rewrite bool_decide_eq_true. intros Ht. rewrite Ht in Hs. destruct (not_elem_of_nil _ Hs).
Qed.

Definition order0 : work_order :=
  WorkOrder "wo-1" "acme" "widget" 3 1999 "USD" 825 CREATED.

Lemma work_order_life_witness :
  let o' := with_state COMPLETED order0 in
  ledger_entry o' = ledger_entry order0 ∧ completed_event o' = completed_event order0
  ∧ (is_terminal CREATED = true → o' = order0
     ∧ ∀ s, ∃ msg, transition_to s o' = raise_r InvalidTransition msg).
Proof.
  intros o'. apply (work_order_life order0 o').
  apply (rtc_l _ _ (with_state IN_PROGRESS order0)); [by apply moves_start|].
  apply rtc_once.
  apply (moves_complete _ (CompletionResult (with_state COMPLETED order0)
    (completed_event (with_state IN_PROGRESS order0))
    (ledger_entry (with_state IN_PROGRESS order0)))).
  by apply complete_ok.
Defined.

(** ** The agent *)
Section agent_facts.
Context `{Externals} `{EventStoreLaws T}.

#[export] Instance forge_disciplined : Disciplined (T := T) (A := unit).
Proof. intros e. simpl. unfold handle_workorder. keeps_tac. Qed.

(** A work order that arrives created or in progress is completed; any other
    is ignored. *)
Lemma handle_workorder_run ev o s :
  work_order_of_payload (ev_payload ev) = Ok o →
  handle_workorder ev s =
    if is_terminal (state o) then (Ok tt, s) else
    (emit_new "forge" "forge.completed" 1 (ev_correlation_id ev) (Some (tenant_id o))
       (completed_event o) ;;
     emit_new "forge" "ledger.entry" 1 (ev_correlation_id ev) (Some (tenant_id o))
       (ledger_entry o)) s.
Proof.
  intros E. unfold handle_workorder. rewrite E. unfold of_result at 1.
  rewrite (M_bind_run _ _ s o s) by done.
  destruct (state o) eqn:Es; simpl.
  - rewrite (M_bind_run _ _ s (with_state IN_PROGRESS o) s).
    2: { unfold of_result, start, transition_to. by rewrite Es. }
    rewrite (proj2 (complete_ok (with_state IN_PROGRESS o) _)) by done. done.
  - rewrite (M_bind_run _ _ s o s) by done.
    rewrite (proj2 (complete_ok o _)) by done. done.
  - rewrite (M_bind_run _ _ s o s) by done. unfold complete, transition_to. rewrite Es. done.
  - rewrite (M_bind_run _ _ s o s) by done. unfold complete, transition_to. rewrite Es. done.
Qed.
End agent_facts.
