(* ===== verification/Ddl.v ===== *)
(** * Tables and statements (the language of schema_registry/migrations)

    The part of PostgreSQL's SQL that the migrations are written in, and the
    INSERT the stores use, as functions on a database: its tables (columns,
    types, constraints), its indexes and its rows.  The meaning is PostgreSQL's
    documented one: a value is converted to the type of its column or refused,
    NOT NULL and CHECK are tested before a conflict is looked for, and a foreign
    key only for a row that is written.  [now()] is the server's clock.  Generated
    numbers count the rows of the table: PostgreSQL may skip some (a refused
    INSERT uses one up), but their order, which is all the program reads, is the
    same.  Text that needs a character PostgreSQL does
    not store (NUL) is refused. *)

From S2P Require Import Prelude PyStr PyFloat PyVal Json JsonText JsonFacts Digest HashChain Contract EventStore.
Local Open Scope string_scope.
Local Open Scope Z_scope.

(** ** Values and types *)
Inductive value : Type :=
  | SNull
  | SText (s : string)
  | SInt (z : Z)
  | SUuid (b : list N)
  | SJson (d : pydict)
  | STime (t : string).

Inductive sql_type : Type :=
  | TEXT | CHAR (n : nat) | INTEGER | BIGINT | UUID | JSONB | TIMESTAMPTZ.

(** [CHECK (c > 0)] and [CHECK (c IN (...))]. *)
Inductive check : Type := Above_zero | One_of (l : list string).

(** [DEFAULT now()]; [BIGSERIAL] and [GENERATED BY DEFAULT AS IDENTITY]. *)
Inductive filler : Type := Nothing | Now | Serial.

Record column : Type := Column {
  col_name : string;
  col_type : sql_type;
  col_not_null : bool;
  col_default : filler;
  col_check : option check;
}.

(** [FOREIGN KEY (cols) REFERENCES table (cols)]. *)
Record foreign_key : Type := ForeignKey {
  fk_columns : list string;
  fk_table : string;
  fk_target : list string;
}.

Record table : Type := Table {
  columns : list column;
  primary_key : list string;
  foreign_keys : list foreign_key;
}.

Record index : Type := Index { ix_table : string; ix_columns : list string; ix_unique : bool }.

Notation row := (gmap string value) (only parsing).

Record relation : Type := Relation { rel_table : table; rel_rows : list row }.

Record database : Type := Database {
  db_relations : gmap string relation;
  db_indexes : gmap string index;
}.

Definition empty_database : database := Database ∅ ∅.

#[export] Instance value_eq_dec : EqDecision value.
Proof. solve_decision. Defined.
#[export] Instance sql_type_eq_dec : EqDecision sql_type.
Proof. solve_decision. Defined.
#[export] Instance check_eq_dec : EqDecision check.
Proof. solve_decision. Defined.
#[export] Instance filler_eq_dec : EqDecision filler.
Proof. solve_decision. Defined.
#[export] Instance column_eq_dec : EqDecision column.
Proof. solve_decision. Defined.

Definition null (v : value) : bool := match v with SNull => true | _ => false end.

Definition cell (c : string) (r : row) : value := default SNull (r !! c).

Definition rows_of (name : string) (db : database) : list row :=
  match db_relations db !! name with Some rel => rel_rows rel | None => [] end.

Definition put (name : string) (rel : relation) (db : database) : database :=
  Database (<[name := rel]> (db_relations db)) (db_indexes db).

(** ** Conversion and constraints *)

(** Text PostgreSQL stores. *)
Fixpoint storable (s : string) : bool :=
  match s with
  | EmptyString => true
  | String c s => negb (N_of_ascii c =? 0)%N && storable s
  end.

Fixpoint spaces (n : nat) : string :=
  match n with O => EmptyString | S n => " " +:+ spaces n end.

(** A [CHAR(n)] column pads with blanks and refuses longer text, unless the
    rest is blanks, which it drops. *)
Definition char_n (n : nat) (s : string) : option string :=
  let l := utf8_decode s in
  if (length l <=? n)%nat then Some (s +:+ spaces (n - length l))
  else if forallb (N.eqb 32) (drop n l) then Some (utf8_encode (take n l)) else None.

Definition within (bits : Z) (z : Z) : bool := (- 2 ^ (bits - 1) <=? z) && (z <? 2 ^ (bits - 1)).

Section server.
Context `{PgServer}.

(** The value a column of the type keeps, or nothing when it is refused. *)
Definition coerce (ty : sql_type) (v : value) : option value :=
  match ty, v with
  | _, SNull => Some SNull
  | TEXT, SText s => if storable s then Some v else None
  | CHAR n, SText s => if storable s then SText <$> char_n n s else None
  | INTEGER, SInt z => if within 32 z then Some v else None
  | BIGINT, SInt z => if within 64 z then Some v else None
  | UUID, SText s => SUuid <$> pg_uuid s
  | UUID, SUuid b => Some v
  | JSONB, SJson d => SJson <$> jsonb d
  | TIMESTAMPTZ, STime t => Some v
  | _, _ => None
  end.

(** A check that is not false passes: on NULL it is unknown. *)
Definition check_passes (k : check) (v : value) : bool :=
  match k, v with
  | _, SNull => true
  | Above_zero, SInt z => 0 <? z
  | One_of l, SText s => bool_decide (s ∈ l)
  | _, _ => false
  end.

(** What a column gets when a row is the [n]-th to be written. *)
Definition filled (n : nat) (f : filler) : value :=
  match f with
  | Nothing => SNull
  | Now => STime (pg_now n)
  | Serial => SInt (Z.of_nat (S n))
  end.

Definition column_value (n : nat) (given : list (string * value)) (c : column) : option value :=
  v ← match dget (col_name c) given with
      | Some v => coerce (col_type c) v
      | None => Some (filled n (col_default c))
      end;
  if col_not_null c && null v then None
  else if match col_check c with Some k => check_passes k v | None => true end then Some v
  else None.

(** The row, column by column; a value for no column is refused. *)
Definition make_row (t : table) (n : nat) (given : list (string * value)) : option row :=
  if forallb (λ k, existsb (String.eqb k) (map col_name (columns t))) (map fst given) then
    l ← mapM (λ c, v ← column_value n given c; Some (col_name c, v)) (columns t);
    Some (list_to_map l)
  else None.

(** ** INSERT *)
Definition key_of (cols : list string) (r : row) : list value := map (λ c, cell c r) cols.

(** Two keys with a NULL in them are never equal. *)
Definition same_key (cols : list string) (r r' : row) : bool :=
  bool_decide (key_of cols r = key_of cols r') && negb (existsb null (key_of cols r)).

Definition taken (cols : list string) (r : row) (rs : list row) : bool :=
  existsb (same_key cols r) rs.

Definition references (db : database) (r : row) (k : foreign_key) : bool :=
  let key := key_of (fk_columns k) r in
  existsb null key
  || existsb (λ r', bool_decide (key_of (fk_target k) r' = key)) (rows_of (fk_table k) db).

Definition unique_keys (name : string) (db : database) : list (list string) :=
  map (λ p, ix_columns p.2)
    (List.filter (λ p, ix_unique p.2 && String.eqb (ix_table p.2) name) (map_to_list (db_indexes db))).

Definition db_error {A} (what : string) : result A := raise_r DatabaseError what.

(** [INSERT INTO name (...) VALUES (...) ON CONFLICT (cols) DO NOTHING], or
    without the clause: whether a row was written. *)
Definition insert_row (name : string) (given : list (string * value)) (conflict : option (list string))
    : M database bool := λ db,
  match db_relations db !! name with
  | None => (db_error "relation does not exist", db)
  | Some (Relation t rs) =>
      match make_row t (length rs) given with
      | None => (db_error "a value was refused", db)
      | Some r =>
          if match conflict with Some cols => negb (bool_decide (cols = primary_key t)) | None => false end
          then (db_error "no unique constraint matching ON CONFLICT", db)
          else if taken (primary_key t) r rs
          then (match conflict with Some _ => Ok false | None => db_error "duplicate key" end, db)
          else if existsb (λ cols, taken cols r rs) (unique_keys name db)
          then (db_error "duplicate key", db)
          else if forallb (references db r) (foreign_keys t)
          then (Ok true, put name (Relation t (rs ++ [r])) db)
          else (db_error "foreign key violation", db)
      end
  end.
End server.

(** ** The statements of a migration *)
Inductive statement : Type :=
  | Create_table (name : string) (t : table)           (* IF NOT EXISTS *)
  | Add_column (name : string) (c : column)            (* IF NOT EXISTS *)
  | Drop_column (name c : string)                      (* IF EXISTS *)
  | Backfill (name c value : string)                   (* UPDATE ... WHERE c IS NULL *)
  | Set_not_null (name c : string)
  | Create_index (ix : string) (i : index)             (* IF NOT EXISTS *)
  | Drop_index (ix : string)                           (* IF EXISTS *)
  | Comment_on (name : string).

Definition names (t : table) : list string := map col_name (columns t).

Definition find_column (c : string) (t : table) : option column :=
  List.find (λ k, String.eqb (col_name k) c) (columns t).

Definition with_columns (f : list column → list column) (t : table) : table :=
  Table (f (columns t)) (primary_key t) (foreign_keys t).

Definition require (c : string) (k : column) : column :=
  if String.eqb (col_name k) c
  then Column (col_name k) (col_type k) true (col_default k) (col_check k) else k.

Definition is_null (c : string) (r : row) : bool := null (cell c r).

(** The column is part of a key of its table. *)
Definition in_key (c : string) (t : table) : bool :=
  bool_decide (c ∈ primary_key t) || existsb (λ k, bool_decide (c ∈ fk_columns k)) (foreign_keys t).

(** The rows are all different in the columns of a unique index. *)
Fixpoint distinct_rows (cols : list string) (rs : list row) : bool :=
  match rs with
  | [] => true
  | r :: rs => negb (taken cols r rs) && distinct_rows cols rs
  end.

Section exec.
Context `{PgServer}.

(** The rows of a table get the default of a new column, each in its turn. *)
Fixpoint add_cells (n : nat) (c : column) (rs : list row) : option (list row) :=
  match rs with
  | [] => Some []
  | r :: rs => v ← column_value n [] c; rs' ← add_cells (S n) c rs; Some (<[col_name c := v]> r :: rs')
  end.

Definition on_table (name : string) (db : database) (k : relation → result database) : result database :=
  match db_relations db !! name with
  | Some rel => k rel
  | None => db_error "relation does not exist"
  end.

(** Dropping a column drops the indexes on it; a column of a key is left out
    (no script drops one). *)
Definition exec (s : statement) (db : database) : result database :=
  match s with
  | Create_table name t =>
      match db_relations db !! name with
      | Some _ => Ok db
      | None =>
          if forallb (λ k, bool_decide (is_Some (db_relations db !! fk_table k))) (foreign_keys t)
          then Ok (put name (Relation t []) db) else db_error "relation does not exist"
      end
  | Add_column name c => on_table name db (λ rel,
      if bool_decide (col_name c ∈ names (rel_table rel)) then Ok db else
      match add_cells 0 c (rel_rows rel) with
      | Some rs => Ok (put name (Relation (with_columns (λ l, l ++ [c])%list (rel_table rel)) rs) db)
      | None => db_error "column contains values that violate a constraint"
      end)
  | Drop_column name c => on_table name db (λ rel,
      if negb (bool_decide (c ∈ names (rel_table rel))) then Ok db
      else if in_key c (rel_table rel) then db_error "column of a key" else
      let t := with_columns (List.filter (λ k, negb (String.eqb (col_name k) c))) (rel_table rel) in
      Ok (Database (<[name := Relation t (delete c <$> rel_rows rel)]> (db_relations db))
            (filter (λ p, ¬ (ix_table p.2 = name ∧ c ∈ ix_columns p.2)) (db_indexes db))))
  | Backfill name c text => on_table name db (λ rel,
      match find_column c (rel_table rel) with
      | None => db_error "column does not exist"
      | Some k =>
          match column_value 0 [(c, SText text)] k with
          | None => db_error "a value was refused"
          | Some v => Ok (put name (Relation (rel_table rel)
                       ((λ r, if is_null c r then <[c := v]> r else r) <$> rel_rows rel)) db)
          end
      end)
  | Set_not_null name c => on_table name db (λ rel,
      if negb (bool_decide (c ∈ names (rel_table rel))) then db_error "column does not exist"
      else if existsb (is_null c) (rel_rows rel) then db_error "column contains null values"
      else Ok (put name (Relation (with_columns (map (require c)) (rel_table rel)) (rel_rows rel)) db))
  | Create_index ix i =>
      match db_indexes db !! ix with
      | Some _ => Ok db
      | None => on_table (ix_table i) db (λ rel,
          if forallb (λ c, bool_decide (c ∈ names (rel_table rel))) (ix_columns i) then
            if ix_unique i && negb (distinct_rows (ix_columns i) (rel_rows rel))
            then db_error "could not create unique index"
            else Ok (Database (db_relations db) (<[ix := i]> (db_indexes db)))
          else db_error "column does not exist")
      end
  | Drop_index ix => Ok (Database (db_relations db) (delete ix (db_indexes db)))
  | Comment_on name => on_table name db (λ _, Ok db)
  end.

(** A script, statement by statement; the first that is refused ends it. *)
Fixpoint run (l : list statement) (db : database) : result database :=
  match l with
  | [] => Ok db
  | s :: l => db ← exec s db; run l db
  end.
End exec.

(** ** Rows fit their tables *)
Section facts.
Context `{PgServer}.

(** The column's constraints hold of the value. *)
Definition meets (k : column) (v : value) : Prop :=
  (col_not_null k = true → v ≠ SNull) ∧ ∀ q, col_check k = Some q → check_passes q v = true.

Definition row_fits (t : table) (r : row) : Prop :=
  (∀ c, is_Some (r !! c) ↔ c ∈ names t) ∧ Forall (λ k, meets k (cell (col_name k) r)) (columns t).

Definition sound (db : database) : Prop :=
  ∀ name rel, db_relations db !! name = Some rel →
    NoDup (names (rel_table rel)) ∧ Forall (row_fits (rel_table rel)) (rel_rows rel).

(** A script declares no column of a table twice. *)
Definition declares_once (s : statement) : bool :=
  match s with Create_table _ t => bool_decide (NoDup (names t)) | _ => true end.

Lemma null_false v : null v = false ↔ v ≠ SNull.
Proof. by destruct v. Qed.

Lemma column_value_meets n given k v : column_value n given k = Some v → meets k v.
Proof.
  unfold column_value. destruct (match dget _ given with Some v => _ | None => _ end) as [u|]; [|done].
  simpl. destruct (_ && _) eqn:E1; [done|]. destruct (match col_check k with Some q => _ | None => _ end) eqn:E2; [|done].
  intros [= ->]. split.
  - intros Hn ->. rewrite Hn in E1. done.
  - intros q Hq. by rewrite Hq in E2.
Qed.

Lemma cell_insert_eq c v r : cell c (<[c := v]> r) = v.
Proof. unfold cell. by rewrite lookup_insert_eq. Qed.
Lemma cell_insert_ne c d v r : c ≠ d → cell d (<[c := v]> r) = cell d r.
Proof. intros. unfold cell. by rewrite lookup_insert_ne. Qed.
Lemma cell_delete_ne c d r : c ≠ d → cell d (delete c r) = cell d r.
Proof. intros. unfold cell. by rewrite lookup_delete_ne. Qed.

Lemma names_app t l : names (with_columns (λ k, k ++ l)%list t) = (names t ++ map col_name l)%list.
Proof. unfold names, with_columns. simpl. by rewrite map_app. Qed.

Lemma name_of_column k t : k ∈ columns t → col_name k ∈ names t.
Proof. unfold names. rewrite !list_elem_of_In. apply in_map. Qed.

(** Columns other than [c] see no change of the cell [c]. *)
Lemma meets_elsewhere c v t r :
  c ∉ names t → Forall (λ k, meets k (cell (col_name k) r)) (columns t) →
  Forall (λ k, meets k (cell (col_name k) (<[c := v]> r))) (columns t).
Proof.
  rewrite !Forall_forall. intros Hc Hr k Hk. rewrite cell_insert_ne; [by apply Hr|].
  intros ->. by apply Hc, name_of_column.
Qed.

Lemma add_cells_fit n c t rs rs' :
  col_name c ∉ names t → Forall (row_fits t) rs → add_cells n c rs = Some rs' →
  Forall (row_fits (with_columns (λ l, l ++ [c])%list t)) rs'.
Proof.
  intros Hc Hrs. revert n rs'. induction Hrs as [|r rs [Hd Hr] Hrs IH]; intros n rs'; [by intros [= <-]|].
  cbn [add_cells]. destruct (column_value n [] c) as [v|] eqn:Ev; [|done]. simpl.
  destruct (add_cells (S n) c rs) as [rs1|] eqn:Ea; [|done]. simpl. intros [= <-].
  constructor; [|by eapply IH]. split.
  - intros d. rewrite names_app, elem_of_app. simpl. rewrite list_elem_of_singleton.
    destruct (decide (d = col_name c)) as [->|Hne].
    + rewrite lookup_insert_eq. split; [by right|done].
    + rewrite lookup_insert_ne by done. rewrite Hd. naive_solver.
  - simpl. apply Forall_app. split; [by apply meets_elsewhere|].
    constructor; [|done]. rewrite cell_insert_eq. by eapply column_value_meets.
Qed.

Lemma make_row_fits t n given r :
  NoDup (names t) → make_row t n given = Some r → row_fits t r.
Proof.
  intros Hnd. unfold make_row. destruct (forallb _ _); [|done].
  destruct (mapM _ (columns t)) as [l|] eqn:El; [|done]. simpl. intros [= <-].
  apply mapM_Some in El.
  assert (Hn : l.*1 = names t).
  { unfold names. clear Hnd. induction El as [|k p ks ps Hk Hf IH]; [done|]. simpl. f_equal; [|done].
    destruct (column_value n given k); [|done]. by injection Hk as <-. }
  split.
  - intros c. rewrite <-Hn. split.
    + intros [v Hv]. apply elem_of_list_to_map_2 in Hv. apply list_elem_of_fmap. by exists (c, v).
    + intros Hc. apply list_elem_of_fmap in Hc as ([c' v] & -> & Hin). exists v.
      apply elem_of_list_to_map_1; [by rewrite Hn|done].
  - apply Forall_forall. intros k Hk. apply list_elem_of_lookup_1 in Hk as [i Hi].
    destruct (Forall2_lookup_l _ _ _ _ _ El Hi) as ([c v] & Hl & Hv).
    destruct (column_value n given k) as [u|] eqn:Eu; [|done]. injection Hv as <- <-.
    assert (Hc : cell (col_name k) (list_to_map l) = u).
    { unfold cell. rewrite (elem_of_list_to_map_1 l (col_name k) u); [done|by rewrite Hn|].
      by eapply list_elem_of_lookup_2. }
    rewrite Hc. by eapply column_value_meets.
Qed.

Lemma sound_put name rel db :
  sound db → NoDup (names (rel_table rel)) → Forall (row_fits (rel_table rel)) (rel_rows rel) →
  sound (put name rel db).
Proof.
  intros Hs Hn Hf m rel'. unfold put. cbn [db_relations].
  destruct (decide (m = name)) as [->|Hne].
  - rewrite lookup_insert_eq. by intros [= <-].
  - rewrite lookup_insert_ne by done. apply Hs.
Qed.

Lemma sound_indexes db f : sound db → sound (Database (db_relations db) f).
Proof. done. Qed.

Lemma find_column_Some c t k : find_column c t = Some k → k ∈ columns t ∧ col_name k = c.
Proof.
  intros E. apply List.find_some in E as [Hk Hc]. split; [by apply list_elem_of_In|].
  by apply String.eqb_eq.
Qed.

Lemma names_require c t : names (with_columns (map (require c)) t) = names t.
Proof.
  unfold names, with_columns, require. simpl. rewrite map_map. apply map_ext. intros k.
  by destruct (String.eqb _ _).
Qed.

Lemma names_drop c t :
  names (with_columns (List.filter (λ k, negb (String.eqb (col_name k) c))) t)
  = filter (λ n, n ≠ c) (names t).
Proof.
  unfold names, with_columns. simpl. induction (columns t) as [|k l IH]; [done|]. simpl.
  rewrite filter_cons. destruct (String.eqb_spec (col_name k) c) as [->|Hne]; simpl.
  - by rewrite decide_False by tauto.
  - rewrite decide_True by done. by f_equal.
Qed.

Lemma backfill_fits c k v t r :
  NoDup (names t) → find_column c t = Some k → meets k v → row_fits t r →
  row_fits t (if is_null c r then <[c := v]> r else r).
Proof.
  intros Hnd Hk Hv [Hd Hr]. destruct (is_null c r); [|done].
  apply find_column_Some in Hk as [Hk Hc]. split.
  - intros d. destruct (decide (d = c)) as [->|Hne].
    + rewrite lookup_insert_eq, <-Hc. split; [by intros; apply name_of_column|done].
    + rewrite lookup_insert_ne by done. apply Hd.
  - rewrite Forall_forall in *. intros k' Hk'. destruct (decide (col_name k' = c)) as [E|Hne].
    + assert (k' = k) as ->; [|rewrite E; by rewrite cell_insert_eq].
      apply list_elem_of_lookup in Hk as [i Hi], Hk' as [j Hj].
      assert (i = j) as <-; [|congruence].
      apply (NoDup_lookup (names t) i j c Hnd);
        change (names t) with (col_name <$> columns t); rewrite list_lookup_fmap.
      * rewrite Hi. simpl. congruence.
      * rewrite Hj. simpl. congruence.
    + rewrite cell_insert_ne by done. by apply Hr.
Qed.

Lemma drop_fits c t r :
  row_fits t r →
  row_fits (with_columns (List.filter (λ k, negb (String.eqb (col_name k) c))) t) (delete c r).
Proof.
  intros [Hd Hr]. split.
  - intros d. rewrite names_drop, list_elem_of_filter. destruct (decide (d = c)) as [->|Hne].
    { rewrite lookup_delete_eq. split; [by intros []|tauto]. }
    rewrite lookup_delete_ne by done. rewrite Hd. tauto.
  - cbn [columns with_columns]. rewrite Forall_forall in *. intros k Hk.
    apply list_elem_of_In, filter_In in Hk as [Hk Hne]. apply negb_true_iff, String.eqb_neq in Hne.
    rewrite cell_delete_ne by done. apply Hr. by apply list_elem_of_In.
Qed.

Lemma require_fits c t r :
  is_null c r = false → row_fits t r → row_fits (with_columns (map (require c)) t) r.
Proof.
  intros Hnull [Hd Hm]. split; [intros d; by rewrite names_require|].
  cbn [columns with_columns]. apply Forall_forall. intros k' Hk'.
  apply list_elem_of_In, in_map_iff in Hk' as (k & <- & Hk).
  rewrite Forall_forall in Hm. specialize (Hm k (proj2 (list_elem_of_In _ _) Hk)).
  unfold require. destruct (String.eqb_spec (col_name k) c) as [E|]; [|done].
  destruct Hm as [_ Hq]. split; [|exact Hq]. intros _. cbn [col_name]. rewrite E.
  by apply null_false.
Qed.

(** Every statement keeps the rows of every table within its constraints. *)
Lemma exec_sound st db db' :
  declares_once st = true → sound db → exec st db = Ok db' → sound db'.
Proof.
  intros Hst Hs. destruct st as [name t|name c|name c|name c text|name c|ix i|ix|name]; cbn [exec];
    unfold on_table.
  - destruct (db_relations db !! name); [by intros [= <-]|]. destruct (forallb _ _); [|done].
    intros [= <-]. apply sound_put; [done| |done]. by apply bool_decide_eq_true in Hst.
  - destruct (db_relations db !! name) as [rel|] eqn:Er; [|done]. destruct (Hs _ _ Er) as [Hn Hf].
    case_bool_decide as Hc; [by intros [= <-]|]. destruct (add_cells 0 c _) as [rs|] eqn:Ea; [|done].
    intros [= <-]. apply sound_put; [done| |by eapply add_cells_fit].
    cbn [rel_table]. rewrite names_app. apply NoDup_app. split_and!; [done| |apply NoDup_singleton].
    intros x Hx ->%list_elem_of_singleton. done.
  - destruct (db_relations db !! name) as [rel|] eqn:Er; [|done]. destruct (Hs _ _ Er) as [Hn Hf].
    case_bool_decide as Hc; cbn [negb]; [|by intros [= <-]]. destruct (in_key _ _); [done|].
    intros [= <-]. change (sound (Database (db_relations (put name (Relation
      (with_columns (List.filter (λ k, negb (String.eqb (col_name k) c))) (rel_table rel))
      (delete c <$> rel_rows rel)) db)) (db_indexes db))).
    apply sound_indexes, sound_put; [done| |]; cbn [rel_table rel_rows].
    + rewrite names_drop. by apply NoDup_filter.
    + apply Forall_fmap. eapply Forall_impl; [exact Hf|]. apply drop_fits.
  - destruct (db_relations db !! name) as [rel|] eqn:Er; [|done]. destruct (Hs _ _ Er) as [Hn Hf].
    destruct (find_column c _) as [k|] eqn:Ek; [|done].
    destruct (column_value 0 _ k) as [v|] eqn:Ev; [|done]. intros [= <-].
    apply sound_put; [done|done|]. apply Forall_fmap. eapply Forall_impl; [exact Hf|]. intros r Hr.
    eapply backfill_fits; [done|done|by eapply column_value_meets|done].
  - destruct (db_relations db !! name) as [rel|] eqn:Er; [|done]. destruct (Hs _ _ Er) as [Hn Hf].
    case_bool_decide as Hc; cbn [negb]; [|done]. destruct (existsb _ _) eqn:Ee; [done|].
    intros [= <-]. apply sound_put; [done|cbn [rel_table]; by rewrite names_require|]. cbn [rel_table rel_rows].
    rewrite Forall_forall in *. intros r Hr. apply require_fits; [|by apply Hf].
    apply not_true_is_false. intros Hnull. apply not_true_iff_false in Ee. apply Ee, existsb_exists.
    exists r. split; [by apply list_elem_of_In|done].
  - destruct (db_indexes db !! ix); [by intros [= <-]|].
    destruct (db_relations db !! ix_table i); [|done]. destruct (forallb _ _); [|done].
    destruct (_ && _); [done|]. by intros [= <-].
  - by intros [= <-].
  - destruct (db_relations db !! name); [|done]. by intros [= <-].
Qed.

Lemma run_sound l db db' :
  forallb declares_once l = true → sound db → run l db = Ok db' → sound db'.
Proof.
  revert db. induction l as [|st l IH]; intros db; [by intros _ Hs [= <-]|].
  cbn [forallb run]. intros [Hst Hl]%andb_true_iff Hs E. apply result_bind_ok in E as (db1 & E1 & E).
  eapply IH; [done| |done]. by eapply exec_sound.
Qed.

Lemma sound_empty : sound empty_database.
Proof. intros name rel E. unfold empty_database in E. cbn [db_relations] in E. by rewrite lookup_empty in E. Qed.

(** And so does every INSERT. *)
Lemma insert_sound name given conflict db r db' :
  sound db → insert_row name given conflict db = (r, db') → sound db'.
Proof.
  intros Hs. unfold insert_row. destruct (db_relations db !! name) as [[t rs]|] eqn:Er; [|by intros [= _ <-]].
  destruct (make_row t _ given) as [x|] eqn:Em; [|by intros [= _ <-]].
  destruct (match conflict with Some _ => _ | None => _ end); [by intros [= _ <-]|]. destruct (taken _ _ _); [by intros [= _ <-]|].
  destruct (existsb _ _); [by intros [= _ <-]|]. destruct (forallb _ _); [|by intros [= _ <-]].
  intros [= _ <-]. destruct (Hs _ _ Er) as [Hn Hf]. apply sound_put; [done|done|].
  apply Forall_app. split; [done|]. constructor; [|done]. by eapply make_row_fits.
Qed.

(** ** Running a script again *)

(** The statement has nothing left to do. *)
Definition settled (st : statement) (db : database) : Prop :=
  match st with
  | Create_table name _ | Comment_on name => is_Some (db_relations db !! name)
  | Add_column name c => ∃ rel, db_relations db !! name = Some rel ∧ col_name c ∈ names (rel_table rel)
  | Backfill name c text => ∃ rel k v, db_relations db !! name = Some rel
      ∧ find_column c (rel_table rel) = Some k ∧ column_value 0 [(c, SText text)] k = Some v
      ∧ Forall (λ r, is_null c r = false) (rel_rows rel)
  | Set_not_null name c => ∃ rel, db_relations db !! name = Some rel ∧ c ∈ names (rel_table rel)
      ∧ map (require c) (columns (rel_table rel)) = columns (rel_table rel)
      ∧ Forall (λ r, is_null c r = false) (rel_rows rel)
  | Create_index ix _ => is_Some (db_indexes db !! ix)
  | Drop_column _ _ | Drop_index _ => False
  end.

Definition drops (st : statement) : bool :=
  match st with Drop_column _ _ | Drop_index _ => true | _ => false end.

Lemma put_same name rel db : db_relations db !! name = Some rel → put name rel db = db.
Proof. intros E. unfold put. rewrite insert_id by done. by destruct db. Qed.

Lemma existsb_none {A} (f : A → bool) l : Forall (λ x, f x = false) l → existsb f l = false.
Proof. induction 1 as [|x l Hx Hl IH]; [done|]. simpl. by rewrite Hx. Qed.

Lemma backfill_none c v rs :
  Forall (λ r, is_null c r = false) rs → (λ r, if is_null c r then <[c := v]> r else r) <$> rs = rs.
Proof. induction 1 as [|r rs Hr Hrs IH]; [done|]. rewrite fmap_cons, Hr, IH. done. Qed.

Lemma settled_done st db : settled st db → exec st db = Ok db.
Proof.
  destruct st; cbn [settled exec]; unfold on_table; try done.
  - by intros [? ->].
  - intros (rel & -> & Hc). by rewrite bool_decide_true.
  - intros (rel & k & v & Er & Hk & Hv & Hn). rewrite Er, Hk, Hv, backfill_none by done.
    rewrite put_same; [done|]. rewrite Er. by destruct rel.
  - intros (rel & Er & Hc & Hm & Hn). rewrite Er, bool_decide_true by done. cbn [negb].
    rewrite existsb_none by done. f_equal. apply put_same. rewrite Er. unfold with_columns. rewrite Hm.
    by destruct rel as [[]].
  - by intros [? ->].
  - by intros [? ->].
Qed.

Lemma text_not_null n c text k v : col_name k = c → column_value n [(c, SText text)] k = Some v → v ≠ SNull.
Proof.
  intros <-. unfold column_value. cbn [dget]. rewrite String.eqb_refl.
  destruct (coerce _ _) as [u|] eqn:Ec; [|done]. simpl.
  destruct (_ && _); [done|]. destruct (match col_check k with Some q => _ | None => _ end); [|done].
  intros [= ->] ->. unfold coerce in Ec. repeat (case_match; simplify_eq/=); by simplify_option_eq.
Qed.

Lemma require_twice c l : map (require c) (map (require c) l) = map (require c) l.
Proof.
  rewrite map_map. apply map_ext. intros k. unfold require.
  destruct (String.eqb (col_name k) c) eqn:E; cbn [col_name]; by rewrite E.
Qed.

Lemma exec_settles st db db' :
  drops st = false → exec st db = Ok db' → settled st db'.
Proof.
  intros Hd. destruct st as [name t|name c|name c|name c text|name c|ix i|ix|name]; try done;
    cbn [exec settled]; unfold on_table.
  - destruct (db_relations db !! name) eqn:Er; [intros [= <-]; by rewrite Er|].
    destruct (forallb _ _); [|done]. intros [= <-]. unfold put. cbn [db_relations].
    rewrite lookup_insert_eq. done.
  - destruct (db_relations db !! name) as [rel|] eqn:Er; [|done].
    case_bool_decide as Hc; [intros [= <-]; eauto|]. destruct (add_cells 0 c _) as [rs|]; [|done].
    intros [= <-]. unfold put. cbn [db_relations]. rewrite lookup_insert_eq.
    eexists. split; [done|]. cbn [rel_table]. rewrite names_app, elem_of_app. right. by left.
  - destruct (db_relations db !! name) as [rel|] eqn:Er; [|done].
    destruct (find_column c _) as [k|] eqn:Ek; [|done].
    destruct (column_value 0 _ k) as [v|] eqn:Ev; [|done]. intros [= <-].
    unfold put. cbn [db_relations]. rewrite lookup_insert_eq. do 3 eexists. split; [done|].
    split; [done|]. split; [done|]. cbn [rel_rows]. apply Forall_fmap, Forall_forall. intros r _.
    unfold is_null at 1. apply null_false. simpl. destruct (is_null c r) eqn:Hn.
    + rewrite cell_insert_eq. apply find_column_Some in Ek as [_ Ec]. by eapply text_not_null.
    + by apply null_false.
  - destruct (db_relations db !! name) as [rel|] eqn:Er; [|done].
    case_bool_decide as Hc; cbn [negb]; [|done]. destruct (existsb _ _) eqn:Ee; [done|].
    intros [= <-]. unfold put. cbn [db_relations]. rewrite lookup_insert_eq. eexists. split; [done|].
    cbn [rel_table rel_rows columns with_columns]. rewrite names_require. split; [done|].
    split; [apply require_twice|]. apply Forall_forall. intros r Hr. apply not_true_is_false. intros Hn.
    apply not_true_iff_false in Ee. apply Ee, existsb_exists. exists r. by rewrite <-list_elem_of_In.
  - destruct (db_indexes db !! ix) eqn:Ei; [intros [= <-]; by rewrite Ei|].
    destruct (db_relations db !! ix_table i); [|done]. destruct (forallb _ _); [|done].
    destruct (_ && _); [done|]. intros [= <-]. cbn [db_indexes]. by rewrite lookup_insert_eq.
  - destruct (db_relations db !! name) eqn:Er; [|done]. intros [= <-]. by rewrite Er.
Qed.

(** What a table keeps when a script that drops nothing goes on. *)
Record grows (rel rel' : relation) : Prop := {
  grows_names c : c ∈ names (rel_table rel) → c ∈ names (rel_table rel');
  grows_value c text k v :
    find_column c (rel_table rel) = Some k → column_value 0 [(c, SText text)] k = Some v →
    ∃ k', find_column c (rel_table rel') = Some k' ∧ column_value 0 [(c, SText text)] k' = Some v;
  grows_required c :
    c ∈ names (rel_table rel) → map (require c) (columns (rel_table rel)) = columns (rel_table rel) →
    map (require c) (columns (rel_table rel')) = columns (rel_table rel');
  grows_filled c :
    c ∈ names (rel_table rel) → Forall (λ r, is_null c r = false) (rel_rows rel) →
    Forall (λ r, is_null c r = false) (rel_rows rel');
}.

Lemma grows_refl rel : grows rel rel.
Proof. split; eauto. Qed.

Lemma find_column_app c t l k :
  find_column c t = Some k → find_column c (with_columns (λ k, k ++ l)%list t) = Some k.
Proof.
  unfold find_column, with_columns. simpl. induction (columns t) as [|x xs IH]; [done|]. simpl.
  destruct (String.eqb _ _); [done|exact IH].
Qed.

Lemma add_cells_keep n c rs rs' d :
  d ≠ col_name c → add_cells n c rs = Some rs' →
  Forall (λ r, is_null d r = false) rs → Forall (λ r, is_null d r = false) rs'.
Proof.
  intros Hne. revert n rs'. induction rs as [|r rs IH]; intros n rs'; [by intros [= <-]|].
  cbn [add_cells]. destruct (column_value n [] c) as [v|]; [|done]. simpl.
  destruct (add_cells (S n) c rs) as [rs1|] eqn:Ea; [|done]. simpl. intros [= <-].
  intros [Hr Hrs]%Forall_cons. constructor; [|by eapply IH].
  unfold is_null in *. by rewrite cell_insert_ne.
Qed.

Lemma add_grows c rel rs :
  col_name c ∉ names (rel_table rel) → add_cells 0 c (rel_rows rel) = Some rs →
  grows rel (Relation (with_columns (λ l, l ++ [c])%list (rel_table rel)) rs).
Proof.
  intros Hc Ha. split; cbn [rel_table rel_rows].
  - intros d Hd. rewrite names_app, elem_of_app. by left.
  - intros d text k v Hk Hv. exists k. split; [by apply find_column_app|done].
  - intros d Hd Hm. cbn [columns with_columns]. rewrite map_app, Hm. f_equal. simpl.
    unfold require. destruct (String.eqb_spec (col_name c) d) as [E|]; [|done]. by rewrite E in Hc.
  - intros d Hd. apply (add_cells_keep 0 c (rel_rows rel) rs d); [by intros ->|done].
Qed.

Lemma backfill_grows c v rel :
  v ≠ SNull →
  grows rel (Relation (rel_table rel) ((λ r, if is_null c r then <[c := v]> r else r) <$> rel_rows rel)).
Proof.
  intros Hv. split; cbn [rel_table rel_rows]; eauto.
  intros d Hd Hf. apply Forall_fmap. eapply Forall_impl; [exact Hf|]. intros r Hr. simpl.
  destruct (is_null c r); [|done]. unfold is_null in *. destruct (decide (c = d)) as [->|Hne].
  - rewrite cell_insert_eq. by apply null_false.
  - by rewrite cell_insert_ne.
Qed.

Lemma require_commute c d l : map (require c) (map (require d) l) = map (require d) (map (require c) l).
Proof.
  rewrite !map_map. apply map_ext. intros k. unfold require.
  destruct (String.eqb (col_name k) d) eqn:Ed, (String.eqb (col_name k) c) eqn:Ec; cbn [col_name];
    by rewrite ?Ec, ?Ed.
Qed.

Lemma find_require c d t k :
  find_column c t = Some k → find_column c (with_columns (map (require d)) t) = Some (require d k).
Proof.
  unfold find_column, with_columns. simpl. induction (columns t) as [|x xs IH]; [done|]. simpl.
  assert (col_name (require d x) = col_name x) as ->
    by (unfold require; by destruct (String.eqb (col_name x) d)).
  destruct (String.eqb (col_name x) c); [by intros [= ->]|exact IH].
Qed.

Lemma require_grows c rel :
  grows rel (Relation (with_columns (map (require c)) (rel_table rel)) (rel_rows rel)).
Proof.
  split; cbn [rel_table rel_rows]; eauto.
  - intros d. by rewrite names_require.
  - intros d text k v Hk Hv. eexists. split; [by apply find_require|].
    assert (Hn : v ≠ SNull).
    { apply find_column_Some in Hk as [_ Hc]. by eapply text_not_null. }
    unfold require. destruct (String.eqb _ _); [|done]. unfold column_value in *.
    cbn [col_name col_type col_not_null col_default col_check].
    destruct (match dget _ _ with Some v => _ | None => _ end) as [u|]; [|done]. simpl in *.
    destruct (_ && _); [done|]. destruct (match col_check k with Some q => _ | None => _ end); [|done].
    injection Hv as ->. by rewrite (proj2 (null_false v) Hn).
  - intros d Hd Hm. cbn [columns with_columns]. by rewrite require_commute, Hm.
Qed.

Lemma exec_grows st db db' :
  drops st = false → exec st db = Ok db' →
  (∀ name rel, db_relations db !! name = Some rel →
     ∃ rel', db_relations db' !! name = Some rel' ∧ grows rel rel')
  ∧ ∀ ix, is_Some (db_indexes db !! ix) → is_Some (db_indexes db' !! ix).
Proof.
  intros Hd.
  assert (Hput : ∀ name rel rel', db_relations db !! name = Some rel → grows rel rel' →
    (∀ n r, db_relations db !! n = Some r →
       ∃ r', db_relations (put name rel' db) !! n = Some r' ∧ grows r r')
    ∧ ∀ ix, is_Some (db_indexes db !! ix) → is_Some (db_indexes (put name rel' db) !! ix)).
  { intros name rel rel' Er Hg. split; [|done]. intros n r En. unfold put. cbn [db_relations].
    destruct (decide (n = name)) as [->|Hne].
    - rewrite lookup_insert_eq. exists rel'. split; [done|]. by simplify_eq.
    - rewrite lookup_insert_ne by done. exists r. split; [done|apply grows_refl]. }
  assert (Hsame : (∀ n r, db_relations db !! n = Some r →
       ∃ r', db_relations db !! n = Some r' ∧ grows r r')
    ∧ ∀ ix, is_Some (db_indexes db !! ix) → is_Some (db_indexes db !! ix))
    by (split; [intros n r En; exists r; split; [done|apply grows_refl]|done]).
  destruct st as [name t|name c|name c|name c text|name c|ix i|ix|name]; try done;
    cbn [exec]; unfold on_table.
  - destruct (db_relations db !! name) eqn:Er; [by intros [= <-]|]. destruct (forallb _ _); [|done].
    intros [= <-]. split; [|done]. intros n r En. exists r. unfold put. cbn [db_relations].
    rewrite lookup_insert_ne by congruence. split; [done|apply grows_refl].
  - destruct (db_relations db !! name) as [rel|] eqn:Er; [|done].
    case_bool_decide as Hc; [by intros [= <-]|]. destruct (add_cells 0 c _) as [rs|] eqn:Ea; [|done].
    intros [= <-]. eapply Hput; [done|by apply add_grows].
  - destruct (db_relations db !! name) as [rel|] eqn:Er; [|done].
    destruct (find_column c _) as [k|] eqn:Ek; [|done].
    destruct (column_value 0 _ k) as [v|] eqn:Ev; [|done]. intros [= <-].
    eapply Hput; [done|]. apply backfill_grows. apply find_column_Some in Ek as [_ Ec].
    by eapply text_not_null.
  - destruct (db_relations db !! name) as [rel|] eqn:Er; [|done].
    destruct (negb _); [done|]. destruct (existsb _ _); [done|].
    intros [= <-]. eapply Hput; [done|apply require_grows].
  - destruct (db_indexes db !! ix) eqn:Ei; [by intros [= <-]|].
    destruct (db_relations db !! ix_table i); [|done]. destruct (forallb _ _); [|done].
    destruct (_ && _); [done|]. intros [= <-]. split; [apply Hsame|]. cbn [db_indexes].
    intros j [x Hj]. destruct (decide (j = ix)) as [->|Hne]; [by rewrite lookup_insert_eq|].
    rewrite lookup_insert_ne by done. by exists x.
  - destruct (db_relations db !! name) eqn:Er; [|done]. by intros [= <-].
Qed.

Lemma settled_stays st st' db db' :
  drops st' = false → settled st db → exec st' db = Ok db' → settled st db'.
Proof.
  intros Hd Hs E. apply exec_grows in E as [Hr Hi]; [|done].
  destruct st as [name t|name c|name c|name c text|name c|ix i|ix|name]; cbn [settled] in *.
  - destruct Hs as [rel Hs]. destruct (Hr _ _ Hs) as (rel' & -> & _). done.
  - destruct Hs as (rel & Hs & Hc). destruct (Hr _ _ Hs) as (rel' & -> & Hg).
    exists rel'. split; [done|by apply Hg].
  - done.
  - destruct Hs as (rel & k & v & Hs & Hk & Hv & Hn). destruct (Hr _ _ Hs) as (rel' & -> & Hg).
    destruct (grows_value _ _ Hg _ _ _ _ Hk Hv) as (k' & Hk' & Hv'). exists rel', k', v.
    split_and!; try done. apply (grows_filled _ _ Hg); [|done].
    apply find_column_Some in Hk as [Hk <-]. by apply name_of_column.
  - destruct Hs as (rel & Hs & Hc & Hm & Hn). destruct (Hr _ _ Hs) as (rel' & -> & Hg).
    exists rel'. split_and!; [done|by apply Hg..].
  - by apply Hi.
  - done.
  - destruct Hs as [rel Hs]. destruct (Hr _ _ Hs) as (rel' & -> & _). done.
Qed.

(** A script that drops nothing can be run again: it changes nothing. *)
Theorem run_again l db db' :
  forallb (λ st, negb (drops st)) l = true → run l db = Ok db' → run l db' = Ok db'.
Proof.
  intros Hl.
  assert (Hstay : ∀ l st db db', forallb (λ st, negb (drops st)) l = true → settled st db →
            run l db = Ok db' → settled st db').
  { clear. induction l as [|st' l IH]; intros st db db' Hl Hs; [by intros [= <-]|].
    cbn [forallb run] in *. apply andb_true_iff in Hl as [Hst%negb_true_iff Hl].
    intros (db1 & E1 & E)%result_bind_ok. eapply IH; [done| |done]. by eapply settled_stays. }
  assert (Hall : Forall (λ st, settled st db') l → run l db' = Ok db').
  { clear. induction 1 as [|st l Hs Hl IH]; [done|]. cbn [run]. by rewrite settled_done. }
  intros E. apply Hall. clear Hall. revert db Hl E.
  induction l as [|st l IH]; intros db Hl; [done|]. cbn [forallb run] in *.
  apply andb_true_iff in Hl as [Hst%negb_true_iff Hl]. intros (db1 & E1 & E)%result_bind_ok.
  constructor; [|by eapply IH]. eapply Hstay; [done| |done]. by eapply exec_settles.
Qed.

(** ** Undoing a script *)

(** An index stands on columns of its table. *)
Definition indexed (db : database) : Prop :=
  ∀ ix i, db_indexes db !! ix = Some i →
    ∃ rel, db_relations db !! ix_table i = Some rel ∧ ∀ c, c ∈ ix_columns i → c ∈ names (rel_table rel).

(** What a script of drops takes away. *)
Definition drops_column (down : list statement) (name c : string) : bool :=
  existsb (λ st, match st with Drop_column n k => String.eqb n name && String.eqb k c | _ => false end) down.
Definition drops_index (down : list statement) (ix : string) : bool :=
  existsb (λ st, match st with Drop_index j => String.eqb j ix | _ => false end) down.

(** The statement changes nothing but what [down] takes away. *)
Definition undone_by (down : list statement) (st : statement) : bool :=
  match st with
  | Add_column name c => drops_column down name (col_name c)
  | Drop_column name c | Backfill name c _ | Set_not_null name c => drops_column down name c
  | Create_index ix _ | Drop_index ix => drops_index down ix
  | Comment_on _ => true
  | Create_table _ _ => false
  end.

(** None of it is there. *)
Definition lacks (down : list statement) (db : database) : Prop :=
  (∀ name rel c, db_relations db !! name = Some rel → drops_column down name c = true →
     c ∉ names (rel_table rel))
  ∧ ∀ ix, drops_index down ix = true → db_indexes db !! ix = None.

(** The database without it. *)
Definition forget_table (down : list statement) (name : string) (rel : relation) : relation :=
  Relation (with_columns (List.filter (λ k, negb (drops_column down name (col_name k)))) (rel_table rel))
    (filter (λ p : string * value, drops_column down name p.1 = false) <$> rel_rows rel).

Definition forget (down : list statement) (db : database) : database :=
  Database (map_imap (λ name rel, Some (forget_table down name rel)) (db_relations db))
    (filter (λ p, drops_index down p.1 = false
                  ∧ existsb (drops_column down (ix_table p.2)) (ix_columns p.2) = false) (db_indexes db)).

Lemma forget_put down name rel rel' db :
  db_relations db !! name = Some rel → forget_table down name rel' = forget_table down name rel →
  forget down (put name rel' db) = forget down db.
Proof.
  intros Er E. unfold forget, put. cbn [db_relations db_indexes]. f_equal.
  apply map_eq. intros n. rewrite !map_lookup_imap. destruct (decide (n = name)) as [->|Hne].
  - rewrite lookup_insert_eq, Er. simpl. by rewrite E.
  - by rewrite lookup_insert_ne.
Qed.

Lemma forget_row down name c v (r : gmap string value) :
  drops_column down name c = true →
  filter (λ p : string * value, drops_column down name p.1 = false) (<[c := v]> r)
  = filter (λ p, drops_column down name p.1 = false) r.
Proof.
  intros Hd. apply map_eq. intros d. apply option_eq. intros u. rewrite !map_lookup_filter_Some. simpl.
  destruct (decide (d = c)) as [->|Hne]; [|by rewrite lookup_insert_ne]. split; intros [_ ?]; congruence.
Qed.

Lemma forget_row_delete down name c (r : gmap string value) :
  drops_column down name c = true →
  filter (λ p : string * value, drops_column down name p.1 = false) (delete c r)
  = filter (λ p, drops_column down name p.1 = false) r.
Proof.
  intros Hd. apply map_eq. intros d. apply option_eq. intros u. rewrite !map_lookup_filter_Some. simpl.
  destruct (decide (d = c)) as [->|Hne]; [|by rewrite lookup_delete_ne]. split; intros [_ ?]; congruence.
Qed.

Lemma forget_add_cells down name n c rs rs' :
  drops_column down name (col_name c) = true → add_cells n c rs = Some rs' →
  filter (λ p : string * value, drops_column down name p.1 = false) <$> rs'
  = filter (λ p : string * value, drops_column down name p.1 = false) <$> rs.
Proof.
  intros Hd. revert n rs'. induction rs as [|r rs IH]; intros n rs'; [by intros [= <-]|].
  cbn [add_cells]. destruct (column_value n [] c) as [v|]; [|done]. simpl.
  destruct (add_cells (S n) c rs) as [rs1|] eqn:Ea; [|done]. simpl. intros [= <-].
  rewrite !fmap_cons, forget_row by done. f_equal. by eapply IH.
Qed.

Lemma filter_filter_off {A} (f g : A → bool) l :
  (∀ x, f x = true → g x = true) → List.filter f (List.filter g l) = List.filter f l.
Proof.
  intros H0. induction l as [|x l IH]; [done|]. simpl. destruct (g x) eqn:Eg; simpl.
  - by destruct (f x); rewrite IH.
  - destruct (f x) eqn:Ef; [apply H0 in Ef; congruence|done].
Qed.

Lemma forget_require down name c l :
  drops_column down name c = true →
  List.filter (λ k, negb (drops_column down name (col_name k))) (map (require c) l)
  = List.filter (λ k, negb (drops_column down name (col_name k))) l.
Proof.
  intros Hd. induction l as [|k l IH]; [done|]. simpl. unfold require at 1 2.
  destruct (String.eqb_spec (col_name k) c) as [E|]; [|by rewrite IH].
  cbn [col_name]. rewrite E, Hd. cbn [negb]. exact IH.
Qed.

Lemma forget_indexes down db f :
  (∀ ix i, drops_index down ix = false → existsb (drops_column down (ix_table i)) (ix_columns i) = false →
     f !! ix = Some i ↔ db_indexes db !! ix = Some i) →
  forget down (Database (db_relations db) f) = forget down db.
Proof.
  intros Hf. unfold forget. cbn [db_relations db_indexes]. f_equal.
  apply map_eq. intros ix. apply option_eq. intros i. rewrite !map_lookup_filter_Some. simpl.
  split; intros (Hi & H1 & H2); (split; [by apply (Hf ix i)|done]).
Qed.

Lemma forget_exec down st db db' :
  undone_by down st = true → exec st db = Ok db' → forget down db' = forget down db.
Proof.
  destruct st as [name t|name c|name c|name c text|name c|ix i|ix|name]; cbn [undone_by exec];
    unfold on_table; intros Hd; try done.
  - destruct (db_relations db !! name) as [rel|] eqn:Er; [|done].
    case_bool_decide; [by intros [= <-]|]. destruct (add_cells 0 c _) as [rs|] eqn:Ea; [|done].
    intros [= <-]. eapply forget_put; [done|]. unfold forget_table, with_columns.
    cbn [rel_table rel_rows columns primary_key foreign_keys]. f_equal; [|by eapply forget_add_cells].
    f_equal. rewrite List.filter_app. simpl. by rewrite Hd, app_nil_r.
  - destruct (db_relations db !! name) as [rel|] eqn:Er; [|done].
    destruct (negb _); [by intros [= <-]|]. destruct (in_key _ _); [done|]. intros [= <-].
    set (rel' := Relation _ _). rewrite <-(forget_put down name rel rel' db Er).
    + apply (forget_indexes down (put name rel' db)). intros ix i _ H2. cbn [db_indexes put].
      rewrite map_lookup_filter_Some. simpl. split; [by intros []|]. intros Hi. split; [done|].
      intros [Ht Hc]. apply not_true_iff_false in H2. apply H2, existsb_exists. exists c.
      rewrite Ht. by rewrite <-list_elem_of_In.
    + unfold forget_table, rel', with_columns. cbn [rel_table rel_rows columns primary_key foreign_keys].
      f_equal.
      * f_equal. apply filter_filter_off. intros k. rewrite !negb_true_iff. intros Hk.
        apply String.eqb_neq. intros E. congruence.
      * rewrite <-list_fmap_compose. apply list_fmap_ext. intros _ r _. by apply forget_row_delete.
  - destruct (db_relations db !! name) as [rel|] eqn:Er; [|done].
    destruct (find_column c _) as [k|]; [|done]. destruct (column_value 0 _ k) as [v|]; [|done].
    intros [= <-]. eapply forget_put; [done|]. unfold forget_table. cbn [rel_table rel_rows]. f_equal.
    rewrite <-list_fmap_compose. apply list_fmap_ext. intros _ r _. simpl.
    destruct (is_null c r); [by apply forget_row|done].
  - destruct (db_relations db !! name) as [rel|] eqn:Er; [|done].
    destruct (negb _); [done|]. destruct (existsb _ _); [done|]. intros [= <-].
    eapply forget_put; [done|]. unfold forget_table, with_columns.
    cbn [rel_table rel_rows columns primary_key foreign_keys]. do 2 f_equal. by apply forget_require.
  - destruct (db_indexes db !! ix) eqn:Ei; [by intros [= <-]|].
    destruct (db_relations db !! ix_table i); [|done]. destruct (forallb _ _); [|done].
    destruct (_ && _); [done|]. intros [= <-]. apply forget_indexes. intros j x Hj _.
    rewrite lookup_insert_ne; [done|]. intros ->. congruence.
  - intros [= <-]. apply forget_indexes. intros j x Hj _.
    rewrite lookup_delete_ne; [done|]. intros ->. congruence.
  - destruct (db_relations db !! name); [|done]. by intros [= <-].
Qed.

Lemma forget_lacks down db : sound db → indexed db → lacks down db → forget down db = db.
Proof.
  intros Hs Hi [Hc Hx]. unfold forget. destruct db as [rels ixs]. cbn [db_relations db_indexes] in *. f_equal.
  - apply map_eq. intros name. rewrite map_lookup_imap. destruct (rels !! name) as [rel|] eqn:Er; [|done].
    simpl. f_equal. destruct (Hs _ _ Er) as [_ Hf]. destruct rel as [t rs]. unfold forget_table, with_columns.
    cbn [rel_table rel_rows] in *. f_equal.
    + destruct t as [cols pk fks]. cbn [columns primary_key foreign_keys]. f_equal.
      apply forallb_filter_id, forallb_forall. intros k Hk. apply negb_true_iff, not_true_is_false.
      intros Hd. eapply Hc; [exact Er|exact Hd|]. apply name_of_column. by apply list_elem_of_In.
    + rewrite <-(list_fmap_id rs) at 2. apply list_fmap_ext. intros j r Hr.
      assert (Hr' : r ∈ rs) by (by eapply list_elem_of_lookup_2).
      rewrite Forall_forall in Hf. destruct (Hf r Hr') as [Hd _].
      apply map_eq. intros d. apply option_eq. intros u. rewrite map_lookup_filter_Some. simpl.
      split; [by intros []|]. intros Hu. split; [done|]. apply not_true_is_false. intros Hdr.
      eapply Hc; [exact Er|exact Hdr|]. apply Hd. by rewrite Hu.
  - apply map_eq. intros ix. apply option_eq. intros i. rewrite map_lookup_filter_Some. simpl.
    split; [by intros []|]. intros Hix. split; [done|]. split.
    + apply not_true_is_false. intros Hd. rewrite (Hx _ Hd) in Hix. done.
    + apply not_true_is_false. intros (c & Hcin & Hd)%existsb_exists.
      destruct (Hi _ _ Hix) as (rel & Er & Hcols). eapply Hc; [exact Er|exact Hd|].
      apply Hcols. by apply list_elem_of_In.
Qed.

Lemma indexed_put name rel rel' db :
  db_relations db !! name = Some rel →
  (∀ c, c ∈ names (rel_table rel) → c ∈ names (rel_table rel')) →
  indexed db → indexed (put name rel' db).
Proof.
  intros Er Hn Hi ix i E. destruct (Hi ix i E) as (r & Hr & Hc). unfold put. cbn [db_relations].
  destruct (decide (ix_table i = name)) as [Et|Hne].
  - rewrite Et in *. rewrite lookup_insert_eq. exists rel'. split; [done|]. intros c Hin.
    simplify_eq. by apply Hn, Hc.
  - rewrite lookup_insert_ne by done. by exists r.
Qed.

Lemma exec_indexed st db db' : indexed db → exec st db = Ok db' → indexed db'.
Proof.
  intros Hi. destruct st as [name t|name c|name c|name c text|name c|ix i|ix|name]; cbn [exec];
    unfold on_table.
  - destruct (db_relations db !! name) eqn:Er; [by intros [= <-]|]. destruct (forallb _ _); [|done].
    intros [= <-] ix i E. destruct (Hi ix i E) as (r & Hr & Hc). unfold put. cbn [db_relations].
    rewrite lookup_insert_ne by congruence. by exists r.
  - destruct (db_relations db !! name) as [rel|] eqn:Er; [|done].
    case_bool_decide; [by intros [= <-]|]. destruct (add_cells 0 c _) as [rs|]; [|done].
    intros [= <-]. eapply indexed_put; [done| |done]. cbn [rel_table]. intros d Hd.
    rewrite names_app, elem_of_app. by left.
  - destruct (db_relations db !! name) as [rel|] eqn:Er; [|done].
    destruct (negb _); [by intros [= <-]|]. destruct (in_key _ _); [done|].
    intros [= <-] ix i E. cbn [db_relations db_indexes] in *. apply map_lookup_filter_Some in E as [E Hno].
    destruct (Hi ix i E) as (r & Hr & Hc). simpl in Hno. destruct (decide (ix_table i = name)) as [Ht|Hne].
    + rewrite Ht, lookup_insert_eq. eexists. split; [done|]. cbn [rel_table]. intros d Hd.
      rewrite names_drop, list_elem_of_filter. rewrite Ht in Hr. simplify_eq.
      split; [intros ->; tauto|by apply Hc].
    + rewrite lookup_insert_ne by done. by exists r.
  - destruct (db_relations db !! name) as [rel|] eqn:Er; [|done].
    destruct (find_column c _) as [k|]; [|done]. destruct (column_value 0 _ k) as [v|]; [|done].
    intros [= <-]. by eapply indexed_put.
  - destruct (db_relations db !! name) as [rel|] eqn:Er; [|done].
    destruct (negb _); [done|]. destruct (existsb _ _); [done|]. intros [= <-].
    eapply indexed_put; [done| |done]. cbn [rel_table]. intros d. by rewrite names_require.
  - destruct (db_indexes db !! ix); [by intros [= <-]|].
    destruct (db_relations db !! ix_table i) as [rel|] eqn:Er; [|done].
    destruct (forallb _ (ix_columns i)) eqn:Ef; [|done]. destruct (_ && _); [done|]. intros [= <-] j x.
    cbn [db_relations db_indexes]. destruct (decide (j = ix)) as [->|Hne].
    + rewrite lookup_insert_eq. intros [= <-]. exists rel. split; [done|]. intros c Hc.
      rewrite forallb_forall in Ef. apply list_elem_of_In, Ef in Hc. by apply bool_decide_eq_true in Hc.
    + rewrite lookup_insert_ne by done. apply Hi.
  - intros [= <-] j x. cbn [db_relations db_indexes]. rewrite lookup_delete_Some. intros [_ E]. by apply (Hi j).
  - destruct (db_relations db !! name); [|done]. by intros [= <-].
Qed.

Lemma exec_drop_lacks st down db db' :
  drops st = true → exec st db = Ok db' →
  lacks [st] db' ∧ (lacks down db → lacks down db').
Proof.
  destruct st as [name t|name c|name c|name c text|name c|ix i|ix|name]; try done; intros _; cbn [exec];
    unfold on_table.
  - destruct (db_relations db !! name) as [rel|] eqn:Er; [|done].
    case_bool_decide as Hc; cbn [negb].
    + destruct (in_key _ _); [done|]. intros [= <-]. unfold lacks. cbn [db_relations db_indexes]. split.
      * split; [|done]. intros n r d. unfold drops_column. cbn [existsb]. rewrite orb_false_r.
        intros Hr [->%String.eqb_eq ->%String.eqb_eq]%andb_true_iff.
        rewrite lookup_insert_eq in Hr. injection Hr as <-. cbn [rel_table].
        rewrite names_drop, list_elem_of_filter. tauto.
      * intros [Hl Hx]. split.
        -- intros n r d Hr Hd. destruct (decide (n = name)) as [->|Hne].
           ++ rewrite lookup_insert_eq in Hr. injection Hr as <-. cbn [rel_table].
              rewrite names_drop, list_elem_of_filter. intros [_ Hin]. by eapply Hl.
           ++ rewrite lookup_insert_ne in Hr by done. by eapply Hl.
        -- intros j Hj. rewrite map_lookup_filter_None. left. by apply Hx.
    + intros [= <-]. split; [|done]. split; [|done]. intros n r d. unfold drops_column. cbn [existsb].
      rewrite orb_false_r. intros Hr [->%String.eqb_eq ->%String.eqb_eq]%andb_true_iff. by simplify_eq.
  - intros [= <-]. unfold lacks. cbn [db_relations db_indexes]. split.
    + split; [done|]. intros j. unfold drops_index. cbn [existsb]. rewrite orb_false_r.
      intros ->%String.eqb_eq. apply lookup_delete_eq.
    + intros [Hl Hx]. split; [done|]. intros j Hj. rewrite lookup_delete_None. right. by apply Hx.
Qed.

Lemma lacks_cons st down db : lacks [st] db → lacks down db → lacks (st :: down) db.
Proof.
  intros [H1 X1] [H2 X2]. split.
  - intros n r c Hr. unfold drops_column. cbn [existsb]. rewrite orb_true_iff. intros [Hd|Hd].
    + apply (H1 n r c Hr). unfold drops_column. cbn [existsb]. by rewrite Hd.
    + by apply (H2 n r c Hr).
  - intros j. unfold drops_index. cbn [existsb]. rewrite orb_true_iff. intros [Hd|Hd].
    + apply X1. unfold drops_index. cbn [existsb]. by rewrite Hd.
    + by apply X2.
Qed.

Lemma run_lacks l down db db' :
  forallb drops l = true → run l db = Ok db' → lacks l db' ∧ (lacks down db → lacks down db').
Proof.
  revert down db. induction l as [|st l IH]; intros down db; [by intros _ [= <-]|]. cbn [forallb run].
  intros [Hst Hl]%andb_true_iff (db1 & E1 & E)%result_bind_ok.
  destruct (exec_drop_lacks st down db db1 Hst E1) as [H1 H2]. split.
  - destruct (IH [st] db1 Hl E) as [H3 H4]. apply lacks_cons; [by apply H4|done].
  - intros Hd. destruct (IH down db1 Hl E) as [_ H4]. by apply H4, H2.
Qed.

Lemma run_indexed l db db' : indexed db → run l db = Ok db' → indexed db'.
Proof.
  revert db. induction l as [|st l IH]; intros db Hi; [by intros [= <-]|]. cbn [run].
  intros (db1 & E1 & E)%result_bind_ok. eapply IH; [|done]. by eapply exec_indexed.
Qed.

Lemma run_forget down l db db' :
  forallb (undone_by down) l = true → run l db = Ok db' → forget down db' = forget down db.
Proof.
  revert db. induction l as [|st l IH]; intros db; [by intros _ [= <-]|]. cbn [forallb run].
  intros [Hst Hl]%andb_true_iff (db1 & E1 & E)%result_bind_ok.
  rewrite (IH db1 Hl E). by eapply forget_exec.
Qed.

(** A script and the script of drops that undoes it: every row and every
    definition is back. *)
Theorem run_undone up down db db1 db2 :
  forallb drops down = true → forallb (undone_by down) (up ++ down) = true →
  forallb declares_once (up ++ down) = true →
  sound db → indexed db → lacks down db →
  run up db = Ok db1 → run down db1 = Ok db2 → db2 = db.
Proof.
  rewrite !forallb_app, !andb_true_iff. intros Hd [Hu Hu'] [Ho Ho'] Hs Hi Hl E1 E2.
  rewrite <-(forget_lacks down db), <-(run_forget down up db db1),
    <-(run_forget down down db1 db2) by done.
  symmetry. apply forget_lacks.
  - eapply run_sound; [exact Ho'| |exact E2]. eapply run_sound; [exact Ho|done|exact E1].
  - eapply run_indexed; [|exact E2]. eapply run_indexed; [exact Hi|exact E1].
  - exact (proj1 (run_lacks down down db1 db2 Hd E2)).
Qed.
End facts.
