(* ===== verification/Ledger.v ===== *)
(** * Ledger: the double-entry core (agents/ledger/ledger.py, agent.py)

    The entry, its parser and its balance test; the protocol [LedgerStore]
    with its laws, discharged by [InMemoryLedgerStore] and [PostgresLedgerStore]; [post]; and the agent.
    The facts: no unbalanced entry is ever booked, an entry is booked once
    however often it arrives, and a tenant reads only its own entries. *)

From S2P Require Import Prelude PyStr PyFloat PyVal Json JsonText JsonFacts Digest Metrics Contract Registry HashChain EventStore Agent.
Local Open Scope string_scope.
Local Open Scope Z_scope.

(** ** Journal entries *)
Inductive direction : Type := DEBIT | CREDIT.

#[export] Instance direction_eq_dec : EqDecision direction.
Proof. solve_decision. Defined.

Definition direction_value (d : direction) : string :=
  match d with DEBIT => "debit" | CREDIT => "credit" end.

Definition direction_of (v : pyval) : result direction :=
  match List.find (λ d, py_eq (VStr (direction_value d)) v) [DEBIT; CREDIT] with
  | Some d => Ok d
  | None => raise_r ValueError (py_repr v +:+ " is not a valid Direction")
  end.

Record journal_line : Type := JournalLine {
  account : string;
  line_direction : direction;
  amount_minor : Z;
}.

Record journal_entry : Type := JournalEntry {
  entry_id : string;
  je_tenant_id : string;
  je_currency : string;
  lines : list journal_line;
  memo : option string;
}.

#[export] Instance journal_line_eq_dec : EqDecision journal_line.
Proof. solve_decision. Defined.
#[export] Instance journal_entry_eq_dec : EqDecision journal_entry.
Proof. solve_decision. Defined.

(** [sum(ln.amount_minor for ln in lines if ln.direction is d)]. *)
Fixpoint total (d : direction) (ls : list journal_line) : Z :=
  match ls with
  | [] => 0
  | l :: ls => (if decide (line_direction l = d) then amount_minor l else 0) + total d ls
  end.
Definition total_debits (e : journal_entry) : Z := total DEBIT (lines e).
Definition total_credits (e : journal_entry) : Z := total CREDIT (lines e).

Definition is_balanced (e : journal_entry) : bool :=
  (total_debits e =? total_credits e) && (0 <? total_debits e).

Definition journal_line_of (v : pyval) : result journal_line :=
  line ← as_dict v;
  a ← get_str "account" line;
  d ← getitem "direction" line; d ← direction_of d;
  m ← getitem "amount_minor" line; m ← py_int m;
  Ok (JournalLine a d m).

Definition entry_of_payload (payload : pydict) (tenant_id : string) : result journal_entry :=
  if str_empty tenant_id
  then raise_r LedgerError "ledger entry requires a non-empty tenant_id" else
  ls ← getitem "lines" payload; ls ← as_list ls; ls ← mapM journal_line_of ls;
  i ← get_str "entry_id" payload;
  c ← get_str "currency" payload;
  m ← as_opt_str (get_or "memo" VNone payload);
  Ok (JournalEntry i tenant_id c ls m).

(** ** The store *)
Class LedgerStore (L : Type) : Type := {
  ledger_get : string → string → L → result (option journal_entry);
  insert_if_absent : journal_entry → M L bool;
}.

(** The promise.  [booked s i] is the entry on the books under the id [i],
    whoever owns it; [ls_keeps e] says the store gives [e] back as it was. *)
Class LedgerStoreLaws (L : Type) `{LedgerStore L} : Type := {
  ls_ok : L → Prop;
  booked : L → string → option journal_entry;
  ls_keeps : journal_entry → Prop;
  ledger_get_spec : ∀ s t i o, ls_ok s → ledger_get t i s = Ok o →
    o = match booked s i with
        | Some e => if decide (je_tenant_id e = t) then Some e else None
        | None => None
        end;
  insert_ok : ∀ s e r s', ls_ok s → insert_if_absent e s = (r, s') → ls_ok s';
  insert_err : ∀ s e x s', insert_if_absent e s = (Err x, s') →
    s' = s ∧ isinstance x UnbalancedEntry = false;
  insert_dup : ∀ s e s', insert_if_absent e s = (Ok false, s') →
    s' = s ∧ is_Some (booked s (entry_id e));
  insert_new : ∀ s e s', ls_ok s → insert_if_absent e s = (Ok true, s') →
    booked s (entry_id e) = None
    ∧ (∃ e', booked s' (entry_id e) = Some e' ∧ lines e' = lines e ∧ je_tenant_id e' = je_tenant_id e
        ∧ (ls_keeps e → e' = e))
    ∧ (∀ i e', booked s i = Some e' → booked s' i = Some e')
    ∧ (∀ i e', booked s' i = Some e' → booked s i = Some e' ∨ lines e' = lines e);
}.

Module InMemoryLedgerStore.
(** [dict[str, JournalEntry]], keyed by the entry id alone. *)
Record store : Type := Store { entries : gmap string journal_entry }.

Definition mem_get (tenant_id entry_id : string) (s : store) : result (option journal_entry) :=
  Ok match entries s !! entry_id with
     | None => None
     | Some e => if decide (je_tenant_id e = tenant_id) then Some e else None
     end.

(** One critical section of the lock. *)
Definition mem_insert (e : journal_entry) : M store bool := λ s,
  match entries s !! entry_id e with
  | Some _ => (Ok false, s)
  | None => (Ok true, Store (<[entry_id e := e]> (entries s)))
  end.

#[global] Instance memory_ledger : LedgerStore store := {
  ledger_get := mem_get; insert_if_absent := mem_insert
}.

#[global, refine] Instance memory_ledger_laws : LedgerStoreLaws store := {
  ls_ok _ := True;
  booked s i := entries s !! i;
  ls_keeps _ := True
}.
Proof.
  - intros s t i o _ [= <-]. done.
  - done.
  - intros s e x s'. simpl. unfold mem_insert. by destruct (_ !! _).
  - intros s e s'. simpl. unfold mem_insert. destruct (_ !! _); intros; by simplify_eq.
  - intros s e s' _. simpl. unfold mem_insert. destruct (_ !! _) eqn:E; intros; simplify_eq/=.
    split_and!; [done|exists e; rewrite lookup_insert_eq; done|intros i e' Hi|intros i e'].
    + rewrite lookup_insert_ne; [done|congruence].
    + rewrite lookup_insert. case_decide; intros; simplify_eq; auto.
Defined.
End InMemoryLedgerStore.

(** The tables [journal_entry] and [journal_line] (migrations 0002 and 0003),
    with their constraints: positive BIGINT amounts, a three-character
    currency, a UUID key.  A transaction that breaks one is rolled back. *)
Module PostgresLedgerStore.
Record head_row : Type := HeadRow {
  h_entry_id : list N;
  h_tenant_id : string;
  h_currency : string;
  h_memo : option string;
  h_total_minor : Z;
}.

Record line_row : Type := LineRow {
  l_entry_id : list N;
  l_tenant_id : string;
  l_account : string;
  l_direction : string;
  l_amount_minor : Z;
}.

Record tables : Type := Tables {
  journal_entries : list head_row;
  journal_lines : list line_row;
}.

(** A value for a [BIGINT CHECK (x > 0)] column. *)
Definition positive_bigint (z : Z) : bool := (0 <? z) && (z <? 2 ^ 63).

(** A [CHAR(3)] column pads with blanks, and refuses longer text unless the rest
    is blanks, which it drops. *)
Definition char3 (s : string) : option string :=
  match utf8_decode s with
  | [] => Some "   " | [_] => Some (s +:+ "  ") | [_; _] => Some (s +:+ " ")
  | [_; _; _] => Some s
  | a :: b :: c :: rest => if forallb (N.eqb 32) rest then Some (utf8_encode [a; b; c]) else None
  end.

Definition row_line (r : line_row) : option journal_line :=
  match direction_of (VStr (l_direction r)) with
  | Ok d => Some (JournalLine (l_account r) d (l_amount_minor r))
  | Err _ => None
  end.

(** The entry a head row and its lines make. *)
Definition entry_of_head (t : tables) (i : string) (b : list N) (h : head_row) : journal_entry :=
  JournalEntry i (h_tenant_id h) (h_currency h)
    (omap row_line (filter (λ r, l_tenant_id r = h_tenant_id h ∧ l_entry_id r = b)
                      (journal_lines t)))
    (h_memo h).

Section store.
Context `{PgServer}.

Definition pg_get (tenant_id entry_id : string) (t : tables) : result (option journal_entry) :=
  match pg_uuid entry_id with
  | None => raise_r DatabaseError "invalid input syntax for type uuid"
  | Some b =>
      match List.find (λ h, bool_decide (h_tenant_id h = tenant_id ∧ h_entry_id h = b))
              (journal_entries t) with
      | None => Ok None
      | Some h =>
          let rows := filter (λ r, l_tenant_id r = tenant_id ∧ l_entry_id r = b)
                        (journal_lines t) in
          lines ← mapM (λ r, d ← direction_of (VStr (l_direction r));
                             Ok (JournalLine (l_account r) d (l_amount_minor r))) rows;
          Ok (Some (JournalEntry entry_id tenant_id (h_currency h) lines (h_memo h)))
      end
  end.

Definition line_row_of (b : list N) (e : journal_entry) (l : journal_line) : line_row :=
  LineRow b (je_tenant_id e) (account l) (direction_value (line_direction l)) (amount_minor l).

Definition insert_line (b : list N) (e : journal_entry) (l : journal_line) : M tables unit := λ t,
  if positive_bigint (amount_minor l)
  then (Ok tt, Tables (journal_entries t) (journal_lines t ++ [line_row_of b e l])%list)
  else (raise_r DatabaseError "journal_line.amount_minor", t).

(** [INSERT ... ON CONFLICT (entry_id) DO NOTHING]: whether a row was written. *)
Definition insert_head (b : list N) (e : journal_entry) : M tables bool := λ t,
  match char3 (je_currency e) with
  | Some c =>
      if positive_bigint (total_debits e) then
        if decide (b ∈ h_entry_id <$> journal_entries t) then (Ok false, t) else
        (Ok true, Tables (journal_entries t
           ++ [HeadRow b (je_tenant_id e) c (memo e) (total_debits e)])%list (journal_lines t))
      else (raise_r DatabaseError "journal_entry.total_minor", t)
  | None => (raise_r DatabaseError "journal_entry.currency", t)
  end.

Definition pg_insert (e : journal_entry) : M tables bool := transaction (
  match pg_uuid (entry_id e) with
  | None => raise DatabaseError "invalid input syntax for type uuid"
  | Some b =>
      written ← insert_head b e;
      if written : bool then for_each (lines e) (insert_line b e) ;; mret true
      else mret false
  end).

#[global] Instance pg_ledger : LedgerStore tables := {
  ledger_get := pg_get; insert_if_absent := pg_insert
}.

(** The primary key, and the foreign key of the lines. *)
Definition pg_ok (t : tables) : Prop :=
  NoDup (h_entry_id <$> journal_entries t)
  ∧ ∀ r, r ∈ journal_lines t → l_entry_id r ∈ h_entry_id <$> journal_entries t.

Definition head_of (t : tables) (b : list N) : option head_row :=
  List.find (λ h, bool_decide (h_entry_id h = b)) (journal_entries t).

Definition pg_booked (t : tables) (i : string) : option journal_entry :=
  b ← pg_uuid i; h ← head_of t b; Some (entry_of_head t i b h).

Lemma head_of_Some t b h :
  head_of t b = Some h → h ∈ journal_entries t ∧ h_entry_id h = b.
Proof.
  intros E. apply find_some in E as [Hin E]. apply bool_decide_eq_true in E.
  split; [by apply list_elem_of_In|done].
Qed.

Lemma head_of_None t b : head_of t b = None ↔ b ∉ h_entry_id <$> journal_entries t.
Proof.
  unfold head_of. induction (journal_entries t) as [|h l IH]; simpl; [set_solver|].
  case_bool_decide; set_solver.
Qed.

Lemma head_of_app t b h l :
  head_of (Tables (journal_entries t ++ [h]) l)%list b
  = match head_of t b with
    | Some h' => Some h'
    | None => if decide (h_entry_id h = b) then Some h else None
    end.
Proof.
  unfold head_of. simpl. induction (journal_entries t) as [|h' k IH]; simpl.
  - case_bool_decide; case_decide; done.
  - by case_bool_decide.
Qed.

Lemma find_tenant (l : list head_row) tn b :
  NoDup (h_entry_id <$> l) →
  List.find (λ h, bool_decide (h_tenant_id h = tn ∧ h_entry_id h = b)) l
  = match List.find (λ h, bool_decide (h_entry_id h = b)) l with
    | Some h => if decide (h_tenant_id h = tn) then Some h else None
    | None => None
    end.
Proof.
  induction l as [|h l IH]; simpl; [done|]. rewrite NoDup_cons. intros [Hh Hl].
  rewrite IH by done. destruct (decide (h_entry_id h = b)) as [<-|Hne].
  - rewrite (bool_decide_eq_true_2 (h_entry_id h = _)) by done.
    assert (List.find (λ h', bool_decide (h_entry_id h' = h_entry_id h)) l = None) as ->.
    { apply (head_of_None (Tables l [])). done. }
    case_bool_decide; case_decide; naive_solver.
  - rewrite !bool_decide_eq_false_2 by naive_solver. done.
Qed.

Lemma mapM_row_line rows ls :
  mapM (λ r, d ← direction_of (VStr (l_direction r));
             Ok (JournalLine (l_account r) d (l_amount_minor r))) rows = Ok ls →
  ls = omap row_line rows.
Proof.
  revert ls. induction rows as [|r rows IH]; intros ls; cbn [mapM]; [by intros [= <-]|].
  intros E. inv_ok. simplify_eq/=. unfold row_line.
  match goal with H : direction_of _ = Ok _ |- _ => rewrite H end.
  cbn. f_equal. by apply IH.
Qed.

(** The lines of one insert: all of them are appended, or it raises. *)
Lemma insert_lines b e ls t t' :
  for_each ls (insert_line b e) t = (Ok tt, t') →
  t' = Tables (journal_entries t) (journal_lines t ++ (line_row_of b e <$> ls))%list.
Proof.
  revert t. induction ls as [|l ls IH]; intros t; simpl.
  { intros [= <-]. rewrite app_nil_r. by destruct t. }
  unfold mbind, M_bind. unfold insert_line at 1.
  destruct (positive_bigint _); [|done]. intros E. apply IH in E as ->. simpl. by rewrite <-(assoc_L (++)).
Qed.

Lemma insert_lines_err b e ls t x t' :
  for_each ls (insert_line b e) t = (Err x, t') → isinstance x UnbalancedEntry = false.
Proof.
  revert t. induction ls as [|l ls IH]; intros t; simpl; [done|].
  unfold mbind, M_bind. unfold insert_line at 1.
  destruct (positive_bigint _); [apply IH|by intros [= <- _]].
Qed.

Lemma row_lines_of b e (ls : list journal_line) : omap row_line (line_row_of b e <$> ls) = ls.
Proof.
  induction ls as [|[a d m] ls IH]; [done|].
  rewrite fmap_cons. cbn [omap list_omap]. unfold row_line at 1, line_row_of at 1.
  cbn [l_direction l_account l_amount_minor account line_direction amount_minor].
  replace (direction_of (VStr (direction_value d))) with (Ok d) by (by destruct d).
  f_equal. exact IH.
Qed.

(** What an insert does to the tables. *)
Lemma pg_insert_cases e t r t' : pg_insert e t = (r, t') →
  (∃ x, r = Err x ∧ t' = t ∧ isinstance x UnbalancedEntry = false)
  ∨ (∃ b, pg_uuid (entry_id e) = Some b
      ∧ ((r = Ok false ∧ t' = t ∧ b ∈ h_entry_id <$> journal_entries t)
         ∨ (∃ c, r = Ok true ∧ b ∉ h_entry_id <$> journal_entries t
             ∧ char3 (je_currency e) = Some c
             ∧ t' = Tables (journal_entries t
                    ++ [HeadRow b (je_tenant_id e) c (memo e) (total_debits e)])%list
                  (journal_lines t ++ (line_row_of b e <$> lines e))%list))).
Proof.
  unfold pg_insert, transaction. destruct (pg_uuid _) as [b|]; [|intros [= <- <-]; left; eauto].
  unfold mbind at 1, M_bind, insert_head.
  destruct (char3 _) as [c|] eqn:Ec; [|intros [= <- <-]; left; eauto].
  destruct (positive_bigint _); [|intros [= <- <-]; left; eauto].
  case_decide as Hb; [intros [= <- <-]; right; exists b; by auto 10|].
  unfold mbind, M_bind. set (t1 := Tables _ _).
  destruct (for_each _ _ t1) as [[[]|x] t2] eqn:E;
    [|intros [= <- <-]; left; exists x; by apply insert_lines_err in E].
  apply insert_lines in E as ->. intros [= <- <-].
  right. exists b. split; [done|]. right. exists c. done.
Qed.

(** Appended rows of another id do not show in an entry. *)
Lemma entry_of_head_app t i b h rows hs :
  (∀ r, r ∈ rows → l_entry_id r ≠ b) →
  entry_of_head (Tables hs (journal_lines t ++ rows)%list) i b h = entry_of_head t i b h.
Proof.
  intros Hr. unfold entry_of_head. simpl. f_equal.
  rewrite filter_app, omap_app.
  assert (filter (λ r, l_tenant_id r = h_tenant_id h ∧ l_entry_id r = b) rows = []) as ->.
  { apply filter_none. intros r Hin [_ ?]. by apply (Hr r). }
  apply app_nil_r.
Qed.

Lemma entry_of_new_head t e i b c :
  pg_ok t → b ∉ h_entry_id <$> journal_entries t →
  entry_of_head (Tables (journal_entries t
      ++ [HeadRow b (je_tenant_id e) c (memo e) (total_debits e)])%list
    (journal_lines t ++ (line_row_of b e <$> lines e))%list) i b
    (HeadRow b (je_tenant_id e) c (memo e) (total_debits e))
  = JournalEntry i (je_tenant_id e) c (lines e) (memo e).
Proof.
  intros [_ Hfk] Hb. unfold entry_of_head. simpl. f_equal.
  rewrite filter_app, omap_app.
  assert (filter (λ r, l_tenant_id r = je_tenant_id e ∧ l_entry_id r = b) (journal_lines t)
          = []) as ->.
  { apply filter_none. intros r Hin [_ <-]. by apply Hb, Hfk. }
  rewrite filter_every, row_lines_of; [done|].
  intros r (l & -> & _)%list_elem_of_fmap. done.
Qed.

Lemma pg_insert_booked t e t' :
  pg_ok t → pg_insert e t = (Ok true, t') → ∃ b c,
    pg_uuid (entry_id e) = Some b ∧ char3 (je_currency e) = Some c
    ∧ pg_booked t (entry_id e) = None
    ∧ ∀ i, pg_booked t' i = if decide (pg_uuid i = Some b)
                            then Some (JournalEntry i (je_tenant_id e) c (lines e) (memo e))
                            else pg_booked t i.
Proof.
  intros Hok [(? & ? & _)|(b & Eb & [(? & _)|(c & _ & Hb & Ec & ->)])]%pg_insert_cases;
    [done..|].
  exists b, c. split_and!; [done|done| |].
  { unfold pg_booked. rewrite Eb. simpl. by rewrite (proj2 (head_of_None t b)). }
  intros i. unfold pg_booked. destruct (pg_uuid i) as [b'|]; [|by rewrite decide_False].
  cbn [mbind option_bind]. rewrite head_of_app. cbn [h_entry_id].
  destruct (decide (b' = b)) as [->|Hne].
  - rewrite (proj2 (head_of_None t b)) by done. rewrite !decide_True by done.
    cbn [mbind option_bind]. by rewrite entry_of_new_head.
  - rewrite (decide_False (P := Some b' = Some b)) by congruence.
    rewrite decide_False by congruence. destruct (head_of t b') as [h|]; [|done].
    cbn [mbind option_bind]. rewrite entry_of_head_app; [done|].
    intros r (l & -> & _)%list_elem_of_fmap. simpl. congruence.
Qed.

#[global, refine] Instance pg_ledger_laws : LedgerStoreLaws tables := {
  ls_ok := pg_ok;
  booked := pg_booked;
  ls_keeps e := char3 (je_currency e) = Some (je_currency e)
}.
Proof.
  - intros t tn i o [Hnd _]. simpl. unfold pg_get, pg_booked.
    destruct (pg_uuid i) as [b|]; [simpl|done]. rewrite find_tenant by done.
    fold (head_of t b). destruct (head_of t b) as [h|] eqn:Eh; simpl; [|congruence].
    case_decide; [|congruence]. subst tn. intros E. inv_ok. simplify_eq.
    unfold entry_of_head. do 2 f_equal. by apply mapM_row_line.
  - intros t e r t' [Hnd Hfk] [(? & _ & -> & _)|(b & _ & [(_ & -> & _)|
      (c & _ & Hb & _ & ->)])]%pg_insert_cases; [done..|]. split; simpl.
    + rewrite fmap_app. apply NoDup_app. split_and!; [done|set_solver|apply NoDup_singleton].
    + intros r'. rewrite fmap_app, !elem_of_app. intros [?|(l & -> & _)%list_elem_of_fmap];
        [left; auto|right; simpl; set_solver].
  - intros t e x t' [(? & ? & -> & ?)|(b & _ & [(? & _)|(c & ? & _)])]%pg_insert_cases; [|done..].
    by simplify_eq.
  - intros t e t' [(? & ? & _)|(b & Eb & [(_ & -> & Hb)|(? & ? & _)])]%pg_insert_cases;
      [done| |done].
    split; [done|]. unfold pg_booked. simpl. rewrite Eb. simpl.
    destruct (head_of t b) eqn:Eh; [by eexists|]. by apply head_of_None in Eh.
  - intros t e t' Ht E. destruct (pg_insert_booked t e t' Ht E) as (b & c & Eb & Ec & En & Hall).
    split_and!; [done| | |].
    + exists (JournalEntry (entry_id e) (je_tenant_id e) c (lines e) (memo e)).
      simpl. rewrite Hall, decide_True by done. split_and!; [done..|].
      intros Ek. rewrite Ek in Ec. injection Ec as <-. by destruct e.
    + intros i e' Hi. simpl. rewrite Hall. case_decide as Hd; [|done].
      unfold pg_booked in Hi, En. rewrite Hd in Hi. rewrite Eb in En. simpl in *.
      by destruct (head_of t b).
    + intros i e'. simpl. rewrite Hall. case_decide; [|auto]. intros [= <-]. by right.
Defined.
End store.
End PostgresLedgerStore.

(** ** Posting *)
Record post_result : Type := PostResult {
  pr_entry_id : string;
  pr_currency : string;
  pr_status : string;
  pr_total_minor : Z;
  pr_line_count : Z;
}.

Section ledger.
Context `{LedgerStore L}.

Definition post (e : journal_entry) : M L post_result :=
  (if negb (is_balanced e)
   then raise UnbalancedEntry ("entry " +:+ entry_id e +:+ ": debits "
          +:+ Z_str (total_debits e) +:+ " != credits " +:+ Z_str (total_credits e))
   else mret tt) ;;
  inserted ← insert_if_absent e;
  let status := if (inserted : bool) then "posted" else "duplicate" in
  mret (PostResult (entry_id e) (je_currency e) status (total_debits e)
          (Z.of_nat (length (lines e)))).
End ledger.

(** ** The agent *)
Section agent.
Context `{Externals} `{EventStore T} `{LedgerStore L}.

Definition rejected_payload (e : journal_entry) (exc : exn) : pydict :=
  [("entry_id", VStr (entry_id e));
   ("currency", VStr (je_currency e));
   ("reason", VStr (exn_msg exc));
   ("total_debits", VInt (total_debits e));
   ("total_credits", VInt (total_credits e))].

Definition posted_payload (r : post_result) : pydict :=
  [("entry_id", VStr (pr_entry_id r));
   ("currency", VStr (pr_currency r));
   ("total_minor", VInt (pr_total_minor r));
   ("line_count", VInt (pr_line_count r))].

Definition handle_entry (event : event) : M (proc T L) unit :=
  match ev_tenant_id event with
  | None | Some EmptyString => mret tt
  | Some tenant_id =>
      entry ← of_result (entry_of_payload (ev_payload event) tenant_id);
      outcome ← try_except (inl <$> in_agent (post entry)) UnbalancedEntry
                  (λ exc, mret (inr exc));
      match outcome with
      | inr exc =>
          emit_new "ledger" "ledger.rejected" 1 (ev_correlation_id event) (Some tenant_id)
            (rejected_payload entry exc)
      | inl result =>
          if String.eqb (pr_status result) "duplicate" then mret tt else
          emit_new "ledger" "ledger.posted" 1 (ev_correlation_id event) (Some tenant_id)
            (posted_payload result)
      end
  end.

#[export] Instance ledger_agent : Agent T L := {
  agent_name := "ledger";
  subjects := ["ledger.entry"];
  handle := handle_entry;
}.
End agent.

(** ** Facts *)
Section facts.
Context `{LedgerStoreLaws L}.

Lemma is_balanced_spec e :
  is_balanced e = true ↔ total_debits e = total_credits e ∧ 0 < total_debits e.
Proof. unfold is_balanced. rewrite andb_true_iff, Z.eqb_eq, Z.ltb_lt. done. Qed.

Lemma is_balanced_lines e e' : lines e' = lines e → is_balanced e' = is_balanced e.
Proof. unfold is_balanced, total_debits, total_credits. by intros ->. Qed.

Definition result_of (e : journal_entry) (inserted : bool) : post_result :=
  PostResult (entry_id e) (je_currency e) (if inserted then "posted" else "duplicate")
    (total_debits e) (Z.of_nat (length (lines e))).

Lemma post_run e s :
  post e s =
    if is_balanced e
    then match insert_if_absent e s with
         | (Ok b, s') => (Ok (result_of e b), s')
         | (Err x, s') => (Err x, s')
         end
    else (raise_r UnbalancedEntry ("entry " +:+ entry_id e +:+ ": debits "
            +:+ Z_str (total_debits e) +:+ " != credits " +:+ Z_str (total_credits e)), s).
Proof.
  unfold post, mbind, M_bind. destruct (is_balanced e); simpl; [|done].
  by destruct (insert_if_absent e s) as [[b|x] s'].
Qed.

(** Every entry on the books balances and moves money. *)
Definition books_balanced (s : L) : Prop :=
  ls_ok s ∧ ∀ i e, booked s i = Some e → is_balanced e = true.

Lemma keeps_post e : keeps (implies books_balanced) (post e).
Proof.
  intros s r s'. rewrite post_run. destruct (is_balanced e) eqn:Eb; [|by intros [= _ <-]].
  destruct (insert_if_absent e s) as [[b|x] s1] eqn:E; intros [= _ <-].
  - intros [Hok Hall]. split; [by eapply insert_ok|]. destruct b.
    + intros i e' Hi. destruct (insert_new _ _ _ Hok E) as (_ & _ & _ & Hold).
      destruct (Hold _ _ Hi) as [?|El]; [by eauto|]. by rewrite (is_balanced_lines e).
    + apply insert_dup in E as [-> _]. done.
  - by apply insert_err in E as [-> _].
Qed.

(** A post that returned has its id on the books. *)
Lemma post_booked e s p s1 :
  ls_ok s → post e s = (Ok p, s1) → ls_ok s1 ∧ is_Some (booked s1 (entry_id e)).
Proof.
  intros Hok. rewrite post_run. destruct (is_balanced e); [|done].
  destruct (insert_if_absent e s) as [[[]|x] s'] eqn:E; intros; simplify_eq.
  - destruct (insert_new _ _ _ Hok E) as (_ & (e' & ? & _) & _).
    split; [by eapply insert_ok|by eexists].
  - by apply insert_dup in E as [-> ?].
Qed.

(** A post under an id that is on the books changes nothing. *)
Lemma post_known e s r s' :
  ls_ok s → is_Some (booked s (entry_id e)) → post e s = (r, s') →
  s' = s ∧ ∀ p, r = Ok p → pr_status p = "duplicate".
Proof.
  intros Hok [e' Hb]. rewrite post_run. destruct (is_balanced e); [|by intros [= <- <-]].
  destruct (insert_if_absent e s) as [[[]|x] s1] eqn:E; intros; simplify_eq.
  - destruct (insert_new _ _ _ Hok E) as (Hn & _). congruence.
  - apply insert_dup in E as [-> _]. split; [done|]. by intros p [= <-].
  - by apply insert_err in E as [-> _].
Qed.

(** Entries, once booked, stay as they are. *)
Lemma keeps_booked e i e' :
  keeps (implies (λ s, ls_ok s ∧ booked s i = Some e')) (post e).
Proof.
  intros s r s'. rewrite post_run. destruct (is_balanced e); [|by intros [= _ <-]].
  destruct (insert_if_absent e s) as [[b|x] s1] eqn:E; intros [= _ <-] [Hok Hi].
  - split; [by eapply insert_ok|]. destruct b.
    + destruct (insert_new _ _ _ Hok E) as (_ & _ & Hold & _). eauto.
    + by apply insert_dup in E as [-> _].
  - by apply insert_err in E as [-> _].
Qed.
End facts.

Section agent_facts.
Context `{Externals} `{EventStoreLaws T} `{LedgerStoreLaws L}.

#[export] Instance ledger_disciplined : Disciplined (T := T) (A := L).
Proof.
  intros e. simpl. unfold handle_entry. keeps_tac.
Qed.

(** What the handler does with an entry, by the outcome of [post]. *)
Lemma handle_entry_run ev tn entry s :
  ev_tenant_id ev = Some tn → tn ≠ EmptyString →
  entry_of_payload (ev_payload ev) tn = Ok entry →
  handle_entry ev s =
    match post entry (p_agent s) with
    | (Ok r, l) =>
        if String.eqb (pr_status r) "duplicate" then (Ok tt, Proc (p_world s) l)
        else emit_new "ledger" "ledger.posted" 1 (ev_correlation_id ev) (Some tn)
               (posted_payload r) (Proc (p_world s) l)
    | (Err x, l) =>
        if isinstance x UnbalancedEntry
        then emit_new "ledger" "ledger.rejected" 1 (ev_correlation_id ev) (Some tn)
               (rejected_payload entry x) (Proc (p_world s) l)
        else (Err x, Proc (p_world s) l)
    end.
Proof.
  intros Et Hne Ep. unfold handle_entry. rewrite Et. destruct tn as [|c tn]; [done|].
  rewrite Ep. unfold mbind, M_bind, of_result, try_except, fmap, M_fmap, in_agent, zoom.
  destruct (post entry (p_agent s)) as [[r|x] l]; [by case_match|].
  by destruct (isinstance x UnbalancedEntry).
Qed.
End agent_facts.

(** ** The promises of the ledger *)
Section properties.
Context `{LedgerStoreLaws L}.

(** [post] on every branch.  An unbalanced entry is refused and the books
    stay as they are; a balanced one under a new id is on the books with its
    lines and its tenant and is reported [posted]; under a known id it changes
    nothing and is reported [duplicate]; a store failure changes nothing. *)
Theorem post_spec e s r s' :
  ls_ok s → post e s = (r, s') →
  match r with
  | Ok p =>
      is_balanced e = true ∧ pr_entry_id p = entry_id e ∧ pr_total_minor p = total_credits e
      ∧ (pr_status p = "duplicate" ∧ s' = s ∧ is_Some (booked s (entry_id e))
         ∨ pr_status p = "posted" ∧ booked s (entry_id e) = None
           ∧ ∃ e', booked s' (entry_id e) = Some e' ∧ lines e' = lines e
               ∧ je_tenant_id e' = je_tenant_id e)
  | Err x => s' = s ∧ isinstance x UnbalancedEntry = negb (is_balanced e)
  end.
Proof.
  intros Hok. rewrite post_run. destruct (is_balanced e) eqn:Eb; [|by intros [= <- <-]].
  destruct (insert_if_absent e s) as [[b|x] s1] eqn:E; intros [= <- <-].
  - apply is_balanced_spec in Eb as [? ?]. split_and!; [done..|].
    destruct b; [right|left].
    + destruct (insert_new _ _ _ Hok E) as (? & (e' & ? & ? & ? & _) & _). eauto 10.
    + by apply insert_dup in E.
  - apply insert_err in E as [-> ->]. done.
Qed.

(** C8: posting is idempotent.  Once an entry is posted, any later post of
    the same id, after any posts of other entries in between, leaves the
    books alone, and if it returns it reports [duplicate]. *)
Theorem post_once e es s p s1 r2 s2 e2 r3 s3 :
  ls_ok s → post e s = (Ok p, s1) →
  for_each es (λ e, post e ;; mret tt) s1 = (r2, s2) →
  entry_id e2 = entry_id e → post e2 s2 = (r3, s3) →
  s3 = s2 ∧ ∀ p', r3 = Ok p' → pr_status p' = "duplicate".
Proof.
  intros Hok E1 Ees Hid E3.
  destruct (post_booked _ _ _ _ Hok E1) as [Hok1 [e' Hb]].
  assert (ls_ok s2 ∧ booked s2 (entry_id e) = Some e') as [Hok2 Hb2].
  { refine (keeps_for_each (implies (λ s, ls_ok s ∧ booked s (entry_id e) = Some e')) es _ _
      _ _ _ Ees (conj Hok1 Hb)).
    intros x. pose proof keeps_booked. keeps_tac. }
  eapply post_known; [done| |done]. rewrite Hid. by eexists.
Qed.

(** Tenant isolation of reads.  Whatever the store holds, [get] answers
    with an entry only to the tenant that owns it. *)
Theorem get_own_tenant s t i (e : journal_entry) :
  ls_ok s → ledger_get t i s = Ok (Some e) → je_tenant_id e = t ∧ booked s i = Some e.
Proof.
  intros Hok E. apply ledger_get_spec in E; [|done].
  destruct (booked s i) as [e'|]; [case_decide|]; naive_solver.
Qed.

(** An entry id taken by one tenant is lost to every other.  After one
    tenant posted, another tenant's balanced entry under the same id never
    reaches the books: the post returns [duplicate] (or the store raises),
    and the tenant cannot read it back. *)
Theorem cross_tenant_id_swallowed e1 e2 s p1 s1 r2 s2 o :
  ls_ok s → post e1 s = (Ok p1, s1) → pr_status p1 = "posted" →
  entry_id e2 = entry_id e1 → je_tenant_id e2 ≠ je_tenant_id e1 → is_balanced e2 = true →
  post e2 s1 = (r2, s2) →
  ledger_get (je_tenant_id e2) (entry_id e2) s2 = Ok o →
  o = None ∧ s2 = s1 ∧ ∀ p2, r2 = Ok p2 → pr_status p2 = "duplicate".
Proof.
  intros Hok E1 Hst Hid Htn Hb E2 Eg. rewrite post_run in E1.
  destruct (is_balanced e1); [|done].
  destruct (insert_if_absent e1 s) as [[[]|x] s'] eqn:E; simplify_eq.
  destruct (insert_new _ _ _ Hok E) as (_ & (e' & Hb1 & _ & Ht' & _) & _).
  assert (ls_ok s1) as Hok1 by (by eapply insert_ok).
  destruct (post_known e2 s1 r2 s2) as [-> Hd]; [done|rewrite Hid; by eexists|done|].
  split_and!; [|done|done]. apply ledger_get_spec in Eg; [|done].
  rewrite Hid, Hb1, decide_False in Eg; congruence.
Qed.

Context `{Externals} `{EventStoreLaws T}.

(** C7: the books always balance.  Through any run of the Ledger agent, on
    any messages at all, malformed, replayed or unbalanced, and through any
    failure that ends the loop, every entry on the books has debits equal to
    credits and above zero. *)
Theorem ledger_run_balanced l (s s' : proc T L) r :
  books_balanced (p_agent s) → run l s = (r, s') → books_balanced (p_agent s').
Proof.
  intros Hs E. refine (run_rel (implies books_balanced) l _ _ _ _ E Hs).
  intros e. simpl. unfold handle_entry. pose proof keeps_post. keeps_tac.
Qed.

(** The Ledger agent ignores a replayed entry.  When the entry's id is on
    the books, handling the event publishes nothing and leaves the world and
    the books as they are. *)
Theorem handle_replay_ignored ev tn entry (s s' : proc T L) r :
  ls_ok (p_agent s) → ev_tenant_id ev = Some tn → tn ≠ EmptyString →
  entry_of_payload (ev_payload ev) tn = Ok entry → is_balanced entry = true →
  is_Some (booked (p_agent s) (entry_id entry)) →
  handle_entry ev s = (r, s') → s' = s.
Proof.
  intros Hok Et Hne Ep Hb [e' He'] E. rewrite (handle_entry_run ev tn entry) in E by done.
  rewrite post_run, Hb in E.
  destruct (insert_if_absent entry (p_agent s)) as [[b|x] l] eqn:Ei.
  - destruct b.
    + destruct (insert_new _ _ _ Hok Ei) as (Hn & _). congruence.
    + apply insert_dup in Ei as [-> _]. simpl in E. destruct s. by simplify_eq/=.
  - apply insert_err in Ei as [-> Ex]. destruct s as [w a]. rewrite Ex in E. by simplify_eq.
Qed.
End properties.

(** ** Examples *)
Section witnesses.
#[local] Existing Instance Demo.externals.

Definition books0 : InMemoryLedgerStore.store := InMemoryLedgerStore.Store ∅.
Definition entry_for (tn : string) : journal_entry :=
  JournalEntry "e-1" tn "USD" [JournalLine "cash" DEBIT 100; JournalLine "sales" CREDIT 100] None.

Lemma books0_ok : ls_ok books0.
Proof. done. Qed.

Lemma post_spec_witness :
  let '(r, s') := post (entry_for "acme") books0 in
  r = Ok (result_of (entry_for "acme") true) ∧
  match r with
  | Ok p => is_balanced (entry_for "acme") = true ∧ pr_entry_id p = "e-1"
      ∧ pr_total_minor p = 100
      ∧ (pr_status p = "duplicate" ∧ s' = books0 ∧ is_Some (booked books0 "e-1")
         ∨ pr_status p = "posted" ∧ booked books0 "e-1" = None
           ∧ ∃ e', booked s' "e-1" = Some e' ∧ lines e' = lines (entry_for "acme")
               ∧ je_tenant_id e' = "acme")
  | Err x => s' = books0
             ∧ isinstance x UnbalancedEntry = negb (is_balanced (entry_for "acme"))
  end.
Proof.
  destruct (post _ _) as [r s'] eqn:E. split.
  - vm_compute in E. by injection E as <- _.
  - exact (post_spec (entry_for "acme") books0 r s' I E).
Defined.

Lemma post_once_witness :
  let '(_, s1) := post (entry_for "acme") books0 in
  let '(r3, s3) := post (entry_for "acme") s1 in
  s3 = s1 ∧ ∀ p, r3 = Ok p → pr_status p = "duplicate".
Proof.
  destruct (post (entry_for "acme") books0) as [r1 s1] eqn:E1.
  assert (∃ p, r1 = Ok p) as [p ->] by (vm_compute in E1; injection E1 as <- _; by eexists).
  destruct (post (entry_for "acme") s1) as [r3 s3] eqn:E3.
  exact (post_once (entry_for "acme") [] books0 p s1 (Ok tt) s1 (entry_for "acme") r3 s3
    I E1 eq_refl eq_refl E3).
Defined.

Lemma get_own_tenant_witness :
  let s := InMemoryLedgerStore.Store {["e-1" := entry_for "acme"]} in
  je_tenant_id (entry_for "acme") = "acme" ∧ booked s "e-1" = Some (entry_for "acme").
Proof. intros s. exact (get_own_tenant s "acme" "e-1" (entry_for "acme") I eq_refl). Defined.

Lemma cross_tenant_id_swallowed_witness :
  let '(_, s1) := post (entry_for "acme") books0 in
  let '(r2, s2) := post (entry_for "globex") s1 in
  InMemoryLedgerStore.mem_get "globex" "e-1" s2 = Ok None ∧ s2 = s1
  ∧ ∀ p2, r2 = Ok p2 → pr_status p2 = "duplicate".
Proof.
  destruct (post (entry_for "acme") books0) as [r1 s1] eqn:E1.
  assert (r1 = Ok (result_of (entry_for "acme") true)) as ->
    by (vm_compute in E1; by injection E1 as <- _).
  destruct (post (entry_for "globex") s1) as [r2 s2] eqn:E2.
  assert ("globex" ≠ "acme") as Hne by done.
  destruct (InMemoryLedgerStore.mem_get "globex" "e-1" s2) as [o|x] eqn:Eg; [|done].
  destruct (cross_tenant_id_swallowed (entry_for "acme") (entry_for "globex") books0 _ s1 r2 s2
    o books0_ok E1 eq_refl eq_refl Hne eq_refl E2 Eg) as (-> & Es & Hd).
  exact (conj eq_refl (conj Es Hd)).
Defined.

Definition entry_event (amount : Z) : event :=
  Event "ledger.entry" 1 "forge"
    [("entry_id", VStr "e-1"); ("currency", VStr "USD");
     ("lines", VList [VDict [("account", VStr "cash"); ("direction", VStr "debit");
                             ("amount_minor", VInt 100)];
                      VDict [("account", VStr "sales"); ("direction", VStr "credit");
                             ("amount_minor", VInt amount)]])]
    (Demo.uuid_of 3) None (Some "acme").

Definition ledger0 : proc InMemoryEventStore.store InMemoryLedgerStore.store :=
  Proc AgentDemo.world0 books0.

Definition entry_delivery (amount : Z) : delivery :=
  Delivery "message" "ledger.entry" (wire (entry_event amount)).

Lemma books0_balanced : books_balanced books0.
Proof. split; [done|]. intros i e. simpl. by rewrite lookup_empty. Qed.

Lemma ledger_run_balanced_witness :
  let '(r, s') := run [entry_delivery 100; entry_delivery 90; entry_delivery 100] ledger0 in
  r = Ok tt ∧ books_balanced (p_agent s').
Proof.
  destruct (run _ _) as [r s'] eqn:E. split.
  - assert ((run [entry_delivery 100; entry_delivery 90; entry_delivery 100] ledger0).1 = Ok tt)
      as E' by (vm_compute; reflexivity).
    by rewrite E in E'.
  - exact (ledger_run_balanced _ ledger0 s' r books0_balanced E).
Defined.

Definition ledger1 : proc InMemoryEventStore.store InMemoryLedgerStore.store :=
  Proc AgentDemo.world0 (InMemoryLedgerStore.Store {["e-1" := entry_for "acme"]}).

Lemma handle_replay_ignored_witness :
  let '(r, s') := handle_entry (entry_event 100) ledger1 in s' = ledger1.
Proof.
  destruct (handle_entry _ _) as [r s'] eqn:E.
  assert (is_Some (booked (p_agent ledger1) "e-1")) as Hb by (by eexists).
  exact (handle_replay_ignored (entry_event 100) "acme" (entry_for "acme") ledger1 s' r
    I eq_refl ltac:(done) eq_refl eq_refl Hb E).
Defined.
End witnesses.
