(* ===== verification/Sales.v ===== *)
(** * From a sale to the books: Forge and Ledger together

    The first flow of the system: a completed work order becomes a posted
    journal entry, with only the bus between the two agents. *)

From S2P Require Import Prelude PyStr PyFloat PyVal Json JsonText JsonFacts Digest Metrics Contract Registry HashChain EventStore Agent Forge Ledger.
Local Open Scope string_scope.
Local Open Scope Z_scope.

(** The entry Ledger reads in Forge's payload. *)
Definition sale_entry (o : work_order) (tenant : string) : journal_entry :=
  JournalEntry (ledger_entry_id o) tenant (currency o)
    ([JournalLine ACCOUNT_RECEIVABLE DEBIT (gross_minor o);
      JournalLine ACCOUNT_REVENUE CREDIT (net_minor o)]
     ++ (if tax_minor o =? 0 then [] else [JournalLine ACCOUNT_TAX_PAYABLE CREDIT (tax_minor o)]))
    (Some ("sale " +:+ sku o +:+ " x" +:+ Z_str (quantity o)
             +:+ " (wo " +:+ work_order_id o +:+ ")")).

Lemma sale_entry_read o tenant :
  tenant ≠ EmptyString → entry_of_payload (ledger_entry o) tenant = Ok (sale_entry o tenant).
Proof.
  intros Ht. unfold entry_of_payload, ledger_entry. destruct tenant as [|c tenant]; [done|].
  unfold revenue_lines, sale_entry. by destruct (tax_minor o =? 0).
Qed.

Lemma sale_entry_totals o tenant :
  total_debits (sale_entry o tenant) = gross_minor o
  ∧ total_credits (sale_entry o tenant) = gross_minor o.
Proof.
  unfold total_debits, total_credits, sale_entry, gross_minor. cbn [lines].
  destruct (Z.eqb_spec (tax_minor o) 0) as [->|]; cbn [total app line_direction amount_minor];
    repeat (case_decide; try done); lia.
Qed.

(** Every sale balances.  For any work order, whatever its quantity, price
    and tax rate, the ledger entry that completing it yields is one Ledger can
    read, its debits equal its credits, both are the gross amount, and Ledger
    accepts it exactly when the gross is positive. *)
Theorem sale_balances o r tenant :
  complete o = Ok r → tenant ≠ EmptyString →
  let e := sale_entry o tenant in
  entry_of_payload (cr_ledger_entry r) tenant = Ok e
  ∧ total_debits e = gross_minor o ∧ total_credits e = gross_minor o
  ∧ entry_id e = ledger_entry_id o
  ∧ is_balanced e = (0 <? gross_minor o).
Proof.
  intros [_ ->]%complete_ok Ht e.
  destruct (sale_entry_totals o tenant) as [Ed Ec].
  split_and!; [by apply sale_entry_read|done|done|done|].
  unfold is_balanced, e. rewrite Ed, Ec, Z.eqb_refl. done.
Qed.

Lemma sale_balances_witness :
  let o := with_state IN_PROGRESS order0 in
  let e := sale_entry o "acme" in
  entry_of_payload (ledger_entry o) "acme" = Ok e
  ∧ total_debits e = 6491 ∧ total_credits e = 6491
  ∧ entry_id e = ledger_entry_id o ∧ is_balanced e = true.
Proof.
  intros o e. assert ("acme" ≠ EmptyString) as Hne by done.
  exact (sale_balances o (CompletionResult (with_state COMPLETED o) (completed_event o)
    (ledger_entry o)) "acme" (proj2 (complete_ok o _) (conj eq_refl eq_refl)) Hne).
Defined.

(** Two tenants' sales can share a ledger entry id.  The id is derived from
    the tenant and the order joined by a colon, so a colon inside either text
    makes two different sales collide; Ledger then takes the second for a
    replay of the first and its revenue is never booked. *)
Theorem entry_id_collides `{LedgerStoreLaws L} o1 o2 a b c (s s1 s2 : L) p1 r2 :
  tenant_id o1 = a → work_order_id o1 = b +:+ ":" +:+ c →
  tenant_id o2 = a +:+ ":" +:+ b → work_order_id o2 = c →
  ls_ok s →
  post (sale_entry o1 (tenant_id o1)) s = (Ok p1, s1) →
  post (sale_entry o2 (tenant_id o2)) s1 = (r2, s2) →
  tenant_id o1 ≠ tenant_id o2 ∧ ledger_entry_id o1 = ledger_entry_id o2
  ∧ s2 = s1 ∧ ∀ p2, r2 = Ok p2 → pr_status p2 = "duplicate".
Proof.
  intros Ht1 Hw1 Ht2 Hw2 Hok E1 E2.
  assert (ledger_entry_id o1 = ledger_entry_id o2) as Hid.
  { unfold ledger_entry_id. by rewrite Ht1, Hw1, Ht2, Hw2, !str_app_assoc. }
  split; [|split; [done|]].
  - rewrite Ht1, Ht2. intros E. apply (f_equal String.length) in E.
    rewrite !length_app_str in E. simpl in E. lia.
  - destruct (post_booked _ _ _ _ Hok E1) as [Hok1 Hb].
    apply (post_known (sale_entry o2 (tenant_id o2))); [done| |done].
    simpl in *. by rewrite <-Hid.
Qed.

Definition colliding1 : work_order := WorkOrder "b:c" "a" "widget" 1 500 "USD" 0 COMPLETED.
Definition colliding2 : work_order := WorkOrder "c" "a:b" "widget" 2 900 "USD" 0 COMPLETED.

Lemma entry_id_collides_witness :
  let '(_, s1) := post (sale_entry colliding1 "a") books0 in
  let '(r2, s2) := post (sale_entry colliding2 "a:b") s1 in
  "a" ≠ "a:b" ∧ ledger_entry_id colliding1 = ledger_entry_id colliding2
  ∧ s2 = s1 ∧ ∀ p2, r2 = Ok p2 → pr_status p2 = "duplicate".
Proof.
  destruct (post (sale_entry colliding1 "a") books0) as [r1 s1] eqn:E1.
  assert (is_ok r1 = true) as Hr1 by (rewrite post_run in E1; by injection E1 as <- _).
  destruct r1 as [p1|x]; [|done].
  destruct (post (sale_entry colliding2 "a:b") s1) as [r2 s2] eqn:E2.
  exact (entry_id_collides colliding1 colliding2 "a" "b" "c" books0 s1 s2 p1 r2
    eq_refl eq_refl eq_refl eq_refl books0_ok E1 E2).
Defined.

(** C15: a completed work order ends up in the books.  When Forge handles a
    work order that is open and has a positive gross, it publishes the domain
    event and then the ledger entry, both in the order's tenant; and whenever a
    Ledger agent under the same contracts takes that second message off the bus
    and gets through it, and the id was free, the books hold the balanced entry
    for the gross amount in that tenant's name. *)
Theorem sale_posted `{Externals} `{EventStoreLaws T} `{EventStoreLaws T'} `{LedgerStoreLaws L}
    ev o (s s' : proc T unit) :
  let e := Event "ledger.entry" 1 "forge" (ledger_entry o) (uuid4 (S (w_tick (p_world s))))
             (ev_correlation_id ev) (Some (tenant_id o)) in
  registry_ok (w_registry (p_world s)) →
  work_order_of_payload (ev_payload ev) = Ok o → is_terminal (state o) = false →
  tenant_id o ≠ EmptyString → 0 < gross_minor o → wf_event e →
  handle_workorder ev s = (Ok tt, s') →
  ∃ m, w_bus (p_world s')
       = (w_bus (p_world s) ++ [("forge.completed", m); ("ledger.entry", wire e)])%list
  ∧ ∀ q q' : proc T' L,
      registry_ok (w_registry (p_world q)) → ls_ok (p_agent q) →
      same_files (w_registry (p_world s)) (w_registry (p_world q)) →
      booked (p_agent q) (ledger_entry_id o) = None →
      on_delivery (Delivery "message" "ledger.entry" (wire e)) q = (Ok tt, q') →
      ∃ e', booked (p_agent q') (ledger_entry_id o) = Some e'
        ∧ lines e' = lines (sale_entry o (tenant_id o))
        ∧ total_debits e' = gross_minor o ∧ total_credits e' = gross_minor o
        ∧ je_tenant_id e' = tenant_id o.
Proof.
  intros e Hr Ho Hst Ht Hg Hw E.
  rewrite (handle_workorder_run ev o s Ho), Hst in E.
  apply M_bind_ok in E as ([] & s1 & E1 & E2).
  apply emit_new_ok in E1 as [_ _ _ Hc1 _ Hb1 _ Ht1 Hr1 Hf1]; [|done].
  apply emit_new_ok in E2 as [_ _ _ Hc2 _ Hb2 _ _ _ _]; [|done].
  rewrite Ht1 in Hb2. fold e in Hb2.
  eexists. split; [rewrite Hb2, Hb1, <-(assoc_L (++)); done|].
  intros q q' Hrq Hq Hfq Hfree Eq.
  unfold on_delivery in Eq. simpl in Eq. rewrite wire_roundtrip in Eq by done.
  unfold of_result in Eq. rewrite (M_bind_run _ _ q e q) in Eq by done.
  destruct (dispatch_run e q Hrq) as (reg & Hreg & _ & Ed). rewrite Ed in Eq.
  simpl in Hc2. change (ev_payload e) with (ledger_entry o) in Eq.
  change (ev_subject e) with "ledger.entry" in Eq.
  change (ev_schema_version e) with 1 in Eq.
  rewrite <-Hfq, Hf1, Hc2 in Eq.
  simpl in Eq. rewrite (handle_entry_run e (tenant_id o) (sale_entry o (tenant_id o))) in Eq;
    [|done|done|by apply sale_entry_read].
  simpl in Eq. rewrite post_run in Eq. destruct (sale_entry_totals o (tenant_id o)) as [Ed' Ec'].
  assert (is_balanced (sale_entry o (tenant_id o)) = true) as Hbal.
  { apply is_balanced_spec. lia. }
  rewrite Hbal in Eq.
  destruct (insert_if_absent _ _) as [[[]|x] l'] eqn:Ei.
  - destruct (insert_new _ _ _ Hq Ei) as (_ & (e' & He' & Hl' & Htn' & _) & _).
    apply emit_new_ok in Eq as [_ _ _ _ _ _ Ha _ _ _]; [|exact Hreg].
    simpl in Ha. rewrite Ha. exists e'. unfold total_debits, total_credits in *.
    rewrite Hl'. done.
  - apply insert_dup in Ei as [_ [? Hd]]. simpl in Hd. congruence.
  - apply insert_err in Ei as [_ Hx]. rewrite Hx in Eq. done.
Qed.

Section witness.
#[local] Existing Instance Demo.externals.

Definition sale_event : event :=
  Event "forge.workorder" 1 "api"
    [("work_order_id", VStr "wo-1"); ("tenant_id", VStr "acme"); ("sku", VStr "widget");
     ("quantity", VInt 3); ("unit_price_minor", VInt 1999); ("currency", VStr "USD");
     ("tax_rate_bps", VInt 825)]
    (Demo.uuid_of 9) None (Some "acme").

Definition sale_ledger_event : event :=
  Event "ledger.entry" 1 "forge" (ledger_entry order0) (Demo.uuid_of 1) None (Some "acme").

Lemma sale_ledger_event_wf :
  wf_event (Event "ledger.entry" 1 "forge" (ledger_entry order0) (Demo.uuid_of 1) None
              (Some "acme")).
Proof. apply ascii_event_wf. vm_compute. reflexivity. Qed.

Lemma sale_posted_witness :
  let '(r, s') := handle_workorder sale_event AgentDemo.proc0 in
  r = Ok tt ∧
  ∃ m, w_bus (p_world s') = [("forge.completed", m); ("ledger.entry", wire sale_ledger_event)]
  ∧ ∀ q' : proc InMemoryEventStore.store InMemoryLedgerStore.store,
      on_delivery (Delivery "message" "ledger.entry" (wire sale_ledger_event)) ledger0
      = (Ok tt, q') →
      ∃ e', booked (p_agent q') (ledger_entry_id order0) = Some e'
        ∧ lines e' = lines (sale_entry order0 "acme")
        ∧ total_debits e' = 6491 ∧ total_credits e' = 6491 ∧ je_tenant_id e' = "acme".
Proof.
  assert ((handle_workorder sale_event AgentDemo.proc0).1 = Ok tt) as Hr
    by (vm_compute; reflexivity).
  destruct (handle_workorder _ _) as [r s'] eqn:E. simpl in Hr. subst r. split; [done|].
  assert ("acme" ≠ EmptyString) as Hne by done.
  destruct (sale_posted (H := Demo.externals) (T' := InMemoryEventStore.store) (L := InMemoryLedgerStore.store) sale_event order0 AgentDemo.proc0 s' Demo.registry_fresh eq_refl eq_refl
    Hne eq_refl sale_ledger_event_wf E) as (m & Hb & Hall).
  exists m. split; [exact Hb|]. intros q' Eq.
  refine (Hall ledger0 q' Demo.registry_fresh books0_ok _ _ Eq); reflexivity.
Defined.
End witness.
