(* ===== verification/Write.v ===== *)
(** * The ERP write lifecycle (agents/forge/write.py)

    A write is proposed, approved or rejected, and executed.  [Erp] is the
    injected writer and reader; [clocked] adds the count of outside reads that
    the coordinator's clock and id source consume.  The facts: the state
    machine, the approval gate, what a reviewer's preview shows, and the exact
    report a batch gives of what it committed. *)

From S2P Require Import Prelude PyStr PyFloat PyVal Json JsonText JsonFacts Registry.
Local Open Scope string_scope.

(** ** Operations *)
Inductive write_state : Type := REQUESTED | APPROVED | REJECTED | COMPLETED.

#[export] Instance write_state_eq_dec : EqDecision write_state.
Proof. solve_decision. Defined.

Definition write_state_value (s : write_state) : string :=
  match s with
  | REQUESTED => "requested" | APPROVED => "approved"
  | REJECTED => "rejected" | COMPLETED => "completed"
  end.

(** [_ALLOWED]. *)
Definition write_allowed (s : write_state) : list write_state :=
  match s with
  | REQUESTED => [APPROVED; REJECTED]
  | APPROVED => [COMPLETED]
  | REJECTED | COMPLETED => []
  end.

Record write_operation : Type := WriteOperation {
  write_id : string;
  wo_tenant_id : string;
  erp_platform : string;
  operation : string;
  target_module : string;
  wo_payload : pydict;
  requested_by : string;
  diff_preview : string;
  wo_state : write_state;
  reverses : option string;
  target_external_id : option string;
}.

Definition with_state (s : write_state) (op : write_operation) : write_operation :=
  WriteOperation (write_id op) (wo_tenant_id op) (erp_platform op) (operation op)
    (target_module op) (wo_payload op) (requested_by op) (diff_preview op) s
    (reverses op) (target_external_id op).
Definition with_preview (p : string) (op : write_operation) : write_operation :=
  WriteOperation (write_id op) (wo_tenant_id op) (erp_platform op) (operation op)
    (target_module op) (wo_payload op) (requested_by op) p (wo_state op)
    (reverses op) (target_external_id op).

Definition idempotency_key (op : write_operation) : string := "cavi-" +:+ write_id op.

(** [self.target_external_id or self.idempotency_key]. *)
Definition erp_address (op : write_operation) : string :=
  match target_external_id op with
  | None | Some EmptyString => idempotency_key op
  | Some i => i
  end.

Definition transition_to (new_state : write_state) (op : write_operation)
    : result write_operation :=
  if decide (new_state ∈ write_allowed (wo_state op)) then Ok (with_state new_state op)
  else raise_r InvalidTransition ("write " +:+ write_id op +:+ ": "
         +:+ write_state_value (wo_state op) +:+ " -> " +:+ write_state_value new_state).

(** ** The ERP and the clock *)

(** The injected [ErpWriter], and the [ErpReader] if one is configured. *)
Class Erp (E : Type) : Type := {
  erp_apply : write_operation → M E pydict;
  erp_fetch : option (write_operation → M E (option pydict));
}.

(** [UnconfiguredErpWriter]. *)
Definition unconfigured_apply (op : write_operation) : M unit pydict :=
  raise ErpWriteError ("no ERP writer configured for " +:+ str_repr (erp_platform op)
                         +:+ "; inject an ErpWriter").
Definition unconfigured : Erp unit := {| erp_apply := unconfigured_apply; erp_fetch := None |}.

Record clocked (A : Type) : Type := Clocked { c_val : A; c_tick : nat }.
Arguments Clocked {_} _ _.
Arguments c_val {_} _.
Arguments c_tick {_} _.

Definition c_fresh {A B} (stream : nat → B) : M (clocked A) B := λ s,
  (Ok (stream (c_tick s)), Clocked (c_val s) (S (c_tick s))).
Definition c_lift {A B} (m : M A B) : M (clocked A) B :=
  zoom c_val (λ a s, Clocked a (c_tick s)) m.

(** ** The dry-run preview *)
Definition NO_DRY_RUN_PREVIEW : string := "(dry-run unavailable: no ERP reader configured)".

(** [_fmt]. *)
Definition fmt (v : pyval) : string := dumps_sorted v.

(** The lines for one field of the payload. *)
Definition diff_field (current : pydict) (key : string) (new : pyval) : list string :=
  match dget key current with
  | None => ["+ " +:+ key +:+ ": " +:+ fmt new]
  | Some old =>
      if py_eq old new then []
      else ["- " +:+ key +:+ ": " +:+ fmt old; "+ " +:+ key +:+ ": " +:+ fmt new]
  end.

Definition diff_lines (current payload : pydict) : list string :=
  key ← sorted_strs (dkeys payload);
  match dget key payload with
  | Some new => diff_field current key new
  | None => []
  end.

Definition diff_header (before : option pydict) (op : write_operation) : string :=
  erp_platform op +:+ " " +:+ target_module op +:+ " eid " +:+ erp_address op +:+ " — "
    +:+ operation op +:+ " ("
    +:+ (if before then "updates existing record" else "no existing record") +:+ ")".

Definition render_diff (before : option pydict) (op : write_operation) : string :=
  let current := default [] before in
  let lines := diff_lines current (wo_payload op) in
  let lines := match lines with
               | [] => ["(no field changes — ERP record already matches the payload)"]
               | _ => lines
               end in
  join newline (diff_header before op :: lines).

(** ** Event payloads *)
Definition requested_payload (op : write_operation) (requested_at : string) : pydict :=
  [("tenant_id", VStr (wo_tenant_id op));
   ("erp_platform", VStr (erp_platform op));
   ("operation", VStr (operation op));
   ("target_module", VStr (target_module op));
   ("payload", VDict (wo_payload op));
   ("requested_by", VStr (requested_by op));
   ("requested_at", VStr requested_at);
   ("diff_preview", VStr (diff_preview op));
   ("reverses", opt_str (reverses op));
   ("target_external_id", opt_str (target_external_id op))].

Definition approved_payload (op : write_operation) (approved_by approved_at : string) : pydict :=
  [("tenant_id", VStr (wo_tenant_id op));
   ("erp_platform", VStr (erp_platform op));
   ("operation", VStr (operation op));
   ("approved_by", VStr approved_by);
   ("approved_at", VStr approved_at);
   ("write_id", VStr (write_id op))].

Definition rejected_payload (op : write_operation) (rejected_by reason rejected_at : string)
    : pydict :=
  [("tenant_id", VStr (wo_tenant_id op));
   ("erp_platform", VStr (erp_platform op));
   ("operation", VStr (operation op));
   ("rejected_by", VStr rejected_by);
   ("rejected_at", VStr rejected_at);
   ("reason", VStr reason)].

Definition completed_payload (op : write_operation) (confirmation : pydict)
    (completed_at : string) : pydict :=
  [("tenant_id", VStr (wo_tenant_id op));
   ("erp_platform", VStr (erp_platform op));
   ("operation", VStr (operation op));
   ("write_id", VStr (write_id op));
   ("erp_confirmation", VDict confirmation);
   ("completed_at", VStr completed_at)].

Record write_step : Type := WriteStep {
  ws_op : write_operation;
  ws_subject : string;
  ws_event : pydict;
  ws_schema_version : Z;
}.

Record batch_execution : Type := BatchExecution {
  be_steps : list write_step;
  be_failed : option write_operation;
  be_error : option string;
  be_not_attempted : list write_operation;
}.
Definition halted (b : batch_execution) : bool := if be_failed b then true else false.
Definition partial (b : batch_execution) : bool :=
  halted b && match be_steps b with [] => false | _ => true end.

(** ** The coordinator *)

(** The keyword arguments of [request]. *)
Record request_args : Type := RequestArgs {
  ra_tenant_id : string;
  ra_erp_platform : string;
  ra_operation : string;
  ra_target_module : string;
  ra_payload : pydict;
  ra_requested_by : string;
  ra_diff_preview : option string;
  ra_reverses : option string;
  ra_target_external_id : option string;
}.

Section coordinator.
Context `{Externals} `{Erp E}.

Definition request (a : request_args) : M (clocked E) write_step :=
  i ← c_fresh uuid4;
  let op := WriteOperation i (ra_tenant_id a) (ra_erp_platform a) (ra_operation a)
              (ra_target_module a) (ra_payload a) (ra_requested_by a) EmptyString REQUESTED
              (ra_reverses a) (ra_target_external_id a) in
  preview ← match erp_fetch with
            | Some fetch => before ← c_lift (fetch op); mret (render_diff before op)
            | None => mret (default NO_DRY_RUN_PREVIEW (ra_diff_preview a))
            end;
  let op := with_preview preview op in
  requested_at ← c_fresh clock_iso;
  mret (WriteStep op "forge.write.requested" (requested_payload op requested_at) 3).

Definition request_reversal (original : write_operation) (operation : string) (payload : pydict)
    (requested_by : string) (diff_preview target_external_id : option string)
    : M (clocked E) write_step :=
  if decide (wo_state original = COMPLETED) then
    request (RequestArgs (wo_tenant_id original) (erp_platform original) operation
      (target_module original) payload requested_by diff_preview (Some (write_id original))
      target_external_id)
  else raise InvalidTransition ("write " +:+ write_id original +:+ ": cannot reverse from "
         +:+ write_state_value (wo_state original)
         +:+ " (only a completed write is reversible)").

Definition approve (op : write_operation) (approved_by : string) : M (clocked E) write_step :=
  approved ← of_result (transition_to APPROVED op);
  at_ ← c_fresh clock_iso;
  mret (WriteStep approved "forge.write.approved" (approved_payload approved approved_by at_) 1).

Definition reject (op : write_operation) (rejected_by reason : string)
    : M (clocked E) write_step :=
  rejected ← of_result (transition_to REJECTED op);
  at_ ← c_fresh clock_iso;
  mret (WriteStep rejected "forge.write.rejected"
          (rejected_payload rejected rejected_by reason at_) 1).

Definition execute (op : write_operation) : M (clocked E) write_step :=
  if decide (wo_state op = APPROVED) then
    confirmation ← c_lift (erp_apply op);
    completed ← of_result (transition_to COMPLETED op);
    at_ ← c_fresh clock_iso;
    mret (WriteStep completed "forge.write.completed"
            (completed_payload completed confirmation at_) 1)
  else raise InvalidTransition ("write " +:+ write_id op +:+ ": cannot execute from "
         +:+ write_state_value (wo_state op)).

(** The second loop of [execute_batch], with the steps done so far. *)
Fixpoint execute_from (done : list write_step) (ops : list write_operation)
    : M (clocked E) batch_execution :=
  match ops with
  | [] => mret (BatchExecution done None None [])
  | op :: ops => λ s,
      match execute op s with
      | (Ok step, s) => execute_from (done ++ [step])%list ops s
      | (Err exc, s) =>
          if isinstance exc ErpWriteError
          then (Ok (BatchExecution done (Some op) (Some (exn_msg exc)) ops), s)
          else (Err exc, s)
      end
  end.

Definition execute_batch (ops : list write_operation) : M (clocked E) batch_execution :=
  match List.find (λ op, bool_decide (wo_state op ≠ APPROVED)) ops with
  | Some op => raise InvalidTransition ("batch refused: write " +:+ write_id op +:+ " is "
                 +:+ write_state_value (wo_state op)
                 +:+ ", not approved — no write in the batch was executed")
  | None => execute_from [] ops
  end.
End coordinator.

(** ** Facts about the preview *)

(** A field the write would add or change. *)
Definition changes (current : pydict) (k : string) (new : pyval) : Prop :=
  match dget k current with None => True | Some old => py_eq old new = false end.

Lemma diff_field_nil current k new : diff_field current k new = [] ↔ ¬ changes current k new.
Proof.
  unfold diff_field, changes. destruct (dget k current) as [old|]; [|naive_solver].
  destruct (py_eq old new); naive_solver.
Qed.

Lemma diff_lines_elem current payload l :
  l ∈ diff_lines current payload ↔
  ∃ k new, dget k payload = Some new ∧ l ∈ diff_field current k new.
Proof.
  unfold diff_lines. rewrite list_elem_of_bind. split.
  - intros (k & Hl & _). destruct (dget k payload) as [new|] eqn:E; [eauto|].
    by apply not_elem_of_nil in Hl.
  - intros (k & new & E & Hl). exists k. rewrite E. split; [done|].
    apply elem_of_sorted_strs, dmem_keys. unfold dmem. rewrite E. by apply bool_decide_eq_true.
Qed.

(** The preview does not depend on the order of the payload's keys. *)
Lemma diff_lines_perm current payload payload' :
  wf_dict payload → payload ≡ₚ payload' → diff_lines current payload = diff_lines current payload'.
Proof.
  intros Hw Hp. unfold diff_lines.
  rewrite (sorted_strs_proper (dkeys payload) (dkeys payload')).
  - apply list_bind_ext; [|done]. intros k. by rewrite (dget_perm payload payload').
  - unfold dkeys. by rewrite Hp.
Qed.

(** The reviewer's preview is complete and shows nothing else.  A line is in
    the diff exactly when it describes a field of the payload that is new to the
    record ([+]) or differs from the record's value ([-] old, [+] new), so fields
    the payload leaves alone never show; the diff is empty exactly when the
    record already holds every field of the payload; and the order of the
    payload's keys does not matter. *)
Theorem preview_complete before payload payload' l :
  let current := default [] before in
  wf_dict payload → payload ≡ₚ payload' →
  (l ∈ diff_lines current payload ↔
     ∃ k new, dget k payload = Some new ∧
       match dget k current with
       | None => l = "+ " +:+ k +:+ ": " +:+ fmt new
       | Some old => py_eq old new = false
                     ∧ (l = "- " +:+ k +:+ ": " +:+ fmt old ∨ l = "+ " +:+ k +:+ ": " +:+ fmt new)
       end)
  ∧ (diff_lines current payload = [] ↔
       ∀ k new, dget k payload = Some new →
         ∃ old, dget k current = Some old ∧ py_eq old new = true)
  ∧ diff_lines current payload' = diff_lines current payload.
Proof.
  intros current Hw Hp. split_and!; [|split|].
  - rewrite diff_lines_elem. do 2 (f_equiv; intros ?). unfold diff_field.
    f_equiv. destruct (dget _ current) as [old|]; [|set_solver].
    destruct (py_eq old _); set_solver.
  - intros Hn k new Hk. assert (diff_field current k new = []) as Hd.
    { destruct (diff_field current k new) as [|x xs] eqn:E; [done|].
      assert (x ∈ diff_lines current payload) as Hx
        by (apply diff_lines_elem; exists k, new; rewrite E; set_solver).
      rewrite Hn in Hx. set_solver. }
    apply diff_field_nil in Hd. unfold changes in Hd.
    destruct (dget k current) as [old|]; [|done]. exists old. split; [done|].
    by destruct (py_eq old new).
  - intros Hall. destruct (diff_lines current payload) as [|x xs] eqn:E; [done|].
    assert (x ∈ diff_lines current payload) as (k & new & Hk & Hx)%diff_lines_elem
      by (rewrite E; set_solver).
    destruct (Hall k new Hk) as (old & Ho & He). unfold diff_field in Hx.
    rewrite Ho, He in Hx. set_solver.
  - symmetry. by apply diff_lines_perm.
Qed.

Lemma preview_complete_witness :
  let payload := [("memo", VStr "x"); ("total", VInt 5)] in
  let current := [("total", VFloat (float_of_Z 5)); ("memo", VStr "y")] in
  diff_lines current [("total", VInt 5); ("memo", VStr "x")] = diff_lines current payload
  ∧ diff_lines current payload = ["- memo: " +:+ fmt (VStr "y"); "+ memo: " +:+ fmt (VStr "x")].
Proof.
  intros payload current. split; [|vm_compute; reflexivity].
  apply (preview_complete (Some current) payload [("total", VInt 5); ("memo", VStr "x")] EmptyString).
  - unfold wf_dict, payload. simpl. repeat constructor; set_solver.
  - apply perm_swap.
Defined.

(** ** Facts about execution *)
Section facts.
Context `{Externals} `{Erp E}.

(** The ERP after it was handed these writes, in order. *)
Definition erp_after (ops : list write_operation) (e : E) : E :=
  foldl (λ e op, (erp_apply op e).2) e ops.

Lemma execute_run op s :
  execute op s =
    if decide (wo_state op = APPROVED) then
      match erp_apply op (c_val s) with
      | (Ok conf, e) =>
          (Ok (WriteStep (with_state COMPLETED op) "forge.write.completed"
             (completed_payload op conf (clock_iso (c_tick s))) 1), Clocked e (S (c_tick s)))
      | (Err x, e) => (Err x, Clocked e (c_tick s))
      end
    else (raise_r InvalidTransition ("write " +:+ write_id op +:+ ": cannot execute from "
            +:+ write_state_value (wo_state op)), s).
Proof.
  unfold execute. case_decide as Hs; [|done].
  unfold mbind, M_bind, c_lift, zoom. destruct (erp_apply op (c_val s)) as [[conf|x] e]; [|done].
  unfold transition_to. rewrite Hs. done.
Qed.

Lemma execute_from_spec done ops s b s' :
  Forall (λ op, wo_state op = APPROVED) ops →
  execute_from done ops s = (Ok b, s') →
  ∃ n steps, be_steps b = (done ++ steps)%list ∧ length steps = n
    ∧ (ws_op <$> steps) = (with_state COMPLETED <$> take n ops)
    ∧ ((be_failed b = None ∧ n = length ops ∧ be_not_attempted b = []
        ∧ c_val s' = erp_after ops (c_val s))
       ∨ (∃ op x, be_failed b = Some op ∧ ops !! n = Some op
           ∧ be_not_attempted b = drop (S n) ops ∧ be_error b = Some (exn_msg x)
           ∧ isinstance x ErpWriteError = true
           ∧ c_val s' = erp_after (take (S n) ops) (c_val s)
           ∧ (erp_apply op (erp_after (take n ops) (c_val s))).1 = Err x)).
Proof.
  intros Hall. revert done s. induction Hall as [|op ops Hop Hall IH]; intros done s; simpl.
  { intros [= <- <-]. exists 0%nat, []. rewrite app_nil_r. simpl. eauto 10. }
  rewrite execute_run, decide_True by done.
  destruct (erp_apply op (c_val s)) as [[conf|x] e] eqn:Ea.
  - intros E1. apply IH in E1 as (n & steps & Es & Hl & Hops & Hend).
    exists (S n), (WriteStep (with_state COMPLETED op) "forge.write.completed"
             (completed_payload op conf (clock_iso (c_tick s))) 1 :: steps).
    rewrite Es, <-(assoc_L (++)). cbn [length take lookup list_lookup drop].
    rewrite !fmap_cons, Hops, Hl. unfold erp_after in *. cbn [foldl].
    rewrite Ea. cbn [snd c_val ws_op] in *. split_and!; [done..|]. destruct Hend as [(? & -> & ? & ?)|Hend]; [left; auto|right].
    destruct Hend as (op' & x & ? & ? & ? & ? & ? & ? & ?). exists op', x. auto 10.
  - case_match; [|done]. intros [= <- <-]. exists 0%nat, []. simpl.
    rewrite app_nil_r. split_and!; [done..|]. right. exists op, x.
    unfold erp_after. simpl. rewrite Ea. auto 10.
Qed.

(** C30: a batch is all-approved or untouched, and its report is exact.  If any
    write is not approved the ERP is not called at all.  Otherwise, when the
    batch returns, the completed steps are the first writes in order, the
    failed write is the next one, everything after it is reported as not
    attempted, and the ERP has seen exactly the completed writes and the
    failed one. *)
Theorem batch_report_exact ops s r s' :
  execute_batch ops s = (r, s') →
  (Exists (λ op, wo_state op ≠ APPROVED) ops →
     s' = s ∧ ∃ msg, r = raise_r InvalidTransition msg)
  ∧ (∀ b, r = Ok b → ∃ n,
       length (be_steps b) = n
       ∧ (ws_op <$> be_steps b) = (with_state COMPLETED <$> take n ops)
       ∧ match be_failed b with
         | None => n = length ops ∧ be_not_attempted b = [] ∧ c_val s' = erp_after ops (c_val s)
         | Some op =>
             ops = (take n ops ++ op :: be_not_attempted b)%list
             ∧ is_Some (be_error b)
             ∧ c_val s' = erp_after (take n ops ++ [op])%list (c_val s)
             ∧ is_ok (erp_apply op (erp_after (take n ops) (c_val s))).1 = false
         end).
Proof.
  unfold execute_batch.
  destruct (List.find _ ops) as [op|] eqn:Ef; intros E1.
  { injection E1 as <- <-. split; [eauto|done]. }
  assert (Forall (λ op, wo_state op = APPROVED) ops) as Hall.
  { rewrite Forall_forall. intros op Hop. destruct (decide (wo_state op = APPROVED)); [done|].
    apply list_elem_of_In, (find_none _ _ Ef) in Hop. by apply bool_decide_eq_false in Hop. }
  split.
  - intros Hex. exfalso. apply Exists_exists in Hex as (op & Hop & Hne).
    rewrite Forall_forall in Hall. auto.
  - intros b ->. destruct (execute_from_spec [] ops s b s' Hall E1)
      as (n & steps & Es & Hl & Hops & Hend). simpl in Es. rewrite Es.
    exists n. split_and!; [done..|].
    destruct Hend as [(-> & ? & ? & ?)|(op & x & -> & Hn & -> & -> & _ & Ev & Ex)]; [auto|].
    rewrite <-take_S_r by done. split_and!; [|by eexists|done|by rewrite Ex].
    symmetry. by apply take_drop_middle.
Qed.
End facts.

(** ** Examples *)
Module WriteDemo.
(** Keeps the writes it was handed and refuses the one named [bad]. *)
Definition erp : Erp (list write_operation) := {|
  erp_apply op s :=
    if String.eqb (write_id op) "bad" then (raise_r ErpWriteError "HTTP 500", s ++ [op])%list
    else (Ok [("external_id", VStr (erp_address op))], s ++ [op])%list;
  erp_fetch := None;
|}.

Definition op (i : string) : write_operation :=
  WriteOperation i "acme" "netsuite" "create" "salesOrder" [("total", VInt 5)] "ana"
    NO_DRY_RUN_PREVIEW APPROVED None None.
End WriteDemo.

Section witnesses.
Import WriteDemo.
#[local] Existing Instance Demo.externals.
#[local] Existing Instance WriteDemo.erp.

Lemma batch_report_exact_witness :
  let ops := [op "a"; op "bad"; op "c"] in
  let '(r, s') := execute_batch ops (Clocked [] 0) in
  c_val s' = [op "a"; op "bad"] ∧
  ∀ b, r = Ok b → ∃ n, length (be_steps b) = n
    ∧ (ws_op <$> be_steps b) = (with_state COMPLETED <$> take n ops).
Proof.
  intros ops. destruct (execute_batch ops (Clocked [] 0)) as [r s'] eqn:E. split.
  - by injection E as _ <-.
  - intros b Hb. destruct (batch_report_exact ops (Clocked [] 0) r s' E) as [_ Hok].
    destruct (Hok b Hb) as (n & H1 & H2 & _). exists n. exact (conj H1 H2).
Defined.
End witnesses.
