(* ===== verification/Breaker.v ===== *)
(** * The circuit breaker (agents/forge/breaker.py)

    Counts consecutive failures, opens at the threshold, lets one probe
    through after the cooldown.  The breaker runs in [M (clocked breaker)]: each
    read of the clock takes the next value of [clock_monotonic]. *)

From S2P Require Import Prelude PyStr PyFloat PyVal Metrics Registry Write.
Local Open Scope string_scope.
Local Open Scope Z_scope.

Definition DEFAULT_FAILURE_THRESHOLD : Z := 5.
Definition DEFAULT_COOLDOWN_SECONDS : float := float_of_Z 300.

Inductive breaker_state : Type := CLOSED | OPEN | HALF_OPEN.

#[export] Instance breaker_state_eq_dec : EqDecision breaker_state.
Proof. solve_decision. Defined.

Record breaker : Type := Breaker {
  threshold : Z;
  cooldown : float;
  consecutive_failures : Z;
  opened_at : option float;
  probing : bool;
}.

(** The constructor. *)
Definition new_breaker (threshold : Z) (cooldown : float) : result breaker :=
  if threshold <? 1 then raise_r ValueError "failure_threshold must be >= 1"
  else Ok (Breaker threshold cooldown 0 None false).

Section breaker.
Context `{Externals}.

Definition now : M (clocked breaker) float := c_fresh clock_monotonic.

(** The property [state]; the clock is read only when the breaker was opened. *)
Definition state : M (clocked breaker) breaker_state :=
  b ← gets c_val;
  match opened_at b with
  | None => mret CLOSED
  | Some t =>
      n ← now;
      mret (if fleb (cooldown b) (fsub n t) then HALF_OPEN else OPEN)
  end.

Definition set_probing (p : bool) (b : breaker) : breaker :=
  Breaker (threshold b) (cooldown b) (consecutive_failures b) (opened_at b) p.

Definition on_val (f : breaker → breaker) : M (clocked breaker) unit :=
  modify (λ s, Clocked (f (c_val s)) (c_tick s)).

Definition check : M (clocked breaker) unit :=
  st ← state;
  b ← gets c_val;
  if decide (st = CLOSED) then mret tt else
  if decide (st = HALF_OPEN ∧ probing b = false) then on_val (set_probing true) else
  remaining ← match opened_at b with
              | Some t => n ← now; mret (fsub (cooldown b) (fsub n t))
              | None => mret fzero
              end;
  raise BreakerOpen ("circuit breaker open after " +:+ Z_str (consecutive_failures b)
    +:+ " consecutive ERP write failures; retry in " +:+ float_fmt0 (fmax remaining fzero)
    +:+ "s").

Definition record_success : M (clocked breaker) unit :=
  on_val (λ b, Breaker (threshold b) (cooldown b) 0 None false).

Definition record_failure : M (clocked breaker) bool :=
  b ← gets c_val;
  let was_open := bool_decide (is_Some (opened_at b)) in
  let b' := Breaker (threshold b) (cooldown b) (consecutive_failures b + 1) (opened_at b) false in
  on_val (λ _, b') ;;
  if (threshold b' <=? consecutive_failures b') || was_open then
    n ← now;
    on_val (λ b, Breaker (threshold b) (cooldown b) (consecutive_failures b) (Some n) (probing b)) ;;
    mret (negb was_open)
  else mret false.
End breaker.

(** ** Facts *)

(** What holds of every breaker: below the threshold it is closed, and a probe
    is only out while it is open. *)
Record breaker_ok (b : breaker) : Prop := {
  bo_threshold : 1 ≤ threshold b;
  bo_closed : opened_at b = None → 0 ≤ consecutive_failures b < threshold b ∧ probing b = false;
  bo_open : is_Some (opened_at b) → threshold b ≤ consecutive_failures b;
}.

(** The operations as steps on the breaker, for any clock. *)
Section steps.
Context `{Externals}.

Inductive breaker_op : Type := Check | Success | Failure.

Definition op_run (o : breaker_op) : M (clocked breaker) (option bool) :=
  match o with
  | Check => check ;; mret None
  | Success => record_success ;; mret None
  | Failure => Some <$> record_failure
  end.

Lemma record_failure_run s :
  let b := c_val s in
  let was_open := bool_decide (is_Some (opened_at b)) in
  record_failure s =
    if (threshold b <=? consecutive_failures b + 1) || was_open
    then (Ok (negb was_open), Clocked (Breaker (threshold b) (cooldown b)
            (consecutive_failures b + 1) (Some (clock_monotonic (c_tick s))) false) (S (c_tick s)))
    else (Ok false, Clocked (Breaker (threshold b) (cooldown b)
            (consecutive_failures b + 1) (opened_at b) false) (c_tick s)).
Proof.
  intros b w. unfold record_failure, mbind, M_bind. simpl.
  fold b. fold w. by destruct (_ || w).
Qed.

(** [check] in closed form. *)
Lemma check_run s :
  let b := c_val s in
  check s =
    match opened_at b with
    | None => (Ok tt, s)
    | Some t =>
        if fleb (cooldown b) (fsub (clock_monotonic (c_tick s)) t) && negb (probing b)
        then (Ok tt, Clocked (set_probing true b) (S (c_tick s)))
        else (raise_r BreakerOpen ("circuit breaker open after "
                +:+ Z_str (consecutive_failures b)
                +:+ " consecutive ERP write failures; retry in "
                +:+ float_fmt0 (fmax (fsub (cooldown b)
                      (fsub (clock_monotonic (S (c_tick s))) t)) fzero) +:+ "s"),
              Clocked b (S (S (c_tick s))))
    end.
Proof.
  destruct s as [b n]. unfold check, state, mbind, M_bind, gets. simpl.
  destruct (opened_at b) as [t|] eqn:Eo; [|done]. simpl.
  destruct (fleb _ _); simpl; [|rewrite Eo; done].
  destruct (probing b) eqn:Ep; simpl; rewrite ?Eo; done.
Qed.

Lemma op_run_ok o s r s' : breaker_ok (c_val s) → op_run o s = (r, s') → breaker_ok (c_val s').
Proof.
  intros [Ht Hc Ho]. destruct o; simpl; unfold mbind, M_bind, fmap, M_fmap.
  - rewrite check_run. destruct (opened_at (c_val s)) as [t|] eqn:Eo.
    + destruct (_ && _); intros [= _ <-]; simpl; split; simpl; rewrite ?Eo; done.
    + intros [= _ <-]. split; rewrite ?Eo; done.
  - intros [= _ <-]. split; simpl; [done|lia|by intros []].
  - rewrite record_failure_run.
    destruct (Z.leb_spec (threshold (c_val s)) (consecutive_failures (c_val s) + 1)); simpl.
    + intros [= _ <-]. split; simpl; [done|done|lia].
    + case_bool_decide as Hop; intros [= _ <-].
      * split; simpl; [done|done|]. specialize (Ho Hop). lia.
      * split; simpl; [done| |by intros ?%Hop].
        intros Hn. destruct (Hc Hn). lia.
Qed.
End steps.

(** ** The promises of the breaker *)
Section properties.
Context `{Externals}.

(** [n] failures in a row, with what each call returned. *)
Fixpoint failures (n : nat) (s : clocked breaker) : list (result bool) * clocked breaker :=
  match n with
  | O => ([], s)
  | S n => let '(r, s) := record_failure s in
           let '(rs, s) := failures n s in (r :: rs, s)
  end.

(** [n] calls of [check], with whether each let the write through. *)
Fixpoint checks (n : nat) (s : clocked breaker) : list bool * clocked breaker :=
  match n with
  | O => ([], s)
  | S n => let '(r, s) := check s in
           let '(rs, s) := checks n s in (is_ok r :: rs, s)
  end.

Lemma failures_from n b t :
  breaker_ok b →
  let '(rs, s') := failures n (Clocked b t) in
  breaker_ok (c_val s') ∧ length rs = n
  ∧ (∀ i r, rs !! i = Some r →
       r = Ok (bool_decide (opened_at b = None
                            ∧ threshold b = consecutive_failures b + Z.of_nat (S i))))
  ∧ (is_Some (opened_at (c_val s')) ↔
       is_Some (opened_at b) ∨ threshold b ≤ consecutive_failures b + Z.of_nat n)
  ∧ probing (c_val s') = (if decide (n = 0%nat) then probing b else false).
Proof.
  revert b t. induction n as [|n IH]; intros b t Hb; simpl.
  { split_and!; [done|done|done| |done]. rewrite Z.add_0_r. split; [auto|].
    intros [?|?]; [done|]. destruct (opened_at b) eqn:E; [by eexists|].
    destruct (bo_closed _ Hb E). lia. }
  destruct (record_failure (Clocked b t)) as [r [b1 t1]] eqn:E1.
  assert (breaker_ok b1) as Hb1.
  { apply (op_run_ok Failure (Clocked b t) (Some <$> r) (Clocked b1 t1) Hb).
    simpl. unfold fmap, M_fmap. rewrite E1. by destruct r. }
  specialize (IH b1 t1 Hb1). destruct (failures n (Clocked b1 t1)) as [rs s'].
  destruct IH as (Hs' & Hl & Hrs & Ho & Hp).
  rewrite record_failure_run in E1. simpl in E1.
  assert (threshold b1 = threshold b ∧ consecutive_failures b1 = consecutive_failures b + 1
          ∧ r = Ok (bool_decide (opened_at b = None
                      ∧ threshold b = consecutive_failures b + 1))
          ∧ probing b1 = false
          ∧ (is_Some (opened_at b1) ↔
               is_Some (opened_at b) ∨ threshold b ≤ consecutive_failures b + 1))
    as (Et & Ec & -> & Ep & Eo).
  { destruct (opened_at b) as [t0|] eqn:Ob.
    - simpl in E1. rewrite orb_true_r in E1. simplify_eq/=.
      split_and!; try done. split; [by left|by eexists].
    - simpl in E1. rewrite orb_false_r in E1.
      destruct (bo_closed _ Hb Ob) as [Hc _].
      destruct (Z.leb_spec (threshold b) (consecutive_failures b + 1)); simplify_eq/=;
        split_and!; try done.
      + rewrite bool_decide_eq_true_2; [done|]. split; [done|lia].
      + split; [by right|by eexists].
      + rewrite bool_decide_eq_false_2; [done|]. lia.
      + split; [by intros []|]. intros [[]|?]; [done|lia]. }
  split_and!; [done|by simpl; rewrite Hl| | |].
  - intros [|i] r Hi; simpl in Hi; [by simplify_eq|]. rewrite (Hrs _ _ Hi). f_equal.
    apply bool_decide_ext. rewrite Et, Ec.
    rewrite <-!not_eq_None_Some in Eo.
    destruct (opened_at b), (opened_at b1); naive_solver lia.
  - rewrite Ho, Eo, Et, Ec. split; [|intros [?|?]; [auto|right; lia]].
    intros [[?|?]|?]; [auto|right; lia|right; lia].
  - rewrite Hp, Ep. by case_decide.
Qed.

(** The breaker trips at the threshold and escalates once.  From a new
    breaker, [n] failures in a row leave it open exactly when [n] reaches the
    threshold, and of all the calls only the one that reaches it returns
    [True]. *)
Theorem breaker_escalates_once th cd b t n :
  new_breaker th cd = Ok b →
  let '(rs, s') := failures n (Clocked b t) in
  length rs = n
  ∧ (∀ i r, rs !! i = Some r → r = Ok (bool_decide (Z.of_nat (S i) = th)))
  ∧ (opened_at (c_val s') = None ↔ Z.of_nat n < th).
Proof.
  unfold new_breaker. destruct (Z.ltb_spec th 1); [done|]. intros [= <-].
  assert (breaker_ok (Breaker th cd 0 None false)) as Hb.
  { split; simpl; [done|lia|by intros []]. }
  pose proof (failures_from n _ t Hb) as Hf.
  destruct (failures n _) as [rs s']. destruct Hf as (_ & Hl & Hrs & Ho & _).
  split_and!; [done| |].
  - intros i r Hi. rewrite (Hrs _ _ Hi). f_equal. apply bool_decide_ext. simpl. naive_solver lia.
  - rewrite eq_None_not_Some, Ho. simpl. split; [intros Hn|intros ? [[]|?]; [done|lia]].
    destruct (decide (Z.of_nat n < th)); [done|]. destruct Hn. right. lia.
Qed.

(** While a probe is out every check is refused, whatever the clock says. *)
Lemma checks_probing n b t t0 :
  opened_at b = Some t0 → probing b = true →
  ∃ t', checks n (Clocked b t) = (replicate n false, Clocked b t').
Proof.
  intros Ho Hp. revert t. induction n as [|n IH]; intros t; [by eexists|]. cbn [checks].
  rewrite check_run. cbn [c_val c_tick]. rewrite Ho, Hp, andb_false_r. cbn beta iota zeta.
  destruct (IH (S (S t))) as [t' ->]. by eexists.
Qed.

(** C39: an open breaker protects the ERP and lets exactly one probe through.
    Before the cooldown has passed a check raises [BreakerOpen] and changes
    nothing.  Once it has passed, and no probe is out, the next check gets
    through and every one after it is refused, however often the clock is read;
    while a probe is out all are.  Whatever the clock does, no more than one of
    any number of checks gets through.  The probe's report ends this: a success
    closes the breaker, so that checks get through again, and a failure opens
    it for another full cooldown, counted from the moment of the report, after
    which the next probe may go. *)
Theorem breaker_one_probe b t0 n t :
  opened_at b = Some t0 →
  let cooled := fleb (cooldown b) (fsub (clock_monotonic t) t0) in
  (cooled = false →
     ∃ msg, check (Clocked b t) = (raise_r BreakerOpen msg, Clocked b (S (S t))))
  ∧ (cooled = true → probing b = false →
       ∃ t', checks (S n) (Clocked b t) = (true :: replicate n false, Clocked (set_probing true b) t'))
  ∧ (probing b = true → ∃ t', checks n (Clocked b t) = (replicate n false, Clocked b t'))
  ∧ (let '(rs, s') := checks n (Clocked b t) in
     length rs = n ∧ length (List.filter id rs) ≤ (if probing b then 0 else 1)
     ∧ opened_at (c_val s') = Some t0)%nat
  ∧ (∃ b', record_success (Clocked b t) = (Ok tt, Clocked b' t)
       ∧ ∀ k, checks k (Clocked b' t) = (replicate k true, Clocked b' t))
  ∧ record_failure (Clocked b t)
    = (Ok false, Clocked (Breaker (threshold b) (cooldown b) (consecutive_failures b + 1)
                            (Some (clock_monotonic t)) false) (S t)).
Proof.
  intros Ho cooled. subst cooled. split_and!.
  - intros Hc. rewrite check_run. simpl. rewrite Ho, Hc. simpl. by eexists.
  - intros Hc Hp. cbn [checks]. rewrite check_run. cbn [c_val c_tick]. rewrite Ho, Hc, Hp.
    cbn [negb andb]. destruct (checks_probing n (set_probing true b) (S t) t0 Ho eq_refl) as [t' ->].
    by eexists.
  - intros Hp. by eapply checks_probing.
  - revert b t Ho. induction n as [|n IH]; intros b t Ho; simpl; [split_and!; by auto with lia|].
    rewrite check_run. simpl. rewrite Ho. destruct (fleb _ _ && negb (probing b)) eqn:Ec; simpl.
    + apply andb_true_iff in Ec as [_ Hp%negb_true_iff].
      specialize (IH (set_probing true b) (S t) Ho). destruct (checks n _) as [rs s'].
      destruct IH as (Hl & Hf & Hs). simpl in *. rewrite Hp. split_and!; [lia|lia|done].
    + specialize (IH b (S (S t)) Ho). destruct (checks n _) as [rs s'].
      destruct IH as (Hl & Hf & Hs). simpl. split_and!; auto.
  - exists (Breaker (threshold b) (cooldown b) 0 None false). split; [done|]. intros k. induction k as [|k IH]; [done|]. cbn [checks].
    rewrite check_run. cbn [c_val opened_at]. by rewrite IH.
  - rewrite record_failure_run. cbn [c_val c_tick]. by rewrite Ho, bool_decide_true, orb_true_r.
Qed.
End properties.

Section witnesses.
#[local] Existing Instance Demo.externals.

Lemma breaker_escalates_once_witness :
  let '(rs, s') := failures 4 (Clocked (Breaker 3 (float_of_Z 300) 0 None false) 0) in
  length rs = 4%nat
  ∧ (∀ i r, rs !! i = Some r → r = Ok (bool_decide (Z.of_nat (S i) = 3)))
  ∧ (opened_at (c_val s') = None ↔ Z.of_nat 4 < 3).
Proof. exact (breaker_escalates_once 3 (float_of_Z 300) _ 0 4 eq_refl). Defined.

Lemma breaker_one_probe_witness :
  let b := Breaker 3 (float_of_Z 2) 3 (Some (float_of_Z 1)) false in
  ∃ t', checks 3 (Clocked b 5) = ([true; false; false], Clocked (set_probing true b) t').
Proof.
  intros b. destruct (breaker_one_probe b (float_of_Z 1) 2 5 eq_refl) as (_ & Hn & _).
  exact (Hn ltac:(vm_compute; reflexivity) eq_refl).
Defined.
End witnesses.
