(* ===== verification/WriteAgent.v ===== *)
(** * The ERP write agent (agents/forge/write_agent.py)

    Turns proposals, decisions and reversals into lifecycle steps, executes
    approved writes behind a circuit breaker per tenant and ERP, and announces
    each step.  Its own state is the ERP connection, the breakers, the pending
    and the completed writes. *)

From S2P Require Import Prelude PyStr PyFloat PyVal Json JsonText JsonFacts Metrics Contract Registry HashChain EventStore Agent Write Breaker.
Local Open Scope string_scope.
Local Open Scope nat_scope.

Record write_agent (E : Type) : Type := WriteAgentState {
  wa_erp : E;
  wa_breakers : gmap (string * string) breaker;
  wa_pending : gmap string write_operation;
  wa_completed : gmap string write_operation;
}.
Arguments WriteAgentState {_} _ _ _ _.
Arguments wa_erp {_} _.
Arguments wa_breakers {_} _.
Arguments wa_pending {_} _.
Arguments wa_completed {_} _.

Section setters.
Context {E : Type}.
Implicit Types a : write_agent E.
Definition set_erp (e : E) a := WriteAgentState e (wa_breakers a) (wa_pending a) (wa_completed a).
Definition set_breaker k b a :=
  WriteAgentState (wa_erp a) (<[k := b]> (wa_breakers a)) (wa_pending a) (wa_completed a).
Definition set_pending f a :=
  WriteAgentState (wa_erp a) (wa_breakers a) (f (wa_pending a)) (wa_completed a).
Definition set_completed f a :=
  WriteAgentState (wa_erp a) (wa_breakers a) (wa_pending a) (f (wa_completed a)).
Definition empty_agent (e : E) : write_agent E := WriteAgentState e ∅ ∅ ∅.
End setters.

Definition set_tick {T} (n : nat) (w : world T) : world T :=
  World (w_registry w) (w_store w) (w_bus w) (w_metrics w) n.

(** The keyword call of [request] with a payload: each key must be a parameter and each parameter
    without a default must be there. *)
Definition request_parameters : list string :=
  ["tenant_id"; "erp_platform"; "operation"; "target_module"; "payload"; "requested_by";
   "diff_preview"; "reverses"; "target_external_id"].

Definition kwarg (k : string) (kw : pydict) : result pyval :=
  match dget k kw with
  | Some v => Ok v
  | None => raise_r TypeError ("request() missing keyword-only argument: " +:+ str_repr k)
  end.

Definition request_args_of (kw : pydict) : result request_args :=
  match List.find (λ k, negb (bool_decide (k ∈ request_parameters))) (dkeys kw) with
  | Some k => raise_r TypeError ("request() got an unexpected keyword argument " +:+ str_repr k)
  | None =>
      t ← kwarg "tenant_id" kw; t ← as_str t;
      e ← kwarg "erp_platform" kw; e ← as_str e;
      o ← kwarg "operation" kw; o ← as_str o;
      m ← kwarg "target_module" kw; m ← as_str m;
      p ← kwarg "payload" kw; p ← as_dict p;
      b ← kwarg "requested_by" kw; b ← as_str b;
      d ← as_opt_str (get_or "diff_preview" VNone kw);
      r ← as_opt_str (get_or "reverses" VNone kw);
      x ← as_opt_str (get_or "target_external_id" VNone kw);
      Ok (RequestArgs t e o m p b d r x)
  end.

(** [subject.rsplit(".", 1)[-1]]. *)
Definition stage_of (subject : string) : string := after_last (byte 46) subject.

Section agent.
Context `{Externals} `{EventStore T} `{Erp E}.
(** [breaker_factory()]. *)
Variable breaker_factory : breaker.

Notation P := (proc T (write_agent E)).

(** Runs a coordinator step on the agent's ERP connection. *)
Definition coordinate {B} (m : M (clocked E) B) : M P B :=
  zoom (λ s, Clocked (wa_erp (p_agent s)) (w_tick (p_world s)))
       (λ c s, Proc (set_tick (c_tick c) (p_world s)) (set_erp (c_val c) (p_agent s))) m.

Definition breaker_key (op : write_operation) : string * string :=
  (wo_tenant_id op, erp_platform op).

(** [_breaker_for]: the breaker of a key, made on first use. *)
Definition breaker_at (k : string * string) (a : write_agent E) : breaker :=
  default breaker_factory (wa_breakers a !! k).

(** A call on the breaker that [_breaker_for(op)] returns. *)
Definition on_breaker {B} (op : write_operation) (m : M (clocked breaker) B) : M P B :=
  let k := breaker_key op in
  zoom (λ s, Clocked (breaker_at k (p_agent s)) (w_tick (p_world s)))
       (λ c s, Proc (set_tick (c_tick c) (p_world s)) (set_breaker k (c_val c) (p_agent s))) m.

Definition metric (name : string) (v : float) (ls : labels) : M P unit := in_world (count name v ls).

Definition quarantine (e : event) (error : string) : M P unit :=
  in_world (dead_letter "forge" e error).

Definition emit_step (step : write_step) (correlation_id : option string) : M P unit :=
  metric ERP_WRITES one [("stage", stage_of (ws_subject step))] ;;
  emit_new "forge" (ws_subject step) (ws_schema_version step) correlation_id None (ws_event step).

Definition put_pending (i : string) (op : write_operation) : M P unit :=
  in_agent (modify (set_pending (insert i op))).
Definition pop_pending (i : string) : M P unit := in_agent (modify (set_pending (delete i))).

Definition propose (event : event) : M P unit :=
  args ← of_result (request_args_of (ev_payload event));
  outcome ← try_except (inl <$> coordinate (request args)) ErpWriteError (λ exc, mret (inr exc));
  match outcome with
  | inr exc => quarantine event ("dry-run failed: " +:+ exn_msg exc)
  | inl step =>
      put_pending (write_id (ws_op step)) (ws_op step) ;;
      emit_step step (ev_correlation_id event)
  end.

Definition reverse_write (event : event) : M P unit :=
  let req := ev_payload event in
  wid ← of_result (get_str "write_id" req);
  original ← gets (λ s, wa_completed (p_agent s) !! wid);
  match original with
  | None => quarantine event ("reversal target " +:+ wid +:+ " is not a completed write")
  | Some original =>
      operation ← of_result (get_str "operation" req);
      payload ← of_result (get_dict "payload" req);
      requested_by ← of_result (get_str "requested_by" req);
      diff_preview ← of_result (as_opt_str (get_or "diff_preview" VNone req));
      outcome ← try_except
        (inl <$> coordinate (request_reversal original operation payload requested_by
                               diff_preview None))
        ErpWriteError (λ exc, mret (inr exc));
      match outcome with
      | inr exc => quarantine event ("dry-run failed: " +:+ exn_msg exc)
      | inl step =>
          put_pending (write_id (ws_op step)) (ws_op step) ;;
          emit_step step (ev_correlation_id event)
      end
  end.

(** [_execute], after the breaker let the write through. *)
Definition execute_open (op : write_operation) (cause : event) (correlation_id : option string)
    : M P unit :=
  started ← in_world (fresh clock_monotonic);
  outcome ← try_except (inl <$> coordinate (execute op)) ErpWriteError (λ exc, mret (inr exc));
  match outcome with
  | inr exc =>
      metric ERP_WRITE_FAILURES one [("reason", "erp_error")] ;;
      tripped ← on_breaker op record_failure;
      if tripped : bool then
        metric BREAKER_OPENS one [] ;;
        quarantine cause ("circuit breaker opened; last error: " +:+ exn_msg exc)
      else mret tt
  | inl completed =>
      on_breaker op record_success ;;
      stopped ← in_world (fresh clock_monotonic);
      metric ERP_WRITE_SECONDS (fsub stopped started) [] ;;
      pop_pending (write_id op) ;;
      in_agent (modify (set_completed (insert (write_id (ws_op completed)) (ws_op completed)))) ;;
      emit_step completed correlation_id
  end.

Definition execute_write (op : write_operation) (cause : event) (correlation_id : option string)
    : M P unit :=
  refused ← try_except (on_breaker op check ;; mret None) BreakerOpen (λ exc, mret (Some exc));
  match refused with
  | Some exc =>
      metric ERP_WRITE_FAILURES one [("reason", "breaker_open")] ;;
      quarantine cause (exn_msg exc)
  | None => execute_open op cause correlation_id
  end.

(** The body of the [try] in [_decide]. *)
Definition decide_on (wid : string) (op : write_operation) (event : event) : M P unit :=
  decision ← of_result (getitem "decision" (ev_payload event));
  if py_eq decision (VStr "approve") then
    if decide (wo_state op = APPROVED) then execute_write op event (ev_correlation_id event) else
    reviewer ← of_result (get_str "reviewer" (ev_payload event));
    approved ← coordinate (approve op reviewer);
    put_pending wid (ws_op approved) ;;
    emit_step approved (ev_correlation_id event) ;;
    execute_write (ws_op approved) event (ev_correlation_id event)
  else
    reviewer ← of_result (get_str "reviewer" (ev_payload event));
    reason ← of_result (as_str (get_or "reason" (VStr "rejected") (ev_payload event)));
    rejected ← coordinate (reject op reviewer reason);
    pop_pending wid ;;
    emit_step rejected (ev_correlation_id event).

Definition decide_write (event : event) : M P unit :=
  wid ← of_result (get_str "write_id" (ev_payload event));
  op ← gets (λ s, wa_pending (p_agent s) !! wid);
  match op with
  | None => mret tt
  | Some op =>
      try_except (decide_on wid op event) InvalidTransition
        (λ exc, quarantine event ("illegal decision: " +:+ exn_msg exc))
  end.

Definition handle_write (event : event) : M P unit :=
  if String.eqb (ev_subject event) "forge.write.propose" then propose event
  else if String.eqb (ev_subject event) "forge.write.decision" then decide_write event
  else if String.eqb (ev_subject event) "forge.write.reverse" then reverse_write event
  else mret tt.

Definition write_agent_instance : Agent T (write_agent E) := {|
  agent_name := "forge";
  subjects := ["forge.write.propose"; "forge.write.decision"; "forge.write.reverse"];
  handle := handle_write;
|}.
End agent.

(** ** The governance invariant

    [traced] is any ERP with a record of what it was asked to apply and whether
    it agreed.  The agent cannot tell it from the ERP itself. *)
Notation attempt := (write_operation * bool)%type.

Definition traced `{Erp E} : Erp (E * list attempt) := {|
  erp_apply op s :=
    let '(r, e) := erp_apply op s.1 in (r, (e, (s.2 ++ [(op, is_ok r)])%list));
  erp_fetch := match erp_fetch with
               | Some fetch => Some (λ op s, let '(r, e) := fetch op s.1 in (r, (e, s.2)))
               | None => None
               end;
|}.

(** What the invariant looks at. *)
Record view : Type := View {
  v_pending : gmap string write_operation;
  v_completed : gmap string write_operation;
  v_attempts : list attempt;
  v_tick : nat;
}.

Section invariant.
Context `{Externals}.

Definition issued (n : nat) (i : string) : Prop := ∃ k, k < n ∧ i = uuid4 k.

(** The writes the ERP agreed to. *)
Definition successes (l : list attempt) : list string :=
  omap (λ a : attempt, if a.2 then Some (write_id a.1) else None) l.

(** [A] is the set of writes an approve decision has been seen for. *)
Record inv (A : string → Prop) (v : view) : Prop := {
  inv_pending : ∀ i op, v_pending v !! i = Some op →
    write_id op = i ∧ issued (v_tick v) i ∧
    (wo_state op = REQUESTED ∨ wo_state op = APPROVED ∧ A i);
  inv_completed : ∀ i op, v_completed v !! i = Some op →
    write_id op = i ∧ issued (v_tick v) i ∧ wo_state op = COMPLETED
    ∧ v_pending v !! i = None ∧ ∃ op', (op', true) ∈ v_attempts v ∧ op = with_state COMPLETED op';
  inv_attempts : ∀ op ok, (op, ok) ∈ v_attempts v →
    wo_state op = APPROVED ∧ A (write_id op) ∧
    (v_pending v !! write_id op = Some op ∧ ok = false
     ∨ v_completed v !! write_id op = Some (with_state COMPLETED op));
  inv_once : NoDup (successes (v_attempts v));
}.

Lemma issued_le n m i : n ≤ m → issued n i → issued m i.
Proof. intros ? (k & ? & ->). exists k. split; [lia|done]. Qed.

(** More outside reads and more decisions. *)
Lemma inv_later (A B : string → Prop) v n :
  (∀ i, A i → B i) → v_tick v ≤ n →
  inv A v → inv B (View (v_pending v) (v_completed v) (v_attempts v) n).
Proof.
  intros HAB Hn [Hp Hc Ha Ho]. split; simpl; [| | |done].
  - intros i op E. destruct (Hp i op E) as (? & ? & ?).
    split_and!; [done|by eapply issued_le|naive_solver].
  - intros i op E. destruct (Hc i op E) as (? & ? & ?). split_and!; [done|by eapply issued_le|tauto..].
  - intros op ok E. destruct (Ha op ok E) as (? & ? & ?). auto.
Qed.

Lemma inv_tick A p c a n m : inv A (View p c a n) → n ≤ m → inv A (View p c a m).
Proof. intros HI Hn. exact (inv_later A A (View p c a n) m (λ _ Hi, Hi) Hn HI). Qed.

(** A proposal under a new id. *)
Lemma inv_propose A v op n :
  (∀ j k, uuid4 j = uuid4 k → j = k) →
  write_id op = uuid4 n → wo_state op = REQUESTED → v_tick v ≤ n →
  inv A v →
  inv A (View (<[write_id op := op]> (v_pending v)) (v_completed v) (v_attempts v) (S n)).
Proof.
  intros Hinj Hid Hst Hn [Hp Hc Ha Ho].
  assert (∀ i, issued (v_tick v) i → i ≠ write_id op) as Hfresh.
  { intros i (k & Hk & ->) E. rewrite Hid in E. apply Hinj in E. lia. }
  split; simpl; [| | |done].
  - intros i op'. rewrite lookup_insert. case_decide as E; [intros [= <-]|].
    + split_and!; [done| |by left]. exists n. subst i. split; [lia|done].
    + intros Hi. destruct (Hp i op' Hi) as (? & ? & ?).
      split_and!; [done|eapply issued_le; [|done]; lia|done].
  - intros i op' Hi. destruct (Hc i op' Hi) as (? & Hiss & ? & ? & ?).
    split_and!; [done|eapply issued_le; [|done]; lia|done| |done].
    rewrite lookup_insert_ne; [done|]. by apply not_eq_sym, Hfresh.
  - intros op' ok E. destruct (Ha op' ok E) as (? & ? & [[Hpend ?]|?]); split_and!; auto.
    left. split; [|done]. rewrite lookup_insert_ne; [done|].
    apply not_eq_sym, Hfresh. by destruct (Hp _ _ Hpend) as (? & ? & _).
Qed.

(** While a write is only requested, the ERP has not seen it. *)
Lemma inv_requested_unseen A v i op op' ok :
  inv A v → v_pending v !! i = Some op → wo_state op = REQUESTED →
  (op', ok) ∈ v_attempts v → write_id op' ≠ i.
Proof.
  intros [Hp Hc Ha _] Hi Hst Hin <-. destruct (Ha _ _ Hin) as (Hst' & _ & [[Hpend _]|Hcomp]).
  - rewrite Hi in Hpend. injection Hpend as ->. congruence.
  - destruct (Hc _ _ Hcomp) as (_ & _ & _ & Hnone & _). congruence.
Qed.

Lemma inv_approve (A : string → Prop) v i op :
  inv A v → v_pending v !! i = Some op → wo_state op = REQUESTED → A i →
  inv A (View (<[i := with_state APPROVED op]> (v_pending v)) (v_completed v)
           (v_attempts v) (v_tick v)).
Proof.
  intros HI Hi Hst HA. pose proof HI as [Hp Hc Ha Ho]. split; simpl; [| | |done].
  - intros j op'. rewrite lookup_insert. case_decide as E; [intros [= <-]|apply Hp].
    subst j. destruct (Hp i op Hi) as (? & ? & _). auto.
  - intros j op' Hj. destruct (Hc j op' Hj) as (? & ? & ? & Hnone & ?).
    split_and!; try done. rewrite lookup_insert_ne; [done|]. congruence.
  - intros op' ok Hin. pose proof (inv_requested_unseen A v i op op' ok HI Hi Hst Hin) as Hne.
    destruct (Ha op' ok Hin) as (? & ? & ?). split_and!; [done..|].
    by rewrite lookup_insert_ne by done.
Qed.

Lemma inv_reject A v i op :
  inv A v → v_pending v !! i = Some op → wo_state op = REQUESTED →
  inv A (View (delete i (v_pending v)) (v_completed v) (v_attempts v) (v_tick v)).
Proof.
  intros HI Hi Hst. pose proof HI as [Hp Hc Ha Ho]. split; simpl; [| | |done].
  - intros j op'. rewrite lookup_delete. case_decide; [done|apply Hp].
  - intros j op' Hj. destruct (Hc j op' Hj) as (? & ? & ? & Hnone & ?).
    split_and!; try done. rewrite lookup_delete. by case_decide.
  - intros op' ok Hin. pose proof (inv_requested_unseen A v i op op' ok HI Hi Hst Hin) as Hne.
    destruct (Ha op' ok Hin) as (? & ? & ?). split_and!; [done..|].
    by rewrite lookup_delete_ne by done.
Qed.

Lemma inv_attempt_failed A v i op :
  inv A v → v_pending v !! i = Some op → wo_state op = APPROVED →
  inv A (View (v_pending v) (v_completed v) (v_attempts v ++ [(op, false)])%list (v_tick v)).
Proof.
  intros [Hp Hc Ha Ho] Hi Hst. destruct (Hp i op Hi) as (Hid & _ & [?|[_ HA]]); [congruence|].
  split; simpl; [done| | |].
  - intros j op' Hj. destruct (Hc j op' Hj) as (? & ? & ? & ? & op1 & ? & ?).
    split_and!; [done..|]. exists op1. set_solver.
  - intros op' ok. rewrite elem_of_app, list_elem_of_singleton. intros [?|[= -> ->]]; [auto|].
    rewrite Hid. auto.
  - unfold successes. rewrite omap_app. simpl. by rewrite app_nil_r.
Qed.

Lemma inv_attempt_done A v i op :
  inv A v → v_pending v !! i = Some op → wo_state op = APPROVED →
  inv A (View (delete i (v_pending v)) (<[i := with_state COMPLETED op]> (v_completed v))
           (v_attempts v ++ [(op, true)])%list (v_tick v)).
Proof.
  intros [Hp Hc Ha Ho] Hi Hst. destruct (Hp i op Hi) as (Hid & Hiss & [?|[_ HA]]); [congruence|].
  assert (v_completed v !! i = None) as Hnew.
  { destruct (v_completed v !! i) as [op'|] eqn:E; [|done].
    destruct (Hc _ _ E) as (_ & _ & _ & Hnone & _). congruence. }
  split; simpl.
  - intros j op'. rewrite lookup_delete. case_decide; [done|apply Hp].
  - intros j op'. rewrite lookup_insert, lookup_delete. case_decide as E.
    + intros [= <-]. subst j. split_and!; [done..|]. exists op. set_solver.
    + intros Hj. destruct (Hc j op' Hj) as (? & ? & ? & ? & op1 & ? & ?).
      split_and!; [done..|]. exists op1. set_solver.
  - intros op' ok. rewrite elem_of_app, list_elem_of_singleton. intros [Hin|[= -> ->]].
    + destruct (Ha op' ok Hin) as (? & ? & Hor). split_and!; [done..|].
      destruct (decide (i = write_id op')) as [->|Hne].
      * right. rewrite lookup_insert_eq. destruct Hor as [[Hpend _]|Hcomp]; congruence.
      * rewrite lookup_delete_ne, lookup_insert_ne by done. done.
    + rewrite Hid, lookup_insert_eq. auto.
  - unfold successes. rewrite omap_app. simpl. apply NoDup_app.
    split_and!; [done| |apply NoDup_singleton].
    intros j Hj%list_elem_of_omap. destruct Hj as ([op' ok] & Hin & Hok). simpl in Hok.
    destruct ok; [|done]. injection Hok as <-. rewrite list_elem_of_singleton. intros E.
    destruct (Ha _ _ Hin) as (_ & _ & [[_ ?]|Hcomp]); [done|]. congruence.
Qed.
End invariant.

(** ** Every handler keeps the invariant *)
Section governance.
Context `{Externals} `{EventStoreLaws T} `{Erp E}.
Variable breaker_factory : breaker.
#[local] Existing Instance traced.
Notation P := (proc T (write_agent (E * list attempt))).

Definition view_of (s : P) : view :=
  View (wa_pending (p_agent s)) (wa_completed (p_agent s)) (wa_erp (p_agent s)).2
    (w_tick (p_world s)).

Definition quiet (s s' : P) : Prop :=
  v_pending (view_of s') = v_pending (view_of s)
  ∧ v_completed (view_of s') = v_completed (view_of s)
  ∧ v_attempts (view_of s') = v_attempts (view_of s)
  ∧ v_tick (view_of s) ≤ v_tick (view_of s').

#[local] Instance quiet_preorder : PreOrder quiet.
Proof.
  unfold quiet. split; [by intros s|].
  intros s1 s2 s3 (-> & -> & -> & ?) (-> & -> & -> & ?). split_and!; [done..|lia].
Qed.

(** Steps of the coordinator that do not apply anything. *)
Definition cquiet (c c' : clocked (E * list attempt)) : Prop :=
  (c_val c').2 = (c_val c).2 ∧ c_tick c ≤ c_tick c'.

#[local] Instance cquiet_preorder : PreOrder cquiet.
Proof. unfold cquiet. split; [by intros c|]. intros ??? [-> ?] [-> ?]. split; [done|lia]. Qed.

Lemma c_fresh_cquiet {B} (stream : nat → B) : keeps cquiet (c_fresh stream).
Proof. intros c r c' [= _ <-]. unfold cquiet. simpl. split; [done|lia]. Qed.

Lemma coordinate_quiet {B} (m : M (clocked (E * list attempt)) B) :
  keeps cquiet m → keeps quiet (coordinate (T := T) m).
Proof.
  intros Hm s r s'. unfold coordinate, zoom. destruct (m _) as [o c] eqn:E1. intros [= _ <-].
  apply Hm in E1 as [E1 ?]. unfold quiet, view_of. simpl in *. by rewrite E1.
Qed.

Lemma in_world_quiet {B} (m : M (world T) B) : keeps evolves m → keeps quiet (in_world m).
Proof.
  intros Hm s r s'. unfold in_world, zoom. destruct (m _) as [o w] eqn:E1. intros [= _ <-].
  apply Hm in E1 as [_ _ _ _ Ht]. unfold quiet, view_of. simpl. auto.
Qed.

Lemma breaker_ticks {B} (m : M (clocked breaker) B) op :
  keeps (λ c c', c_tick c ≤ c_tick c') m → keeps quiet (on_breaker breaker_factory op m).
Proof.
  intros Hm s r s'. unfold on_breaker, zoom. destruct (m _) as [o c] eqn:E1. intros [= _ <-].
  apply Hm in E1. unfold quiet, view_of. simpl in *. auto.
Qed.

Lemma check_quiet op : keeps quiet (on_breaker breaker_factory op check).
Proof.
  apply breaker_ticks. intros c r c'. rewrite check_run.
  destruct (opened_at _); [destruct (_ && _)|]; intros [= _ <-]; simpl; lia.
Qed.
Lemma record_failure_quiet op : keeps quiet (on_breaker breaker_factory op record_failure).
Proof.
  apply breaker_ticks. intros c r c'. rewrite record_failure_run.
  destruct (_ || _); intros [= _ <-]; simpl; lia.
Qed.
Lemma record_success_quiet op : keeps quiet (on_breaker breaker_factory op record_success).
Proof. apply breaker_ticks. intros c r c' [= _ <-]. done. Qed.

Lemma metric_quiet name v ls : keeps quiet (metric name v ls).
Proof. apply in_world_quiet, keeps_count. Qed.
Lemma quarantine_quiet e error : keeps quiet (quarantine e error).
Proof. apply in_world_quiet, keeps_dead_letter. Qed.
Lemma fresh_quiet {B} (stream : nat → B) : keeps quiet (in_world (fresh stream)).
Proof. apply in_world_quiet, keeps_fresh. Qed.
Lemma emit_step_quiet step c : keeps quiet (emit_step step c).
Proof.
  unfold emit_step. apply keeps_bind; [apply _|apply metric_quiet|]. intros _.
  apply in_world_quiet, keeps_bind; [apply _|apply keeps_new_event|]. intros. apply keeps_emit.
Qed.
#[local] Hint Resolve check_quiet record_failure_quiet record_success_quiet metric_quiet
  quarantine_quiet fresh_quiet emit_step_quiet : keeps.

(** The invariant on states, and what survives a quiet step. *)
Definition I (A : string → Prop) (s : P) : Prop := inv A (view_of s).

Lemma I_quiet A s s' : quiet s s' → I A s → I A s'.
Proof.
  unfold I. intros (Hp & Hc & Ha & Ht) Hs.
  pose proof (inv_later A A _ _ (λ _ H, H) Ht Hs) as Hl.
  destruct (view_of s'). simpl in *. by subst.
Qed.

Lemma quiet_hoare {B} A (X : P → Prop) (m : M P B) :
  keeps quiet m → stable quiet X → hoare (λ s, I A s ∧ X s) m (λ _ s, I A s ∧ X s).
Proof.
  intros Hm HX. eapply (hoare_keeps quiet); [done| |done].
  intros s s' Hq [? ?]. split; [by eapply I_quiet|by eapply HX].
Qed.

Lemma quiet_I {B} A (m : M P B) : keeps quiet m → hoare (I A) m (λ _, I A).
Proof. intros Hm. eapply (hoare_keeps quiet); [done| |done]. intros s s'. apply I_quiet. Qed.

(** *** Proposals *)
Lemma request_spec args c r c' :
  request args c = (r, c') →
  cquiet c c' ∧ ∀ step, r = Ok step →
    write_id (ws_op step) = uuid4 (c_tick c) ∧ wo_state (ws_op step) = REQUESTED
    ∧ S (c_tick c) ≤ c_tick c'.
Proof.
  unfold request. intros E1. unfold mbind at 1, M_bind in E1. unfold c_fresh at 1 in E1.
  set (c1 := Clocked (c_val c) (S (c_tick c))) in *.
  assert (cquiet c c1) as Hc1 by (unfold cquiet; simpl; split; [done|lia]).
  set (op := WriteOperation _ _ _ _ _ _ _ _ _ _ _) in *.
  set (pv := match erp_fetch with Some _ => _ | None => _ end) in E1.
  assert (keeps cquiet pv) as Hpv.
  { unfold pv. unfold erp_fetch at 1, traced.
    destruct (@erp_fetch E _) as [fetch|]; [|apply keeps_pure; [apply _|done]].
    apply keeps_bind; [apply _| |intros; apply keeps_ret; apply _].
    intros c2 r2 c3. unfold c_lift, zoom. destruct (fetch _ _). by intros [= _ <-]. }
  unfold mbind at 1, M_bind in E1. destruct (pv c1) as [[preview|x] c2] eqn:E2;
    apply Hpv in E2; [|injection E1 as <- <-; split; [by trans c1|done]].
  assert (cquiet c2 c') as Hc2.
  { eapply (keeps_bind cquiet); [apply c_fresh_cquiet| |exact E1].
    intros. apply keeps_ret. apply _. }
  split; [trans c1; [done|by trans c2]|].
  intros step ->. unfold mbind, M_bind, c_fresh in E1. injection E1 as <- <-.
  simpl. split_and!; [done..|]. destruct E2 as [_ ?]. simpl in *. lia.
Qed.

(** The state after a proposal was made and before it is pending. *)
Definition proposed (A : string → Prop) (op : write_operation) (s : P) : Prop :=
  let v := view_of s in
  wo_state op = REQUESTED ∧ ∃ n, write_id op = uuid4 n ∧ S n ≤ v_tick v
    ∧ inv A (View (v_pending v) (v_completed v) (v_attempts v) n).

Lemma coordinate_request A args :
  hoare (I A) (coordinate (request args))
    (λ r s, match r with Ok step => proposed A (ws_op step) s | Err _ => I A s end).
Proof.
  intros s r s' HI E1. pose proof E1 as E2. revert E1. unfold coordinate, zoom.
  destruct (request _ _) as [o c] eqn:Er. intros [= <- <-].
  apply request_spec in Er as [Hq Hok]. destruct o as [step|x].
  - destruct (Hok step eq_refl) as (Hid & Hst & Ht). split; [done|].
    exists (w_tick (p_world s)). destruct Hq as [Hatt _]. simpl in *.
    split_and!; [done|done|]. rewrite Hatt. exact HI.
  - eapply I_quiet; [|exact HI]. unfold quiet, view_of. simpl.
    destruct Hq as [-> ?]. auto.
Qed.

Hypothesis uuid4_unique : ∀ j k, uuid4 j = uuid4 k → j = k.

Lemma put_proposed A op :
  hoare (proposed A op) (put_pending (write_id op) op) (λ _, I A).
Proof.
  intros s r s' (Hst & n & Hid & Ht & HI) [= _ <-].
  apply (inv_propose A _ op n uuid4_unique Hid Hst) in HI; [|done].
  exact (inv_tick _ _ _ _ _ _ HI Ht).
Qed.

Lemma announce_proposal A (outcome : write_step + exn) event msg c :
  hoare (λ s, match outcome with inl step => proposed A (ws_op step) s | inr _ => I A s end)
    (match outcome with
     | inr exc => quarantine event (msg exc)
     | inl step => put_pending (write_id (ws_op step)) (ws_op step) ;; emit_step step c
     end) (λ _, I A).
Proof.
  destruct outcome as [step|exc]; [|apply quiet_I; eauto with keeps].
  apply (hoare_bind _ _ _ (λ _, I A)).
  - eapply hoare_weaken; [apply put_proposed|done|]. by intros [] ?.
  - intros _. apply quiet_I. eauto with keeps.
Qed.

(** [try: step = ...; except ErpWriteError] around a proposal. *)
Lemma try_proposal A (m : M P write_step) :
  hoare (I A) m (λ r s, match r with Ok step => proposed A (ws_op step) s | Err _ => I A s end) →
  hoare (I A) (try_except (inl <$> m) ErpWriteError (λ exc, mret (inr exc)))
    (λ r s, match r with
            | Ok (inl step) => proposed A (ws_op step) s
            | Ok (inr _) | Err _ => I A s
            end).
Proof.
  intros Hm. apply hoare_try, hoare_fmap. eapply hoare_weaken; [exact Hm|done|].
  intros [step|x] s; simpl; [done|]. intros HI. case_match; [|done].
  apply hoare_ret. by intros s' ->.
Qed.

Lemma propose_inv A event : hoare (I A) (propose event) (λ _, I A).
Proof.
  unfold propose. apply (hoare_bind _ _ _ (λ _, I A)).
  { apply hoare_of_result. intros s HI. by case_match. }
  intros args. eapply hoare_bind; [|intros; apply announce_proposal].
  eapply hoare_weaken; [apply try_proposal, coordinate_request|done|].
  intros [[?|?]|?] s; done.
Qed.

Lemma reverse_inv A event : hoare (I A) (reverse_write event) (λ _, I A).
Proof.
  unfold reverse_write. apply (hoare_bind _ _ _ (λ _, I A)).
  { apply hoare_of_result. intros s HI. by case_match. }
  intros wid. apply (hoare_bind _ _ _ (λ _, I A)); [by apply hoare_gets|].
  intros [original|]; [|apply quiet_I; eauto with keeps].
  do 4 (apply (hoare_bind _ _ _ (λ _, I A));
    [apply hoare_of_result; intros s HI; by case_match|intros ?]).
  eapply hoare_bind; [|intros; apply announce_proposal].
  eapply hoare_weaken; [apply (try_proposal A)|done|intros [[?|?]|?] s; done].
  unfold request_reversal. case_decide; [apply coordinate_request|].
  intros s r s' HI [= <- <-]. eapply I_quiet; [|exact HI].
  unfold quiet, view_of. simpl. auto.
Qed.

(** *** Execution *)

(** The write is pending and approved. *)
Definition ready (op : write_operation) (s : P) : Prop :=
  v_pending (view_of s) !! write_id op = Some op ∧ wo_state op = APPROVED.

Lemma ready_stable op : stable quiet (ready op).
Proof. unfold ready. intros s s' (-> & _) ?. done. Qed.

(** The ERP agreed; the books of the agent are not updated yet. *)
Definition applied (A : string → Prop) (op : write_operation) (s : P) : Prop :=
  let v := view_of s in
  inv A (View (delete (write_id op) (v_pending v))
           (<[write_id op := with_state COMPLETED op]> (v_completed v)) (v_attempts v) (v_tick v)).

Lemma applied_stable A op : stable quiet (applied A op).
Proof.
  unfold applied. intros s s' (-> & -> & -> & Ht) Hs.
  exact (inv_tick _ _ _ _ _ _ Hs Ht).
Qed.

Lemma execute_cases op c r c' :
  execute op c = (r, c') → wo_state op = APPROVED →
  c_tick c ≤ c_tick c' ∧
  ((∃ step, r = Ok step ∧ ws_op step = with_state COMPLETED op
            ∧ (c_val c').2 = ((c_val c).2 ++ [(op, true)])%list)
   ∨ (∃ x, r = Err x ∧ (c_val c').2 = ((c_val c).2 ++ [(op, false)])%list)).
Proof.
  intros E1 Hst. rewrite execute_run, decide_True in E1 by done. simpl in E1.
  destruct (erp_apply op (c_val c).1) as [[conf|x] e]; injection E1 as <- <-; simpl;
    (split; [lia|]); [left|right]; eauto.
Qed.

Lemma coordinate_execute A op :
  hoare (λ s, I A s ∧ ready op s) (coordinate (execute op))
    (λ r s, match r with
            | Ok step => ws_op step = with_state COMPLETED op ∧ applied A op s
            | Err _ => I A s
            end).
Proof.
  intros s r s' [HI [Hp Hst]]. unfold coordinate, zoom.
  destruct (execute _ _) as [o c] eqn:Er. intros [= <- <-].
  apply execute_cases in Er as [Ht [(step & -> & Hop & Hatt)|(x & -> & Hatt)]];
    [split| |done]; [done| |]; destruct c as [[e att] t]; simpl in Hatt, Ht; subst att;
    unfold applied, I, view_of; simpl.
  - pose proof (inv_attempt_done A _ _ op HI Hp Hst) as Hd.
    exact (inv_tick _ _ _ _ _ _ Hd Ht).
  - pose proof (inv_attempt_failed A _ _ op HI Hp Hst) as Hd.
    exact (inv_tick _ _ _ _ _ _ Hd Ht).
Qed.

Lemma execute_open_inv A op cause c :
  hoare (λ s, I A s ∧ ready op s) (execute_open breaker_factory op cause c) (λ _, I A).
Proof.
  unfold execute_open. apply (hoare_bind _ _ _ (λ _ s, I A s ∧ ready op s)).
  { eapply hoare_weaken; [apply (quiet_hoare A (ready op)); [eauto with keeps|apply ready_stable]
      |done|]. by intros [?|?] s [??]. }
  intros started.
  apply (hoare_bind _ _ _ (λ o s, match o with
    | inl step => ws_op step = with_state COMPLETED op ∧ applied A op s
    | inr _ => I A s end)).
  { apply hoare_try, hoare_fmap. eapply hoare_weaken; [apply (coordinate_execute A op)|by intros s [??]|].
    intros [step|x] s; simpl; [done|]. intros HI. case_match; [|done].
    apply hoare_ret. by intros s' ->. }
  intros [step|exc].
  2: { apply quiet_I. keeps_tac. }
  apply (hoare_bind _ _ _ (λ _ s, ws_op step = with_state COMPLETED op ∧ applied A op s)).
  { intros s r s' [Hop Ha] E1. apply record_success_quiet in E1 as Hq.
    revert E1. intros [= <- <-]. split; [done|]. by eapply applied_stable. }
  intros _. apply (hoare_bind _ _ _ (λ _ s, ws_op step = with_state COMPLETED op ∧ applied A op s)).
  { intros s r s' [Hop Ha] E1. apply fresh_quiet in E1 as Hq.
    revert E1. intros [= <- <-]. split; [done|]. by eapply applied_stable. }
  intros stopped.
  apply (hoare_bind _ _ _ (λ _ s, ws_op step = with_state COMPLETED op ∧ applied A op s)).
  { intros s r s' [Hop Ha] E1. apply metric_quiet in E1 as Hq.
    revert E1. intros [= <- <-]. split; [done|]. by eapply applied_stable. }
  intros _. intros s r s' [Hop Ha]. rewrite Hop. unfold mbind at 1, M_bind.
  unfold pop_pending at 1, in_agent, zoom, modify. unfold mbind at 1, M_bind.
  intros E1. apply emit_step_quiet in E1. eapply I_quiet; [exact E1|]. exact Ha.
Qed.

Lemma execute_write_inv A op cause c :
  hoare (λ s, I A s ∧ ready op s) (execute_write breaker_factory op cause c) (λ _, I A).
Proof.
  unfold execute_write.
  apply (hoare_bind _ _ _ (λ _ s, I A s ∧ ready op s)).
  { eapply hoare_weaken; [apply (quiet_hoare A (ready op)); [keeps_tac|apply ready_stable]
      |done|]. by intros [?|?] s [??]. }
  intros [exc|]; [|apply execute_open_inv].
  apply (hoare_weaken _ (I A) _ _ (λ _, I A)); [apply quiet_I; keeps_tac|by intros s []|done].
Qed.

(** *** Decisions *)
Definition approves (e : event) (i : string) : Prop :=
  ev_subject e = "forge.write.decision"
  ∧ dget "write_id" (ev_payload e) = Some (VStr i)
  ∧ ∃ v, dget "decision" (ev_payload e) = Some v ∧ py_eq v (VStr "approve") = true.

(** A step of the coordinator that only moves the state of a pending write. *)
Lemma transition_quiet new op who f :
  keeps quiet (coordinate (T := T)
    (o ← of_result (transition_to new op); at_ ← c_fresh clock_iso;
     mret (WriteStep o who (f o at_) 1))).
Proof.
  apply coordinate_quiet. apply keeps_bind; [apply _|apply keeps_of_result; apply _|].
  intros o. apply keeps_bind; [apply _|apply c_fresh_cquiet|].
  intros. apply keeps_ret. apply _.
Qed.

Lemma transition_state new op subject f (s s' : P) step :
  coordinate (o ← of_result (transition_to new op); at_ ← c_fresh clock_iso;
     mret (WriteStep o subject (f o at_) 1)) s = (Ok step, s') →
  new ∈ write_allowed (wo_state op) ∧ ws_op step = with_state new op.
Proof.
  unfold coordinate, zoom, transition_to, mbind, M_bind, of_result.
  case_decide; simpl; intros E1; by simplify_eq/=.
Qed.

Definition pending_inv (A : string → Prop) (wid : string) (op : write_operation) (s : P) : Prop :=
  I A s ∧ v_pending (view_of s) !! wid = Some op.

Lemma pending_stable A wid op : stable quiet (pending_inv A wid op).
Proof. intros s s' Hq [HI Hp]. split; [by eapply I_quiet|]. by rewrite (proj1 Hq). Qed.

(** A decision moves the pending write, and touches nothing else. *)
Lemma transition_inv A wid op new who f :
  hoare (pending_inv A wid op)
    (coordinate (T := T) (o ← of_result (transition_to new op); at_ ← c_fresh clock_iso;
       mret (WriteStep o who (f o at_) 1)))
    (λ r s, match r with
            | Ok step => pending_inv A wid op s ∧ new ∈ write_allowed (wo_state op)
                         ∧ ws_op step = with_state new op
            | Err _ => I A s
            end).
Proof.
  intros s r s' Hs E1. pose proof (transition_quiet _ _ _ _ _ _ _ E1) as Hq.
  apply (pending_stable A wid op _ _ Hq) in Hs.
  destruct r as [step|x]; [|apply Hs]. split; [exact Hs|]. by apply transition_state in E1.
Qed.

(** The reviewer approved a requested write: it is applied. *)
Lemma decide_approve_inv A wid op reviewer event :
  A wid →
  hoare (pending_inv A wid op)
    (approved ← coordinate (approve op reviewer);
     put_pending wid (ws_op approved) ;;
     emit_step approved (ev_correlation_id event) ;;
     execute_write breaker_factory (ws_op approved) event (ev_correlation_id event))
    (λ _, I A).
Proof.
  intros HA. eapply hoare_bind; [apply transition_inv|].
  intros step. apply (hoare_bind _ _ _ (λ _ s, I A s ∧ ready (ws_op step) s)).
  { intros s r s' ([HI Hp] & Hal & Hop) [= <- <-].
    assert (Hs : wo_state op = REQUESTED) by (destruct (wo_state op); set_solver).
    pose proof (inv_approve A _ wid op HI Hp Hs HA) as Ha. rewrite Hop.
    split; [exact Ha|]. unfold ready, view_of. simpl.
    destruct (inv_pending _ _ HI _ _ Hp) as (-> & _). by rewrite lookup_insert_eq. }
  intros _. apply (hoare_bind _ _ _ (λ _ s, I A s ∧ ready (ws_op step) s)).
  { eapply hoare_weaken;
      [apply (quiet_hoare A (ready (ws_op step))); [eauto with keeps|apply ready_stable]
      |done|]. by intros [?|?] s [??]. }
  intros _. apply execute_write_inv.
Qed.

(** The reviewer rejected a requested write: it is forgotten. *)
Lemma decide_reject_inv A wid op reviewer reason event :
  hoare (pending_inv A wid op)
    (rejected ← coordinate (reject op reviewer reason);
     pop_pending wid ;; emit_step rejected (ev_correlation_id event))
    (λ _, I A).
Proof.
  eapply hoare_bind; [apply transition_inv|].
  intros step. apply (hoare_bind _ _ _ (λ _, I A)); [|intros _; apply quiet_I; eauto with keeps].
  intros s r s' ([HI Hp] & Hal & _) [= <- <-].
  apply (inv_reject A _ wid op) in HI; [done|done|]. destruct (wo_state op); set_solver.
Qed.

Lemma decide_on_inv A wid op event :
  (∀ v, dget "decision" (ev_payload event) = Some v → py_eq v (VStr "approve") = true → A wid) →
  hoare (pending_inv A wid op) (decide_on breaker_factory wid op event) (λ _, I A).
Proof.
  intros HA. unfold decide_on.
  apply (hoare_bind _ _ _ (λ d s, dget "decision" (ev_payload event) = Some d
                                  ∧ pending_inv A wid op s)).
  { apply hoare_of_result. unfold getitem. intros s [? ?]. by destruct (dget _ _). }
  intros d. destruct (py_eq d (VStr "approve")) eqn:Ed.
  - case_decide as Hst.
    + eapply hoare_weaken; [apply (execute_write_inv A)| |done].
      intros s (_ & HI & Hp). split; [done|]. unfold ready.
      destruct (inv_pending _ _ HI _ _ Hp) as (-> & _). done.
    + apply (hoare_bind _ _ _ (λ _ s, A wid ∧ pending_inv A wid op s)).
      { apply hoare_of_result. intros s (Hd & Hs). case_match; [|apply Hs].
        split; [by eapply HA|done]. }
      intros reviewer s r s' [Hw Hs]. by apply (decide_approve_inv A wid op reviewer event Hw).
  - do 2 (apply (hoare_bind _ _ _ (λ _, pending_inv A wid op));
      [apply hoare_of_result; intros s Hs; case_match; unfold pending_inv in *; tauto|intros ?]).
    apply decide_reject_inv.
Qed.

Lemma handle_inv A event :
  (∀ i, approves event i → A i) →
  hoare (I A) (handle_write breaker_factory event) (λ _, I A).
Proof.
  intros HA. unfold handle_write.
  destruct (String.eqb _ "forge.write.propose"); [apply propose_inv|].
  destruct (String.eqb_spec (ev_subject event) "forge.write.decision") as [Es|_];
    [|destruct (String.eqb _ _); [apply reverse_inv|by apply hoare_ret]].
  unfold decide_write. apply (hoare_bind _ _ _ (λ wid s,
    dget "write_id" (ev_payload event) = Some (VStr wid) ∧ I A s)).
  { apply hoare_of_result. intros s HI. destruct (get_str _ _) eqn:Eg; [|done].
    by apply get_str_ok in Eg. }
  intros wid. apply (hoare_bind _ _ _ (λ o s,
    dget "write_id" (ev_payload event) = Some (VStr wid) ∧ I A s
    ∧ v_pending (view_of s) !! wid = o)); [by apply hoare_gets; intros s []|].
  intros [op|]; [|by apply hoare_ret; intros s (_ & ? & _)].
  apply hoare_try. intros s r s' (Hw & HI & Hp) E1.
  assert (I A s') as HI'.
  { refine (decide_on_inv A wid op event _ s r s' (conj HI Hp) E1).
    intros v Hv He. apply HA. split_and!; [done..|]. by exists v. }
  destruct r as [?|x]; [done|]. case_match; [|done].
  intros s2 r3 s3 -> E2. eapply I_quiet; [|exact HI']. by eapply quarantine_quiet.
Qed.

(** *** Whole runs *)
#[local] Instance traced_agent : Agent T (write_agent (E * list attempt)) :=
  write_agent_instance breaker_factory.

Lemma dispatch_inv A e :
  (∀ i, approves e i → A i) → hoare (I A) (dispatch e) (λ _, I A).
Proof.
  intros HA s r s' HI. unfold dispatch.
  destruct (in_world (w_validate _ _ _) s) as [[u|x] s1] eqn:Ev;
    apply (in_world_quiet _ (keeps_w_validate _ _ _)) in Ev; apply (I_quiet A) in Ev; [|done| |done].
  - intros E1. refine (hoare_bind (I A) _ _ (λ _, I A) (λ _, I A) _ _ s1 r s' Ev E1).
    + apply (hoare_weaken _ (I A) _ _ (λ _, I A)); [|done|by intros []].
      apply quiet_I, in_world_quiet, keeps_count.
    + intros _. by apply handle_inv.
  - case_match; [|by intros [= _ <-]]. intros E1.
    eapply I_quiet; [|exact Ev]. by eapply in_world_quiet; [apply keeps_dead_letter|].
Qed.

(** An approve decision for [i] is among the deliveries. *)
Definition approved_in (l : list delivery) (i : string) : Prop :=
  ∃ d e, d ∈ l ∧ parse_wire (d_data d) = Ok e ∧ approves e i.

Lemma run_inv A l :
  (∀ i, approved_in l i → A i) → hoare (I A) (run l) (λ _, I A).
Proof.
  unfold run. induction l as [|d l IH]; intros HA; simpl; [by apply hoare_ret|].
  apply (hoare_bind _ _ _ (λ _, I A)).
  2: { intros _. apply IH. intros i (d' & e & ? & ? & ?). apply HA. exists d', e. set_solver. }
  unfold on_delivery. case_match; [|by apply hoare_ret].
  apply (hoare_bind _ _ _ (λ e s, parse_wire (d_data d) = Ok e ∧ I A s)).
  { apply hoare_of_result. intros s HI. by case_match. }
  intros e s r s' [He HI] E1. assert (I A s') as HI'; [|by destruct r].
  refine (dispatch_inv A e _ s r s' HI E1).
  intros i Hi. apply HA. exists d, e. set_solver.
Qed.

Lemma empty_inv (w : world T) (e : E) A : I A (Proc w (empty_agent (e, []))).
Proof.
  clear uuid4_unique.
  split; simpl; [by intros ? ?; rewrite lookup_empty..|set_solver|apply NoDup_nil_2].
Qed.
End governance.

(** ** The promises of the write agent *)
#[local] Arguments isinstance : simpl never.
#[local] Arguments record_failure : simpl never.
#[local] Arguments on_breaker : simpl never.
Section properties.
Context `{Externals} `{EventStoreLaws T} `{Erp E}.
Variable breaker_factory : breaker.
#[local] Existing Instance traced.
#[local] Instance write_agent_traced : Agent T (write_agent (E * list attempt)) :=
  write_agent_instance breaker_factory.

(** C1: the approval gate.  Over any run of the write agent, whatever arrives
    and whatever fails, the ERP is only ever asked to apply a write that was
    in the approved state and for whose id an approve decision was delivered;
    and all the attempts for one id, retries included, carry the very same
    operation, so the same idempotency key, address and body. *)
Theorem write_approval_gate l (w : world T) (e : E) r s' :
  (∀ j k, uuid4 j = uuid4 k → j = k) →
  run l (Proc w (empty_agent (e, []))) = (r, s') →
  ∀ op ok, (op, ok) ∈ (wa_erp (p_agent s')).2 →
    wo_state op = APPROVED ∧ approved_in l (write_id op)
    ∧ ∀ op' ok', (op', ok') ∈ (wa_erp (p_agent s')).2 → write_id op' = write_id op → op' = op.
Proof.
  intros Hu E1 op ok Hin.
  pose proof (run_inv breaker_factory Hu (approved_in l) l (λ i Hi, Hi) _ _ _
    (empty_inv w e _) E1) as HI.
  destruct (inv_attempts _ _ HI _ _ Hin) as (Hst & HA & Hor). split_and!; [done..|].
  intros op' ok' Hin' Hid. destruct (inv_attempts _ _ HI _ _ Hin') as (Hst' & _ & Hor').
  rewrite Hid in Hor'. destruct Hor as [[Hp _]|Hc], Hor' as [[Hp' _]|Hc'].
  - congruence.
  - destruct (inv_completed _ _ HI _ _ Hc') as (_ & _ & _ & Hn & _). congruence.
  - destruct (inv_completed _ _ HI _ _ Hc) as (_ & _ & _ & Hn & _). congruence.
  - rewrite Hc in Hc'. injection Hc' as Hpay. destruct op, op'. simpl in *. congruence.
Qed.

(** C2: at most one commit per write.  Over any run, the ERP agrees to a given
    write id at most once, and the writes the agent holds as completed are
    exactly those the ERP agreed to. *)
Theorem write_at_most_once l (w : world T) (e : E) r s' :
  (∀ j k, uuid4 j = uuid4 k → j = k) →
  run l (Proc w (empty_agent (e, []))) = (r, s') →
  let a := p_agent s' in
  NoDup (successes (wa_erp a).2)
  ∧ ∀ i, i ∈ successes (wa_erp a).2 ↔ is_Some (wa_completed a !! i).
Proof.
  intros Hu E1 a.
  pose proof (run_inv breaker_factory Hu (approved_in l) l (λ i Hi, Hi) _ _ _
    (empty_inv w e _) E1) as HI.
  split; [apply HI|]. intros i. unfold successes. rewrite list_elem_of_omap. split.
  - intros ([op ok] & Hin & Hok). simpl in Hok. destruct ok; [|done]. injection Hok as <-.
    destruct (inv_attempts _ _ HI _ _ Hin) as (_ & _ & [[_ ?]|Hc]); [done|]. by eexists.
  - intros [op Hc]. destruct (inv_completed _ _ HI _ _ Hc) as (<- & _ & _ & _ & op' & Hin & ->).
    by exists (op', true).
Qed.

(** A failed execution below the threshold leaves no trace a human sees.
    When the ERP refuses an approved write and the breaker does not trip, the
    call returns normally, nothing is published or quarantined, and only the
    failure count and a metric change: the write stays approved, waiting for a
    replay that nothing will trigger. *)
Theorem failed_execute_silent op cause c x (s : proc T (write_agent (E * list attempt))) :
  let b := breaker_at breaker_factory (breaker_key op) (p_agent s) in
  wo_state op = APPROVED → opened_at b = None → (consecutive_failures b + 1 < threshold b)%Z →
  (erp_apply op (wa_erp (p_agent s)).1).1 = Err x → isinstance x ErpWriteError = true →
  ∃ s', execute_write breaker_factory op cause c s = (Ok tt, s')
    ∧ w_bus (p_world s') = w_bus (p_world s) ∧ w_store (p_world s') = w_store (p_world s)
    ∧ wa_pending (p_agent s') = wa_pending (p_agent s)
    ∧ (wa_erp (p_agent s')).2 = ((wa_erp (p_agent s)).2 ++ [(op, false)])%list.
Proof.
  intros b Hst Ho Hc Ha Hx. unfold execute_write.
  assert (on_breaker breaker_factory op check s
          = (Ok tt, Proc (set_tick (w_tick (p_world s)) (p_world s))
                     (set_breaker (breaker_key op) b (p_agent s)))) as Ek.
  { unfold on_breaker, zoom. rewrite check_run. simpl. fold b. by rewrite Ho. }
  unfold mbind, M_bind, try_except. rewrite Ek. unfold mret, M_ret.
  unfold execute_open, mbind, M_bind, in_world at 1, zoom, fresh.
  unfold try_except, fmap, M_fmap, coordinate, zoom.
  rewrite execute_run, decide_True by done. simpl.
  match goal with |- context [erp_apply op ?z] =>
    destruct (erp_apply op z) as [o e'] eqn:Ee end.
  simpl in Ha. subst o. simpl. rewrite Hx. unfold mret, M_ret. simpl. unfold on_breaker, zoom. rewrite record_failure_run.
  assert (∀ e, breaker_at breaker_factory (breaker_key op)
    (set_erp e (set_breaker (breaker_key op) b (p_agent s))) = b) as Hb.
  { intros e. unfold breaker_at. simpl. by rewrite lookup_insert_eq. }
  cbn [c_val c_tick p_agent p_world]. rewrite !Hb, Ho.
  rewrite (proj2 (Z.leb_gt _ _)) by done. simpl.
  eexists. split; [done|]. simpl. done.
Qed.
End properties.

Section witnesses.
#[local] Existing Instance Demo.unique.
#[local] Existing Instance WriteDemo.erp.

Definition breaker0 : breaker :=
  Breaker DEFAULT_FAILURE_THRESHOLD DEFAULT_COOLDOWN_SECONDS 0 None false.

(** The triggers have schemas here, unlike in the repository. *)
Definition write_world : world InMemoryEventStore.store :=
  World (Demo.registry_with ["forge.write.propose"; "forge.write.decision"])
    InMemoryEventStore.init [] [] 0.

Definition trigger (subject : string) (payload : pydict) : delivery :=
  Delivery "message" subject
    (wire (Event subject 1 "review" payload "t" None (Some "acme"))).

(** A proposal, its approval, and the approval again. *)
Definition write_story : list delivery :=
  let approve := trigger "forge.write.decision"
    [("write_id", VStr "w-"); ("decision", VStr "approve"); ("reviewer", VStr "bo")] in
  [trigger "forge.write.propose"
     [("tenant_id", VStr "acme"); ("erp_platform", VStr "netsuite");
      ("operation", VStr "create"); ("target_module", VStr "salesOrder");
      ("payload", VDict [("total", VInt 5)]); ("requested_by", VStr "ana")];
   approve; approve].

#[local] Existing Instance traced.
#[local] Instance write_agent_demo :
  Agent InMemoryEventStore.store (write_agent (list write_operation * list attempt)) :=
  write_agent_instance breaker0.

Definition write_start := Proc write_world (empty_agent (([] : list write_operation), ([] : list attempt))).

Lemma write_story_runs :
  let '(r, s') := run write_story write_start in
  r = Ok tt ∧ (successes (wa_erp (p_agent s')).2) = ["w-"].
Proof. vm_compute. split; reflexivity. Qed.

Lemma write_approval_gate_witness :
  let '(r, s') := run write_story write_start in
  successes (wa_erp (p_agent s')).2 = ["w-"] ∧
  ∀ op ok, (op, ok) ∈ (wa_erp (p_agent s')).2 →
    wo_state op = APPROVED ∧ approved_in write_story (write_id op).
Proof.
  pose proof write_story_runs as Hr. destruct (run _ _) as [r s'] eqn:E1.
  destruct Hr as [_ Hs]. split; [exact Hs|]. intros op ok Hin.
  destruct (write_approval_gate (H := Demo.unique) breaker0 write_story write_world [] r s' Demo.str_of_nat_inj E1
    op ok Hin) as (H1 & H2 & _).
  exact (conj H1 H2).
Defined.

Lemma write_at_most_once_witness :
  let '(r, s') := run write_story write_start in
  NoDup (successes (wa_erp (p_agent s')).2)
  ∧ ∀ i, i ∈ successes (wa_erp (p_agent s')).2 ↔ is_Some (wa_completed (p_agent s') !! i).
Proof.
  destruct (run _ _) as [r s'] eqn:E1.
  exact (write_at_most_once (H := Demo.unique) breaker0 write_story write_world [] r s' Demo.str_of_nat_inj E1).
Defined.

Lemma failed_execute_silent_witness :
  ∃ s', execute_write breaker0 (WriteDemo.op "bad")
          (Event "forge.write.decision" 1 "review" [] "t" None None) None write_start = (Ok tt, s')
    ∧ w_bus (p_world s') = [] ∧ w_store (p_world s') = InMemoryEventStore.init
    ∧ wa_pending (p_agent s') = ∅
    ∧ (wa_erp (p_agent s')).2 = [(WriteDemo.op "bad", false)].
Proof.
  exact (failed_execute_silent breaker0 (WriteDemo.op "bad")
    (Event "forge.write.decision" 1 "review" [] "t" None None) None
    (Exn ErpWriteError "HTTP 500") write_start eq_refl eq_refl eq_refl eq_refl eq_refl).
Defined.
End witnesses.
