(* ===== verification/NetSuite.v ===== *)
(** * The NetSuite client (agents/forge/netsuite.py)

    The production writer and reader.  The HTTP transport is a parameter that
    answers each request from the requests made before it; the state is the log
    of those requests, so the facts can say what went over the wire: a write is
    signed by Vault for its own method and URL before it is sent, a refused
    write sends nothing, and a success means the ERP answered 2xx. *)

From S2P Require Import Prelude PyStr PyFloat PyVal Json Registry Write.
Local Open Scope string_scope.

(** ** The transport *)
Record http_request : Type := HttpRequest {
  rq_method : string;
  rq_url : string;
  rq_headers : list (string * string);
  rq_json : option pyval;
}.

(** [rs_json] is what [response.json()] returns or raises, [rs_location] the
    [Location] header. *)
Record http_response : Type := HttpResponse {
  rs_status_code : Z;
  rs_json : result pyval;
  rs_text : string;
  rs_location : option string;
}.

(** The transport answers or raises; [httpx] raises [HTTPError]s. *)
Class Transport : Type := transport : list http_request → http_request → result http_response.

Definition net : Type := list http_request.

Definition send `{Transport} (q : http_request) : M net http_response := λ log,
  (transport log q, (log ++ [q])%list).

(** [try: self._request(...); except httpx.HTTPError as exc: raise ErpWriteError]. *)
Definition send_or_fail `{Transport} (q : http_request) (what : string) : M net http_response :=
  try_except (send q) HTTPError (λ exc, raise ErpWriteError (what +:+ ": " +:+ exn_msg exc)).

(** ** Response bodies *)

(** [_json_of]: the body as a dict; any exception counts as no body. *)
Definition json_of (r : http_response) : option pydict :=
  match rs_json r with
  | Ok (VDict d) => Some d
  | _ => None
  end.

(** [a or b or c] on values. *)
Definition py_or (a b : pyval) : pyval := if truthy a then a else b.

Definition error_of (r : http_response) : string :=
  match json_of r with
  | Some ((_ :: _) as body) =>
      str_take 200 (py_str (py_or (get_or "error" VNone body)
                             (py_or (get_or "title" VNone body) (VDict body))))
  | _ => str_take 200 (rs_text r)
  end.

(** ** The client *)
Record client : Type := Client {
  vault_url : string;
  vault_secret : string;
  base : string;
}.

Definition VAULT_AUTH_HEADER : string := "X-Cavi-Vault-Secret".

(** The constructor drops trailing slashes. *)
Definition new_client (vault_url vault_api_secret netsuite_rest_url : string) : client :=
  Client (rstrip_char (byte 47) vault_url) vault_api_secret
    (rstrip_char (byte 47) netsuite_rest_url).

Definition missing_config (c : client) : list string :=
  map fst (filter (λ p : string * string, str_empty p.2 = true)
    [("VAULT_URL", vault_url c); ("CAVI_VAULT_API_SECRET", vault_secret c);
     ("NETSUITE_REST_URL", base c)]).

Definition require_configured (c : client) : result unit :=
  match missing_config c with
  | [] => Ok tt
  | missing => raise_r ErpWriteError ("NetSuite client not configured (missing "
                 +:+ join ", " missing +:+ "); refusing to touch the ERP")
  end.

Definition is_2xx (z : Z) : bool := ((200 <=? z) && (z <? 300))%Z.

Section client.
Context `{Transport}.
Variable c : client.

Definition sign_request (op : write_operation) (method url : string) : http_request :=
  HttpRequest "POST" (vault_url c +:+ "/sign") [(VAULT_AUTH_HEADER, vault_secret c)]
    (Some (VDict [("tenant_id", VStr (wo_tenant_id op)); ("erp_platform", VStr (erp_platform op));
                  ("method", VStr method); ("url", VStr url)])).

(** The [.get] of a body that is no object is an [AttributeError]. *)
Definition authorization_of (body : pyval) : result string :=
  match body with
  | VDict d =>
      let header := get_or "authorization_header" VNone d in
      if truthy header then as_str header
      else raise_r ErpWriteError "vault /sign returned no authorization_header"
  | _ => raise_r AttributeError "object has no attribute 'get'"
  end.

Definition sign (op : write_operation) (method url : string) : M net string :=
  response ← send_or_fail (sign_request op method url) "vault /sign unreachable";
  if negb (rs_status_code response =? 200)%Z then
    raise ErpWriteError ("vault refused to sign " +:+ method +:+ " " +:+ url +:+ " for tenant "
      +:+ wo_tenant_id op +:+ ": HTTP " +:+ Z_str (rs_status_code response) +:+ " "
      +:+ error_of response)
  else
    body ← of_result (rs_json response);
    of_result (authorization_of body).

Definition record_url (op : write_operation) : string :=
  base c +:+ "/record/v1/" +:+ target_module op +:+ "/eid:" +:+ erp_address op.

Definition put_request (op : write_operation) (authorization : string) : http_request :=
  HttpRequest "PUT" (record_url op)
    [("Authorization", authorization); ("Content-Type", "application/json")]
    (Some (VDict (wo_payload op))).

Definition get_request (op : write_operation) (authorization : string) : http_request :=
  HttpRequest "GET" (record_url op) [("Authorization", authorization)] None.

(** The three refusals before any request. *)
Definition check_addressing (op : write_operation) : result unit :=
  if negb (bool_decide (operation op ∈ ["create"; "update"])) then
    raise_r ErpWriteError ("unsupported NetSuite operation " +:+ str_repr (operation op)
      +:+ "; only create/update (external-id upsert) are implemented")
  else if String.eqb (operation op) "update" && bool_decide (target_external_id op = None) then
    raise_r ErpWriteError ("update of " +:+ target_module op
      +:+ " refused: no target_external_id — cannot address the existing record")
  else match target_external_id op with
       | Some i =>
           if String.eqb (operation op) "create"
           then raise_r ErpWriteError ("create of " +:+ target_module op
                  +:+ " refused: target_external_id " +:+ str_repr i
                  +:+ " set — a create addresses its own idempotency key; use operation"
                  +:+ " 'update' to modify that record")
           else Ok tt
       | None => Ok tt
       end.

Definition confirmation (op : write_operation) (response : http_response) : pydict :=
  let base := [("external_id", VStr (erp_address op));
               ("status_code", VInt (rs_status_code response))] in
  let located := match rs_location response with
                 | Some ((String _ _) as l) => dset "location" (VStr l) base
                 | _ => base
                 end in
  match json_of response with
  | Some body => dset "record" (VDict body) located
  | None => located
  end.

(** The PUT and what is made of its answer. *)
Definition upsert (op : write_operation) (authorization : string) : M net pydict :=
  response ← send_or_fail (put_request op authorization) "netsuite upsert failed in transit";
  if negb (is_2xx (rs_status_code response)) then
    raise ErpWriteError ("netsuite rejected " +:+ operation op +:+ " " +:+ target_module op
      +:+ " eid:" +:+ erp_address op +:+ ": HTTP " +:+ Z_str (rs_status_code response)
      +:+ " " +:+ error_of response)
  else mret (confirmation op response).

Definition apply (op : write_operation) : M net pydict :=
  of_result (require_configured c) ;;
  of_result (check_addressing op) ;;
  authorization ← sign op "PUT" (record_url op);
  upsert op authorization.

Definition fetch (op : write_operation) : M net (option pydict) :=
  of_result (require_configured c) ;;
  authorization ← sign op "GET" (record_url op);
  response ← send_or_fail (get_request op authorization) "netsuite fetch failed in transit";
  if (rs_status_code response =? 404)%Z then mret None else
  if negb (is_2xx (rs_status_code response)) then
    raise ErpWriteError ("netsuite fetch of " +:+ target_module op +:+ " eid:" +:+ erp_address op
      +:+ " failed: HTTP " +:+ Z_str (rs_status_code response) +:+ " " +:+ error_of response)
  else match json_of response with
       | Some body => mret (Some body)
       | None => raise ErpWriteError ("netsuite fetch of " +:+ target_module op +:+ " eid:"
                   +:+ erp_address op +:+ " returned a non-JSON body")
       end.

(** The client as both writer and reader. *)
Definition netsuite : Erp net := {| erp_apply := apply; erp_fetch := Some fetch |}.
End client.

(** ** What goes over the wire *)

Lemma send_or_fail_run `{Transport} q what log :
  send_or_fail q what log =
    (match transport log q with
     | Ok r => Ok r
     | Err e => if isinstance e HTTPError
                then raise_r ErpWriteError (what +:+ ": " +:+ exn_msg e) else Err e
     end, (log ++ [q])%list).
Proof. unfold send_or_fail, try_except, send. by destruct (transport log q); [|case_match]. Qed.

Lemma sign_run `{Transport} c op method url log r log' :
  sign c op method url log = (r, log') →
  log' = (log ++ [sign_request c op method url])%list
  ∧ ∀ header, r = Ok header → ∃ rs body,
      transport log (sign_request c op method url) = Ok rs ∧ rs_status_code rs = 200%Z
      ∧ rs_json rs = Ok (VDict body)
      ∧ get_or "authorization_header" VNone body = VStr header ∧ header ≠ EmptyString.
Proof.
  unfold sign, mbind at 1, M_bind at 1. rewrite send_or_fail_run.
  destruct (transport log _) as [rs|e] eqn:Et; cbn iota beta.
  2:{ unfold raise_r; destruct (isinstance e HTTPError); intros [= <- <-]; by split. }
  destruct (negb _) eqn:Es; [intros [= <- <-]; by split|].
  unfold mbind, M_bind, of_result.
  destruct (rs_json rs) as [body|e] eqn:Ej; intros [= <- <-]; (split; [done|]); [|congruence].
  intros header Ha. unfold authorization_of in Ha.
  destruct body as [| | | | | |d]; try done.
  destruct (truthy _) eqn:Eh; [|done]. exists rs, d.
  destruct (get_or _ _ d) as [| | | |h| |]; try done. injection Ha as <-.
  split_and!; try done; [|by intros ->].
  apply negb_false_iff, Z.eqb_eq in Es. done.
Qed.

(** The write names one record: a create its own key, an update a target. *)
Definition addressed (op : write_operation) : bool :=
  match target_external_id op with
  | None => String.eqb (operation op) "create"
  | Some _ => String.eqb (operation op) "update"
  end.

Lemma check_addressing_ok op : check_addressing op = Ok tt ↔ addressed op = true.
Proof.
  unfold check_addressing, addressed, raise_r.
  destruct (String.eqb_spec (operation op) "create") as [->|Hc];
    [destruct (target_external_id op); cbn -[String.append str_repr]; split; (done || discriminate)|].
  destruct (String.eqb_spec (operation op) "update") as [->|Hu];
    [destruct (target_external_id op); cbn -[String.append str_repr]; split; (done || discriminate)|].
  rewrite bool_decide_false by set_solver. destruct (target_external_id op); done.
Qed.

Lemma check_addressing_err op e :
  check_addressing op = Err e → exn_cls e = ErpWriteError.
Proof. unfold check_addressing, raise_r. intros. by repeat (case_match; simplify_eq/=). Qed.

Lemma require_configured_err c e :
  require_configured c = Err e → exn_cls e = ErpWriteError.
Proof. unfold require_configured, raise_r. intros. by repeat (case_match; simplify_eq/=). Qed.

(** A refusal before the first request. *)
Lemma apply_refused `{Transport} c op log :
  missing_config c ≠ [] ∨ addressed op = false →
  ∃ msg, apply c op log = (raise_r ErpWriteError msg, log).
Proof.
  intros Href. unfold apply, mbind, M_bind, of_result.
  destruct (require_configured c) as [[]|[cl msg]] eqn:Ec.
  2:{ pose proof (require_configured_err c _ Ec). simpl in *. subst. by exists msg. }
  destruct (check_addressing op) as [[]|[cl msg]] eqn:Ea.
  2:{ pose proof (check_addressing_err op _ Ea). simpl in *. subst. by exists msg. }
  apply check_addressing_ok in Ea. destruct Href as [Href|Href]; [|congruence].
  unfold require_configured in Ec. by destruct (missing_config c).
Qed.

(** Past the two checks: the signature, then the PUT. *)
Lemma apply_run `{Transport} c op log :
  missing_config c = [] → addressed op = true →
  apply c op log = match sign c op "PUT" (record_url c op) log with
                   | (Ok h, log) => upsert c op h log
                   | (Err e, log) => (Err e, log)
                   end.
Proof.
  intros Hc Ha%check_addressing_ok. unfold apply, mbind, M_bind, of_result, require_configured.
  by rewrite Hc, Ha.
Qed.

Lemma upsert_run `{Transport} c op h log r log' :
  upsert c op h log = (r, log') →
  log' = (log ++ [put_request c op h])%list
  ∧ (is_ok r = true ↔ ∃ rs, transport log (put_request c op h) = Ok rs
       ∧ (200 ≤ rs_status_code rs < 300)%Z ∧ r = Ok (confirmation op rs)).
Proof.
  unfold upsert, mbind, M_bind. rewrite send_or_fail_run. unfold raise_r, is_2xx. intros E.
  destruct (transport _ _) as [rs|e].
  - destruct (negb _) eqn:E2; injection E as <- <-; (split; [done|]); cbn [is_ok].
    + split; [done|intros (? & [= <-] & ? & ?)]. lia.
    + split; [|done]. intros _. exists rs. split_and!; [done|lia|lia|done].
  - split; [destruct (isinstance e HTTPError); by injection E as _ <-|].
    split; [|by intros (? & ? & _)].
    destruct (isinstance e HTTPError); injection E as <- _; discriminate.
Qed.

(** Nothing reaches NetSuite unsigned or unaddressed.  An unconfigured
    client, an update without a target, a create with one and any other verb
    are refused with ErpWriteError before any request.  Otherwise Vault is
    asked to sign exactly this PUT for the write's tenant; the PUT follows only
    with the header of Vault's 200 answer, to the URL of the write's own
    address, and the write succeeds exactly when NetSuite answers 2xx. *)
Theorem apply_wire `{Transport} c op log r log' :
  apply c op log = (r, log') →
  let asked := sign_request c op "PUT" (record_url c op) in
  (missing_config c ≠ [] ∨ addressed op = false →
     log' = log ∧ ∃ msg, r = raise_r ErpWriteError msg)
  ∧ (missing_config c = [] ∧ addressed op = true →
     (log' = log ++ [asked] ∧ is_ok r = false)
     ∨ ∃ rs body authorization,
         transport log asked = Ok rs ∧ rs_status_code rs = 200
         ∧ rs_json rs = Ok (VDict body)
         ∧ get_or "authorization_header" VNone body = VStr authorization
         ∧ log' = log ++ [asked; put_request c op authorization]
         ∧ (is_ok r = true ↔ ∃ rs', transport (log ++ [asked]) (put_request c op authorization) = Ok rs'
                            ∧ 200 ≤ rs_status_code rs' < 300 ∧ r = Ok (confirmation op rs')))%Z%list.
Proof.
  intros E asked. split.
  { intros Href. destruct (apply_refused c op log Href) as [msg Em]. rewrite Em in E.
    injection E as <- <-. eauto. }
  intros [Hc Ha]. rewrite apply_run in E by done.
  destruct (sign c op "PUT" (record_url c op) log) as [[h|e] log1] eqn:Es;
    apply sign_run in Es as [-> Hs].
  2:{ injection E as <- <-. by left. }
  destruct (Hs h eq_refl) as (rs & body & Et & H2 & Hj & Hh & _).
  apply upsert_run in E as [-> Hok]. rewrite <-(assoc_L (++)%list) in *.
  right. by exists rs, body, h.
Qed.

(** A reversal proposed the way the write agent proposes it, without a
    target, can only ever be executed when it is a create: any other
    compensation (the update the coordinator's comment has in mind, or a void)
    becomes a pending write whose execution NetSuite's client refuses, sending
    nothing, whatever the reviewers decide. *)
Theorem update_reversal_refused `{Externals} `{Transport} c original verb payload requested_by
    diff_preview s step s' :
  request_reversal (E:=net) (H0:=netsuite c) original verb payload requested_by diff_preview None s
    = (Ok step, s') →
  verb ≠ "create" →
  wo_state (ws_op step) = REQUESTED ∧ reverses (ws_op step) = Some (write_id original)
  ∧ ∀ st log, ∃ msg, apply c (with_state st (ws_op step)) log = (raise_r ErpWriteError msg, log).
Proof.
  intros E Hv. unfold request_reversal in E. case_decide; [|done].
  unfold request in E. inv_ok. simplify_eq. simpl. split_and!; try done.
  intros st log. apply apply_refused. right. unfold addressed. simpl.
  by destruct (String.eqb_spec verb "create").
Qed.

(** Not every failure of signing is an ErpWriteError.  When Vault answers
    200 with a body that is no JSON, or JSON that is no object, the exception
    of the body escapes the client unchanged: it is no ErpWriteError, so none
    of the handlers above the client catches it. *)
Theorem bad_sign_body_escapes `{Transport} c op log rs :
  missing_config c = [] → addressed op = true →
  transport log (sign_request c op "PUT" (record_url c op)) = Ok rs →
  rs_status_code rs = 200%Z →
  match rs_json rs with
  | Ok (VDict _) => False
  | Ok _ => True
  | Err e => exn_cls e = JSONDecodeError
  end →
  ∃ e, (apply c op log).1 = Err e ∧ isinstance e ErpWriteError = false.
Proof.
  intros Hc Ha Et Hs Hj. rewrite apply_run by done.
  unfold sign at 1, mbind at 1, M_bind at 1.
  rewrite send_or_fail_run, Et. cbn iota beta. rewrite Hs. cbn -[record_url].
  unfold mbind at 1, M_bind at 1, of_result.
  destruct (rs_json rs) as [[]|[cl msg]]; try done;
    try (eexists; split; [done|reflexivity]).
  simpl in Hj. subst. by eexists.
Qed.

(** ** A concrete client *)
Module NetSuiteDemo.
Definition the_client : client := new_client "http://vault:8000/" "s3cret" "https://ns.example/services/rest".

(** Vault signs, NetSuite knows no record and creates. *)
Definition good (log : list http_request) (q : http_request) : result http_response :=
  Ok (if String.eqb (rq_method q) "GET"
      then HttpResponse 404 (raise_r JSONDecodeError "Expecting value") EmptyString None
      else if String.eqb (rq_method q) "POST"
      then HttpResponse 200 (Ok (VDict [("authorization_header", VStr "OAuth x")])) EmptyString None
      else HttpResponse 204 (raise_r JSONDecodeError "Expecting value") EmptyString (Some "/record/1")).

(** Vault's proxy answers with an HTML page. *)
Definition html (log : list http_request) (q : http_request) : result http_response :=
  Ok (HttpResponse 200 (raise_r JSONDecodeError "Expecting value") "<html>" None).
End NetSuiteDemo.

Section witnesses.
Import NetSuiteDemo WriteDemo.

Lemma apply_wire_witness :
  let r := apply (H := good) the_client (op "a") [] in
  is_ok r.1 = true ∧ length r.2 = 2%nat ∧ missing_config the_client = [] ∧ addressed (op "a") = true
  ∧ ∃ authorization, r.2 = ([sign_request the_client (op "a") "PUT" (record_url the_client (op "a"));
                       put_request the_client (op "a") authorization])%list.
Proof.
  intros r. split; [reflexivity|]. split; [reflexivity|]. split; [reflexivity|]. split; [reflexivity|].
  destruct (apply (H := good) the_client (op "a") []) as [r0 log'] eqn:E.
  destruct (apply_wire (H := good) the_client (op "a") [] r0 log' E) as [_ Hw].
  destruct (Hw (conj eq_refl eq_refl)) as [[_ Hno]|(rs & body & a & _ & _ & _ & _ & Hl & _)].
  - exfalso. vm_compute in E. injection E as <- _. discriminate Hno.
  - exists a. subst r. exact Hl.
Defined.

Lemma update_reversal_refused_witness :
  let '(r, _) := request_reversal (H := Demo.externals) (H0 := netsuite (H := good) the_client)
      (with_state COMPLETED (op "a")) "update" [("total", VInt 0)] "ana" None None (Clocked [] 0) in
  ∃ step, r = Ok step ∧ ∀ log, ∃ msg,
    apply (H := good) the_client (with_state APPROVED (ws_op step)) log
      = (raise_r ErpWriteError msg, log).
Proof.
  destruct (request_reversal (H := Demo.externals) (H0 := netsuite (H := good) the_client)
      (with_state COMPLETED (op "a")) "update" [("total", VInt 0)] "ana" None None (Clocked [] 0))
    as [[step|e] s'] eqn:E.
  - exists step. split; [reflexivity|].
    exact (proj2 (proj2 (update_reversal_refused (H := Demo.externals) (H0 := good)
             _ _ _ _ _ _ _ _ _ E ltac:(discriminate))) APPROVED).
  - exfalso. vm_compute in E. discriminate E.
Defined.

Lemma bad_sign_body_escapes_witness :
  ∃ e, (apply (H := html) the_client (op "a") []).1 = Err e ∧ isinstance e ErpWriteError = false.
Proof.
  exact (bad_sign_body_escapes (H := html) the_client (op "a") [] _
           eq_refl eq_refl eq_refl eq_refl eq_refl).
Defined.
End witnesses.
