(* ===== verification/Mapper.v ===== *)
(** * Mapper (agents/mapper/mapper.py, transforms.py, agent.py)

    Schema versions as a graph of registered transforms: breadth-first search
    for the shortest chain, the chain applied, the result validated against the
    target schema, and the agent that re-emits it.  A graph walk is followed
    with fuel; a queue entry is made at most once per registered edge, so one
    step more than the number of edges (and one for the empty queue) is enough,
    which [find_path_spec] proves. *)

From S2P Require Import Prelude PyStr PyFloat PyVal Json Contract Registry Metrics HashChain EventStore Agent.
Local Open Scope string_scope.
Local Open Scope nat_scope.

Definition transform_fn : Type := pydict → result pydict.
Notation edge := (Z * Z)%type (only parsing).
Notation edge_key := (string * Z * Z)%type (only parsing).

(** ** The mapper *)
Record mapper : Type := Mapper {
  mp_registry : registry;
  mp_transforms : list (edge_key * transform_fn);
  mp_validate_output : bool;
}.

Definition new_mapper (r : registry) (validate_output : bool) : mapper := Mapper r [] validate_output.

(** A dict assignment: in place when the key is there, at the end otherwise. *)
Fixpoint set_transform (k : edge_key) (fn : transform_fn) (l : list (edge_key * transform_fn))
    : list (edge_key * transform_fn) :=
  match l with
  | [] => [(k, fn)]
  | (k', fn') :: l => if decide (k' = k) then (k', fn) :: l else (k', fn') :: set_transform k fn l
  end.

Definition register (subject : string) (from_version to_version : Z) (fn : transform_fn)
    (m : mapper) : mapper :=
  Mapper (mp_registry m) (set_transform (subject, from_version, to_version) fn (mp_transforms m))
    (mp_validate_output m).

Fixpoint lookup_transform (k : edge_key) (l : list (edge_key * transform_fn))
    : option transform_fn :=
  match l with
  | [] => None
  | (k', fn) :: l => if decide (k' = k) then Some fn else lookup_transform k l
  end.

(** The (from, to) pairs registered for a subject, in order. *)
Definition edges_of (subject : string) (m : mapper) : list edge :=
  omap (λ t : edge_key * transform_fn,
          let '((subj, a, b), _) := t in
          if String.eqb subj subject then Some (a, b) else None) (mp_transforms m).

(** ** The search *)
Section search.
Variable edges : list edge.
Variable dst : Z.

(** [sorted(adjacency.get(node, []))] *)
Definition successors (node : Z) : list Z :=
  merge_sort Z.le (omap (λ e : edge, if (e.1 =? node)%Z then Some e.2 else None) edges).

(** The inner loop: the unseen successors join [seen] and the queue. *)
Fixpoint visit (node_path : list Z) (nexts : list Z) (queue : list (list Z)) (seen : list Z)
    : list (list Z) * list Z :=
  match nexts with
  | [] => (queue, seen)
  | nxt :: nexts =>
      if bool_decide (nxt ∈ seen) then visit node_path nexts queue seen
      else visit node_path nexts (queue ++ [node_path ++ [nxt]])%list (seen ++ [nxt])%list
  end.

(** [list(zip(node_path, node_path[1:]))] *)
Definition steps_of (node_path : list Z) : list edge := zip node_path (tail node_path).

(** [None] when the fuel runs out; the answer is [Some None] for no path. *)
Fixpoint bfs (fuel : nat) (queue : list (list Z)) (seen : list Z) : option (option (list edge)) :=
  match fuel with
  | O => None
  | S fuel =>
      match queue with
      | [] => Some None
      | node_path :: queue =>
          let node := default 0%Z (last node_path) in
          if (node =? dst)%Z then Some (Some (steps_of node_path)) else
          let '(queue, seen) := visit node_path (successors node) queue seen in
          bfs fuel queue seen
      end
  end.
End search.

Definition find_path (m : mapper) (subject : string) (src dst : Z) : option (list edge) :=
  let edges := edges_of subject m in
  default None (bfs edges dst (2 + length edges) [[src]] [src]).

(** ** Coercion *)

(** A registered key is always found; the [KeyError] is Python's. *)
Definition apply_step (m : mapper) (subject : string) (payload : pydict) (step : edge)
    : result pydict :=
  match lookup_transform (subject, step.1, step.2) (mp_transforms m) with
  | Some fn => fn payload
  | None => raise_r KeyError subject
  end.

Fixpoint apply_path (m : mapper) (subject : string) (path : list edge) (payload : pydict)
    : result pydict :=
  match path with
  | [] => Ok payload
  | step :: path => payload ← apply_step m subject payload step; apply_path m subject path payload
  end.

Definition coerce (m : mapper) (subject : string) (from_version to_version : Z) (payload : pydict)
    : result pydict :=
  if (from_version =? to_version)%Z then Ok payload else
  match find_path m subject from_version to_version with
  | None => raise_r NoTransformPath ("no transform path for " +:+ subject +:+ " v"
              +:+ Z_str from_version +:+ " -> v" +:+ Z_str to_version)
  | Some path => apply_path m subject path payload
  end.

Section mapper.
Context `{Externals}.

Definition transform (subject : string) (from_version to_version : Z) (payload : pydict)
    : M mapper pydict :=
  coerced ← (λ m, (coerce m subject from_version to_version payload, m));
  check_output ← gets mp_validate_output;
  if check_output : bool
  then zoom mp_registry (λ r m, Mapper r (mp_transforms m) (mp_validate_output m))
         (validate subject to_version coerced) ;; mret coerced
  else mret coerced.
End mapper.

(** ** The built-in transforms *)
Definition ledger_entry_v1_to_v2 (payload : pydict) : pydict :=
  let out := dset "entry_type" (VStr "sale") (ddel "memo" payload) in
  match get_or "memo" VNone payload with
  | VNone => out
  | memo => dset "description" memo out
  end.

Definition forge_write_requested_v1_to_v2 (payload : pydict) : pydict :=
  dset "reverses" VNone payload.

Definition forge_write_requested_v2_to_v3 (payload : pydict) : pydict :=
  dset "target_external_id" VNone payload.

Definition register_all (m : mapper) : mapper :=
  let m := register "ledger.entry" 1 2 (λ p, Ok (ledger_entry_v1_to_v2 p)) m in
  let m := register "forge.write.requested" 1 2 (λ p, Ok (forge_write_requested_v1_to_v2 p)) m in
  register "forge.write.requested" 2 3 (λ p, Ok (forge_write_requested_v2_to_v3 p)) m.

(** ** The agent *)
Section agent.
Context `{Externals} `{EventStore T}.

Definition handle_transform (event : event) : M (proc T mapper) unit :=
  let req := ev_payload event in
  subject ← of_result (get_str "subject" req);
  from_version ← of_result (v ← getitem "from_version" req; py_int v);
  to_version ← of_result (v ← getitem "to_version" req; py_int v);
  payload ← of_result (get_dict "payload" req);
  outcome ← try_except
    (Some <$> in_agent (transform subject from_version to_version payload))
    NoTransformPath (λ _, mret None);
  match outcome with
  | None => mret tt
  | Some coerced =>
      emit_new "mapper" subject to_version (ev_correlation_id event) None coerced
  end.

#[export] Instance mapper_agent : Agent T mapper := {
  agent_name := "mapper";
  subjects := ["mapper.transform"];
  handle := handle_transform;
}.
End agent.

#[export] Instance mapper_disciplined `{Externals} `{EventStoreLaws T} :
  Disciplined (T := T) (A := mapper).
Proof. intros e. simpl. unfold handle_transform. keeps_tac. Qed.

(** ** The search is breadth first

    [walk edges src p x]: the list of edges [p] leads from [src] to [x]. *)
Section search_facts.
Variable edges : list (Z * Z).
Variables src dst : Z.

Inductive walk : list (Z * Z) → Z → Prop :=
  | walk_here : walk [] src
  | walk_step p x y : walk p x → (x, y) ∈ edges → walk (p ++ [(x, y)]) y.

(** A queue entry: a vertex path from [src] to [x] over registered edges. *)
Inductive reaches : list Z → Z → Prop :=
  | reaches_here : reaches [src] src
  | reaches_step p x y : reaches p x → (x, y) ∈ edges → reaches (p ++ [y]) y.

Lemma reaches_last p x : reaches p x → last p = Some x.
Proof. destruct 1; [done|]. by rewrite last_app. Qed.

Lemma reaches_cons p x : reaches p x → ∃ q, p = src :: q.
Proof. induction 1 as [|p x y _ [q ->]]; [by exists []|]. by exists (q ++ [y])%list. Qed.

Lemma steps_of_app p x y :
  last p = Some x → steps_of (p ++ [y]) = (steps_of p ++ [(x, y)])%list.
Proof.
  unfold steps_of. induction p as [|a [|b p] IH]; intros Hl; [done|by injection Hl as ->|].
  simpl in *. f_equal. by apply IH.
Qed.

Lemma reaches_walk p x : reaches p x → walk (steps_of p) x ∧ length p = S (length (steps_of p)).
Proof.
  induction 1 as [|p x y Hp [IH Hl] He]; [split; [constructor|done]|].
  rewrite (steps_of_app p x y) by by apply reaches_last.
  split; [by constructor|]. rewrite !length_app. simpl. lia.
Qed.

Lemma successors_spec x y : y ∈ successors edges x ↔ (x, y) ∈ edges.
Proof.
  unfold successors. rewrite merge_sort_Permutation, list_elem_of_omap. split.
  - intros ([a b] & Hin & Hs). simpl in Hs. destruct (Z.eqb_spec a x); naive_solver.
  - intros Hin. exists (x, y). by rewrite Z.eqb_refl.
Qed.

(** The paths the inner loop adds: one per new successor, each a step longer. *)
Lemma visit_spec path nexts queue seen :
  ∃ new, visit path nexts queue seen
           = ((queue ++ ((λ y, (path ++ [y])%list) <$> new))%list, (seen ++ new)%list)
    ∧ (∀ y, y ∈ new → y ∈ nexts) ∧ (∀ y, y ∈ nexts → y ∈ (seen ++ new)%list)
    ∧ (NoDup seen → NoDup (seen ++ new)%list).
Proof.
  revert queue seen. induction nexts as [|y nexts IH]; intros queue seen; simpl.
  { exists []. rewrite !app_nil_r. set_solver. }
  case_bool_decide as Hy.
  - destruct (IH queue seen) as (new & -> & H1 & H2 & H3). exists new. set_solver.
  - destruct (IH (queue ++ [path ++ [y]]) (seen ++ [y]))%list as (new & -> & H1 & H2 & H3).
    exists (y :: new). rewrite <-!(assoc_L (++)%list) in *. simpl in *.
    split_and!; [done|set_solver|set_solver|].
    intros Hn. apply H3. apply NoDup_app. split_and!; [done|set_solver|apply NoDup_singleton].
Qed.

Lemma reaches_functional p x y : reaches p x → reaches p y → x = y.
Proof. intros Hx%reaches_last Hy%reaches_last. congruence. Qed.
(** The loop invariant, [P] being the paths already popped and [D] all of
    them: their ends are the seen nodes, every edge out of a popped node is
    accounted for one step later, and the queue holds at most two lengths. *)
Record inv (P Q : list (list Z)) (seen : list Z) : Prop := {
  inv_seen : ∃ ends, Forall2 reaches (P ++ Q) ends ∧ ends ≡ₚ seen;
  inv_nodup : NoDup seen;
  inv_src : [src] ∈ (P ++ Q)%list;
  inv_closed : ∀ p x y, p ∈ P → reaches p x → (x, y) ∈ edges →
    ∃ q, q ∈ (P ++ Q)%list ∧ reaches q y ∧ length q ≤ S (length p);
  inv_miss : ∀ p, p ∈ P → ¬ reaches p dst;
  inv_band : ∀ p q, p ∈ (P ++ Q)%list → q ∈ Q → length p ≤ S (length q);
  inv_sorted : Sorted (λ a b, length a ≤ length b) Q;
  inv_past : ∀ p q, p ∈ P → q ∈ Q → length p ≤ length q;
}.

Lemma inv_entry P Q seen p : inv P Q seen → p ∈ (P ++ Q)%list → ∃ x, reaches p x ∧ x ∈ seen.
Proof.
  intros [(ends & HF & Hp) _ _ _ _ _ _ _] Hin.
  apply list_elem_of_lookup in Hin as [i Hi].
  destruct (Forall2_lookup_l _ _ _ _ _ HF Hi) as (x & Hx & Hr).
  exists x. split; [done|]. rewrite <-Hp. by eapply list_elem_of_lookup_2.
Qed.

Lemma inv_exit P Q seen x : inv P Q seen → x ∈ seen → ∃ p, p ∈ (P ++ Q)%list ∧ reaches p x.
Proof.
  intros [(ends & HF & Hp) _ _ _ _ _ _ _] Hin. rewrite <-Hp in Hin.
  apply list_elem_of_lookup in Hin as [i Hi].
  destruct (Forall2_lookup_r _ _ _ _ _ HF Hi) as (p & Hl & Hr).
  exists p. split; [|done]. by eapply list_elem_of_lookup_2.
Qed.

(** On every walk the queue is met in time, or the walk stays among popped
    nodes. *)
Lemma inv_walk P Q seen w x :
  inv P Q seen → walk w x →
  (∃ p, p ∈ P ∧ reaches p x ∧ length p ≤ S (length w))
  ∨ ∃ q, q ∈ Q ∧ length q ≤ S (length w).
Proof.
  intros HI. induction 1 as [|w x y Hw [(p & Hp & Hr & Hl)|(q & Hq & Hl)] He].
  - pose proof (inv_src _ _ _ HI) as Hs. apply elem_of_app in Hs as [Hs|Hs].
    + left. exists [src]. split_and!; [done|constructor|simpl; lia].
    + right. exists [src]. split; [done|simpl; lia].
  - destruct (inv_closed _ _ _ HI p x y Hp Hr He) as (q & Hq & Hrq & Hlq).
    rewrite length_app. simpl. apply elem_of_app in Hq as [Hq|Hq]; [left|right]; exists q;
      split_and?; try done; lia.
  - right. exists q. rewrite length_app. simpl. split; [done|lia].
Qed.

Definition longer (p0 : list Z) (new : list Z) : list (list Z) := (λ y, (p0 ++ [y])%list) <$> new.

Lemma longer_length p0 new p : p ∈ longer p0 new → length p = S (length p0).
Proof. intros (y & -> & _)%list_elem_of_fmap. rewrite length_app. simpl. lia. Qed.

Lemma longer_sorted p0 new : Sorted (λ a b, length a ≤ length b) (longer p0 new).
Proof.
  induction new; simpl; constructor; [done|].
  destruct new; simpl; constructor. rewrite !length_app. simpl. lia.
Qed.

Lemma longer_reaches p0 x new :
  reaches p0 x → (∀ y, y ∈ new → (x, y) ∈ edges) → Forall2 reaches (longer p0 new) new.
Proof.
  intros Hr Hn. apply Forall2_fmap_l, Forall_Forall2_diag, Forall_forall. intros y Hy.
  eapply reaches_step; eauto.
Qed.

(** The paths after a step are those before and the longer ones. *)
Lemma step_paths p0 P Q new p :
  p ∈ ((P ++ [p0]) ++ Q ++ longer p0 new)%list ↔ p ∈ (P ++ p0 :: Q)%list ∨ p ∈ longer p0 new.
Proof. set_solver. Qed.

(** The queue stays in the order of the lengths, over two lengths at most. *)
Lemma step_queue p0 P Q seen new :
  inv P (p0 :: Q) seen →
  (∀ p q, p ∈ ((P ++ [p0]) ++ Q ++ longer p0 new)%list → q ∈ (Q ++ longer p0 new)%list →
     length p ≤ S (length q))
  ∧ Sorted (λ a b, length a ≤ length b) (Q ++ longer p0 new)
  ∧ (∀ p q, p ∈ (P ++ [p0])%list → q ∈ (Q ++ longer p0 new)%list → length p ≤ length q).
Proof.
  intros HI. pose proof (longer_length p0 new) as Hadd.
  assert (Hold : ∀ p, p ∈ (P ++ p0 :: Q)%list → length p ≤ S (length p0))
    by (intros p Hp; apply (inv_band _ _ _ HI); [done|left]).
  pose proof (inv_sorted _ _ _ HI) as Hs.
  apply Sorted_StronglySorted in Hs; [|intros ???; lia].
  inversion Hs as [|? ? HsQ HF]; subst. rewrite Forall_forall in HF.
  assert (Hpast : ∀ p, p ∈ P → length p ≤ length p0)
    by (intros p Hp; apply (inv_past _ _ _ HI); [done|left]).
  split_and!.
  - intros p q [Hp|Hp]%step_paths [Hq|Hq]%elem_of_app;
      rewrite ?(Hadd p) by done; rewrite ?(Hadd q) by done.
    + apply (inv_band _ _ _ HI); [done|by right].
    + pose proof (Hold p Hp). lia.
    + pose proof (HF q Hq). simpl in *. lia.
    + lia.
  - apply StronglySorted_Sorted, StronglySorted_app_2; [|done|].
    + intros a b Ha Hb. rewrite (Hadd b Hb). apply Hold. set_solver.
    + apply Sorted_StronglySorted; [intros ???; lia|apply longer_sorted].
  - intros p q [Hp| ->%list_elem_of_singleton]%elem_of_app [Hq|Hq]%elem_of_app;
      try rewrite (Hadd q Hq); try (pose proof (Hpast p Hp)); try (pose proof (HF q Hq));
      simpl in *; lia.
Qed.

(** Every edge out of the popped path leads to a seen node or to a new one. *)
Lemma step_closed p0 P Q seen new x p a y :
  inv P (p0 :: Q) seen → reaches p0 x →
  (∀ y, y ∈ successors edges x → y ∈ (seen ++ new)%list) →
  p ∈ (P ++ [p0])%list → reaches p a → (a, y) ∈ edges →
  ∃ q, q ∈ ((P ++ [p0]) ++ Q ++ longer p0 new)%list ∧ reaches q y ∧ length q ≤ S (length p).
Proof.
  intros HI Hr H2 [Hp| ->%list_elem_of_singleton]%elem_of_app Hra He.
  - destruct (inv_closed _ _ _ HI p a y Hp Hra He) as (q & ? & ? & ?).
    exists q. rewrite step_paths. auto.
  - rewrite (reaches_functional p0 a x Hra Hr) in He.
    assert (Hy : y ∈ (seen ++ new)%list) by by apply H2, successors_spec.
    apply elem_of_app in Hy as [Hy|Hy].
    + destruct (inv_exit _ _ _ _ HI Hy) as (q & Hq & Hrq). exists q. rewrite step_paths.
      split_and!; [auto|done|]. apply (inv_band _ _ _ HI); [done|left].
    + exists (p0 ++ [y])%list. rewrite step_paths. split_and!.
      * right. apply list_elem_of_fmap. eauto.
      * eapply reaches_step; [exact Hr|done].
      * rewrite length_app. simpl. lia.
Qed.

Lemma inv_step p0 P Q seen x :
  inv P (p0 :: Q) seen → reaches p0 x → x ≠ dst →
  let '(queue, seen') := visit p0 (successors edges x) Q seen in
  inv (P ++ [p0])%list queue seen'.
Proof.
  intros HI Hr Hx. destruct (visit_spec p0 (successors edges x) Q seen) as (new & -> & H1 & H2 & H3).
  fold (longer p0 new). destruct (step_queue p0 P Q seen new HI) as (Hband & Hsort & Hpast).
  split; [| | | | |exact Hband|exact Hsort|exact Hpast].
  - destruct (inv_seen _ _ _ HI) as (ends & HF & Hp). exists (ends ++ new)%list. split; [|by rewrite Hp].
    replace ((P ++ [p0]) ++ Q ++ longer p0 new)%list with ((P ++ p0 :: Q) ++ longer p0 new)%list
      by (by rewrite <-!(assoc_L (++)%list)).
    apply Forall2_app; [done|]. eapply longer_reaches; [exact Hr|].
    intros y Hy. by apply successors_spec, H1.
  - apply H3, HI.
  - apply step_paths. left. apply HI.
  - intros p a y. by apply (step_closed p0 P Q seen new x).
  - intros p [Hp| ->%list_elem_of_singleton]%elem_of_app; [by apply HI|].
    intros Hd. by rewrite (reaches_functional p0 dst x Hd Hr) in Hx.
Qed.

Lemma inv_size P Q seen : inv P Q seen → length P + length Q ≤ S (length edges).
Proof.
  intros HI. destruct (inv_seen _ _ _ HI) as (ends & HF & Hp).
  rewrite <-length_app, (Forall2_length _ _ _ HF), Hp.
  replace (S (length edges)) with (length (src :: edges.*2)) by (simpl; by rewrite length_fmap).
  apply submseteq_length, NoDup_submseteq; [apply HI|].
  intros x Hx. destruct (inv_exit _ _ _ _ HI Hx) as (p & _ & Hr).
  destruct Hr as [|p a b _ He]; [left|right]. apply list_elem_of_fmap. by exists (a, b).
Qed.

Lemma bfs_spec fuel P Q seen :
  inv P Q seen → 2 + length edges ≤ fuel + length P →
  match bfs edges dst fuel Q seen with
  | None => False
  | Some (Some path) => walk path dst ∧ ∀ w, walk w dst → length path ≤ length w
  | Some None => ∀ w, ¬ walk w dst
  end.
Proof.
  revert P Q seen. induction fuel as [|fuel IH]; intros P Q seen HI Hf;
    pose proof (inv_size _ _ _ HI) as Hsz; [lia|]. cbn [bfs].
  destruct Q as [|p0 Q].
  { intros w Hw. destruct (inv_walk _ _ _ _ _ HI Hw) as [(p & Hp & Hr & _)|(q & Hq & _)].
    - by apply (inv_miss _ _ _ HI p).
    - by apply not_elem_of_nil in Hq. }
  destruct (inv_entry _ _ _ p0 HI) as (x & Hr & _); [apply elem_of_app; right; left|].
  rewrite (reaches_last _ _ Hr). cbn [from_option id].
  destruct (Z.eqb_spec x dst) as [->|Hx]; cbn iota.
  - destruct (reaches_walk _ _ Hr) as [Hw Hl]. split; [done|]. intros w Hw'.
    destruct (inv_walk _ _ _ _ _ HI Hw') as [(p & Hp & Hrp & _)|(q & Hq & Hlq)].
    { exfalso. by apply (inv_miss _ _ _ HI p). }
    assert (length p0 ≤ length q); [|lia].
    pose proof (inv_sorted _ _ _ HI) as Hs.
    apply Sorted_StronglySorted in Hs; [|intros ???; lia].
    inversion Hs as [|? ? _ HF]; subst. apply elem_of_cons in Hq as [->|Hq]; [lia|].
    rewrite Forall_forall in HF. by apply HF.
  - pose proof (inv_step _ _ _ _ _ HI Hr Hx) as HI'.
    destruct (visit p0 (successors edges x) Q seen) as [queue seen'].
    apply (IH _ _ _ HI'). rewrite length_app. simpl. lia.
Qed.

Lemma inv_start : inv [] [[src]] [src].
Proof.
  split; simpl.
  - exists [src]. split; [|done]. repeat constructor.
  - apply NoDup_singleton.
  - left.
  - intros p x y Hp. by apply not_elem_of_nil in Hp.
  - intros p Hp. by apply not_elem_of_nil in Hp.
  - intros p q Hp Hq. apply list_elem_of_singleton in Hp, Hq. subst. simpl. lia.
  - repeat constructor.
  - intros p q Hp. by apply not_elem_of_nil in Hp.
Qed.

Lemma bfs_start :
  match default None (bfs edges dst (2 + length edges) [[src]] [src]) with
  | Some path => walk path dst ∧ ∀ w, walk w dst → length path ≤ length w
  | None => ∀ w, ¬ walk w dst
  end.
Proof.
  pose proof (bfs_spec (2 + length edges) [] [[src]] [src] inv_start ltac:(lia)) as Hb.
  by destruct (bfs _ _ _ _ _) as [[path|]|].
Qed.
End search_facts.

(** C34: the version search is right and always ends.  The path found for a
    subject is a chain of transforms registered for it that leads from the
    source version to the target, no chain is shorter, and when the search
    reports no path there is none; coercion then fails exactly in that case,
    with NoTransformPath. *)
Theorem find_path_shortest (m : mapper) subject src dst :
  match find_path m subject src dst with
  | Some path => walk (edges_of subject m) src path dst
      ∧ ∀ w, walk (edges_of subject m) src w dst → length path ≤ length w
  | None => (∀ w, ¬ walk (edges_of subject m) src w dst)
      ∧ ∀ payload, src ≠ dst →
          ∃ msg, coerce m subject src dst payload = raise_r NoTransformPath msg
  end.
Proof.
  pose proof (bfs_start (edges_of subject m) src dst) as Hb. fold (find_path m subject src dst) in Hb.
  unfold find_path in *. destruct (default None _) as [path|] eqn:E; [done|].
  split; [done|]. intros payload Hne. unfold coerce, find_path.
  apply Z.eqb_neq in Hne. rewrite Hne, E. eauto.
Qed.

(** ** The anti-corruption guarantee *)

(** What leaves the mapper is valid.  With output validation on, a
    coercion that returns has returned exactly the composition of the
    registered transforms, and the target version's schema accepts it; the
    schema files and the registered transforms are untouched by any outcome. *)
Theorem transform_valid `{Externals} subject src dst payload (m m' : mapper) r :
  transform subject src dst payload m = (r, m') →
  registry_ok (mp_registry m) →
  mp_transforms m' = mp_transforms m ∧ same_files (mp_registry m) (mp_registry m')
  ∧ registry_ok (mp_registry m')
  ∧ ∀ coerced, r = Ok coerced →
      coerce m subject src dst payload = Ok coerced
      ∧ (mp_validate_output m = true →
         check (mp_registry m) subject dst coerced = Ok tt).
Proof.
  intros E Hr. unfold transform, mbind, M_bind, gets in E.
  destruct (coerce m subject src dst payload) as [c|e] eqn:Ec; [|by simplify_eq].
  destruct (mp_validate_output m) eqn:Ev; [|unfold mret, M_ret in E; naive_solver].
  unfold zoom in E. destruct (validate_spec subject dst c (mp_registry m) Hr) as (r' & Ew & Hr' & Hs).
  rewrite Ew in E. destruct (check (mp_registry m) subject dst c) as [[]|e] eqn:Ek.
  - unfold mret, M_ret in E. injection E as <- <-. naive_solver.
  - injection E as <- <-. naive_solver.
Qed.

(** The built-in chain v1 -> v3 of forge.write.requested.  It keeps every
    field of any v1 payload and adds reverses and target_external_id as null,
    the two fields version 3 requires. *)
Theorem write_requested_v1_to_v3 reg validate_output payload :
  ∃ out, coerce (register_all (new_mapper reg validate_output)) "forge.write.requested" 1 3 payload
           = Ok out
  ∧ dget "reverses" out = Some VNone ∧ dget "target_external_id" out = Some VNone
  ∧ ∀ k, k ≠ "reverses" → k ≠ "target_external_id" → dget k out = dget k payload.
Proof.
  exists (forge_write_requested_v2_to_v3 (forge_write_requested_v1_to_v2 payload)).
  split; [vm_compute; reflexivity|].
  unfold forge_write_requested_v2_to_v3, forge_write_requested_v1_to_v2.
  split_and!.
  - rewrite dget_dset, decide_False by done. by rewrite dget_dset, decide_True.
  - by rewrite dget_dset, decide_True.
  - intros k H1 H2. by rewrite !dget_dset, !decide_False.
Qed.


(** ** A concrete mapper *)
Module MapperDemo.
(** Versions 1, 2, 3, 4 with a shortcut from 2 to 4 and a way back. *)
Definition the_mapper : mapper :=
  let id := λ p, Ok p in
  register "s" 4 1 id (register "s" 3 4 id (register "s" 2 4 id (register "s" 2 3 id
    (register "s" 1 2 id (new_mapper Demo.registry false))))).

(** The built-in mapper over the repository's schema files. *)
Definition built_in : mapper := register_all (new_mapper Demo.registry true).
End MapperDemo.

Section witnesses.
Import MapperDemo.

Lemma find_path_shortest_witness :
  find_path the_mapper "s" 1 4 = Some [(1, 2); (2, 4)]%Z
  ∧ (∀ w, walk (edges_of "s" the_mapper) 1 w 4 → 2 ≤ length w)
  ∧ find_path the_mapper "s" 1 9 = None ∧ (∀ w, ¬ walk (edges_of "s" the_mapper) 1 w 9).
Proof.
  pose proof (find_path_shortest the_mapper "s" 1 4) as H1.
  pose proof (find_path_shortest the_mapper "s" 1 9) as H2.
  assert (E1 : find_path the_mapper "s" 1 4 = Some [(1, 2); (2, 4)]%Z) by reflexivity.
  assert (E2 : find_path the_mapper "s" 1 9 = None) by reflexivity.
  rewrite E1 in H1. rewrite E2 in H2. exact (conj E1 (conj (proj2 H1) (conj E2 (proj1 H2)))).
Defined.

Lemma transform_valid_witness :
  let payload := [("write_id", VStr "w")] in
  let '(r, m') := transform (H := Demo.externals) "forge.write.requested" 1 3 payload built_in in
  ∃ coerced, r = Ok coerced
    ∧ coerced = [("write_id", VStr "w"); ("reverses", VNone); ("target_external_id", VNone)]
    ∧ check (H := Demo.externals) (mp_registry built_in) "forge.write.requested" 3 coerced = Ok tt.
Proof.
  intros payload.
  assert (Hr : (transform (H := Demo.externals) "forge.write.requested" 1 3 payload built_in).1
    = Ok [("write_id", VStr "w"); ("reverses", VNone); ("target_external_id", VNone)])
    by (vm_compute; reflexivity).
  destruct (transform (H := Demo.externals) "forge.write.requested" 1 3 payload built_in)
    as [r m'] eqn:E.
  destruct (transform_valid (H := Demo.externals) _ _ _ _ _ _ _ E
              Demo.registry_fresh) as (_ & _ & _ & Hok).
  exists [("write_id", VStr "w"); ("reverses", VNone); ("target_external_id", VNone)].
  cbn [fst] in Hr.
  split; [exact Hr|]. split; [reflexivity|]. exact (proj2 (Hok _ Hr) eq_refl).
Defined.
End witnesses.
