(* ===== verification/Http.v ===== *)
(** * What the servers write (shared/health.py, agents/vault/service.py)

    The two HTTP servers of the program answer through the same five lines,
    [_send]: the status, two headers and the body's bytes.  A message is those;
    the socket and the headers the library adds are left out.  The fact is that
    the declared length is the body's, as [int] reads it. *)

From S2P Require Import Prelude PyStr PyFloat PyVal Json JsonText JsonFacts PyDecimal JsonFloat.
From Stdlib Require Import DecimalString DecimalN.
Local Open Scope string_scope.

(** ** Messages *)
Record message : Type := Message {
  ms_status : Z;
  ms_headers : list (string * string);
  ms_body : string;
}.

(** [isinstance(body, str)] or not. *)
Inductive reply : Type := Text (s : string) | Json (d : pydict).

Definition reply_bytes (body : reply) : string :=
  match body with
  | Text s => s
  | Json d => dumps Spaced (VDict d)
  end.

(** [_send]: texts are UTF-8 here and [json.dumps] is ASCII, so the bytes are
    the text. *)
Definition send_reply (status : Z) (body : reply) (content_type : string) : message :=
  let data := reply_bytes body in
  Message status [("Content-Type", content_type);
                  ("Content-Length", nat_str (String.length data))] data.

(** ** Lengths are read back *)

Lemma digits_Z_pos u acc :
  digits_Z (Zpos acc) (NilEmpty.string_of_uint u) = Zpos (Pos.of_uint_acc u acc).
Proof.
  revert acc. induction u as [|u IH|u IH|u IH|u IH|u IH|u IH|u IH|u IH|u IH|u IH]; intros acc;
    [done|..]; cbn [NilEmpty.string_of_uint digits_Z Pos.of_uint_acc];
    match goal with |- context [N_of_ascii ?c] =>
      let n := eval vm_compute in (N_of_ascii c) in change (N_of_ascii c) with n end;
    rewrite <-IH; f_equal; lia.
Qed.

Lemma digits_Z_uint u : digits_Z 0 (NilEmpty.string_of_uint u) = Z.of_N (N.of_uint u).
Proof.
  unfold N.of_uint. induction u as [|u IH|u IH|u IH|u IH|u IH|u IH|u IH|u IH|u IH|u IH];
    [done|exact IH|..]; exact (digits_Z_pos u _).
Qed.

Lemma all_digits_digit s : all_digit s → all_digits s = true.
Proof. induction s as [|c s IH]; [done|]. intros [Hc Hs]. simpl. apply andb_true_iff. auto. Qed.

(** [int(str(n)) == n]. *)
Lemma py_int_nat_str n : py_int (VStr (nat_str n)) = Ok (Z.of_nat n).
Proof.
  unfold py_int, parse_int, nat_str. rewrite strip_plain by apply Z_str_plain.
  destruct (Z_str_nat (Z.of_nat n) ltac:(lia)) as (c & s & Ec & Hc & Hs & _). rewrite Ec.
  pose proof Hc as Hc'. unfold is_digit in Hc'. apply andb_true_iff in Hc' as [H1 H2].
  apply N.leb_le in H1. rewrite !(proj2 (N.eqb_neq _ _)) by lia.
  rewrite (all_digits_digit (String c s)) by done. cbn [negb str_empty andb].
  rewrite <-Ec, Z_str_digits, (proj2 (Z.ltb_ge _ 0)) by lia.
  change (EmptyString +:+ ?x) with x. rewrite digits_Z_uint, DecimalN.Unsigned.of_to.
  do 2 f_equal. lia.
Qed.

Lemma substring_all s : String.substring 0 (String.length s) s = s.
Proof. induction s as [|c s IH]; simpl; congruence. Qed.

(** A client that reads as many bytes as are declared reads the whole body. *)
Lemma send_reply_length status body content_type :
  let m := send_reply status body content_type in
  ∃ l, dget "Content-Length" (ms_headers m) = Some l
    ∧ py_int (VStr l) = Ok (Z.of_nat (String.length (ms_body m)))
    ∧ String.substring 0 (String.length (ms_body m)) (ms_body m) = reply_bytes body.
Proof.
  intros m. exists (nat_str (String.length (ms_body m))).
  split; [done|]. split; [apply py_int_nat_str|apply substring_all].
Qed.
