(* ===== verification/ErpMap.v ===== *)
(** * Records for NetSuite (agents/mapper/netsuite_records.py, erp.py, erp_agent.py)

    The declarative record mappings with their two rules (a missing required
    field and an undeclared field block the record), the transformer that
    applies them, and the agent that emits the one outcome.  A mapping is a
    record of lists as in the code; applying it computes the gaps and the
    output side by side and raises at the end. *)

From S2P Require Import Prelude PyStr PyFloat PyVal Json JsonText JsonFacts Digest PyDecimal Contract Registry Metrics HashChain EventStore Agent.
Local Open Scope string_scope.

Definition converter : Type := pyval → result pyval.

(** [_minor_to_major]: a bool is no int here. *)
Definition minor_to_major (value : pyval) : result pyval :=
  match value with
  | VInt z => Ok (VStr (dec_str (dec_quot (dec_of_Z z) (dec_of_Z 100))))
  | _ => raise_r ErpTransformError
           ("unit_price_minor must be integer minor units, got " +:+ py_repr value)
  end.

(** ** Mappings *)
Record line_mapping : Type := LineMapping {
  lm_target : string;
  lm_fields : list (string * string);
  lm_required : list string;
  lm_converters : list (string * converter);
}.

Record record_mapping : Type := RecordMapping {
  source_schema : string;
  target_schema : string;
  rm_target_module : string;
  rm_fields : list (string * string);
  rm_required : list string;
  rm_unmapped : list string;
  rm_converters : list (string * converter);
  rm_lines : list (string * line_mapping);
}.

(** [self.converters.get(src, lambda v: v)(v)] *)
Definition convert (converters : list (string * converter)) (src : string) (v : pyval)
    : result pyval :=
  match dget src converters with Some f => f v | None => Ok v end.

(** [v in (a, b, ...)] *)
Definition is_in (v : pyval) (l : list pyval) : bool := existsb (py_eq v) l.

(** The loop that fills the output from the declared fields. *)
Fixpoint map_fields (converters : list (string * converter)) (fields : list (string * string))
    (record out : pydict) : result pydict :=
  match fields with
  | [] => Ok out
  | (src, target) :: fields =>
      match dget src record with
      | None | Some VNone => map_fields converters fields record out
      | Some v =>
          v ← convert converters src v;
          map_fields converters fields record (dset target v out)
      end
  end.

(** [sorted(set(record) - declared)] *)
Definition undeclared (record : pydict) (declared : list string) : list string :=
  sorted_strs (filter (λ k, k ∉ declared) (dkeys record)).

(** ** [LineMapping.apply] *)
Definition line_gaps (lm : line_mapping) (field_name : string) (i : nat) (line : pydict)
    : list string :=
  let at_ := field_name +:+ "[" +:+ nat_str i +:+ "]." in
  map (λ req, at_ +:+ req +:+ " is required")
    (List.filter (λ req, is_in (get_or req VNone line) [VNone; VStr EmptyString]) (lm_required lm))
  ++ map (λ name, at_ +:+ name +:+ " has no NetSuite target (undeclared)")
       (undeclared line (lm_fields lm).*1).

Fixpoint map_lines (lm : line_mapping) (field_name : string) (i : nat) (lines : list pyval)
    : result (list pydict * list string) :=
  match lines with
  | [] => Ok ([], [])
  | VDict line :: lines =>
      mapped ← map_fields (lm_converters lm) (lm_fields lm) line [];
      rest ← map_lines lm field_name (S i) lines;
      Ok (mapped :: rest.1, (line_gaps lm field_name i line ++ rest.2)%list)
  | _ :: lines =>
      rest ← map_lines lm field_name (S i) lines;
      Ok (rest.1, (field_name +:+ "[" +:+ nat_str i +:+ "] must be an object") :: rest.2)
  end.

Definition line_apply (lm : line_mapping) (lines : pyval) (field_name : string)
    : result (list pydict * list string) :=
  match lines with
  | VList ((_ :: _) as l) => map_lines lm field_name 0 l
  | _ => Ok ([], [field_name +:+ " must be a non-empty list"])
  end.

(** ** [RecordMapping.apply] *)
Definition blank : list pyval := [VNone; VStr EmptyString; VList []].

Definition record_gaps (m : record_mapping) (record : pydict) : list string :=
  map (λ req, req +:+ " is required")
    (List.filter (λ req, is_in (get_or req VNone record) blank) (rm_required m))
  ++ map (λ name, name +:+ " has no NetSuite target (undeclared)")
       (undeclared record ((rm_fields m).*1 ++ rm_unmapped m ++ (rm_lines m).*1)).

Fixpoint apply_lines (lines : list (string * line_mapping)) (record out : pydict) (gaps : list string)
    : result (pydict * list string) :=
  match lines with
  | [] => Ok (out, gaps)
  | (src, lm) :: lines =>
      match dget src record with
      | None => apply_lines lines record out gaps
      | Some v =>
          mapped ← line_apply lm v src;
          apply_lines lines record (dset (lm_target lm) (VList (map VDict mapped.1)) out)
            (gaps ++ mapped.2)%list
      end
  end.

Definition apply (m : record_mapping) (record : pydict) : result pydict :=
  out ← map_fields (rm_converters m) (rm_fields m) record [];
  applied ← apply_lines (rm_lines m) record out (record_gaps m record);
  match applied.2 with
  | [] => Ok applied.1
  | gaps => raise_r MappingBlocked
              ("mapping blocked for " +:+ source_schema m +:+ ": " +:+ join "; " gaps)
  end.

(** ** The reference mappings *)
Definition ITEM : record_mapping := {|
  source_schema := "cavi.item.v1";
  target_schema := "netsuite.lotNumberedInventoryItem.v1";
  rm_target_module := "lotNumberedInventoryItem";
  rm_required := ["sku"; "name"];
  rm_fields := [("sku", "itemId"); ("name", "displayName"); ("upc", "upcCode");
                ("shelf_life_days", "shelfLife"); ("unit_price_minor", "basePrice")];
  rm_converters := [("unit_price_minor", minor_to_major)];
  rm_unmapped := ["item_id"; "notes"];
  rm_lines := [];
|}.

Definition ADJUSTMENT_LINES : line_mapping := {|
  lm_target := "inventory";
  lm_fields := [("sku", "item"); ("quantity_delta", "adjustQtyBy");
                ("lot_number", "receiptInventoryNumber"); ("expiry_date", "expirationDate")];
  lm_required := ["sku"; "quantity_delta"];
  lm_converters := [];
|}.

Definition ADJUSTMENT : record_mapping := {|
  source_schema := "cavi.inventory_adjustment.v1";
  target_schema := "netsuite.inventoryAdjustment.v1";
  rm_target_module := "inventoryAdjustment";
  rm_required := ["account"; "location"; "lines"];
  rm_fields := [("account", "account"); ("location", "adjLocation"); ("memo", "memo")];
  rm_converters := [];
  rm_unmapped := ["adjustment_id"; "counted_by"];
  rm_lines := [("lines", ADJUSTMENT_LINES)];
|}.

Definition TRANSFER_LINES : line_mapping := {|
  lm_target := "item";
  lm_fields := [("sku", "item"); ("quantity", "quantity"); ("lot_number", "issueInventoryNumber")];
  lm_required := ["sku"; "quantity"];
  lm_converters := [];
|}.

Definition TRANSFER : record_mapping := {|
  source_schema := "cavi.transfer.v1";
  target_schema := "netsuite.transferOrder.v1";
  rm_target_module := "transferOrder";
  rm_required := ["location_from"; "location_to"; "lines"];
  rm_fields := [("location_from", "location"); ("location_to", "transferLocation");
                ("expected_ship_date", "shipDate"); ("memo", "memo")];
  rm_converters := [];
  rm_unmapped := ["transfer_id"];
  rm_lines := [("lines", TRANSFER_LINES)];
|}.

Definition NETSUITE_RECORD_MAPPINGS : list (string * record_mapping) :=
  map (λ m, (source_schema m, m)) [ITEM; ADJUSTMENT; TRANSFER].

(** ** The transformer (erp.py) *)
Definition transformer : Type := list ((string * string) * (pydict → result pydict)).

Definition input_hash (record : pydict) : string :=
  "sha256:" +:+ sha256_hex (dumps_sorted (VDict record)).

Fixpoint set_erp_transform (k : string * string) (fn : pydict → result pydict) (t : transformer)
    : transformer :=
  match t with
  | [] => [(k, fn)]
  | (k', fn') :: t => if decide (k' = k) then (k', fn) :: t else (k', fn') :: set_erp_transform k fn t
  end.

Fixpoint get_erp_transform (k : string * string) (t : transformer) : option (pydict → result pydict) :=
  match t with
  | [] => None
  | (k', fn) :: t => if decide (k' = k) then Some fn else get_erp_transform k t
  end.

Definition register_netsuite_mappings (t : transformer) : transformer :=
  foldl (λ t m, set_erp_transform (source_schema m, target_schema m) (apply m) t) t
    (NETSUITE_RECORD_MAPPINGS.*2).

Definition completed_payload (tenant_id source_erp source target : string)
    (record output : pydict) (transformed_at : string) : pydict :=
  [("tenant_id", VStr tenant_id); ("source_erp", VStr source_erp);
   ("source_schema", VStr source); ("target_schema", VStr target);
   ("input_hash", VStr (input_hash record)); ("output", VDict output);
   ("transformed_at", VStr transformed_at)].

Definition failed_payload (tenant_id source_erp source reason failed_at : string) : pydict :=
  [("tenant_id", VStr tenant_id); ("source_erp", VStr source_erp);
   ("source_schema", VStr source); ("reason", VStr reason); ("failed_at", VStr failed_at)].

(** The lookup and the application; whatever a transform raises becomes an
    [ErpTransformError]. *)
Definition run_transform (t : transformer) (source target : string) (record : pydict)
    : result pydict :=
  match get_erp_transform (source, target) t with
  | None => raise_r ErpTransformError
              ("no transform registered for " +:+ source +:+ " -> " +:+ target)
  | Some fn =>
      match fn record with
      | Ok output => Ok output
      | Err exc => raise_r ErpTransformError
                     ("transform " +:+ source +:+ " -> " +:+ target +:+ " failed: " +:+ exn_msg exc)
      end
  end.

Section agent.
Context `{Externals} `{EventStore T}.

Definition transform (tenant_id source_erp source target : string) (record : pydict)
    : M (proc T transformer) pydict :=
  t ← gets p_agent;
  output ← of_result (run_transform t source target record);
  at_ ← in_world (fresh clock_iso);
  mret (completed_payload tenant_id source_erp source target record output at_).

Definition failure (tenant_id source_erp source reason : string)
    : M (proc T transformer) pydict :=
  at_ ← in_world (fresh clock_iso);
  mret (failed_payload tenant_id source_erp source reason at_).

Definition handle_erp_transform (event : event) : M (proc T transformer) unit :=
  let req := ev_payload event in
  tenant_id ← of_result (get_str "tenant_id" req);
  source_erp ← of_result (get_str "source_erp" req);
  source ← of_result (get_str "source_schema" req);
  target ← of_result (get_str "target_schema" req);
  record ← of_result (get_dict "record" req);
  outcome ← try_except
    (payload ← transform tenant_id source_erp source target record;
     mret ("mapper.transform.completed", payload))
    ErpTransformError
    (λ exc, payload ← failure tenant_id source_erp source (exn_msg exc);
            mret ("mapper.transform.failed", payload));
  emit_new "mapper" outcome.1 1 (ev_correlation_id event) None outcome.2.

#[export] Instance erp_mapper_agent : Agent T transformer := {
  agent_name := "mapper";
  subjects := ["mapper.erp.transform"];
  handle := handle_erp_transform;
}.
End agent.

#[export] Instance erp_mapper_disciplined `{Externals} `{EventStoreLaws T} :
  Disciplined (T := T) (A := transformer).
Proof. intros e. simpl. unfold handle_erp_transform, transform, failure. keeps_tac. Qed.

(** ** No silent drops *)

(** Where each non-null declared field of a dict went. *)
Definition carried (converters : list (string * converter)) (fields : list (string * string))
    (record out : pydict) : Prop :=
  ∀ src target v, (src, target) ∈ fields → dget src record = Some v → v ≠ VNone →
    ∃ v', convert converters src v = Ok v' ∧ dget target out = Some v'.

Lemma map_fields_frame converters fields record out out' k :
  map_fields converters fields record out = Ok out' → k ∉ fields.*2 →
  dget k out' = dget k out.
Proof.
  revert out. induction fields as [|[src target] fields IH]; intros out E Hk; simpl in E.
  { by injection E as ->. }
  apply not_elem_of_cons in Hk as [Hne Hk]. simpl in Hne.
  destruct (dget src record) as [v|]; [|by apply IH].
  destruct v; try (by apply IH);
    apply result_bind_ok in E as (v' & _ & E); rewrite (IH _ E Hk); by apply dget_dset_ne.
Qed.

Lemma map_fields_carried converters fields record out out' :
  NoDup fields.*2 → map_fields converters fields record out = Ok out' →
  carried converters fields record out'.
Proof.
  revert out. induction fields as [|[src target] fields IH]; intros out Hnd E;
    [by intros ??? ?%not_elem_of_nil|].
  apply NoDup_cons in Hnd as [Hn Hnd]. simpl in E, Hn.
  intros s t v Hin Hg Hv. apply elem_of_cons in Hin as [[= -> ->]|Hin].
  - rewrite Hg in E. destruct v; try done;
      apply result_bind_ok in E as (v' & Ec & E); exists v'; (split; [done|]);
      rewrite (map_fields_frame _ _ _ _ _ _ E Hn); apply dget_dset_eq.
  - destruct (dget src record) as [w|]; [|by apply (IH _ Hnd E s t v)].
    destruct w; try (by apply (IH _ Hnd E s t v));
      apply result_bind_ok in E as (v' & _ & E); by apply (IH _ Hnd E s t v).
Qed.

Lemma undeclared_nil record declared :
  undeclared record declared = [] → ∀ k v, dget k record = Some v → k ∈ declared.
Proof.
  unfold undeclared. intros E k v Hg. destruct (decide (k ∈ declared)) as [|Hn]; [done|exfalso].
  assert (Hk : k ∈ filter (λ k, k ∉ declared) (dkeys record)).
  { apply list_elem_of_filter. split; [done|]. apply dmem_keys. unfold dmem. by rewrite Hg. }
  rewrite <-sorted_strs_perm, E in Hk. by apply not_elem_of_nil in Hk.
Qed.

Lemma filter_nil_forall {A} (f : A → bool) l : List.filter f l = [] → ∀ x, x ∈ l → f x = false.
Proof.
  intros E x Hx. destruct (f x) eqn:Ef; [|done]. exfalso.
  assert (Hin : List.In x (List.filter f l)) by (apply List.filter_In; by rewrite <-list_elem_of_In).
  by rewrite E in Hin.
Qed.

(** A line of a list field, mapped in full. *)
Definition carried_line (lm : line_mapping) (line : pyval) (mapped : pydict) : Prop :=
  ∃ d, line = VDict d
    ∧ (∀ f, f ∈ lm_required lm → is_in (get_or f VNone d) [VNone; VStr EmptyString] = false)
    ∧ (∀ k v, dget k d = Some v → k ∈ (lm_fields lm).*1)
    ∧ carried (lm_converters lm) (lm_fields lm) d mapped.

Lemma map_lines_carried lm name i l mapped :
  NoDup (lm_fields lm).*2 → map_lines lm name i l = Ok (mapped, []) →
  Forall2 (carried_line lm) l mapped.
Proof.
  intros Hnd. revert i mapped. induction l as [|x l IH]; intros i mapped E.
  { injection E as <-. constructor. }
  destruct x as [| | | | | |d]; cbn [map_lines] in E;
    try (by apply result_bind_ok in E as ([m g] & _ & [= _ ?])).
  apply result_bind_ok in E as (out & Em & E). apply result_bind_ok in E as ([m g] & Er & E).
  injection E as <- E. apply app_eq_nil in E as [Eg ->]. constructor; [|by apply (IH (S i))].
  unfold line_gaps in Eg. apply app_eq_nil in Eg as [E1%map_eq_nil E2%map_eq_nil].
  exists d. split_and!; [done| | |].
  - by apply filter_nil_forall.
  - by apply undeclared_nil.
  - by eapply map_fields_carried.
Qed.

(** The field targets and the list targets of a mapping are all distinct. *)
Definition targets_distinct (m : record_mapping) : Prop :=
  NoDup ((rm_fields m).*2 ++ (map lm_target (rm_lines m).*2))
  ∧ Forall (λ l : string * line_mapping, NoDup (lm_fields l.2).*2) (rm_lines m).

Lemma reference_targets_distinct : Forall targets_distinct (NETSUITE_RECORD_MAPPINGS.*2).
Proof. repeat constructor; simpl; by apply (bool_decide_unpack _); vm_compute. Qed.

Lemma apply_lines_carried lines record out gaps out' :
  Forall (λ l : string * line_mapping, NoDup (lm_fields l.2).*2) lines →
  NoDup (map lm_target lines.*2) →
  apply_lines lines record out gaps = Ok (out', []) →
  gaps = []
  ∧ (∀ k, k ∉ map lm_target lines.*2 → dget k out' = dget k out)
  ∧ ∀ src lm v, (src, lm) ∈ lines → dget src record = Some v →
      ∃ l mapped, v = VList l ∧ l ≠ [] ∧ Forall2 (carried_line lm) l mapped
        ∧ dget (lm_target lm) out' = Some (VList (map VDict mapped)).
Proof.
  revert out gaps. induction lines as [|[src lm] lines IH]; intros out gaps HF Hnd E.
  { injection E as -> ->. split_and!; [done..|]. by intros ??? ?%not_elem_of_nil. }
  apply Forall_cons in HF as [Hl HF]. simpl in Hnd. apply NoDup_cons in Hnd as [Hn Hnd].
  cbn [apply_lines] in E. destruct (dget src record) as [w|] eqn:Eg.
  - apply result_bind_ok in E as ([mapped g] & Ea & E).
    destruct (IH _ _ HF Hnd E) as (Hg & Hfr & Hin). apply app_eq_nil in Hg as [-> Hg].
    simpl in Hg. subst g. cbn [fst] in *. split_and!; [done| |].
    + intros k Hk. simpl in Hk. apply not_elem_of_cons in Hk as [Hne Hk].
      rewrite (Hfr k Hk). by apply dget_dset_ne.
    + intros s m v Hs Hv. apply elem_of_cons in Hs as [[= -> ->]|Hs]; [|by apply (Hin s m v)].
      rewrite Eg in Hv. injection Hv as ->. unfold line_apply in Ea.
      destruct v as [| | | | |[|x l]|]; try done.
      exists (x :: l), mapped. split_and!; [done|done|by eapply map_lines_carried|].
      rewrite (Hfr _ Hn). apply dget_dset_eq.
  - destruct (IH _ _ HF Hnd E) as (-> & Hfr & Hin). split_and!; [done| |].
    + intros k Hk. apply Hfr. simpl in Hk. by apply not_elem_of_cons in Hk as [_ Hk].
    + intros s m v Hs Hv. apply elem_of_cons in Hs as [[= -> ->]|Hs]; [congruence|by apply (Hin s m v)].
Qed.

(** C32: a record that maps is complete and loses nothing.  When a reference
    mapping returns, every required field was there and not blank, every field
    of the record is declared, every non-null carried field arrived converted
    under its NetSuite name, and a list field arrived line by line, each line
    complete in the same sense; only declared-unmapped and null fields are
    left behind. *)
Theorem no_silent_drops m record out :
  m ∈ NETSUITE_RECORD_MAPPINGS.*2 →
  apply m record = Ok out →
  (∀ f, f ∈ rm_required m → is_in (get_or f VNone record) blank = false)
  ∧ ∀ k v, dget k record = Some v →
      k ∈ rm_unmapped m
      ∨ (k ∈ (rm_fields m).*1 ∧ v = VNone)
      ∨ (∃ target v', (k, target) ∈ rm_fields m ∧ convert (rm_converters m) k v = Ok v'
                      ∧ dget target out = Some v')
      ∨ (∃ lm l mapped, (k, lm) ∈ rm_lines m ∧ v = VList l ∧ l ≠ []
                      ∧ Forall2 (carried_line lm) l mapped
                      ∧ dget (lm_target lm) out = Some (VList (map VDict mapped))).
Proof.
  intros Hm E. pose proof reference_targets_distinct as Hd. rewrite Forall_forall in Hd.
  destruct (Hd m Hm) as [Hnd Hls]. apply NoDup_app in Hnd as (Hnf & Hdisj & Hnl).
  unfold apply in E. apply result_bind_ok in E as (o1 & Ef & E).
  apply result_bind_ok in E as ([o2 g] & El & E). cbn [fst snd] in E.
  destruct g; [|done]. injection E as ->.
  destruct (apply_lines_carried _ _ _ _ _ Hls Hnl El) as (Hg & Hfr & Hlines).
  unfold record_gaps in Hg. apply app_eq_nil in Hg as [Hr%map_eq_nil Hu%map_eq_nil].
  split; [by apply filter_nil_forall|]. intros k v Hk.
  pose proof (undeclared_nil _ _ Hu k v Hk) as Hdec.
  apply elem_of_app in Hdec as [Hf|[Hun|Hl]%elem_of_app]; [|by left|].
  - destruct (decide (v = VNone)) as [->|Hv]; [auto|]. right. right. left.
    apply list_elem_of_fmap in Hf as ([src target] & -> & Hin).
    destruct (map_fields_carried _ _ _ _ _ Hnf Ef src target v Hin Hk Hv) as (v' & Hc & Ho).
    exists target, v'. split_and!; [done..|]. rewrite <-Ho. apply Hfr, Hdisj.
    apply list_elem_of_fmap. by exists (src, target).
  - apply list_elem_of_fmap in Hl as ([src lm] & -> & Hin). right. right. right.
    destruct (Hlines src lm v Hin Hk) as (l & mapped & Hv & Hne & HF & Ho).
    by exists lm, l, mapped.
Qed.

(** Money is carried exactly.  An integer price of up to 28 digits of minor
    units becomes the decimal text of a number whose value is that integer over
    100, with at most two places and no exponent; anything else that calls
    itself a price (a bool, a float, a string) blocks the record. *)
Theorem minor_to_major_exact v :
  match minor_to_major v with
  | Ok out => ∃ z, v = VInt z ∧
      ((Z.abs z < 10 ^ prec)%Z → ∃ d, out = VStr (dec_str d) ∧ dec_is d z 100
        ∧ (-2 ≤ d_exp d ≤ 0)%Z ∧ (0 ≤ d_coeff d ≤ Z.abs z)%Z)
  | Err e => exn_cls e = ErpTransformError ∧ (∀ z, v ≠ VInt z)
  end.
Proof.
  destruct v; simpl; try (split; [done|congruence]).
  eexists. split; [done|]. intros Hz. eexists. split; [done|]. by apply hundredth_exact.
Qed.

(** Equal records in another key order have the same fingerprint, and records
    with the same fingerprint are equal unless SHA-256 collides. *)
Lemma input_hash_canonical r1 r2 :
  wf_val (VDict r1) → wf_val (VDict r2) →
  (VDict r1 ≡ VDict r2 → input_hash r1 = input_hash r2)
  ∧ (input_hash r1 = input_hash r2 → VDict r1 ≡ VDict r2
      ∨ dumps_sorted (VDict r1) ≠ dumps_sorted (VDict r2)
        ∧ sha256_hex (dumps_sorted (VDict r1)) = sha256_hex (dumps_sorted (VDict r2))).
Proof.
  intros H1 H2. unfold input_hash. split.
  - intros E. by rewrite (dumps_sorted_proper _ _ E).
  - intros E. apply str_app_inj_l in E.
    destruct (decide (dumps_sorted (VDict r1) = dumps_sorted (VDict r2))) as [E'|]; [left|by right].
    by apply dumps_sorted_equiv in E'.
Qed.

Lemma map_fields_plain converters fs gs record out :
  Forall (λ f : string * string, dget f.1 converters = None) fs →
  ∃ out', map_fields converters (fs ++ gs) record out = map_fields converters gs record out'.
Proof.
  intros HF. revert out. induction HF as [|[src target] fs Hc HF IH]; intros out; [by exists out|].
  cbn [map_fields app]. unfold convert. simpl in Hc. rewrite Hc.
  destruct (dget src record) as [[]|]; apply IH.
Qed.

(** A price that is no integer hides every other gap of an item: the text of
    the failure names the price alone, whatever else is missing. *)
Theorem bad_price_hides_gaps record s :
  dget "unit_price_minor" record = Some (VStr s) →
  apply ITEM record
    = raise_r ErpTransformError ("unit_price_minor must be integer minor units, got " +:+ str_repr s).
Proof.
  intros Hg. unfold apply.
  destruct (map_fields_plain (rm_converters ITEM) (take 4 (rm_fields ITEM)) (drop 4 (rm_fields ITEM))
              record []) as [out E]; [repeat constructor|].
  change (take 4 (rm_fields ITEM) ++ drop 4 (rm_fields ITEM))%list with (rm_fields ITEM) in E.
  rewrite E. change (drop 4 (rm_fields ITEM)) with [("unit_price_minor", "basePrice")].
  cbn [map_fields]. by rewrite Hg.
Qed.

(** ** Concrete records *)
Module ErpMapDemo.
Definition adjustment : pydict :=
  [("account", VStr "5000"); ("location", VStr "1"); ("memo", VNone); ("counted_by", VStr "ana");
   ("lines", VList [VDict [("sku", VStr "A"); ("quantity_delta", VInt (-2))]])].
Definition adjusted : pydict :=
  [("account", VStr "5000"); ("adjLocation", VStr "1");
   ("inventory", VList [VDict [("item", VStr "A"); ("adjustQtyBy", VInt (-2))]])].
End ErpMapDemo.

Section witnesses.
Import ErpMapDemo.

Lemma no_silent_drops_witness :
  apply ADJUSTMENT adjustment = Ok adjusted
  ∧ is_in (get_or "account" VNone adjustment) blank = false
  ∧ minor_to_major (VInt 1999) = Ok (VStr "19.99").
Proof.
  assert (E : apply ADJUSTMENT adjustment = Ok adjusted) by reflexivity.
  split; [exact E|]. split; [|reflexivity].
  destruct (no_silent_drops ADJUSTMENT adjustment adjusted
              ltac:(right; left; reflexivity) E) as [Hr _].
  exact (Hr "account" ltac:(left; reflexivity)).
Defined.

Lemma minor_to_major_exact_witness :
  ∃ d, minor_to_major (VInt (-1450)) = Ok (VStr (dec_str d)) ∧ dec_is d (-1450) 100
       ∧ dec_str d = "-14.5".
Proof.
  assert (E : minor_to_major (VInt (-1450)) = Ok (VStr "-14.5")) by (vm_compute; reflexivity).
  pose proof (minor_to_major_exact (VInt (-1450))) as H. rewrite E in H.
  destruct H as (z & Ez & H). injection Ez as <-.
  destruct (H ltac:(vm_compute; reflexivity)) as (d & Ed & Hd & _).
  exists d. rewrite E, <-Ed. split; [reflexivity|]. split; [exact Hd|congruence].
Defined.
End witnesses.
