(* ===== verification/Reconcile.v ===== *)
(** * Reconciliation (agents/ledger/reconcile.py, reconcile_agent.py)

    The comparator of what Cavi wrote with what the ERP holds, the report of a
    run, and the agent.  Both state sources are parameters: each read is a
    query of the outside at that moment. *)

From S2P Require Import Prelude PyStr PyFloat PyVal Json Contract Registry Metrics HashChain EventStore Agent.
Local Open Scope string_scope.
Local Open Scope nat_scope.

Definition MISSING_IN_ERP : string := "missing_in_erp".
Definition UNEXPECTED_IN_ERP : string := "unexpected_in_erp".
Definition FIELD_MISMATCH : string := "field_mismatch".

(** Records keyed by external id, in the source's order. *)
Definition records : Type := list (string * pydict).

Record discrepancy : Type := Discrepancy {
  external_id : string;
  d_kind : string;
  d_fields : list pydict;
}.

Definition discrepancy_payload (d : discrepancy) : pydict :=
  let payload := [("external_id", VStr (external_id d)); ("kind", VStr (d_kind d))] in
  match d_fields d with
  | [] => payload
  | fs => dset "fields" (VList (map VDict fs)) payload
  end.

(** ** The comparator *)

Definition differs (record current : pydict) (name : string) : bool :=
  match dget name record with
  | Some v => negb (py_eq v (get_or name VNone current))
  | None => false
  end.

Definition mismatch (record current : pydict) (name : string) : pydict :=
  [("field", VStr name); ("expected", get_or name VNone record);
   ("actual", get_or name VNone current)].

Definition mismatches (record current : pydict) : list pydict :=
  map (mismatch record current)
    (List.filter (differs record current) (sorted_strs (dkeys record))).

(** One round of the first loop. *)
Definition compare_one (expected actual : records) (ext_id : string) : option discrepancy :=
  match dget ext_id actual with
  | None => Some (Discrepancy ext_id MISSING_IN_ERP [])
  | Some current =>
      match mismatches (default [] (dget ext_id expected)) current with
      | [] => None
      | fs => Some (Discrepancy ext_id FIELD_MISMATCH fs)
      end
  end.

(** [sorted(set(actual) - set(expected))] *)
Definition unexpected (expected actual : records) : list string :=
  sorted_strs (filter (λ i, i ∉ dkeys expected) (dkeys actual)).

Definition compare (expected actual : records) : list discrepancy :=
  omap (compare_one expected actual) (sorted_strs (dkeys expected))
  ++ map (λ i, Discrepancy i UNEXPECTED_IN_ERP []) (unexpected expected actual).

(** ** The report *)
Record reconciliation_result : Type := ReconciliationResult {
  rr_tenant_id : string;
  rr_erp_platform : string;
  rr_scope : string;
  run_id : string;
  checked : Z;
  discrepancies : list discrepancy;
  completed_at : string;
}.

Definition drift_count (r : reconciliation_result) : Z := Z.of_nat (length (discrepancies r)).

Definition completed_payload (r : reconciliation_result) : pydict :=
  [("tenant_id", VStr (rr_tenant_id r)); ("erp_platform", VStr (rr_erp_platform r));
   ("scope", VStr (rr_scope r)); ("run_id", VStr (run_id r)); ("checked", VInt (checked r));
   ("matched", VInt (checked r - drift_count r)); ("drift_count", VInt (drift_count r));
   ("completed_at", VStr (completed_at r))].

Definition drift_payload (r : reconciliation_result) : option pydict :=
  match discrepancies r with
  | [] => None
  | ds => Some
      [("tenant_id", VStr (rr_tenant_id r)); ("erp_platform", VStr (rr_erp_platform r));
       ("scope", VStr (rr_scope r)); ("run_id", VStr (run_id r));
       ("discrepancies", VList (map (λ d, VDict (discrepancy_payload d)) ds));
       ("detected_at", VStr (completed_at r))]
  end.

(** [len(set(expected) | set(actual))] *)
Definition ids_checked (expected actual : records) : Z :=
  Z.of_nat (size (list_to_set (dkeys expected) ∪ list_to_set (dkeys actual) : gset string)).

(** ** The agent *)

(** The two sources, each asked at some moment. *)
Class Sources : Type := {
  expected_records : nat → string → string → result records;
  erp_records : nat → string → string → string → result records;
}.

(** [UnconfiguredSource], for both. *)
Definition unconfigured_source : result records :=
  raise_r SourceUnavailable "no reconciliation state source configured".
Definition unconfigured_sources : Sources := {|
  expected_records _ _ _ := unconfigured_source;
  erp_records _ _ _ _ := unconfigured_source;
|}.

Section agent.
Context `{Externals} `{EventStore T} `{Sources}.
#[local] Notation P := (proc T unit) (only parsing).

Definition reconcile (tenant_id erp_platform scope : string) (expected actual : records)
    : M P reconciliation_result :=
  i ← in_world (fresh uuid4);
  at_ ← in_world (fresh clock_iso);
  mret (ReconciliationResult tenant_id erp_platform scope i (ids_checked expected actual)
          (compare expected actual) at_).

Definition read_sources (tenant_id erp_platform scope : string) : M P (records * records) :=
  expected ← in_world (fresh (λ n, expected_records n tenant_id scope));
  expected ← of_result expected;
  actual ← in_world (fresh (λ n, erp_records n tenant_id erp_platform scope));
  actual ← of_result actual;
  mret (expected, actual).

Definition count_drift (d : discrepancy) : M P unit :=
  in_world (count DRIFT_FOUND one [("kind", d_kind d)]).

Definition report (event : event) (r : reconciliation_result) : M P unit :=
  in_world (count RECONCILIATIONS one []) ;;
  for_each (discrepancies r) count_drift ;;
  emit_new "ledger" "ledger.reconciliation.completed" 1 (ev_correlation_id event) None
    (completed_payload r) ;;
  match drift_payload r with
  | None => mret tt
  | Some drift =>
      emit_new "ledger" "ledger.drift.detected" 1 (ev_correlation_id event) None drift
  end.

Definition handle_due (event : event) : M P unit :=
  let req := ev_payload event in
  tenant_id ← of_result (get_str "tenant_id" req);
  erp_platform ← of_result (get_str "erp_platform" req);
  scope ← of_result (get_str "scope" req);
  outcome ← try_except (inl <$> read_sources tenant_id erp_platform scope) SourceUnavailable
              (λ exc, mret (inr exc));
  match outcome with
  | inr exc =>
      in_world (dead_letter "ledger" event
                  ("reconciliation source unavailable: " +:+ exn_msg exc))
  | inl (expected, actual) =>
      result ← reconcile tenant_id erp_platform scope expected actual;
      report event result
  end.

#[export] Instance reconcile_agent : Agent T unit := {
  agent_name := "ledger";
  subjects := ["ticker.reconciliation.due"];
  handle := handle_due;
}.
End agent.

#[export] Instance reconcile_disciplined `{Externals} `{EventStoreLaws T} `{Sources} :
  Disciplined (T := T) (A := unit).
Proof.
  intros e. simpl. unfold handle_due, read_sources, report, reconcile, count_drift. keeps_tac.
Qed.

(** ** The comparator is exact *)

(** The ids on both sides whose managed fields agree. *)
Definition agreed (expected actual : records) : list string :=
  filter (λ i, compare_one expected actual i = None) (dkeys expected).

Lemma mismatches_In record current f :
  f ∈ mismatches record current ↔
    ∃ name v, dget name record = Some v ∧ py_eq v (get_or name VNone current) = false
              ∧ f = mismatch record current name.
Proof.
  unfold mismatches. rewrite list_elem_of_In, List.in_map_iff. unfold differs. split.
  - intros (name & <- & [_ Hd]%List.filter_In). destruct (dget name record) as [v|] eqn:E; [|done].
    apply negb_true_iff in Hd. eauto.
  - intros (name & v & E & Hd & ->). exists name. split; [done|]. apply List.filter_In. split.
    + apply list_elem_of_In. rewrite sorted_strs_perm. apply dmem_keys. unfold dmem. by rewrite E.
    + by rewrite E, Hd.
Qed.

Lemma compare_one_id expected actual i d :
  compare_one expected actual i = Some d → external_id d = i.
Proof. unfold compare_one. intros. by repeat (case_match; simplify_eq/=). Qed.

Lemma compare_In expected actual d :
  d ∈ compare expected actual ↔
    (external_id d ∈ dkeys expected ∧ compare_one expected actual (external_id d) = Some d)
    ∨ (external_id d ∈ dkeys actual ∧ external_id d ∉ dkeys expected
       ∧ d = Discrepancy (external_id d) UNEXPECTED_IN_ERP []).
Proof.
  unfold compare, unexpected. rewrite elem_of_app, list_elem_of_omap. split.
  - intros [(i & Hi & E)|Hu].
    + pose proof (compare_one_id _ _ _ _ E) as <-. rewrite sorted_strs_perm in Hi. auto.
    + apply list_elem_of_In, List.in_map_iff in Hu as (i & <- & Hi).
      rewrite <-list_elem_of_In, sorted_strs_perm, list_elem_of_filter in Hi. simpl. naive_solver.
  - intros [[Hi E]|(Ha & He & ->)].
    + left. exists (external_id d). by rewrite sorted_strs_perm.
    + right. apply list_elem_of_In, List.in_map_iff. exists (external_id d). split; [done|].
      rewrite <-list_elem_of_In, sorted_strs_perm. by apply list_elem_of_filter.
Qed.

Lemma omap_ids expected actual (l : list string) :
  external_id <$> omap (compare_one expected actual) l
  = filter (λ i, compare_one expected actual i ≠ None) l.
Proof.
  induction l as [|i l IH]; [done|]. rewrite filter_cons. simpl.
  destruct (compare_one expected actual i) as [d|] eqn:E.
  - rewrite decide_True by done. csimpl. by rewrite IH, (compare_one_id _ _ _ _ E).
  - by rewrite decide_False by auto.
Qed.

Lemma compare_ids expected actual :
  external_id <$> compare expected actual
  = (filter (λ i, compare_one expected actual i ≠ None) (sorted_strs (dkeys expected))
     ++ unexpected expected actual)%list.
Proof.
  unfold compare. rewrite fmap_app, omap_ids. f_equal.
  induction (unexpected expected actual) as [|i l IH]; [done|]. csimpl. by f_equal.
Qed.

Lemma compare_NoDup expected actual :
  wf_dict expected → wf_dict actual → NoDup (external_id <$> compare expected actual).
Proof.
  intros He Ha. rewrite compare_ids. apply NoDup_app. split_and!.
  - apply NoDup_filter. by rewrite sorted_strs_perm.
  - intros i [_ Hi]%list_elem_of_filter. rewrite sorted_strs_perm in Hi.
    unfold unexpected. rewrite sorted_strs_perm, list_elem_of_filter. naive_solver.
  - unfold unexpected. rewrite sorted_strs_perm. by apply NoDup_filter.
Qed.

Lemma filter_split {A} (P : A → Prop) `{∀ x, Decision (P x)} (l : list A) :
  length (filter P l) + length (filter (λ x, ¬ P x) l) = length l.
Proof.
  induction l as [|x l IH]; [done|]. rewrite !filter_cons.
  destruct (decide (P x)); [rewrite decide_False by tauto|rewrite decide_True by done]; simpl; lia.
Qed.

Lemma ids_checked_split expected actual :
  wf_dict expected → wf_dict actual →
  ids_checked expected actual
  = (Z.of_nat (length (dkeys expected)) + Z.of_nat (length (unexpected expected actual)))%Z.
Proof.
  intros He Ha. unfold ids_checked, unexpected.
  rewrite (sorted_strs_perm (filter _ (dkeys actual))), <-Nat2Z.inj_add, <-length_app. f_equal.
  rewrite <-(size_list_to_set (C := gset string) (dkeys expected ++ filter (λ i, i ∉ dkeys expected) (dkeys actual))%list).
  - f_equal. apply set_eq. intros i.
    rewrite elem_of_union, !elem_of_list_to_set, elem_of_app, list_elem_of_filter.
    destruct (decide (i ∈ dkeys expected)); tauto.
  - apply NoDup_app. split_and!; [done| |by apply NoDup_filter].
    intros i Hi [Hn _]%list_elem_of_filter. done.
Qed.

(** The ids that are not in the report, counted. *)
Lemma compare_matched expected actual :
  wf_dict expected → wf_dict actual →
  (ids_checked expected actual - Z.of_nat (length (compare expected actual)))%Z
  = Z.of_nat (length (agreed expected actual)).
Proof.
  intros He Ha. rewrite ids_checked_split by done. unfold agreed.
  rewrite <-(length_fmap external_id (compare expected actual)), compare_ids, length_app.
  rewrite <-(filter_split (λ i, compare_one expected actual i = None) (dkeys expected)).
  rewrite (sorted_strs_perm (dkeys expected)). lia.
Qed.

Lemma compare_counts expected actual :
  wf_dict expected → wf_dict actual →
  (0 ≤ ids_checked expected actual ∧
   0 ≤ ids_checked expected actual - Z.of_nat (length (compare expected actual)))%Z.
Proof. intros He Ha. pose proof (compare_matched expected actual He Ha). lia. Qed.

(** C33: the reconciliation report is exact.  For records keyed by distinct
    ids, each id is reported at most once: as missing exactly when Cavi wrote
    it and the ERP has no record, as unexpected exactly when it is the other
    way round, and as a mismatch exactly when both have it and some managed
    field differs, listing all the fields that do and no others.  The matched
    count of the heartbeat is the number of ids on both sides whose managed
    fields agree. *)
Theorem compare_exact expected actual :
  wf_dict expected → wf_dict actual →
  NoDup (external_id <$> compare expected actual)
  ∧ (∀ d, d ∈ compare expected actual ↔
      (∃ i, d = Discrepancy i MISSING_IN_ERP [] ∧ i ∈ dkeys expected ∧ i ∉ dkeys actual)
      ∨ (∃ i, d = Discrepancy i UNEXPECTED_IN_ERP [] ∧ i ∉ dkeys expected ∧ i ∈ dkeys actual)
      ∨ (∃ i record current, d = Discrepancy i FIELD_MISMATCH (mismatches record current)
          ∧ dget i expected = Some record ∧ dget i actual = Some current
          ∧ mismatches record current ≠ []))
  ∧ (∀ record current f, f ∈ mismatches record current ↔
      ∃ name v, dget name record = Some v ∧ py_eq v (get_or name VNone current) = false
                ∧ f = mismatch record current name)
  ∧ (ids_checked expected actual - Z.of_nat (length (compare expected actual)))%Z
    = Z.of_nat (length (agreed expected actual))
  ∧ ∀ i, i ∈ agreed expected actual ↔ ∃ record current,
      dget i expected = Some record ∧ dget i actual = Some current ∧ mismatches record current = [].
Proof.
  intros He Ha. split_and!.
  - by apply compare_NoDup.
  - intros d. rewrite compare_In. unfold compare_one. split.
    + intros [[Hi E]|(Hi & Hn & ->)]; [|right; left; eauto].
      destruct (dget (external_id d) actual) as [c|] eqn:Ea.
      * destruct (dget (external_id d) expected) as [r|] eqn:Ee;
          [|by apply dget_None in Ee]. simpl in E.
        destruct (mismatches r c) as [|f fs] eqn:Em; [done|]. right. right.
        exists (external_id d), r, c. rewrite Em. by injection E as <-.
      * left. exists (external_id d). apply dget_None in Ea. by injection E as <-.
    + intros [(i & -> & Hi & Hn)|[(i & -> & Hn & Hi)|(i & r & c & -> & Er & Ec & Hm)]]; simpl.
      * left. by rewrite (proj2 (dget_None i actual) Hn).
      * right. auto.
      * left. rewrite Ec, Er. simpl. split; [|by destruct (mismatches r c)].
        destruct (decide (i ∈ dkeys expected)) as [|Hn]; [done|]. apply dget_None in Hn. congruence.
  - apply mismatches_In.
  - by apply compare_matched.
  - intros i. unfold agreed. rewrite list_elem_of_filter. unfold compare_one. split.
    + intros [E Hi]. destruct (dget i actual) as [c|]; [|done].
      destruct (dget i expected) as [r|] eqn:Er; [|by apply dget_None in Er].
      exists r, c. split_and!; [done..|]. simpl in E. by destruct (mismatches r c).
    + intros (r & c & Er & Ec & Em). rewrite Ec, Er. simpl. rewrite Em. split; [done|].
      destruct (decide (i ∈ dkeys expected)) as [|Hn]; [done|]. apply dget_None in Hn. congruence.
Qed.

(** ** A due event has exactly one of two outcomes *)
Section due.
Context `{Externals} `{EventStoreLaws T} `{Sources}.
#[local] Notation P := (proc T unit) (only parsing).

(** Only the counters change. *)
Definition quiet (s s' : P) : Prop :=
  w_bus (p_world s') = w_bus (p_world s) ∧ w_registry (p_world s') = w_registry (p_world s)
  ∧ w_store (p_world s') = w_store (p_world s).

#[local] Instance quiet_preorder : PreOrder quiet.
Proof. unfold quiet. split; [done|]. intros s1 s2 s3 (-> & -> & ->) (-> & -> & ->). done. Qed.

Lemma counting_quiet (ds : list discrepancy) :
  keeps quiet (in_world (T := T) (A := unit) (count RECONCILIATIONS one []) ;; for_each ds count_drift).
Proof.
  assert (Hc : ∀ name v ls, keeps quiet (in_world (T := T) (A := unit) (count name v ls))).
  { intros name v ls s r s' [= _ <-]. done. }
  apply keeps_bind; [apply _|apply Hc|]. intros _. apply keeps_for_each; [apply _|].
  intros d. apply Hc.
Qed.

Lemma quarantine_bus name ev text (s s' : P) :
  registry_ok (w_registry (p_world s)) →
  in_world (dead_letter name ev text) s = (Ok tt, s') →
  w_bus (p_world s') = (w_bus (p_world s)
    ++ [(DEADLETTER +:+ ev_subject ev, dumps Spaced (VDict (dead_envelope ev text)))])%list.
Proof.
  intros Hr. unfold in_world, zoom.
  destruct (dead_letter_run name ev text _ Hr) as (reg & _ & _ & ->).
  destruct (check _ _ _ _) as [[]|x]; [|destruct (is_contract_error x); [|by intros [= ?]]];
    (destruct (record_deadletter _ _) as [[[]|y] t]; [by intros [= <-]|by intros [= ?]]).
Qed.

(** What a run that was done publishes. *)
Definition reported (ev : event) (result : reconciliation_result) (bus bus' : list message) : Prop :=
  ∃ done : event, ev_subject done = "ledger.reconciliation.completed"
    ∧ ev_payload done = completed_payload result ∧ ev_correlation_id done = ev_correlation_id ev
    ∧ match drift_payload result with
      | None => bus' = bus ++ [(ev_subject done, wire done)]
      | Some drift => ∃ flag : event, ev_subject flag = "ledger.drift.detected"
          ∧ ev_payload flag = drift ∧ ev_correlation_id flag = ev_correlation_id ev
          ∧ bus' = bus ++ [(ev_subject done, wire done); (ev_subject flag, wire flag)]
      end%list.

Lemma report_ok ev result (s s' : P) :
  registry_ok (w_registry (p_world s)) → report ev result s = (Ok tt, s') →
  reported ev result (w_bus (p_world s)) (w_bus (p_world s')).
Proof.
  intros Hr E. unfold report in E.
  apply M_bind_ok in E as (u1 & s1 & E1 & E). apply M_bind_ok in E as (u2 & s2 & E2 & E).
  assert (Hq : quiet s s2).
  { eapply counting_quiet. by rewrite (M_bind_run _ _ _ _ _ E1). }
  destruct Hq as (Hb & Hg & _). clear E1 E2.
  apply M_bind_ok in E as ([] & s3 & E3 & E).
  apply emit_new_ok in E3 as [_ _ _ _ _ Hb3 _ _ Hr3 _]; [|by rewrite Hg].
  eexists (Event _ _ _ _ _ _ _). split_and!; [..|]; cycle 3.
  - destruct (drift_payload result) as [drift|].
    + apply emit_new_ok in E as [_ _ _ _ _ Hb4 _ _ _ _]; [|done].
      eexists (Event _ _ _ _ _ _ _). split_and!; [..|]; cycle 3.
      * rewrite Hb4, Hb3, Hb, <-(assoc_L (++)%list). reflexivity.
      * done.
      * done.
      * done.
    + injection E as <-. by rewrite Hb3, Hb.
  - done.
  - done.
  - done.
Qed.

(** No pass is reported that was not run, and every pass is reported.  A
    due event handled without an exception either found a source unavailable
    (then the only thing published is its dead letter, which names the
    source's reason), or read both sources, and then the heartbeat with the
    exact comparison of what they held is published, followed by the drift
    report if and only if there is a discrepancy. *)
Theorem due_outcome ev tenant_id erp_platform scope (s s' : P) :
  registry_ok (w_registry (p_world s)) →
  get_str "tenant_id" (ev_payload ev) = Ok tenant_id →
  get_str "erp_platform" (ev_payload ev) = Ok erp_platform →
  get_str "scope" (ev_payload ev) = Ok scope →
  handle_due ev s = (Ok tt, s') →
  let bus := w_bus (p_world s) in
  let bus' := w_bus (p_world s') in
  let n := w_tick (p_world s) in
  (∃ exc, exn_cls exc = SourceUnavailable
     ∧ (expected_records n tenant_id scope = Err exc
        ∨ erp_records (S n) tenant_id erp_platform scope = Err exc)
     ∧ bus' = bus ++ [(DEADLETTER +:+ ev_subject ev, dumps Spaced (VDict (dead_envelope ev
                ("reconciliation source unavailable: " +:+ exn_msg exc))))])%list
  ∨ ∃ expected actual i at_,
      expected_records n tenant_id scope = Ok expected
      ∧ erp_records (S n) tenant_id erp_platform scope = Ok actual
      ∧ reported ev (ReconciliationResult tenant_id erp_platform scope i
          (ids_checked expected actual) (compare expected actual) at_) bus bus'.
Proof.
  intros Hr E1 E2 E3 E bus bus' n. unfold handle_due in E. rewrite E1, E2, E3 in E.
  assert (Hcls : ∀ exc, isinstance exc SourceUnavailable = true → exn_cls exc = SourceUnavailable)
    by (intros [[] ?]; done).
  unfold mbind, M_bind, of_result in E. cbv beta iota in E. unfold try_except, fmap, M_fmap in E.
  unfold read_sources, mbind, M_bind, of_result, in_world, zoom, fresh in E.
  cbn [p_world p_agent w_tick tick fst snd] in E. fold n in E.
  destruct (expected_records n tenant_id scope) as [expected|exc] eqn:Ee.
  - destruct (erp_records (S n) tenant_id erp_platform scope) as [actual|exc] eqn:Ea.
    + right. exists expected, actual. cbv [mret M_ret] in E. cbn [p_world p_agent w_tick tick] in E.
      apply report_ok in E; [|done]. eauto 10.
    + left. destruct (isinstance exc SourceUnavailable) eqn:Ei; [|done].
      exists exc. split_and!; [auto|auto|]. cbv [mret M_ret] in E.
      by apply quarantine_bus in E.
  - left. destruct (isinstance exc SourceUnavailable) eqn:Ei; [|done].
    exists exc. split_and!; [auto|auto|]. cbv [mret M_ret] in E. by apply quarantine_bus in E.
Qed.
End due.

(** ** A concrete pass *)
Module ReconcileDemo.
Definition expected : records :=
  [("w1", [("total", VInt 5)]); ("w2", [("memo", VStr "m"); ("total", VInt 7)]); ("w3", [])].
Definition actual : records :=
  [("w9", []); ("w2", [("total", VInt 8); ("memo", VStr "m"); ("status", VStr "open")]); ("w3", [])].
Definition sources : Sources := {|
  expected_records _ _ _ := Ok expected;
  erp_records _ _ _ _ := Ok actual;
|}.
Definition due : event :=
  Event "ticker.reconciliation.due" 1 "n8n"
    [("tenant_id", VStr "acme"); ("erp_platform", VStr "netsuite"); ("scope", VStr "salesOrder")]
    (Demo.uuid_of 9) None None.
End ReconcileDemo.

Section witnesses.
Import ReconcileDemo.

Lemma compare_exact_witness :
  compare expected actual =
    [Discrepancy "w1" MISSING_IN_ERP [];
     Discrepancy "w2" FIELD_MISMATCH [[("field", VStr "total"); ("expected", VInt 7); ("actual", VInt 8)]];
     Discrepancy "w9" UNEXPECTED_IN_ERP []]
  ∧ agreed expected actual = ["w3"]
  ∧ (ids_checked expected actual - Z.of_nat (length (compare expected actual)) = 1)%Z.
Proof.
  assert (He : wf_dict expected) by (apply (bool_decide_unpack _); vm_compute; exact I).
  assert (Ha : wf_dict actual) by (apply (bool_decide_unpack _); vm_compute; exact I).
  split; [vm_compute; reflexivity|]. split; [vm_compute; reflexivity|].
  destruct (compare_exact expected actual He Ha) as (_ & _ & _ & Hm & _).
  exact Hm.
Defined.

Lemma due_outcome_witness :
  let '(r, s') := handle_due (H := Demo.externals) (H1 := sources) due AgentDemo.proc0 in
  r = Ok tt ∧ length (w_bus (p_world s')) = 2
  ∧ ∃ result, reported due result [] (w_bus (p_world s')).
Proof.
  assert (Hr : (handle_due (H := Demo.externals) (H1 := sources) due AgentDemo.proc0).1 = Ok tt)
    by (vm_compute; reflexivity).
  assert (Hl : length (w_bus (p_world
    (handle_due (H := Demo.externals) (H1 := sources) due AgentDemo.proc0).2)) = 2)
    by (vm_compute; reflexivity).
  destruct (handle_due (H := Demo.externals) (H1 := sources) due AgentDemo.proc0) as [r s'] eqn:E.
  cbn [fst snd] in Hr, Hl. subst r. split; [reflexivity|]. split; [exact Hl|].
  destruct (due_outcome (H := Demo.externals) (H2 := sources) due "acme" "netsuite" "salesOrder"
              AgentDemo.proc0 s' Demo.registry_fresh eq_refl eq_refl eq_refl E)
    as [(exc & _ & [Hx|Hx] & _)|(e & a & i & t & _ & _ & Hrep)]; [discriminate|discriminate|].
  eexists. exact Hrep.
Defined.
End witnesses.
