(* ===== verification/Query.v ===== *)
(** * Ledger queries (agents/ledger/query.py, query_agent.py)

    The read path: a query of an external ERP through an injected reader (a
    parameter, asked at some moment), and the one event that answers it. *)

From S2P Require Import Prelude PyStr PyFloat PyVal Json Contract Registry Metrics HashChain EventStore Agent.
Local Open Scope string_scope.

Definition DEFAULT_SCHEMA_VERSION : string := "cavi.ledger.v1".

(** [ErpReader]: it returns rows or raises anything. *)
Class ErpReader : Type := erp_read : nat → string → string → pydict → result (list pydict).

(** [UnconfiguredErpReader]. *)
Definition unconfigured_reader : ErpReader := λ _ _ _ _,
  raise_r LedgerQueryError "no ERP reader configured; inject an ErpReader".

Definition completed_payload (tenant_id erp_platform subject : string) (filters : pydict)
    (rows : list pydict) (schema_version queried_at : string) : pydict :=
  [("tenant_id", VStr tenant_id); ("erp_platform", VStr erp_platform);
   ("subject", VStr subject); ("filters", VDict filters);
   ("result_count", VInt (Z.of_nat (length rows))); ("payload", VList (map VDict rows));
   ("schema_version", VStr schema_version); ("queried_at", VStr queried_at)].

Definition failed_payload (tenant_id erp_platform subject : string) (filters : pydict)
    (reason failed_at : string) : pydict :=
  [("tenant_id", VStr tenant_id); ("erp_platform", VStr erp_platform);
   ("subject", VStr subject); ("filters", VDict filters);
   ("reason", VStr reason); ("failed_at", VStr failed_at)].

(** [LedgerQuerier]: the version tag of the rows. *)
Record querier : Type := Querier { q_schema_version : string }.
Definition new_querier : querier := Querier DEFAULT_SCHEMA_VERSION.

(** A [LedgerQueryError] passes; any other exception is made one. *)
Definition read_failure (erp_platform subject : string) (exc : exn) : exn :=
  if isinstance exc LedgerQueryError then exc
  else Exn LedgerQueryError ("read of " +:+ str_repr subject +:+ " from " +:+ erp_platform
                               +:+ " failed: " +:+ exn_msg exc).

Section agent.
Context `{Externals} `{EventStore T} `{ErpReader}.
#[local] Notation P := (proc T querier) (only parsing).

Definition query (tenant_id erp_platform subject : string) (filters : pydict) : M P pydict :=
  q ← gets p_agent;
  rows ← in_world (fresh (λ n, erp_read n tenant_id subject filters));
  match rows with
  | Err exc => of_result (Err (read_failure erp_platform subject exc))
  | Ok rows =>
      at_ ← in_world (fresh clock_iso);
      mret (completed_payload tenant_id erp_platform subject filters rows (q_schema_version q) at_)
  end.

Definition failure (tenant_id erp_platform subject : string) (filters : pydict) (reason : string)
    : M P pydict :=
  at_ ← in_world (fresh clock_iso);
  mret (failed_payload tenant_id erp_platform subject filters reason at_).

Definition handle_query (event : event) : M P unit :=
  let req := ev_payload event in
  subject ← of_result (get_str "subject" req);
  filters ← of_result (as_dict (get_or "filters" (VDict []) req));
  tenant_id ← of_result (get_str "tenant_id" req);
  erp_platform ← of_result (get_str "erp_platform" req);
  outcome ← try_except
    (payload ← query tenant_id erp_platform subject filters;
     mret ("ledger.query.completed", payload))
    LedgerQueryError
    (λ exc, payload ← failure tenant_id erp_platform subject filters (exn_msg exc);
            mret ("ledger.query.failed", payload));
  emit_new "ledger" outcome.1 1 (ev_correlation_id event) None outcome.2.

#[export] Instance query_agent : Agent T querier := {
  agent_name := "ledger";
  subjects := ["ledger.query.request"];
  handle := handle_query;
}.
End agent.

#[export] Instance query_disciplined `{Externals} `{EventStoreLaws T} `{ErpReader} :
  Disciplined (T := T) (A := querier).
Proof. intros e. simpl. unfold handle_query, query, failure. keeps_tac. Qed.

Lemma read_failure_is erp_platform subject exc :
  isinstance (read_failure erp_platform subject exc) LedgerQueryError = true.
Proof. unfold read_failure. by destruct (isinstance exc LedgerQueryError) eqn:E. Qed.

(** The event a handled query leads to. *)
Inductive answered `{Externals} `{ErpReader} (n : nat) (version tenant_id erp_platform subject : string)
    (filters : pydict) : string → pydict → Prop :=
  | answered_rows rows :
      erp_read n tenant_id subject filters = Ok rows →
      answered n version tenant_id erp_platform subject filters "ledger.query.completed"
        (completed_payload tenant_id erp_platform subject filters rows version (clock_iso (S n)))
  | answered_error exc :
      erp_read n tenant_id subject filters = Err exc →
      answered n version tenant_id erp_platform subject filters "ledger.query.failed"
        (failed_payload tenant_id erp_platform subject filters
           (exn_msg (read_failure erp_platform subject exc)) (clock_iso (S n))).

(** Every query is answered exactly once, truthfully.  A handled request
    publishes one event, correlated with the request: completed with exactly
    the rows the reader returned and their count, or failed with the reader's
    reason, whatever exception it raised; and the agent itself never raises
    the reader's exception. *)
Theorem query_answered_once `{Externals} `{EventStoreLaws T} `{ErpReader}
    (ev : event) tenant_id erp_platform subject filters (s s' : proc T querier) r :
  registry_ok (w_registry (p_world s)) →
  get_str "subject" (ev_payload ev) = Ok subject →
  as_dict (get_or "filters" (VDict []) (ev_payload ev)) = Ok filters →
  get_str "tenant_id" (ev_payload ev) = Ok tenant_id →
  get_str "erp_platform" (ev_payload ev) = Ok erp_platform →
  handle_query ev s = (r, s') →
  ∃ out payload,
    answered (w_tick (p_world s)) (q_schema_version (p_agent s)) tenant_id erp_platform subject
      filters out payload
    ∧ match r with
      | Ok _ => ∃ e : event, ev_subject e = out ∧ ev_payload e = payload
                  ∧ ev_correlation_id e = ev_correlation_id ev
                  ∧ w_bus (p_world s') = (w_bus (p_world s) ++ [(out, wire e)])%list
      | Err _ => ∃ s0, emit_new "ledger" out 1 (ev_correlation_id ev) None payload s0 = (r, s')
                  ∧ w_bus (p_world s0) = w_bus (p_world s)
      end.
Proof.
  intros Hr E1 E2 E3 E4 E. unfold handle_query in E. rewrite E1, E2, E3, E4 in E.
  unfold mbind, M_bind, of_result in E. cbv beta iota in E.
  unfold try_except, query, failure, mbind, M_bind, gets, of_result, in_world, zoom, fresh in E.
  cbn [p_world p_agent w_tick tick fst snd] in E.
  assert (Hfin : ∀ out payload s0,
    registry_ok (w_registry (p_world s0)) → w_bus (p_world s0) = w_bus (p_world s) →
    emit_new "ledger" out 1 (ev_correlation_id ev) None payload s0 = (r, s') →
    match r with
    | Ok _ => ∃ e : event, ev_subject e = out ∧ ev_payload e = payload
                ∧ ev_correlation_id e = ev_correlation_id ev
                ∧ w_bus (p_world s') = (w_bus (p_world s) ++ [(out, wire e)])%list
    | Err _ => ∃ s0, emit_new "ledger" out 1 (ev_correlation_id ev) None payload s0 = (r, s')
                ∧ w_bus (p_world s0) = w_bus (p_world s)
    end).
  { intros out payload s0 Hs0 Hb Ee. destruct r as [[]|x]; [|eauto].
    apply emit_new_ok in Ee as [_ _ _ _ _ Hb' _ _ _ _]; [|done].
    rewrite Hb in Hb'. eexists (Event _ _ _ _ _ _ _). split_and!; [..|exact Hb']; done. }
  destruct (erp_read _ tenant_id subject filters) as [rows|exc] eqn:Er;
    cbn [p_world p_agent w_tick tick fst snd] in E;
    [|rewrite read_failure_is in E; cbn [p_world p_agent w_tick tick fst snd] in E];
    eexists _, _; (split; [by constructor|]); by eapply Hfin in E.
Qed.

(** ** A concrete query *)
Module QueryDemo.
Definition rows : ErpReader := λ _ _ _ _, Ok [[("id", VInt 1)]; [("id", VInt 2)]].
Definition down : ErpReader := λ _ _ _ _, raise_r HTTPError "timeout".
Definition request : event :=
  Event "ledger.query.request" 1 "n8n"
    [("tenant_id", VStr "acme"); ("erp_platform", VStr "netsuite"); ("subject", VStr "invoices")]
    (Demo.uuid_of 9) None None.
Definition proc1 : proc InMemoryEventStore.store querier := Proc AgentDemo.world0 new_querier.
End QueryDemo.

Section witnesses.
Import QueryDemo.

Lemma query_answered_once_witness :
  let '(r, s') := handle_query (H := Demo.externals) (H1 := down) request proc1 in
  r = Ok tt ∧ ∃ payload,
    answered (H := Demo.externals) (H0 := down) 0 DEFAULT_SCHEMA_VERSION "acme" "netsuite" "invoices" []
      "ledger.query.failed" payload.
Proof.
  destruct (handle_query (H := Demo.externals) (H1 := down) request proc1) as [r s'] eqn:E.
  assert (Hr : r = Ok tt) by (vm_compute in E; by injection E as <- _).
  split; [exact Hr|].
  destruct (query_answered_once (H := Demo.externals) (H2 := down) request "acme" "netsuite" "invoices" []
              proc1 s' r Demo.registry_fresh eq_refl eq_refl eq_refl eq_refl E)
    as (out & payload & Ha & _).
  exists payload. destruct Ha as [rows Hx|exc Hx]; [discriminate Hx|].
  exact (answered_error (H := Demo.externals) (H0 := down) _ _ _ _ _ _ exc Hx).
Defined.
End witnesses.
