(* ===== verification/PyTime.v ===== *)
(** * Epoch seconds as ISO-8601 text

    [datetime.fromtimestamp(epoch, tz=timezone.utc).isoformat()] on floats:
    the fraction is scaled to microseconds as a float and rounded half to even,
    as CPython does, and the date is the proleptic Gregorian one. *)

From S2P Require Import Prelude PyStr PyFloat.
From Stdlib Require Import SpecFloat.
Local Open Scope string_scope.
Local Open Scope Z_scope.

Definition fmul : float → float → float := SFmul 53 1024.

(** The year, month and day of a number of days since 1970-01-01. *)
Definition civil_of_days (days : Z) : Z * Z * Z :=
  let z := days + 719468 in
  let era := z / 146097 in
  let doe := z mod 146097 in
  let yoe := (doe - doe / 1460 + doe / 36524 - doe / 146096) / 365 in
  let doy := doe - (365 * yoe + yoe / 4 - yoe / 100) in
  let mp := (5 * doy + 2) / 153 in
  let d := doy - (153 * mp + 2) / 5 + 1 in
  let m := if mp <? 10 then mp + 3 else mp - 9 in
  let y := yoe + era * 400 + (if m <=? 2 then 1 else 0) in
  (y, m, d).

(** [%0wd] of a number that is not negative. *)
Definition padded (w : nat) (z : Z) : string :=
  let s := Z_str z in zeros (w - String.length s) +:+ s.

(** A float that is not negative, rounded half to even. *)
Definition round_even (p q : Z) : Z :=
  let d := p / q in
  let r := p mod q in
  if q <? 2 * r then d + 1
  else if (2 * r =? q) && Z.odd d then d + 1 else d.

(** The fraction [r / q] of a second in whole microseconds. *)
Definition microseconds (r q : Z) : Z :=
  match r, q with
  | Zpos r, Zpos q =>
      match fmul (float_of_ratio false r q) (float_of_Z 1000000) with
      | S754_finite _ m e => let '(a, b) := ratio_of m e in round_even a b
      | _ => 0
      end
  | _, _ => 0
  end.

(** Whole seconds and microseconds since the epoch. *)
Definition split_seconds (f : float) : result (Z * Z) :=
  match f with
  | S754_zero _ => Ok (0, 0)
  | S754_finite neg m e =>
      let '(p, q) := ratio_of m e in
      let s := p / q in
      let us := microseconds (p mod q) q in
      Ok (if neg
          then if us =? 0 then (- s, 0) else (- s - 1, 1000000 - us)
          else if us =? 1000000 then (s + 1, 0) else (s, us))
  | S754_nan => raise_r ValueError "cannot convert float NaN to integer"
  | S754_infinity _ => raise_r ValueError "cannot convert float infinity to integer"
  end.

Definition iso_of_seconds (s us : Z) : result string :=
  let '(y, m, d) := civil_of_days (s / 86400) in
  let t := s mod 86400 in
  if negb ((1 <=? y) && (y <=? 9999)) then raise_r ValueError "year is out of range" else
  Ok (padded 4 y +:+ "-" +:+ padded 2 m +:+ "-" +:+ padded 2 d +:+ "T"
      +:+ padded 2 (t / 3600) +:+ ":" +:+ padded 2 (t mod 3600 / 60) +:+ ":" +:+ padded 2 (t mod 60)
      +:+ (if us =? 0 then EmptyString else "." +:+ padded 6 us) +:+ "+00:00").

Definition iso_of_epoch (f : float) : result string :=
  su ← split_seconds f;
  iso_of_seconds su.1 su.2.

Example iso_leap :
  iso_of_seconds 1709164800 0 = Ok "2024-02-29T00:00:00+00:00".
Proof. reflexivity. Qed.

Example iso_fraction :
  iso_of_epoch (float_of_decimal false 17091648015 (-1)) = Ok "2024-02-29T00:00:01.500000+00:00".
Proof. vm_compute. reflexivity. Qed.

Example iso_before :
  iso_of_epoch (float_of_decimal true 5 (-1)) = Ok "1969-12-31T23:59:59.500000+00:00".
Proof. vm_compute. reflexivity. Qed.
