(* ===== verification/Vault.v ===== *)
(** * Vault (agents/vault/vault.py, agent.py)

    Credentials behind a store, the OAuth 1.0a header, vended tokens with their
    signing closure, the life cycle (store, vend, rotate, revoke) and the agent
    that acknowledges a vend.  The store is an interface with two
    implementations; the OS keyring, [secrets.token_hex] and the parsed [.env]
    file are parameters. *)

From S2P Require Import Prelude PyStr PyFloat PyVal Json JsonText JsonFacts Digest PyTime Contract Registry Metrics HashChain EventStore Agent.
Local Open Scope string_scope.

Definition DEFAULT_TTL_SECONDS : Z := 300.

(** The required fields and default scopes of the one platform, [netsuite]. *)
Definition REQUIRED_FIELDS : list string :=
  ["account_id"; "consumer_key"; "consumer_secret"; "token_id"; "token_secret"].
Definition DEFAULT_SCOPES : list string := ["netsuite:rest:read"; "netsuite:rest:write"].
Definition PLATFORM_ALIASES : list (string * string) :=
  [("netsuite", "netsuite"); ("ns", "netsuite"); ("netsuite_tba", "netsuite")].

(** ** Stores *)
Class CredentialStore (C : Type) : Type := {
  cs_get : string → string → C → result (option pydict);
  cs_put : string → string → pydict → C → C;
  cs_delete : string → string → C → C;
}.

(** What a store promises.  [cs_keeps] are the blobs it gives back as put. *)
Class CredentialStoreLaws (C : Type) `{CredentialStore C} : Type := {
  cs_keeps : pydict → Prop;
  cs_get_put s t b c : cs_keeps b → cs_get s t (cs_put s t b c) = Ok (Some b);
  cs_get_put_ne s t s' t' b c : (s, t) ≠ (s', t') →
    cs_get s t (cs_put s' t' b c) = cs_get s t c;
  cs_get_delete s t c : cs_get s t (cs_delete s t c) = Ok None;
  cs_get_delete_ne s t s' t' c : (s, t) ≠ (s', t') →
    cs_get s t (cs_delete s' t' c) = cs_get s t c;
}.

Module InMemoryCredentialStore.
Record memory_blobs : Type := Store { data : gmap (string * string) pydict }.

Definition mem_get (service tenant_id : string) (c : memory_blobs) : result (option pydict) :=
  Ok (data c !! (service, tenant_id)).
Definition mem_put (service tenant_id : string) (secret : pydict) (c : memory_blobs) : memory_blobs :=
  Store (<[(service, tenant_id) := secret]> (data c)).
Definition mem_delete (service tenant_id : string) (c : memory_blobs) : memory_blobs :=
  Store (delete (service, tenant_id) (data c)).

#[global] Instance memory_credentials : CredentialStore memory_blobs := {
  cs_get := mem_get; cs_put := mem_put; cs_delete := mem_delete
}.

#[global, refine] Instance memory_credentials_laws : CredentialStoreLaws memory_blobs := {
  cs_keeps _ := True
}.
Proof.
  - intros. simpl. unfold mem_get, mem_put. simpl. by rewrite lookup_insert_eq.
  - intros. simpl. unfold mem_get, mem_put. simpl. by rewrite lookup_insert_ne.
  - intros. simpl. unfold mem_get, mem_delete. simpl. by rewrite lookup_delete_eq.
  - intros. simpl. unfold mem_get, mem_delete. simpl. by rewrite lookup_delete_ne.
Defined.
End InMemoryCredentialStore.

Module KeyringCredentialStore.
(** The OS keyring; [delete_password] fails when there is nothing to delete. *)
Class Keyring (K : Type) : Type := {
  get_password : string → string → K → option string;
  set_password : string → string → string → K → K;
  delete_password : string → string → K → option K;
}.

Class KeyringLaws (K : Type) `{Keyring K} : Prop := {
  get_set s t p k : get_password s t (set_password s t p k) = Some p;
  get_set_ne s t s' t' p k : (s, t) ≠ (s', t') →
    get_password s t (set_password s' t' p k) = get_password s t k;
  get_deleted s t k k' : delete_password s t k = Some k' → get_password s t k' = None;
  delete_absent s t k : delete_password s t k = None → get_password s t k = None;
  get_deleted_ne s t s' t' k k' : (s, t) ≠ (s', t') → delete_password s' t' k = Some k' →
    get_password s t k' = get_password s t k;
}.

Record keyring_blobs (K : Type) : Type := Store { namespace : string; ring : K }.
Arguments Store {_} _ _.
Arguments namespace {_} _.
Arguments ring {_} _.

Section keyring.
Context `{KeyringLaws K}.

Definition key_service (service : string) (c : keyring_blobs K) : string :=
  namespace c +:+ ":" +:+ service.

(** [json.loads(raw) if raw else None] *)
Definition parse_blob (raw : option string) : result (option pydict) :=
  match raw with
  | None | Some EmptyString => Ok None
  | Some raw =>
      match loads raw with
      | Some v => Some <$> as_dict v
      | None => raise_r JSONDecodeError "Expecting value"
      end
  end.

Definition key_get (service tenant_id : string) (c : keyring_blobs K) : result (option pydict) :=
  parse_blob (get_password (key_service service c) tenant_id (ring c)).

Definition key_put (service tenant_id : string) (secret : pydict) (c : keyring_blobs K) : keyring_blobs K :=
  Store (namespace c)
    (set_password (key_service service c) tenant_id (dumps Spaced (VDict secret)) (ring c)).

Definition key_delete (service tenant_id : string) (c : keyring_blobs K) : keyring_blobs K :=
  match delete_password (key_service service c) tenant_id (ring c) with
  | Some ring => Store (namespace c) ring
  | None => c
  end.

#[global] Instance keyring_credentials : CredentialStore (keyring_blobs K) := {
  cs_get := key_get; cs_put := key_put; cs_delete := key_delete
}.

Lemma key_service_ne service service' (t t' : string) (c : keyring_blobs K) :
  (service, t) ≠ (service', t') → (key_service service c, t) ≠ (key_service service' c, t').
Proof.
  unfold key_service. intros Hne E. apply Hne. injection E as E ->.
  apply str_app_inj_l in E. by injection E as ->.
Qed.

#[global, refine] Instance keyring_credentials_laws : CredentialStoreLaws (keyring_blobs K) := {
  cs_keeps b := wf_val (VDict b)
}.
Proof.
  - intros s t b c Hb.
    change (parse_blob (get_password (key_service s c) t (set_password (key_service s c) t
              (dumps Spaced (VDict b)) (ring c))) = Ok (Some b)).
    rewrite get_set. unfold parse_blob. pose proof (loads_dumps Spaced (VDict b) Hb) as E.
    destruct (dumps Spaced (VDict b)) as [|x raw]; [discriminate E|]. by rewrite E.
  - intros s t s' t' b c Hne. apply (f_equal parse_blob).
    apply get_set_ne. by apply (key_service_ne _ _ _ _ c).
  - intros s t c. change (key_get s t (key_delete s t c) = Ok None). unfold key_delete, key_get.
    destruct (delete_password _ _ _) as [r|] eqn:E.
    + change (parse_blob (get_password (key_service s c) t r) = Ok None).
      by rewrite (get_deleted _ _ _ _ E).
    + by rewrite (delete_absent _ _ _ E).
  - intros s t s' t' c Hne. change (key_get s t (key_delete s' t' c) = key_get s t c).
    unfold key_delete, key_get. destruct (delete_password _ _ _) as [r|] eqn:E; [|done].
    apply (f_equal parse_blob).
    exact (get_deleted_ne _ _ _ _ _ _ (key_service_ne _ _ _ _ c Hne) E).
Defined.
End keyring.
End KeyringCredentialStore.

(** ** The OAuth 1.0a header *)

(** [quote(str(value), safe="-._~")], on the UTF-8 bytes. *)
Definition unreserved (n : N) : bool :=
  (((48 <=? n) && (n <=? 57)) || ((65 <=? n) && (n <=? 90)) || ((97 <=? n) && (n <=? 122))
   || existsb (N.eqb n) [45; 46; 95; 126])%N.

Definition percent_byte (n : N) : string :=
  if unreserved n then str1 n else "%" +:+ upper (hex2 n).

Fixpoint percent (s : string) : string :=
  match s with
  | EmptyString => EmptyString
  | String c s => percent_byte (N_of_ascii c) +:+ percent s
  end.

Definition percent_val (v : pyval) : string := percent (py_str v).

Definition oauth_params (consumer_key token_id : pyval) (nonce timestamp : string) : pydict :=
  [("oauth_consumer_key", consumer_key); ("oauth_token", token_id);
   ("oauth_signature_method", VStr "HMAC-SHA256"); ("oauth_timestamp", VStr timestamp);
   ("oauth_nonce", VStr nonce); ("oauth_version", VStr "1.0")].

Definition normalized_params (signed : pydict) : string :=
  join "&" (map (λ kv : string * pyval, percent kv.1 +:+ "=" +:+ percent_val kv.2) (sort_dict signed)).

Definition base_string (http_method url : string) (signed : pydict) : string :=
  join "&" [upper http_method; percent url; percent (normalized_params signed)].

Definition signature_of (signing_key text : string) : string :=
  b64encode (hmac_sha256 (bytes_of signing_key) (bytes_of text)).

Definition oauth_header (creds : pydict) (http_method url : string) (query_params : option pydict)
    (nonce timestamp : string) : result string :=
  consumer_key ← getitem "consumer_key" creds;
  token_id ← getitem "token_id" creds;
  let params := oauth_params consumer_key token_id nonce timestamp in
  let signed := dupdate (default [] query_params) params in
  consumer_secret ← getitem "consumer_secret" creds;
  token_secret ← getitem "token_secret" creds;
  let signing_key := percent_val consumer_secret +:+ "&" +:+ percent_val token_secret in
  let signature := signature_of signing_key (base_string http_method url signed) in
  account_id ← getitem "account_id" creds;
  let quoted (k v : string) := k +:+ "=" +:+ dquote +:+ v +:+ dquote in
  Ok ("OAuth " +:+ join ", "
    (quoted "realm" (percent (upper (py_str account_id)))
     :: map (λ kv : string * pyval, quoted (percent kv.1) (percent_val kv.2))
          (sort_dict (dset "oauth_signature" (VStr signature) params)))).

(** ** Vended tokens *)

(** [method url params nonce timestamp] *)
Definition signer : Type := string → string → option pydict → string → string → result string.

Record vended_token : Type := VendedToken {
  tk_tenant_id : string;
  tk_erp_platform : string;
  tk_realm : string;
  tk_consumer_key : pyval;
  tk_token_id : pyval;
  tk_scopes : list string;
  tk_issued_at : float;
  tk_expires_at : float;
  tk_signature_method : string;
  tk_oauth_version : string;
  tk_signer : signer;
}.

Definition is_expired (t : vended_token) (now : float) : bool := fleb (tk_expires_at t) now.

(** Random nonces: the [n]-th is [token_hex n]. *)
Class Nonces : Type := token_hex : nat → string.

Section token.
Context `{Externals} `{Nonces} {T : Type}.

Definition authorization_header (t : vended_token) (http_method url : string)
    (params : option pydict) (nonce : option string) (timestamp : option Z) (now : option float)
    : M (world T) string :=
  now ← match now with Some f => mret f | None => fresh clock_time end;
  if is_expired t now
  then raise TokenExpired ("vended token for " +:+ tk_tenant_id t +:+ "/" +:+ tk_erp_platform t
         +:+ " expired")
  else
    nonce ← match nonce with
            | Some ((String _ _) as n) => mret n
            | _ => fresh token_hex
            end;
    ts ← match timestamp with
         | Some z => mret (Z_str z)
         | None => f ← fresh clock_time; z ← of_result (float_trunc f); mret (Z_str z)
         end;
    of_result (tk_signer t http_method url params nonce ts).
End token.

(** ** The manager *)
Record vault (C : Type) : Type := Vault { vt_store : C; vt_default_ttl : Z }.
Arguments Vault {_} _ _.
Arguments vt_store {_} _.
Arguments vt_default_ttl {_} _.

Definition normalize_platform (erp_platform : string) : result string :=
  match dget (lower (strip erp_platform)) PLATFORM_ALIASES with
  | Some key => Ok key
  | None => raise_r UnsupportedPlatform ("unsupported ERP platform: " +:+ str_repr erp_platform)
  end.

Definition missing_fields (credentials : pydict) : list string :=
  sorted_strs (filter (λ f, f ∉ dkeys credentials) REQUIRED_FIELDS).

Definition not_found {A} (platform tenant_id : string) : result A :=
  raise_r CredentialNotFound
    ("no " +:+ platform +:+ " credentials stored for tenant " +:+ str_repr tenant_id).

Section vault.
Context `{CredentialStore C}.

Definition with_store (c : C) (v : vault C) : vault C := Vault c (vt_default_ttl v).

Definition store_credentials (tenant_id erp_platform : string) (credentials : pydict)
    : M (vault C) unit :=
  platform ← of_result (normalize_platform erp_platform);
  match missing_fields credentials with
  | [] => modify (λ v, with_store (cs_put platform tenant_id credentials (vt_store v)) v)
  | missing => raise ValueError
      (platform +:+ " credentials missing fields: " +:+ py_repr (VList (map VStr missing)))
  end.

(** [dotenv_values] gives the parsed file: keys with or without a value. *)
Definition dotenv_credentials (prefix : string) (raw : list (string * option string)) : pydict :=
  dict_of (omap (λ kv : string * option string,
    if startswith prefix kv.1
    then v ← kv.2; Some (lower (removeprefix prefix kv.1), VStr v) else None) raw).

Definition load_from_dotenv (tenant_id erp_platform : string) (raw : list (string * option string))
    : M (vault C) unit :=
  platform ← of_result (normalize_platform erp_platform);
  store_credentials tenant_id platform (dotenv_credentials (upper platform +:+ "_") raw).

(** The stored blob of a tenant, or [CredentialNotFound]. *)
Definition lookup_credentials (tenant_id erp_platform : string) (v : vault C)
    : result (string * pydict) :=
  platform ← normalize_platform erp_platform;
  creds ← cs_get platform tenant_id (vt_store v);
  match creds with
  | None => not_found platform tenant_id
  | Some creds => Ok (platform, creds)
  end.

Definition issue (tenant_id platform : string) (creds : pydict) (scopes : option (list string))
    (issued_at : float) (lifetime : Z) : result vended_token :=
  account_id ← getitem "account_id" creds;
  consumer_key ← getitem "consumer_key" creds;
  token_id ← getitem "token_id" creds;
  Ok (VendedToken tenant_id platform (py_str account_id) consumer_key token_id
        (default DEFAULT_SCOPES scopes) issued_at (fadd issued_at (float_of_Z lifetime))
        "HMAC-SHA256" "1.0" (oauth_header creds)).

(** Vending reads the store and the clock; nothing is written. *)
Definition vend_token `{Externals} {T : Type} (v : vault C) (tenant_id erp_platform : string)
    (scopes : option (list string)) (ttl : option Z) (now : option float)
    : M (world T) vended_token :=
  found ← of_result (lookup_credentials tenant_id erp_platform v);
  issued_at ← match now with Some f => mret f | None => fresh clock_time end;
  of_result (issue tenant_id found.1 found.2 scopes issued_at (default (vt_default_ttl v) ttl)).

Definition rotate_token (tenant_id erp_platform token_id token_secret : string)
    : M (vault C) unit :=
  found ← (λ v, (lookup_credentials tenant_id erp_platform v, v));
  modify (λ v, with_store (cs_put found.1 tenant_id
    (dset "token_secret" (VStr token_secret) (dset "token_id" (VStr token_id) found.2))
    (vt_store v)) v).

Definition revoke (tenant_id erp_platform : string) : M (vault C) unit :=
  platform ← of_result (normalize_platform erp_platform);
  modify (λ v, with_store (cs_delete platform tenant_id (vt_store v)) v).
End vault.

(** ** The agent (agent.py) *)

Definition granted_payload (t : vended_token) : result pydict :=
  expires_at ← iso_of_epoch (tk_expires_at t);
  issued_at ← iso_of_epoch (tk_issued_at t);
  Ok [("tenant_id", VStr (tk_tenant_id t)); ("erp_platform", VStr (tk_erp_platform t));
      ("token_id", tk_token_id t); ("scopes", VList (map VStr (tk_scopes t)));
      ("expires_at", VStr expires_at); ("issued_at", VStr issued_at)].

Definition denied_payload (tenant_id erp_platform reason requested_at : string) : pydict :=
  [("tenant_id", VStr tenant_id); ("erp_platform", VStr erp_platform);
   ("reason", VStr reason); ("requested_at", VStr requested_at)].

Section agent.
Context `{Externals} `{EventStore T} `{CredentialStore C}.
#[local] Notation P := (proc T (vault C)) (only parsing).

Definition handle_secret (event : event) : M P unit :=
  tenant_id ← of_result (get_str "tenant_id" (ev_payload event));
  platform ← of_result (get_str "erp_platform" (ev_payload event));
  v ← gets p_agent;
  outcome ← try_excepts
    (inl <$> in_world (vend_token v tenant_id platform None None None))
    [CredentialNotFound; VaultError] (λ exc, mret (inr exc));
  match outcome with
  | inr exc =>
      at_ ← in_world (fresh clock_iso);
      emit_new "vault" "vault.secret.denied" 1 (ev_correlation_id event) None
        (denied_payload tenant_id platform (exn_msg exc) at_)
  | inl token =>
      payload ← of_result (granted_payload token);
      emit_new "vault" "vault.secret.granted" 1 (ev_correlation_id event) None payload
  end.

#[export] Instance vault_agent : Agent T (vault C) := {
  agent_name := "vault";
  subjects := ["vault.secret.request"];
  handle := handle_secret;
}.
End agent.

Lemma keeps_vend_token `{Externals} `{EventStoreLaws T} `{CredentialStore C} (v : vault C)
    tenant_id platform scopes ttl now :
  keeps (evolves (T := T)) (vend_token v tenant_id platform scopes ttl now).
Proof. unfold vend_token. keeps_tac. Qed.
#[export] Hint Resolve keeps_vend_token : keeps.

#[export] Instance vault_disciplined `{Externals} `{EventStoreLaws T} `{CredentialStore C} :
  Disciplined (T := T) (A := vault C).
Proof. intros e. simpl. unfold handle_secret. keeps_tac. Qed.

(** ** The life cycle refines a table of credentials

    [held v t] is what the vault holds for a tenant; the specification of an
    operation is its effect on that table alone. *)
Inductive vault_op : Type :=
  | OpStore (tenant_id erp_platform : string) (credentials : pydict)
  | OpRotate (tenant_id erp_platform token_id token_secret : string)
  | OpRevoke (tenant_id erp_platform : string).

Definition op_run `{CredentialStore C} (o : vault_op) : M (vault C) unit :=
  match o with
  | OpStore t p b => store_credentials t p b
  | OpRotate t p i s => rotate_token t p i s
  | OpRevoke t p => revoke t p
  end.

Definition held `{CredentialStore C} (v : vault C) (t : string) : result (option pydict) :=
  cs_get "netsuite" t (vt_store v).

Definition rotated (token_id token_secret : string) (b : pydict) : pydict :=
  dset "token_secret" (VStr token_secret) (dset "token_id" (VStr token_id) b).

(** The outcome of an operation and the table it leaves. *)
Definition op_spec (o : vault_op) (table : string → result (option pydict))
    : result unit * (string → result (option pydict)) :=
  let set t x := λ t', if decide (t' = t) then x else table t' in
  match o with
  | OpStore t p b =>
      match normalize_platform p with
      | Err e => (Err e, table)
      | Ok platform =>
          match missing_fields b with
          | [] => (Ok tt, set t (Ok (Some b)))
          | missing => (raise_r ValueError (platform +:+ " credentials missing fields: "
                         +:+ py_repr (VList (map VStr missing))), table)
          end
      end
  | OpRotate t p i s =>
      match normalize_platform p with
      | Err e => (Err e, table)
      | Ok platform =>
          match table t with
          | Err e => (Err e, table)
          | Ok None => (not_found platform t, table)
          | Ok (Some b) => (Ok tt, set t (Ok (Some (rotated i s b))))
          end
      end
  | OpRevoke t p =>
      match normalize_platform p with
      | Err e => (Err e, table)
      | Ok _ => (Ok tt, set t (Ok None))
      end
  end.

(** The blobs an operation puts are ones the store keeps. *)
Definition op_keeps `{CredentialStoreLaws C} (o : vault_op) : Prop :=
  match o with
  | OpStore _ _ b => cs_keeps b
  | OpRotate _ _ i s => ∀ b, cs_keeps b → cs_keeps (rotated i s b)
  | OpRevoke _ _ => True
  end.

Lemma normalize_netsuite p k : normalize_platform p = Ok k → k = "netsuite".
Proof.
  unfold normalize_platform, PLATFORM_ALIASES. cbn [dget].
  repeat (destruct (String.eqb _ _); [by intros [= <-]|]). done.
Qed.

Section lifecycle.
Context `{CredentialStoreLaws C}.

Definition kept (v : vault C) : Prop := ∀ t b, held v t = Ok (Some b) → cs_keeps b.

Lemma op_refines o (v : vault C) r v' :
  op_keeps o → kept v → op_run o v = (r, v') →
  r = (op_spec o (held v)).1 ∧ (∀ t, held v' t = (op_spec o (held v)).2 t)
  ∧ vt_default_ttl v' = vt_default_ttl v ∧ kept v'.
Proof.
  assert (Hput : ∀ t b, cs_keeps b → kept v →
    let v1 := with_store (cs_put "netsuite" t b (vt_store v)) v in
    (∀ t', held v1 t' = if decide (t' = t) then Ok (Some b) else held v t') ∧ kept v1).
  { intros t b Hb Hk v1.
    assert (Hh : ∀ t', held v1 t' = if decide (t' = t) then Ok (Some b) else held v t').
    { intros t'. unfold held, v1. cbn [vt_store with_store].
      case_decide as E; [subst; by apply cs_get_put|]. apply cs_get_put_ne. congruence. }
    split; [done|]. intros t' b'. rewrite Hh. case_decide; [by intros [= <-]|apply Hk]. }
  intros Ho Hk E. destruct o as [t p b|t p i s|t p]; cbn [op_run op_spec op_keeps] in *.
  - unfold store_credentials, mbind, M_bind, of_result in E.
    destruct (normalize_platform p) as [platform|e] eqn:Ep; [|by injection E as <- <-].
    apply normalize_netsuite in Ep as ->.
    destruct (missing_fields b); injection E as <- <-; [|done].
    destruct (Hput t b Ho Hk). done.
  - unfold rotate_token, lookup_credentials in E. unfold mbind, M_bind, result_bind in E.
    destruct (normalize_platform p) as [platform|e] eqn:Ep; [|by injection E as <- <-].
    apply normalize_netsuite in Ep as ->. fold (held v t) in E.
    destruct (held v t) as [[b|]|e] eqn:Eh; injection E as <- <-; [|done|done].
    destruct (Hput t (rotated i s b) (Ho b (Hk _ _ Eh)) Hk). done.
  - unfold revoke, mbind, M_bind, of_result in E.
    destruct (normalize_platform p) as [platform|e] eqn:Ep; [|by injection E as <- <-].
    apply normalize_netsuite in Ep as ->. injection E as <- <-.
    assert (Hh : ∀ t', held (with_store (cs_delete "netsuite" t (vt_store v)) v) t'
              = if decide (t' = t) then Ok None else held v t').
    { intros t'. unfold held. cbn [vt_store with_store].
      case_decide as E; [subst; by apply cs_get_delete|]. apply cs_get_delete_ne. congruence. }
    split_and!; [done|done|done|]. intros t' b'. rewrite Hh. case_decide; [done|apply Hk].
Qed.
End lifecycle.

Lemma op_spec_ext o table table' :
  (∀ t, table t = table' t) →
  (op_spec o table).1 = (op_spec o table').1 ∧ ∀ t, (op_spec o table).2 t = (op_spec o table').2 t.
Proof.
  intros E. destruct o as [t p b|t p i s|t p]; cbn [op_spec].
  - destruct (normalize_platform p); [|done]. destruct (missing_fields b); [|done].
    split; [done|]. intros t'. simpl. by rewrite E.
  - destruct (normalize_platform p); [|done]. rewrite E.
    destruct (table' t) as [[b|]|]; [|done..]. split; [done|]. intros t'. simpl. by rewrite E.
  - destruct (normalize_platform p); [|done]. split; [done|]. intros t'. simpl. by rewrite E.
Qed.

(** A sequence of calls, each with the outcome its caller sees. *)
Fixpoint ops_run `{CredentialStore C} (ops : list vault_op) (v : vault C)
    : list (result unit) * vault C :=
  match ops with
  | [] => ([], v)
  | o :: ops =>
      let '(r, v) := op_run o v in
      let '(rs, v) := ops_run ops v in (r :: rs, v)
  end.

Fixpoint ops_spec (ops : list vault_op) (table : string → result (option pydict))
    : list (result unit) * (string → result (option pydict)) :=
  match ops with
  | [] => ([], table)
  | o :: ops =>
      let '(r, table) := op_spec o table in
      let '(rs, table) := ops_spec ops table in (r :: rs, table)
  end.

Lemma ops_spec_ext ops table table' :
  (∀ t, table t = table' t) →
  (ops_spec ops table).1 = (ops_spec ops table').1
  ∧ ∀ t, (ops_spec ops table).2 t = (ops_spec ops table').2 t.
Proof.
  revert table table'. induction ops as [|o ops IH]; intros table table' E; [done|].
  cbn [ops_spec]. destruct (op_spec_ext o table table' E) as [Er Et].
  destruct (op_spec o table) as [r1 t1], (op_spec o table') as [r2 t2]. cbn [fst snd] in *.
  destruct (IH t1 t2 Et) as [Ers Ets].
  destruct (ops_spec ops t1) as [rs1 u1], (ops_spec ops t2) as [rs2 u2]. cbn [fst snd] in *.
  by rewrite Er, Ers.
Qed.

(** C31: the vault is a table of credentials, one row per tenant.  Whatever
    sequence of store, rotate and revoke calls it takes, each call returns or
    raises what the table specification says, and what the vault then holds
    for every tenant is the row the specification computes: a call changes
    only its own tenant's row, a rotation changes only the token pair, a
    revocation leaves nothing, and every alias of the platform is the same. *)
Theorem vault_refines_table `{CredentialStoreLaws C} ops (v : vault C) :
  Forall op_keeps ops → kept v →
  (ops_run ops v).1 = (ops_spec ops (held v)).1
  ∧ (∀ t, held (ops_run ops v).2 t = (ops_spec ops (held v)).2 t)
  ∧ vt_default_ttl (ops_run ops v).2 = vt_default_ttl v.
Proof.
  intros Ho. revert v. induction Ho as [|o ops Ho _ IH]; intros v Hk; [done|].
  cbn [ops_run ops_spec]. destruct (op_run o v) as [r v1] eqn:E.
  destruct (op_refines o v r v1 Ho Hk E) as (-> & Ht & Hd & Hk1).
  destruct (IH v1 Hk1) as (Ers & Ets & Ed).
  destruct (ops_run ops v1) as [rs v2]. cbn [fst snd] in *.
  destruct (op_spec o (held v)) as [r1 t1]. cbn [fst snd] in *.
  destruct (ops_spec_ext ops (held v1) t1 Ht) as [Es Et].
  destruct (ops_spec ops t1) as [rs1 u1]. cbn [fst snd] in *.
  rewrite Ers, Es, Ed, Hd. split_and!; [done| |done]. intros t. by rewrite Ets, Et.
Qed.

(** ** A vended token *)

Definition secret_fields : list string := ["consumer_secret"; "token_secret"].

(** Blobs that a reader of the public fields cannot tell apart. *)
Definition same_public (b b' : pydict) : Prop :=
  ∀ k, k ∈ ["account_id"; "consumer_key"; "token_id"] → dget k b = dget k b'.

#[export] Instance same_public_equivalence : Equivalence same_public.
Proof.
  unfold same_public. split; [done|intros b b' E k Hk; by rewrite E|].
  intros b1 b2 b3 E1 E2 k Hk. by rewrite E1, E2.
Qed.

(** The same answer of a store, but for the secrets. *)
Inductive same_view : result (option pydict) → result (option pydict) → Prop :=
  | same_err e : same_view (Err e) (Err e)
  | same_none : same_view (Ok None) (Ok None)
  | same_some b b' : same_public b b' → same_view (Ok (Some b)) (Ok (Some b')).

#[export] Instance same_view_equivalence : Equivalence same_view.
Proof.
  split.
  - intros [[b|]|e]; constructor. done.
  - intros ?? []; constructor. by symmetry.
  - intros ??? [] Hv; inversion Hv; subst; constructor. by etrans.
Qed.

Definition public_eq `{CredentialStore C} (v v' : vault C) : Prop :=
  vt_default_ttl v = vt_default_ttl v' ∧ ∀ t, same_view (held v t) (held v' t).

(** Tokens alike in every attribute but the signing closure. *)
Definition same_token (t t' : vended_token) : Prop :=
  ∃ sg, t' = VendedToken (tk_tenant_id t) (tk_erp_platform t) (tk_realm t) (tk_consumer_key t)
    (tk_token_id t) (tk_scopes t) (tk_issued_at t) (tk_expires_at t) (tk_signature_method t)
    (tk_oauth_version t) sg.

Definition same_outcome (r r' : result vended_token) : Prop :=
  match r, r' with
  | Ok t, Ok t' => same_token t t'
  | Err e, Err e' => e = e'
  | _, _ => False
  end.

Lemma issue_public tenant_id platform b b' scopes issued_at lifetime :
  same_public b b' →
  same_outcome (issue tenant_id platform b scopes issued_at lifetime)
    (issue tenant_id platform b' scopes issued_at lifetime).
Proof.
  intros Hp. unfold issue, getitem.
  rewrite <-(Hp "account_id") by set_solver. rewrite <-(Hp "consumer_key") by set_solver.
  rewrite <-(Hp "token_id") by set_solver.
  destruct (dget "account_id" b); [|done]. destruct (dget "consumer_key" b); [|done].
  destruct (dget "token_id" b); [|done]. eexists. reflexivity.
Qed.

Lemma vend_public `{Externals} `{CredentialStore C} {T} (v v' : vault C) tenant_id platform scopes
    ttl now (w : world T) :
  public_eq v v' →
  same_outcome (vend_token v tenant_id platform scopes ttl now w).1
    (vend_token v' tenant_id platform scopes ttl now w).1
  ∧ (vend_token v tenant_id platform scopes ttl now w).2
    = (vend_token v' tenant_id platform scopes ttl now w).2.
Proof.
  intros [Hd Hv]. unfold vend_token, lookup_credentials, mbind, M_bind, of_result, result_bind.
  rewrite <-Hd. destruct (normalize_platform platform) as [k|e] eqn:Ek; [|done].
  apply normalize_netsuite in Ek as ->. specialize (Hv tenant_id). unfold held in Hv.
  destruct Hv as [e| |b b' Hp]; [done|done|].
  destruct now; simpl; (split; [by apply issue_public|done]).
Qed.

Lemma granted_public t t' : same_token t t' → granted_payload t' = granted_payload t.
Proof. by intros [sg ->]. Qed.

(** A rotation to the same token id, with another secret, does not show. *)
Lemma rotated_public i s s' b : same_public (rotated i s b) (rotated i s' b).
Proof. intros k Hk. unfold rotated. rewrite !dget_dset. case_decide; [set_solver|done]. Qed.

(** The agent's run, event for event, does not depend on the secrets. *)
Lemma handle_secret_public `{Externals} `{EventStore T} `{CredentialStore C} ev (v v' : vault C)
    (w : world T) :
  public_eq v v' →
  (handle_secret ev (Proc w v)).1 = (handle_secret ev (Proc w v')).1
  ∧ p_world (handle_secret ev (Proc w v)).2 = p_world (handle_secret ev (Proc w v')).2.
Proof.
  intros Hv. unfold handle_secret.
  destruct (get_str "tenant_id" (ev_payload ev)) as [t|e]; [|done].
  destruct (get_str "erp_platform" (ev_payload ev)) as [p|e]; [|done].
  unfold mbind, M_bind, of_result, gets, try_excepts, fmap, M_fmap, in_world, zoom. cbn [p_world p_agent].
  assert (Hemit : ∀ name subject n c o payload (w0 : world T),
    (emit_new (A := vault C) name subject n c o payload (Proc w0 v)).1
      = (emit_new name subject n c o payload (Proc w0 v')).1
    ∧ p_world (emit_new (A := vault C) name subject n c o payload (Proc w0 v)).2
      = p_world (emit_new name subject n c o payload (Proc w0 v')).2).
  { intros. unfold emit_new, in_world, zoom. cbn [p_world p_agent].
    by case_match. }
  destruct (vend_public v v' t p None None None w Hv) as [Ho Hw].
  destruct (vend_token v t p None None None w) as [[tk|e] w1],
    (vend_token v' t p None None None w) as [[tk'|e'] w1']; cbn [fst snd] in *; try done; subst.
  - apply granted_public in Ho. cbn. rewrite Ho. destruct (granted_payload tk) as [pl|x]; [apply Hemit|done].
  - simpl in Ho. subst e'. destruct (existsb _ _); [apply Hemit|done].
Qed.

(** ** A concrete life cycle *)
Module LifeCycleDemo.
Import InMemoryCredentialStore.
Definition creds : pydict :=
  [("account_id", VStr "1"); ("consumer_key", VStr "ck"); ("consumer_secret", VStr "cs");
   ("token_id", VStr "ti"); ("token_secret", VStr "ts")].
Definition ops : list vault_op :=
  [OpRotate "acme" "ns" "t2" "s2"; OpStore "acme" " NetSuite " creds; OpStore "bolt" "ns" creds;
   OpRotate "acme" "ns" "t2" "s2"; OpRevoke "bolt" "netsuite_tba"; OpStore "acme" "sap" creds].
Definition empty : vault memory_blobs := Vault (Store ∅) DEFAULT_TTL_SECONDS.
End LifeCycleDemo.

Section witnesses.
Import LifeCycleDemo.

Lemma vault_refines_table_witness :
  (ops_run ops empty).1
    = [not_found "netsuite" "acme"; Ok tt; Ok tt; Ok tt; Ok tt;
       raise_r UnsupportedPlatform "unsupported ERP platform: 'sap'"]
  ∧ held (ops_run ops empty).2 "acme" = Ok (Some (rotated "t2" "s2" creds))
  ∧ held (ops_run ops empty).2 "bolt" = Ok None.
Proof.
  destruct (vault_refines_table ops empty) as (Er & Eh & _).
  - repeat constructor.
  - intros t b Hh. exact I.
  - rewrite Er, !Eh. split; [vm_compute; reflexivity|]. split; vm_compute; reflexivity.
Defined.
End witnesses.
