(* ===== verification/VaultService.v ===== *)
(** * The Vault service (agents/vault/service.py, shared/auth.py)

    The request logic of [/vend] and [/sign], the HTTP handler in front of it
    with its authentication and tenant gate, and the constant-time checks.  A
    request is its method, path, headers and body; a response is the one status
    and payload sent.  The socket, the header bytes and the server loop are
    left out. *)

From S2P Require Import Prelude PyStr PyFloat PyVal Json Digest PyTime Contract Registry Metrics HashChain EventStore Agent Vault.
Local Open Scope string_scope.

(** ** Authentication (shared/auth.py) *)

(** [hmac.compare_digest] on the UTF-8 bytes; only the answer is modelled. *)
Definition constant_time_compare (a b : string) : bool := String.eqb a b.

Definition verify_shared_secret (provided : option string) (expected : string) : bool :=
  match provided with
  | None | Some EmptyString => false
  | Some p => negb (str_empty expected) && constant_time_compare p expected
  end.

Definition compute_signature (body secret : string) : string :=
  hexdigest (hmac_sha256 (bytes_of secret) (bytes_of body)).

Fixpoint is_ascii (s : string) : bool :=
  match s with
  | EmptyString => true
  | String c s => (N_of_ascii c <? 128)%N && is_ascii s
  end.

(** The comparison of two strings is a [TypeError] unless both are ASCII; the
    hex digest is. *)
Definition verify_signature (body : string) (provided_sig : option string) (secret : string)
    : result bool :=
  match provided_sig with
  | None | Some EmptyString => Ok false
  | Some sig =>
      if str_empty secret then Ok false
      else if is_ascii sig then Ok (String.eqb sig (compute_signature body secret))
      else raise_r TypeError "comparing strings with non-ASCII characters is not supported"
  end.

(** ** The request logic *)
Notation response := (Z * pydict)%type (only parsing).

Definition error_body (msg : string) : pydict := [("error", VStr msg)].

(** [isinstance(v, str) and v] *)
Definition nonempty_str (v : pyval) : option string :=
  match v with VStr (String c s) => Some (String c s) | _ => None end.

(** The public attributes of a token; the expiry travels as a float. *)
Definition vended_body (t : vended_token) : pydict :=
  [("tenant_id", VStr (tk_tenant_id t)); ("erp_platform", VStr (tk_erp_platform t));
   ("realm", VStr (tk_realm t)); ("consumer_key", tk_consumer_key t);
   ("token_id", tk_token_id t); ("scopes", VList (map VStr (tk_scopes t)));
   ("signature_method", VStr (tk_signature_method t)); ("expires_at", VFloat (tk_expires_at t))].

(** The [except] clauses, in order. *)
Definition vault_error_status (exc : exn) : option Z :=
  if isinstance exc CredentialNotFound then Some 404%Z
  else if isinstance exc UnsupportedPlatform || isinstance exc TokenExpired then Some 400%Z
  else if isinstance exc VaultError then Some 500%Z
  else None.

(** [vend] has no clause for [TokenExpired], which vending never raises. *)
Definition vend_error_status (exc : exn) : option Z :=
  if isinstance exc CredentialNotFound then Some 404%Z
  else if isinstance exc UnsupportedPlatform then Some 400%Z
  else if isinstance exc VaultError then Some 500%Z
  else None.

Section service.
Context `{Externals} `{Nonces} `{CredentialStore C} {T : Type}.
#[local] Notation W := (world T) (only parsing).
Variable v : vault C.

Definition answer_or (status : exn → option Z) (m : M W response) : M W response := λ w,
  match m w with
  | (Ok r, w) => (Ok r, w)
  | (Err exc, w) =>
      match status exc with
      | Some z => (Ok (z, error_body (exn_msg exc)), w)
      | None => (Err exc, w)
      end
  end.

Definition vend (body : pydict) : M W response :=
  match nonempty_str (get_or "tenant_id" VNone body), nonempty_str (get_or "erp_platform" VNone body) with
  | Some tenant_id, Some erp_platform =>
      answer_or vend_error_status
        (token ← vend_token v tenant_id erp_platform None None None;
         mret (200%Z, vended_body token))
  | _, _ => mret (400%Z, error_body "tenant_id and erp_platform are required")
  end.

(** [params] is handed on as it is: [None] or a dict. *)
Definition params_of (body : pydict) : result (option pydict) :=
  match get_or "params" VNone body with
  | VNone => Ok None
  | v => Some <$> as_dict v
  end.

Definition sign (body : pydict) : M W response :=
  match nonempty_str (get_or "tenant_id" VNone body), nonempty_str (get_or "erp_platform" VNone body),
        nonempty_str (get_or "method" VNone body), nonempty_str (get_or "url" VNone body) with
  | Some tenant_id, Some erp_platform, Some method, Some url =>
      answer_or vault_error_status
        (token ← vend_token v tenant_id erp_platform None None None;
         params ← of_result (params_of body);
         header ← authorization_header token method url params None None None;
         mret (200%Z, [("authorization_header", VStr header);
                       ("expires_at", VFloat (tk_expires_at token))]))
  | _, _, _, _ => mret (400%Z, error_body "tenant_id, erp_platform, method, url are required")
  end.

(** ** The HTTP handler *)
Definition AUTH_HEADER : string := "X-Cavi-Vault-Secret".

Record request : Type := Request {
  rq_path : string;
  rq_auth : option string;
  rq_content_length : option string;
  rq_body : string;
}.

Variable api_secret : string.
Variable tenant_allowlist : list string.

Definition do_GET (path : string) : response :=
  if String.eqb path "/healthz" then (200%Z, [("status", VStr "ok")])
  else (404%Z, error_body "not found").

(** [None] when authorized, else the refusal sent. *)
Definition refusal (q : request) : option response :=
  if str_empty api_secret then Some (503%Z, error_body "vault authentication not configured")
  else if negb (verify_shared_secret (rq_auth q) api_secret)
       then Some (401%Z, error_body "unauthorized")
       else None.

(** The bytes the declared length selects, as UTF-8 text; a length that is no number is a
    [ValueError], and a negative one (read to the end) is left out. *)
Definition read_body (q : request) : result string :=
  n ← match rq_content_length q with
      | None | Some EmptyString => Ok 0%Z
      | Some l => py_int (VStr l)
      end;
  if (n <? 0)%Z then ill_typed "Content-Length" else
  Ok (if (n =? 0)%Z then "{}" else
      match String.substring 0 (Z.to_nat n) (rq_body q) with
      | EmptyString => "{}"
      | raw => raw
      end).

(** [body.get("tenant_id") not in tenant_allowlist] *)
Definition tenant_permitted (body : pydict) : result bool :=
  match tenant_allowlist with
  | [] => Ok true
  | l => match get_or "tenant_id" VNone body with
         | VStr t => Ok (bool_decide (t ∈ l))
         | VList _ | VDict _ => raise_r TypeError "unhashable type"
         | _ => Ok false
         end
  end.

Definition do_POST (q : request) : M W response :=
  if negb (bool_decide (rq_path q ∈ ["/vend"; "/sign"])) then mret (404%Z, error_body "not found") else
  match refusal q with
  | Some r => mret r
  | None =>
      raw ← of_result (read_body q);
      match loads raw with
      | None => mret (400%Z, error_body "invalid JSON body")
      | Some parsed =>
          body ← of_result (match parsed with
                            | VDict d => Ok d
                            | _ => raise_r AttributeError "object has no attribute 'get'"
                            end);
          permitted ← of_result (tenant_permitted body);
          if negb permitted then mret (403%Z, error_body "tenant not permitted")
          else if String.eqb (rq_path q) "/vend" then vend body else sign body
      end
  end.
End service.

(** ** The gate *)

Lemma verify_shared_secret_spec provided expected :
  verify_shared_secret provided expected = true ↔ provided = Some expected ∧ expected ≠ EmptyString.
Proof.
  unfold verify_shared_secret, constant_time_compare. destruct provided as [[|c p]|].
  - split; [done|]. intros [[= <-] ?]. done.
  - rewrite andb_true_iff, String.eqb_eq. split.
    + intros [_ <-]. done.
    + intros [[= <-] _]. done.
  - split; [done|by intros [? _]].
Qed.

Lemma refusal_None api_secret q :
  refusal api_secret q = None → rq_auth q = Some api_secret ∧ api_secret ≠ EmptyString.
Proof.
  unfold refusal. destruct (str_empty api_secret); [done|].
  destruct (verify_shared_secret (rq_auth q) api_secret) eqn:Ev; [|done].
  by apply verify_shared_secret_spec in Ev.
Qed.

Lemma refusal_Some api_secret q status payload :
  refusal api_secret q = Some (status, payload) → status ≠ 200%Z ∧ status ∈ [401; 503]%Z.
Proof. unfold refusal. repeat case_match; intros [= <- <-]; (split; [done|set_solver]). Qed.

Lemma permitted_allowed allowlist body t :
  tenant_permitted allowlist body = Ok true → get_or "tenant_id" VNone body = VStr t →
  allowlist = [] ∨ t ∈ allowlist.
Proof.
  unfold tenant_permitted. intros Et Ht. rewrite Ht in Et.
  destruct allowlist; [by left|]. injection Et as Et. right. by apply bool_decide_eq_true in Et.
Qed.

(** A signature a holder of the secret computes is accepted, and nothing else
    is; an unset secret or a missing signature is refused. *)
Lemma verify_signature_spec body provided secret :
  verify_signature body provided secret = Ok true ↔
    secret ≠ EmptyString ∧ is_ascii (compute_signature body secret) = true
    ∧ provided = Some (compute_signature body secret) ∧ provided ≠ Some EmptyString.
Proof.
  unfold verify_signature. generalize (compute_signature body secret). intros real.
  destruct provided as [[|c sig]|]; [naive_solver| |naive_solver].
  destruct secret as [|d secret]; [naive_solver|]. cbn [str_empty].
  destruct (is_ascii (String c sig)) eqn:Ea.
  - split.
    + destruct (String.eqb_spec (String c sig) real) as [<-|]; [done|]. intros E. discriminate E.
    + intros (_ & _ & E & _). injection E as <-. by rewrite String.eqb_refl.
  - split; [done|]. intros (_ & Hr & E & _). injection E as <-. congruence.
Qed.

Lemma nonempty_str_Some v s : nonempty_str v = Some s ↔ v = VStr s ∧ s ≠ EmptyString.
Proof. destruct v as [| | | |[|c t]| |]; simpl; naive_solver. Qed.

Section gate.
Context `{Externals} `{Nonces} `{CredentialStore C} {T : Type}.
#[local] Notation W := (world T) (only parsing).

Lemma answer_or_200 status (m : M W response) w body w' :
  (∀ e, status e ≠ Some 200%Z) →
  answer_or status m w = (Ok (200%Z, body), w') → m w = (Ok (200%Z, body), w').
Proof.
  intros Hs. unfold answer_or. destruct (m w) as [[r|e] w1]; [done|].
  destruct (status e) as [z|] eqn:E; [|done]. intros [= -> _ _]. by destruct (Hs e).
Qed.

Lemma vault_error_not_200 e : vault_error_status e ≠ Some 200%Z.
Proof. unfold vault_error_status. by repeat case_match. Qed.
Lemma vend_error_not_200 e : vend_error_status e ≠ Some 200%Z.
Proof. unfold vend_error_status. by repeat case_match. Qed.

Lemma vend_token_ok (v : vault C) tenant_id platform (w : W) t w' :
  vend_token v tenant_id platform None None None w = (Ok t, w') →
  ∃ k b, lookup_credentials tenant_id platform v = Ok (k, b) ∧ tk_signer t = oauth_header b
    ∧ tk_expires_at t = fadd (clock_time (w_tick w)) (float_of_Z (vt_default_ttl v)).
Proof.
  unfold vend_token. intros E.
  apply M_bind_ok in E as ([k b] & w1 & El & E). injection El as El <-.
  apply M_bind_ok in E as (issued & w2 & En & E). injection En as <- <-.
  injection E as Ei <-. unfold issue in Ei.
  apply result_bind_ok in Ei as (? & _ & Ei). apply result_bind_ok in Ei as (? & _ & Ei).
  apply result_bind_ok in Ei as (? & _ & Ei). injection Ei as <-. by exists k, b.
Qed.

Lemma authorization_header_ok t method url params (w : W) h w' :
  authorization_header t method url params None None None w = (Ok h, w') →
  is_expired t (clock_time (w_tick w)) = false
  ∧ ∃ nonce ts, tk_signer t method url params nonce ts = Ok h.
Proof.
  unfold authorization_header, mbind, M_bind, fresh. cbn [w_tick tick].
  destruct (is_expired t _); [done|]. intros E. split; [done|]. cbn [w_tick tick] in E.
  unfold of_result in E. destruct (float_trunc _); [|done]. unfold mret, M_ret in E.
  injection E as E _. eauto.
Qed.
(** A 200 of /vend: the credentials asked for are stored. *)
Lemma vend_ok (v : vault C) body (w w' : W) payload :
  vend v body w = (Ok (200%Z, payload), w') →
  ∃ t p k b, get_or "tenant_id" VNone body = VStr t ∧ lookup_credentials t p v = Ok (k, b).
Proof.
  unfold vend. intros E.
  destruct (nonempty_str (get_or "tenant_id" VNone body)) as [t|] eqn:Etn; [|done].
  destruct (nonempty_str (get_or "erp_platform" VNone body)) as [p|]; [|done].
  apply answer_or_200 in E; [|apply vend_error_not_200].
  apply M_bind_ok in E as (tk & w1 & Ek & _). apply nonempty_str_Some in Etn as [Etn _].
  destruct (vend_token_ok _ _ _ _ _ _ Ek) as (k & b & Hl & _). by exists t, p, k, b.
Qed.

(** A 200 of /sign: the header is the one of the stored credentials. *)
Lemma sign_ok (v : vault C) body (w w' : W) payload :
  sign v body w = (Ok (200%Z, payload), w') →
  ∃ t p k b, get_or "tenant_id" VNone body = VStr t ∧ lookup_credentials t p v = Ok (k, b)
    ∧ ∃ method url params nonce ts header,
        get_or "method" VNone body = VStr method ∧ get_or "url" VNone body = VStr url
        ∧ params_of body = Ok params
        ∧ oauth_header b method url params nonce ts = Ok header
        ∧ dget "authorization_header" payload = Some (VStr header).
Proof.
  unfold sign. intros E.
  destruct (nonempty_str (get_or "tenant_id" VNone body)) as [t|] eqn:Etn; [|done].
  destruct (nonempty_str (get_or "erp_platform" VNone body)) as [p|]; [|done].
  destruct (nonempty_str (get_or "method" VNone body)) as [m|] eqn:Em; [|done].
  destruct (nonempty_str (get_or "url" VNone body)) as [u|] eqn:Eu; [|done].
  apply answer_or_200 in E; [|apply vault_error_not_200].
  apply M_bind_ok in E as (tk & w1 & Ek & E). apply M_bind_ok in E as (ps & w2 & [= Eps <-] & E).
  apply M_bind_ok in E as (h & w3 & Eh & E). apply M_ret_ok in E as [Epay _]. injection Epay as <-.
  apply nonempty_str_Some in Etn as [Etn _]. apply nonempty_str_Some in Em as [Em _].
  apply nonempty_str_Some in Eu as [Eu _].
  destruct (vend_token_ok _ _ _ _ _ _ Ek) as (k & b & Hl & Hsg & _).
  destruct (authorization_header_ok _ _ _ _ _ _ _ Eh) as (_ & nonce & ts & Ho).
  rewrite Hsg in Ho. exists t, p, k, b. split_and!; [done|done|].
  exists m, u, ps, nonce, ts, h. auto.
Qed.
End gate.

(** C20: no signature without the secret, the permission and the credentials.
    When a POST is answered 200, the service has a secret configured and the
    caller presented exactly it, the tenant is on the allowlist if there is
    one, and credentials of that tenant are stored; what /sign then returns
    is the OAuth header of those credentials for the method and URL asked,
    from a token still alive.  A caller without the secret gets 404, 401 or 503
    and nothing was read or used. *)
Theorem sign_gate `{Externals} `{Nonces} `{CredentialStore C} {T} (v : vault C) api_secret
    allowlist q (w w' : world T) status payload :
  do_POST v api_secret allowlist q w = (Ok (status, payload), w') →
  (status = 200%Z →
    api_secret ≠ EmptyString ∧ rq_auth q = Some api_secret
    ∧ ∃ raw body tenant_id platform k creds,
        read_body q = Ok raw ∧ loads raw = Some (VDict body)
        ∧ get_or "tenant_id" VNone body = VStr tenant_id
        ∧ (allowlist = [] ∨ tenant_id ∈ allowlist)
        ∧ lookup_credentials tenant_id platform v = Ok (k, creds)
        ∧ (rq_path q = "/vend" ∨
           rq_path q = "/sign" ∧ ∃ method url params nonce ts header,
             get_or "method" VNone body = VStr method ∧ get_or "url" VNone body = VStr url
             ∧ params_of body = Ok params
             ∧ oauth_header creds method url params nonce ts = Ok header
             ∧ dget "authorization_header" payload = Some (VStr header)))
  ∧ (rq_auth q ≠ Some api_secret ∨ api_secret = EmptyString →
     status ∈ [404; 401; 503]%Z ∧ w' = w).
Proof.
  intros E. unfold do_POST in E. case_bool_decide as Hp; cbn [negb] in E.
  2:{ injection E as <- <- <-. split; [done|]. split; [left|done]. }
  destruct (refusal api_secret q) as [[z p]|] eqn:Er.
  { injection E as <- <- <-. apply refusal_Some in Er as [Hz Hst]. split; [by intros ->|].
    intros _. split; [set_solver|done]. }
  apply refusal_None in Er as [Ha Hne].
  split; [intros ->|intros [?|?]; by congruence]. split; [done|]. split; [done|].
  apply M_bind_ok in E as (raw & w1 & [= Er <-] & E).
  destruct (loads raw) as [parsed|] eqn:El; [|done].
  apply M_bind_ok in E as (body & w2 & [= Eb <-] & E).
  destruct parsed as [| | | | | |d]; try done. injection Eb as <-.
  apply M_bind_ok in E as (permitted & w3 & [= Et <-] & E).
  destruct permitted; [|done]. cbn [negb] in E.
  destruct (String.eqb_spec (rq_path q) "/vend") as [Ep|Ep].
  - apply vend_ok in E as (t & p & k & b & Ht & Hl).
    exists raw, d, t, p, k, b. pose proof (permitted_allowed _ _ _ Et Ht). auto 10.
  - apply sign_ok in E as (t & p & k & b & Ht & Hl & Hrest).
    exists raw, d, t, p, k, b. split_and!; [done|done|done|by eapply permitted_allowed|done|].
    right. split; [set_solver|exact Hrest].
Qed.

(** ** The secrets stay *)

Lemma do_POST_public `{Externals} `{Nonces} `{CredentialStore C} {T} (v v' : vault C) api_secret
    allowlist q (w : world T) :
  public_eq v v' → rq_path q ≠ "/sign" →
  do_POST v api_secret allowlist q w = do_POST v' api_secret allowlist q w.
Proof.
  intros Hv Hq. unfold do_POST. case_bool_decide as Hp; [|done]. cbn [negb].
  destruct (refusal api_secret q); [done|]. unfold mbind, M_bind, of_result.
  destruct (read_body q) as [raw|e]; [|done]. destruct (loads raw) as [parsed|]; [|done].
  destruct parsed as [| | | | | |d]; try done.
  destruct (tenant_permitted allowlist d) as [[]|e]; [|done|done]. cbn [negb].
  replace (String.eqb (rq_path q) "/vend") with true
    by (symmetry; apply String.eqb_eq; set_solver).
  unfold vend. destruct (nonempty_str _) as [t|]; [|done]. destruct (nonempty_str _) as [p|]; [|done].
  unfold answer_or, mbind, M_bind. destruct (vend_public v v' t p None None None w Hv) as [Ho Hw].
  destruct (vend_token v t p None None None w) as [[tk|e] w1],
    (vend_token v' t p None None None w) as [[tk'|e'] w1']; cbn [fst snd] in *; try done; subst.
  - by destruct Ho as [sg ->].
  - simpl in Ho. by subst e'.
Qed.

(** C19: the secrets do not leave the vault.  Two vaults that hold the same
    public fields, with any two sets of consumer and token secrets, cannot be
    told apart by anything but a signature: the bus agent makes the same
    outcome, the same events, records and counters, and the HTTP service gives
    the same answer to every request but /sign. *)
Theorem secrets_stay `{Externals} `{Nonces} `{EventStore T} `{CredentialStore C} (v v' : vault C)
    (w : world T) :
  public_eq v v' →
  (∀ ev, (handle_secret ev (Proc w v)).1 = (handle_secret ev (Proc w v')).1
         ∧ p_world (handle_secret ev (Proc w v)).2 = p_world (handle_secret ev (Proc w v')).2)
  ∧ ∀ api_secret allowlist q, rq_path q ≠ "/sign" →
      do_POST v api_secret allowlist q w = do_POST v' api_secret allowlist q w.
Proof.
  intros Hv. split; [intros ev; by apply handle_secret_public|].
  intros secret allow q Hq. by apply do_POST_public.
Qed.

(** ** A concrete service *)
Module VaultDemo.
Import InMemoryCredentialStore.
Definition nonces : Nonces := λ _, "n0".
Definition creds (secret : string) : pydict :=
  [("account_id", VStr "123_sb1"); ("consumer_key", VStr "ck"); ("consumer_secret", VStr secret);
   ("token_id", VStr "ti"); ("token_secret", VStr secret)].
Definition vault_with (secret : string) : vault memory_blobs :=
  Vault (Store {[ ("netsuite", "acme") := creds secret ]}) DEFAULT_TTL_SECONDS.
Definition body : string :=
  dumps Spaced (VDict [("tenant_id", VStr "acme"); ("erp_platform", VStr "NS");
                       ("method", VStr "get"); ("url", VStr "https://ns/x")]).
Definition ask (path : string) : request :=
  Request path (Some "s3cret") (Some (nat_str (String.length body))) body.

Lemma same_vaults s s' : public_eq (vault_with s) (vault_with s').
Proof.
  split; [done|]. intros t. unfold held, vault_with. cbn.
  destruct (decide (t = "acme")) as [->|Hne].
  - unfold mem_get. cbn [data]. rewrite !lookup_singleton_eq. constructor. intros k Hk.
    unfold creds. cbn [dget].
    repeat (apply elem_of_cons in Hk as [->|Hk]; [reflexivity|]). by apply not_elem_of_nil in Hk.
  - unfold mem_get. cbn [data]. rewrite !lookup_singleton_ne by congruence. constructor.
Qed.
End VaultDemo.

Section witnesses.
Import VaultDemo.

Lemma sign_gate_witness :
  let '(r, _) := do_POST (H := Demo.externals) (H0 := nonces) (vault_with "x") "s3cret" ["acme"]
                   (ask "/sign") AgentDemo.world0 in
  ∃ payload, r = Ok (200%Z, payload)
    ∧ ∃ platform k creds, lookup_credentials "acme" platform (vault_with "x") = Ok (k, creds).
Proof.
  destruct (do_POST (H := Demo.externals) (H0 := nonces) (vault_with "x") "s3cret" ["acme"]
              (ask "/sign") AgentDemo.world0) as [r w'] eqn:E.
  assert (Hr : match r with Ok (s, _) => s = 200%Z | Err _ => False end).
  { replace r with (do_POST (H := Demo.externals) (H0 := nonces) (vault_with "x") "s3cret" ["acme"]
              (ask "/sign") AgentDemo.world0).1 by (rewrite E; reflexivity).
    vm_compute. reflexivity. }
  destruct r as [[status payload]|e]; [|destruct Hr]. subst status. exists payload.
  split; [reflexivity|].
  destruct (proj1 (sign_gate (H := Demo.externals) (H0 := nonces) _ _ _ _ _ _ _ _ E) eq_refl)
    as (_ & _ & raw & body' & t & p & k & c & Hraw & Hl & Ht & _ & Hc & _).
  exists p, k, c. injection Hraw as <-. vm_compute in Hl. injection Hl as <-.
  vm_compute in Ht. injection Ht as <-. exact Hc.
Defined.

Lemma secrets_stay_witness :
  do_POST (H := Demo.externals) (H0 := nonces) (vault_with "x") "s3cret" [] (ask "/vend") AgentDemo.world0
  = do_POST (H := Demo.externals) (H0 := nonces) (vault_with "y") "s3cret" [] (ask "/vend") AgentDemo.world0
  ∧ is_ok (do_POST (H := Demo.externals) (H0 := nonces) (vault_with "x") "s3cret" [] (ask "/vend")
             AgentDemo.world0).1 = true.
Proof.
  split; [|vm_compute; reflexivity].
  exact (proj2 (secrets_stay (H := Demo.externals) (H0 := nonces) _ _ AgentDemo.world0 (same_vaults "x" "y"))
           "s3cret" [] (ask "/vend") ltac:(discriminate)).
Defined.
End witnesses.
