(* ===== verification/Beacon.v ===== *)
(** * Beacon (agents/beacon/beacon.py, agent.py)

    Alerts: the severity policy, classification with its de-duplication key,
    the stores that remember what was sent, routing to channels, delivery
    through Hermes, and the agent.  Beacon publishes nothing; what it did is in
    its own state: the alerts each channel got and the posts made to Hermes,
    whose transport is a parameter. *)

From S2P Require Import Prelude PyStr PyFloat PyVal Json Contract Registry Metrics HashChain EventStore Agent.
Local Open Scope string_scope.

Definition DEFAULT_DEDUP_WINDOW_SECONDS : Z := 300.

Inductive severity : Type := INFO | WARNING | ERROR | CRITICAL.

#[export] Instance severity_eq_dec : EqDecision severity.
Proof. solve_decision. Defined.

Definition severity_value (s : severity) : Z :=
  match s with INFO => 10 | WARNING => 20 | ERROR => 30 | CRITICAL => 40 end.
Definition severity_name (s : severity) : string :=
  match s with INFO => "INFO" | WARNING => "WARNING" | ERROR => "ERROR" | CRITICAL => "CRITICAL" end.

Record alert : Type := Alert {
  al_severity : severity;
  al_title : string;
  al_subject : string;
  al_body : string;
  al_dedup_key : string;
  al_correlation_id : option string;
}.

(** ** The policy *)
Definition severity_for (subject : string) : severity :=
  if startswith "deadletter." subject
  then if startswith "ledger." (removeprefix "deadletter." subject) then CRITICAL else ERROR
  else default INFO (dget subject
    [("ledger.rejected", WARNING); ("vault.secret.denied", WARNING);
     ("ledger.drift.detected", WARNING); ("ledger.posted", INFO); ("forge.completed", INFO)]).

(** [a or b] *)
Definition or_else (a b : pyval) : pyval := if truthy a then a else b.

Definition ident_of (payload : pydict) : pyval :=
  or_else (get_or "entry_id" VNone payload)
    (or_else (get_or "work_order_id" VNone payload)
       (or_else (get_or "run_id" VNone payload)
          (or_else (get_or "id" VNone payload) (VStr EmptyString)))).

Definition classify (subject : string) (payload : pydict) (correlation_id : option string) : alert :=
  let s := severity_for subject in
  Alert s (severity_name s +:+ ": " +:+ subject) subject
    (str_take 500 (dumps Spaced (VDict payload)))
    (subject +:+ ":" +:+ py_str (ident_of payload)) correlation_id.

(** ** What was sent already *)

(** A store is asked at some moment, the tick of the world. *)
Class DedupStore (D : Type) : Type :=
  is_duplicate : string → Z → nat → M D bool.

Module InMemoryDedupStore.
Record sent_times : Type := Store { last_sent : gmap string float }.
Definition init : sent_times := Store ∅.

Definition mem_is_duplicate `{Externals} (key : string) (window_seconds : Z) (n : nat)
    : M sent_times bool := λ d,
  let now := clock_time n in
  match last_sent d !! key with
  | Some last =>
      if fltb (fsub now last) (float_of_Z window_seconds) then (Ok true, d)
      else (Ok false, Store (<[key := now]> (last_sent d)))
  | None => (Ok false, Store (<[key := now]> (last_sent d)))
  end.

#[global] Instance memory_dedup `{Externals} : DedupStore sent_times := mem_is_duplicate.
End InMemoryDedupStore.

Module RedisDedupStore.
(** [SET key value NX EX seconds] at some moment: whether the key was set. *)
Class RedisSet (R : Type) : Type :=
  redis_set_nx_ex : string → string → Z → nat → M R bool.

Record redis_dedup_store (R : Type) : Type := Store { namespace : string; client : R }.
Arguments Store {_} _ _.
Arguments namespace {_} _.
Arguments client {_} _.

Definition redis_is_duplicate `{RedisSet R} (key : string) (window_seconds : Z) (n : nat)
    : M (redis_dedup_store R) bool :=
  ns ← gets namespace;
  was_set ← zoom client (λ c d, Store (namespace d) c)
    (redis_set_nx_ex (ns +:+ ":" +:+ key) "1" window_seconds n);
  mret (negb was_set).

#[global] Instance redis_dedup `{RedisSet R} : DedupStore (redis_dedup_store R) := redis_is_duplicate.
End RedisDedupStore.

(** ** Channels *)
Inductive channel : Type :=
  | LogChannel
  | CollectingChannel
  | HermesChannel (target webhook_url : string).

Record http_post : Type := HttpPost { hp_url : string; hp_target : string; hp_message : string }.

(** Posting and [raise_for_status]: an exception, or nothing. *)
Class Poster : Type := poster : list http_post → http_post → option exn.

Definition DEFAULT_ROUTES : list (severity * list string) :=
  [(INFO, ["log"]); (WARNING, ["log"]); (ERROR, ["log"; "hermes"]); (CRITICAL, ["log"; "hermes"])].

Record beacon (D : Type) : Type := Beacon {
  b_channels : list (string * channel);
  b_routes : list (severity * list string);
  b_dedup_window : Z;
  b_dedup : D;
  (** the alerts each channel was handed, in order *)
  b_sent : list (string * alert);
  (** the posts made to Hermes *)
  b_posts : list http_post;
}.
Arguments Beacon {_} _ _ _ _ _ _.
Arguments b_channels {_} _.
Arguments b_routes {_} _.
Arguments b_dedup_window {_} _.
Arguments b_dedup {_} _.
Arguments b_sent {_} _.
Arguments b_posts {_} _.

Definition routes_of {D} (b : beacon D) (s : severity) : list string :=
  default [] (snd <$> List.find (λ r : severity * list string, bool_decide (r.1 = s)) (b_routes b)).

Section beacon.
Context `{DedupStore D} `{Poster}.

Definition set_dedup (d : D) (b : beacon D) : beacon D :=
  Beacon (b_channels b) (b_routes b) (b_dedup_window b) d (b_sent b) (b_posts b).
Definition handed (name : string) (a : alert) (b : beacon D) : beacon D :=
  Beacon (b_channels b) (b_routes b) (b_dedup_window b) (b_dedup b) (b_sent b ++ [(name, a)])%list
    (b_posts b).
Definition posted (p : http_post) (b : beacon D) : beacon D :=
  Beacon (b_channels b) (b_routes b) (b_dedup_window b) (b_dedup b) (b_sent b) (b_posts b ++ [p])%list.

(** [build_hermes_sender]: no webhook is only logged; an [HTTPError] is only
    logged too. *)
Definition hermes_send (webhook_url target text : string) : M (beacon D) unit := λ b,
  if str_empty webhook_url then (Ok tt, b) else
  let p := HttpPost webhook_url target text in
  match poster (b_posts b) p with
  | None => (Ok tt, posted p b)
  | Some exc => if isinstance exc HTTPError then (Ok tt, posted p b) else (Err exc, posted p b)
  end.

Definition channel_send (c : channel) (a : alert) : M (beacon D) unit :=
  match c with
  | LogChannel | CollectingChannel => mret tt
  | HermesChannel target webhook_url =>
      hermes_send webhook_url target
        ("[" +:+ severity_name (al_severity a) +:+ "] " +:+ al_title a +:+ newline +:+ al_body a)
  end.

Definition dispatch_alert (a : alert) : M (beacon D) unit :=
  b ← gets id;
  for_each (routes_of b (al_severity a)) (λ name,
    match dget name (b_channels b) with
    | None => mret tt
    | Some c => modify (handed name a) ;; channel_send c a
    end).

Definition notify (n : nat) (subject : string) (payload : pydict) (correlation_id : option string)
    : M (beacon D) (option alert) :=
  let a := classify subject payload correlation_id in
  window ← gets b_dedup_window;
  dup ← zoom b_dedup set_dedup (is_duplicate (al_dedup_key a) window n);
  if dup : bool then mret None else dispatch_alert a ;; mret (Some a).
End beacon.

(** [_default_beacon], for any store. *)
Definition default_channels (beacon_target hermes_webhook_url : string) : list (string * channel) :=
  [("log", LogChannel); ("hermes", HermesChannel beacon_target hermes_webhook_url)].
Definition default_beacon {D} (d : D) (beacon_target hermes_webhook_url : string) : beacon D :=
  Beacon (default_channels beacon_target hermes_webhook_url) DEFAULT_ROUTES
    DEFAULT_DEDUP_WINDOW_SECONDS d [] [].

(** ** The agent *)
Definition BEACON_SUBJECTS : list string :=
  ["deadletter.ledger.entry"; "deadletter.forge.write.propose"; "deadletter.forge.write.decision";
   "deadletter.forge.write.reverse"; "deadletter.ticker.reconciliation.due"; "ledger.rejected";
   "vault.secret.denied"; "ledger.drift.detected"; "ledger.posted"; "forge.completed"].

Section agent.
Context `{Externals} `{EventStore T} `{DedupStore D} `{Poster}.

Definition handle_outcome (event : event) : M (proc T (beacon D)) unit :=
  n ← in_world (fresh id);
  _ ← in_agent (notify n (ev_subject event) (ev_payload event) (ev_correlation_id event));
  mret tt.

#[export] Instance beacon_agent : Agent T (beacon D) := {
  agent_name := "beacon";
  subjects := BEACON_SUBJECTS;
  handle := handle_outcome;
}.
End agent.

#[export] Instance beacon_disciplined `{Externals} `{EventStoreLaws T} `{DedupStore D} `{Poster} :
  Disciplined (T := T) (A := beacon D).
Proof. intros e. simpl. unfold handle_outcome. keeps_tac. Qed.

(** ** Alert storms

    A sequence of notifications, each at its moment, and what became of it:
    [None] for a suppressed one, an exception for a channel that raised. *)
Record notice : Type := Notice {
  no_moment : nat;
  no_subject : string;
  no_payload : pydict;
  no_correlation_id : option string;
}.

Definition notice_key (x : notice) : string :=
  al_dedup_key (classify (no_subject x) (no_payload x) (no_correlation_id x)).

Section storm.
Context `{Externals} `{Poster}.
#[local] Notation B := (beacon InMemoryDedupStore.sent_times) (only parsing).

Definition notify_at (x : notice) : M B (option alert) :=
  notify (no_moment x) (no_subject x) (no_payload x) (no_correlation_id x).

(** The notices that got through the store, and the beacon they leave. *)
Fixpoint storm (l : list notice) (b : B) : list bool * B :=
  match l with
  | [] => ([], b)
  | x :: l =>
      let '(r, b) := notify_at x b in
      let '(rs, b) := storm l b in
      (match r with Ok None => false | _ => true end :: rs, b)
  end.

Lemma dispatch_alert_store a (b : B) :
  b_dedup (dispatch_alert a b).2 = b_dedup b ∧ b_dedup_window (dispatch_alert a b).2 = b_dedup_window b.
Proof.
  set (same := λ b b' : B, b_dedup b' = b_dedup b ∧ b_dedup_window b' = b_dedup_window b).
  assert (HR : PreOrder same).
  { unfold same. split; [done|]. intros b1 b2 b3 [-> ->] [-> ->]. done. }
  assert (Hs : keeps same (dispatch_alert a)); [|by destruct (dispatch_alert a b) as [r b'] eqn:E;
    apply Hs in E].
  unfold dispatch_alert. apply keeps_bind; [done|by apply keeps_gets|]. intros b0.
  apply keeps_for_each; [done|]. intros name. destruct (dget name _) as [c|]; [|by apply keeps_ret].
  apply keeps_bind; [done|by apply keeps_modify|]. intros _.
  destruct c; try by apply keeps_ret. unfold channel_send, hermes_send.
  intros b1 r b2. destruct (str_empty _); [by intros [= _ <-]|].
  destruct (poster _ _) as [exc|]; [|by intros [= _ <-]].
  destruct (isinstance exc HTTPError); by intros [= _ <-].
Qed.

(** The last time a key got through, from the notices so far. *)
Definition too_soon (window : Z) (now last : float) : bool := fltb (fsub now last) (float_of_Z window).

Lemma notify_at_spec x (b : B) :
  let '(r, b') := notify_at x b in
  let now := clock_time (no_moment x) in
  let before := InMemoryDedupStore.last_sent (b_dedup b) in
  b_dedup_window b' = b_dedup_window b
  ∧ if match before !! notice_key x with
       | Some last => too_soon (b_dedup_window b) now last
       | None => false
       end
    then r = Ok None ∧ b' = b
    else r ≠ Ok None ∧ InMemoryDedupStore.last_sent (b_dedup b') = <[notice_key x := now]> before.
Proof.
  unfold notify_at, notify, notice_key. set (a := classify _ _ _).
  unfold mbind, M_bind, gets, zoom, is_duplicate, InMemoryDedupStore.memory_dedup,
    InMemoryDedupStore.mem_is_duplicate, too_soon.
  assert (Hgo : ∀ d, let '(r, b') := match dispatch_alert a (set_dedup d b) with
             | (Ok _, s') => (Ok (Some a), s') | (Err e, s') => (Err e, s') end in
     b_dedup_window b' = b_dedup_window b ∧ r ≠ Ok None ∧ b_dedup b' = d).
  { intros d. destruct (dispatch_alert_store a (set_dedup d b)) as [E1 E2].
    destruct (dispatch_alert a (set_dedup d b)) as [[u|e] b1]; cbn [fst snd] in *; by rewrite E1, E2. }
  destruct (InMemoryDedupStore.last_sent (b_dedup b) !! al_dedup_key a) as [last|].
  - destruct (fltb _ _); cbn [fst snd].
    + cbv [mret M_ret]. split; [done|]. split; [done|]. by destruct b as [? ? ? []].
    + specialize (Hgo (InMemoryDedupStore.Store (<[al_dedup_key a := clock_time (no_moment x)]>
        (InMemoryDedupStore.last_sent (b_dedup b))))).
      destruct (dispatch_alert a _) as [[u|e] b1]; cbv [mret M_ret] in *;
        destruct Hgo as (-> & Hr & ->); done.
  - cbn [fst snd]. specialize (Hgo (InMemoryDedupStore.Store (<[al_dedup_key a := clock_time (no_moment x)]>
        (InMemoryDedupStore.last_sent (b_dedup b))))).
    destruct (dispatch_alert a _) as [[u|e] b1]; cbv [mret M_ret] in *;
      destruct Hgo as (-> & Hr & ->); done.
Qed.

(** Among notices and whether they got through: the latest that did, with a
    given key. *)
Definition latest_through (history : list (notice * bool)) (key : string) : option notice :=
  fst <$> last (filter (λ p : notice * bool, p.2 = true ∧ notice_key p.1 = key) history).

(** What the policy says of a notice after a history. *)
Definition suppressed (window : Z) (history : list (notice * bool)) (x : notice) : bool :=
  match latest_through history (notice_key x) with
  | Some y => too_soon window (clock_time (no_moment x)) (clock_time (no_moment y))
  | None => false
  end.

Lemma latest_through_snoc history x sent key :
  latest_through (history ++ [(x, sent)]) key
  = if decide (sent = true ∧ notice_key x = key) then Some x else latest_through history key.
Proof.
  unfold latest_through. rewrite filter_app, filter_cons. cbn [fst snd].
  case_decide; [by rewrite last_app|by rewrite filter_nil, app_nil_r].
Qed.

(** The store knows the time of the latest notice of each key. *)
Definition knows (history : list (notice * bool)) (b : B) : Prop :=
  ∀ key, InMemoryDedupStore.last_sent (b_dedup b) !! key
         = (λ y, clock_time (no_moment y)) <$> latest_through history key.

Lemma storm_spec l (b : B) history rs b' :
  knows history b → storm l b = (rs, b') →
  ∀ i x, l !! i = Some x →
    rs !! i = Some (negb (suppressed (b_dedup_window b) (history ++ zip (take i l) (take i rs)) x)).
Proof.
  revert b history rs b'. induction l as [|x l IH]; intros b history rs b' Hk E i y Hi; [done|].
  cbn [storm] in E. pose proof (notify_at_spec x b) as Hn.
  destruct (notify_at x b) as [r b1]. destruct Hn as [Hw Hn]. rewrite Hk in Hn.
  destruct (storm l b1) as [rs1 b2] eqn:E1. injection E as <- <-.
  set (sent := match r with Ok None => false | _ => true end).
  assert (Hthrough : InMemoryDedupStore.last_sent (b_dedup b1)
            = <[notice_key x := clock_time (no_moment x)]> (InMemoryDedupStore.last_sent (b_dedup b)) →
          knows (history ++ [(x, true)]) b1).
  { intros Hb key. rewrite Hb, latest_through_snoc, lookup_insert.
    destruct (decide (notice_key x = key)) as [Hq|Hq]; case_decide; [done|naive_solver|naive_solver|].
    apply Hk. }
  assert (Hx : sent = negb (suppressed (b_dedup_window b) history x) ∧ knows (history ++ [(x, sent)]) b1).
  { unfold suppressed.
    assert (Hsent : r ≠ Ok None → sent = true) by (intros Hr; unfold sent; by destruct r as [[|]|]).
    destruct (latest_through history (notice_key x)) as [z|] eqn:Ez; cbn in Hn.
    - destruct (too_soon _ _ _); destruct Hn as [Hr Hb].
      + unfold sent. rewrite Hr. subst b1. split; [done|]. intros key.
        rewrite latest_through_snoc, decide_False by naive_solver. apply Hk.
      + rewrite (Hsent Hr). auto.
    - destruct Hn as [Hr Hb]. rewrite (Hsent Hr). auto. }
  destruct Hx as [Hx Hk1]. destruct i as [|i].
  - injection Hi as <-. cbn. by rewrite Hx, app_nil_r.
  - change ((sent :: rs1) !! S i) with (rs1 !! i). rewrite (IH _ _ _ _ Hk1 E1 i y Hi), Hw, <-(assoc_L (++)%list).
    reflexivity.
Qed.
End storm.

(** C38: a storm pages once per window, and never silences a new failure.  With
    the in-memory store, starting fresh, a notification is suppressed exactly
    when the latest one of the same key that was not suppressed is less than
    the window ago, whatever happened in between. *)
Theorem storm_suppressed `{Externals} `{Poster} l (b : beacon InMemoryDedupStore.sent_times) rs b' :
  b_dedup b = InMemoryDedupStore.init → storm l b = (rs, b') →
  length rs = length l
  ∧ ∀ i x, l !! i = Some x →
      rs !! i = Some (negb (suppressed (b_dedup_window b) (zip (take i l) (take i rs)) x)).
Proof.
  intros Hb E. split.
  - clear Hb. revert b rs b' E. induction l as [|x l IH]; intros b rs b' E; [by injection E as <- <-|].
    cbn [storm] in E. destruct (notify_at x b) as [r b1]. destruct (storm l b1) as [rs1 b2] eqn:E1.
    injection E as <- <-. cbn. by rewrite (IH _ _ _ E1).
  - apply (storm_spec l b [] rs b'); [|done]. intros key. by rewrite Hb.
Qed.

(** The configured channels among those a severity is routed to, and how many
    posts they make. *)
Definition reached {D} (b : beacon D) (names : list string) : list string :=
  List.filter (λ name, dmem name (b_channels b)) names.
Definition posts_made {D} (b : beacon D) (names : list string) : nat :=
  length (List.filter (λ name, match dget name (b_channels b) with
                               | Some (HermesChannel _ url) => negb (str_empty url)
                               | _ => false
                               end) names).

(** The gateway fails only as [httpx] does. *)
Definition http_errors_only `{Poster} : Prop :=
  ∀ l p exc, poster l p = Some exc → isinstance exc HTTPError = true.

Lemma channel_send_ok `{DedupStore D} `{Poster} c a (b : beacon D) :
  http_errors_only → ∃ b', channel_send c a b = (Ok tt, b') ∧ b_sent b' = b_sent b
    ∧ length (b_posts b') = (length (b_posts b) + match c with
        | HermesChannel _ url => if str_empty url then 0 else 1 | _ => 0 end)%nat.
Proof.
  intros Hp. destruct c as [| |target url]; [exists b; split_and!; try done; lia..|].
  unfold channel_send, hermes_send. destruct (str_empty url); [exists b; split_and!; try done; lia|].
  destruct (poster _ _) as [exc|] eqn:E; [rewrite (Hp _ _ _ E)|]; eexists;
    (split; [done|]); (split; [done|]); simpl; by rewrite length_app.
Qed.

Lemma dispatch_names_ok `{DedupStore D} `{Poster} a (b0 b : beacon D) names :
  http_errors_only → ∃ b',
    for_each names (λ name, match dget name (b_channels b0) with
                            | None => mret tt
                            | Some c => modify (handed name a) ;; channel_send c a
                            end) b = (Ok tt, b')
    ∧ b_sent b' = (b_sent b ++ map (λ name, (name, a)) (reached b0 names))%list
    ∧ length (b_posts b') = (length (b_posts b) + posts_made b0 names)%nat.
Proof.
  intros Hp. revert b. induction names as [|name names IH]; intros b.
  { exists b. rewrite app_nil_r, Nat.add_0_r. done. }
  cbn [for_each]. unfold reached, posts_made, dmem. cbn [List.filter].
  destruct (dget name (b_channels b0)) as [c|].
  - destruct (channel_send_ok c a (handed name a b) Hp) as (b1 & E1 & Es & Ep).
    destruct (IH b1) as (b2 & E2 & Es2 & Ep2). exists b2.
    unfold mbind, M_bind, modify. rewrite E1. split; [done|].
    rewrite bool_decide_true by eauto. cbn [map]. rewrite Es2, Es, Ep2, Ep. split.
    + simpl. by rewrite <-(assoc_L (++)%list).
    + unfold posts_made. destruct c as [| |target url]; [simpl; lia..|].
      destruct (str_empty url); simpl; lia.
  - destruct (IH b) as (b2 & E2 & Es2 & Ep2). exists b2.
    rewrite bool_decide_false by (intros [? ?]; done). done.
Qed.

(** What gets through reaches everyone it is routed to.  If the gateway
    fails only with HTTP errors, a notification never raises, and one that is
    not a duplicate is handed to every configured channel its severity is
    routed to, in order, with one post for each Hermes channel that has a
    webhook, delivered or not; a duplicate reaches no one. *)
Theorem alert_delivered `{DedupStore D} `{Poster} n subject payload correlation_id (b : beacon D) dup d :
  http_errors_only →
  is_duplicate (al_dedup_key (classify subject payload correlation_id)) (b_dedup_window b) n
    (b_dedup b) = (Ok dup, d) →
  let a := classify subject payload correlation_id in
  let names := if dup : bool then [] else routes_of b (severity_for subject) in
  ∃ b', notify n subject payload correlation_id b = (Ok (if dup then None else Some a), b')
    ∧ b_sent b' = (b_sent b ++ map (λ name, (name, a)) (reached b names))%list
    ∧ length (b_posts b') = (length (b_posts b) + posts_made b names)%nat.
Proof.
  intros Hp E a names. unfold notify, mbind, M_bind, gets, zoom. rewrite E.
  destruct dup.
  { exists (set_dedup d b). split; [done|]. subst names. cbn. by rewrite app_nil_r, Nat.add_0_r. }
  destruct (dispatch_names_ok a (set_dedup d b) (set_dedup d b) names Hp) as (b' & Eb & Es & Ep).
  exists b'. assert (Hd : dispatch_alert a (set_dedup d b) = (Ok tt, b')) by exact Eb.
  unfold a in Hd. by rewrite Hd.
Qed.

(** The key names no write: two dead-lettered decisions on different writes of
    different tenants have the same key, so the second is suppressed for the
    window and nobody hears of it. *)
Theorem write_failures_collapse tenant tenant' write write' decision decision' c c' :
  let payload (t w d : string) :=
    [("tenant_id", VStr t); ("write_id", VStr w); ("decision", VStr d)] in
  al_dedup_key (classify "deadletter.forge.write.decision" (payload tenant write decision) c)
  = al_dedup_key (classify "deadletter.forge.write.decision" (payload tenant' write' decision') c').
Proof. reflexivity. Qed.

(** The comment on the key promises more for postings: there it holds. *)
Lemma distinct_entries_distinct_keys subject i i' payload payload' c c' :
  dget "entry_id" payload = Some (VStr i) → dget "entry_id" payload' = Some (VStr i') →
  i ≠ EmptyString → i' ≠ EmptyString →
  al_dedup_key (classify subject payload c) = al_dedup_key (classify subject payload' c') → i = i'.
Proof.
  intros E E' Hi Hi'. unfold classify, ident_of, get_or, or_else. cbn [al_dedup_key].
  rewrite E, E'. destruct i as [|x i]; [done|]. destruct i' as [|x' i']; [done|]. cbn [default truthy negb str_empty].
  intros Ek%str_app_inj_l. by apply (str_app_inj_l ":") in Ek.
Qed.

(** Beacon is a terminal sink: it publishes and records nothing. *)
Lemma beacon_silent `{Externals} `{EventStore T} `{DedupStore D} `{Poster} ev
    (s s' : proc T (beacon D)) r :
  handle_outcome ev s = (r, s') →
  w_bus (p_world s') = w_bus (p_world s) ∧ w_store (p_world s') = w_store (p_world s).
Proof.
  unfold handle_outcome, mbind, M_bind, in_world, in_agent, zoom, fresh. cbn [p_world p_agent].
  destruct (notify _ _ _ _ _) as [[o|e] b]; by intros [= _ <-].
Qed.

(** ** A concrete storm *)
Module BeaconDemo.
Definition up : Poster := λ _ _, None.
Definition down : Poster := λ _ _, Some (Exn HTTPError "503").
Definition fresh_beacon : beacon InMemoryDedupStore.sent_times :=
  default_beacon InMemoryDedupStore.init "telegram:1" "http://hermes/notify".
Definition failure (moment : nat) (entry : string) : notice :=
  Notice moment "deadletter.ledger.entry" [("entry_id", VStr entry)] None.
Definition notices : list notice :=
  [failure 0 "e1"; failure 5 "e1"; failure 6 "e2"; failure 299 "e1"; failure 300 "e1"; failure 301 "e1"].
End BeaconDemo.

Section witnesses.
Import BeaconDemo.

Lemma storm_suppressed_witness :
  let '(rs, b') := storm (H := Demo.externals) (H0 := down) notices fresh_beacon in
  rs = [true; false; true; false; true; false] ∧ length (b_posts b') = 3%nat
  ∧ rs !! 3%nat = Some (negb (suppressed (H := Demo.externals) DEFAULT_DEDUP_WINDOW_SECONDS
      (zip (take 3 notices) (take 3 rs)) (failure 299 "e1"))).
Proof.
  destruct (storm (H := Demo.externals) (H0 := down) notices fresh_beacon) as [rs b'] eqn:E.
  assert (Hr : rs = [true; false; true; false; true; false] ∧ length (b_posts b') = 3%nat).
  { replace rs with (storm (H := Demo.externals) (H0 := down) notices fresh_beacon).1 by by rewrite E.
    replace b' with (storm (H := Demo.externals) (H0 := down) notices fresh_beacon).2 by by rewrite E.
    vm_compute. split; reflexivity. }
  split; [exact (proj1 Hr)|]. split; [exact (proj2 Hr)|].
  exact (proj2 (storm_suppressed (H := Demo.externals) (H0 := down) notices fresh_beacon rs b' eq_refl E)
           3%nat (failure 299 "e1") eq_refl).
Defined.

Lemma alert_delivered_witness :
  ∃ b', notify (H := InMemoryDedupStore.memory_dedup (H := Demo.externals)) (H0 := down) 0
          "deadletter.ledger.entry" [] None fresh_beacon
        = (Ok (Some (classify "deadletter.ledger.entry" [] None)), b')
    ∧ map fst (b_sent b') = ["log"; "hermes"] ∧ length (b_posts b') = 1%nat.
Proof.
  destruct (alert_delivered (H := InMemoryDedupStore.memory_dedup (H := Demo.externals)) (H0 := down) 0
              "deadletter.ledger.entry" [] None fresh_beacon false
              (InMemoryDedupStore.Store {[ "deadletter.ledger.entry:" := fzero ]})) as (b' & E & Es & Ep).
  - intros l p exc [= <-]. reflexivity.
  - vm_compute. reflexivity.
  - exists b'. split; [exact E|]. rewrite Es, Ep. split; vm_compute; reflexivity.
Defined.
End witnesses.
