(* ===== verification/BeaconReport.v ===== *)
(** * Beacon's reports (agents/beacon/report.py, report_agent.py)

    The KPI roll-up of observed subjects, computed through counters as the code
    does and shown to be the plain counts; and the agent that tallies subjects
    and closes a window with each report. *)

From S2P Require Import Prelude PyStr PyFloat PyVal Json Contract Registry Metrics HashChain EventStore Agent Beacon.
Local Open Scope string_scope.
Local Open Scope Z_scope.

(** ** Counters: [collections.Counter], in insertion order *)
Definition counter : Type := list (string * Z).

Definition counted (k : string) (c : counter) : Z := default 0 (dget k c).
Definition counter_add (k : string) (n : Z) (c : counter) : counter := dset k (counted k c + n) c.
Definition count_all (l : list string) : counter := foldl (λ c s, counter_add s 1 c) [] l.
Definition counter_total (c : counter) : Z := foldr (λ kv acc, kv.2 + acc) 0 c.

Definition severities : list severity := [INFO; WARNING; ERROR; CRITICAL].

(** The loop over the distinct subjects. *)
Definition by_severity (counts : counter) : counter :=
  foldl (λ c kv, counter_add (severity_name (severity_for kv.1)) kv.2 c) [] counts.
Definition dead_letters (counts : counter) : Z :=
  foldl (λ n kv, if startswith "deadletter." kv.1 then n + kv.2 else n) 0 counts.

Definition summarize_kpis (observed_subjects : list string) : pydict :=
  let counts := count_all observed_subjects in
  let severity_counts := by_severity counts in
  [("events_total", VInt (counter_total counts));
   ("distinct_subjects", VInt (Z.of_nat (length counts)));
   ("dead_letters", VInt (dead_letters counts));
   ("by_severity", VDict (map (λ s, (severity_name s, VInt (counted (severity_name s) severity_counts)))
                            severities))].

(** ** The agent *)
Definition OUTCOME_SUBJECTS : list string :=
  ["deadletter.ledger.entry"; "ledger.rejected"; "vault.secret.denied"; "ledger.posted";
   "forge.completed"].
Definition REPORT_REQUEST : string := "beacon.report.request".

Record reporter : Type := Reporter { default_targets : list pyval; observed : list string }.

(** [default_targets or [get_settings().beacon_target]] *)
Definition new_reporter (targets : list string) (beacon_target : string) : reporter :=
  Reporter (map VStr match targets with [] => [beacon_target] | _ => targets end) [].

Definition set_observed (l : list string) (r : reporter) : reporter :=
  Reporter (default_targets r) l.

Definition report_payload (tenant_id report_type : string) (observed_subjects : list string)
    (period_start period_end generated_at : string) (delivery_targets : list pyval) : pydict :=
  [("tenant_id", VStr tenant_id); ("report_type", VStr report_type);
   ("kpis", VDict (summarize_kpis observed_subjects)); ("period_start", VStr period_start);
   ("period_end", VStr period_end); ("generated_at", VStr generated_at);
   ("delivery_targets", VList delivery_targets)].

(** [req.get("delivery_targets") or self._default_targets] *)
Definition targets_of (req : pydict) (r : reporter) : result (list pyval) :=
  let asked := get_or "delivery_targets" VNone req in
  if truthy asked then as_list asked else Ok (default_targets r).

Section agent.
Context `{Externals} `{EventStore T}.
#[local] Notation P := (proc T reporter) (only parsing).

Definition emit_report (event : event) : M P unit :=
  let req := ev_payload event in
  tenant_id ← of_result (get_str "tenant_id" req);
  report_type ← of_result (get_str "report_type" req);
  period_start ← of_result (get_str "period_start" req);
  period_end ← of_result (get_str "period_end" req);
  r ← gets p_agent;
  targets ← of_result (targets_of req r);
  generated_at ← in_world (fresh clock_iso);
  emit_new "beacon" "beacon.report.generated" 1 (ev_correlation_id event) None
    (report_payload tenant_id report_type (observed r) period_start period_end generated_at targets) ;;
  in_agent (modify (set_observed [])).

Definition handle_report (event : event) : M P unit :=
  if String.eqb (ev_subject event) REPORT_REQUEST then emit_report event
  else in_agent (modify (λ r, set_observed (observed r ++ [ev_subject event])%list r)).

#[export] Instance report_agent : Agent T reporter := {
  agent_name := "beacon";
  subjects := OUTCOME_SUBJECTS ++ [REPORT_REQUEST];
  handle := handle_report;
}.
End agent.

#[export] Instance report_disciplined `{Externals} `{EventStoreLaws T} :
  Disciplined (T := T) (A := reporter).
Proof. intros e. simpl. unfold handle_report, emit_report. keeps_tac. Qed.

(** ** The counters count *)

(** How many of a list a test accepts. *)
Definition tally (f : string → bool) (l : list string) : Z := Z.of_nat (length (List.filter f l)).

(** What the entries whose key passes a test sum to. *)
Definition weight (f : string → bool) (c : counter) : Z :=
  foldr (λ kv acc, (if f kv.1 then kv.2 else 0) + acc) 0 c.

Lemma weight_dset f k n (c : counter) :
  wf_dict c → weight f (dset k n c) = weight f c + (if f k then n - counted k c else 0).
Proof.
  unfold wf_dict, counted. induction c as [|[k' m] c IH]; intros Hnd; simpl.
  { destruct (f k); lia. }
  apply NoDup_cons in Hnd as [Hk Hnd]. destruct (String.eqb_spec k k') as [->|Hne]; simpl.
  - destruct (f k'); lia.
  - rewrite IH by done. destruct (f k'); lia.
Qed.

Lemma weight_counter_add f k n c :
  wf_dict c → weight f (counter_add k n c) = weight f c + (if f k then n else 0).
Proof. intros Hc. unfold counter_add. rewrite weight_dset by done. destruct (f k); lia. Qed.

Lemma wf_counter_add k n c : wf_dict c → wf_dict (counter_add k n c).
Proof. apply wf_dset. Qed.

Lemma count_all_from l c :
  wf_dict c →
  wf_dict (foldl (λ c s, counter_add s 1 c) c l)
  ∧ ∀ f, weight f (foldl (λ c s, counter_add s 1 c) c l) = weight f c + tally f l.
Proof.
  revert c. induction l as [|s l IH]; intros c Hc; [split; [done|]; intros; unfold tally; simpl; lia|].
  cbn [foldl]. destruct (IH (counter_add s 1 c) (wf_counter_add _ _ _ Hc)) as [Hw Hf]. split; [done|].
  intros f. rewrite Hf, weight_counter_add by done. unfold tally. cbn [List.filter].
  destruct (f s); cbn [length]; lia.
Qed.

Lemma count_all_spec l : wf_dict (count_all l) ∧ ∀ f, weight f (count_all l) = tally f l.
Proof. destruct (count_all_from l [] (NoDup_nil_2)) as [Hw Hf]. split; [done|]. intros f. by rewrite Hf. Qed.

Lemma counter_total_weight c : counter_total c = weight (λ _, true) c.
Proof. induction c as [|kv c IH]; simpl; [done|]. by rewrite IH. Qed.

Lemma dead_letters_weight c : dead_letters c = weight (startswith "deadletter.") c.
Proof.
  unfold dead_letters. enough (∀ n, foldl (λ n kv, if startswith "deadletter." kv.1 then n + kv.2 else n)
    n c = n + weight (startswith "deadletter.") c) by (rewrite H; lia).
  induction c as [|kv c IH]; intros n; cbn [foldl weight foldr]; [lia|].
  rewrite IH. unfold weight. cbn [foldr]. destruct (startswith _ _); lia.
Qed.

Definition of_severity (s : severity) (subject : string) : bool :=
  bool_decide (severity_for subject = s).

Lemma severity_name_inj s s' : severity_name s = severity_name s' → s = s'.
Proof. by destruct s, s'. Qed.

Lemma counted_add k k' n c :
  counted k' (counter_add k n c) = counted k' c + (if decide (k = k') then n else 0).
Proof.
  unfold counted at 1, counter_add. rewrite dget_dset. case_decide; subst; simpl; [done|unfold counted; lia].
Qed.

Lemma by_severity_weight s c : counted (severity_name s) (by_severity c) = weight (of_severity s) c.
Proof.
  unfold by_severity. enough (∀ acc, counted (severity_name s)
    (foldl (λ c kv, counter_add (severity_name (severity_for kv.1)) kv.2 c) acc c)
    = counted (severity_name s) acc + weight (of_severity s) c) by (rewrite H; done).
  induction c as [|kv c IH]; intros acc; cbn [foldl weight foldr]; [lia|].
  rewrite IH, counted_add. fold (weight (of_severity s) c).
  change (of_severity s kv.1) with (bool_decide (severity_for kv.1 = s)). case_decide as E.
  - apply severity_name_inj in E. rewrite bool_decide_true by done. lia.
  - rewrite bool_decide_false by (intros Hs; by rewrite Hs in E). lia.
Qed.

(** The plain definition: count what a test accepts. *)
Definition kpis_of (l : list string) : pydict :=
  [("events_total", VInt (Z.of_nat (length l)));
   ("distinct_subjects", VInt (Z.of_nat (size (list_to_set l : gset string))));
   ("dead_letters", VInt (tally (startswith "deadletter.") l));
   ("by_severity", VDict (map (λ s, (severity_name s, VInt (tally (of_severity s) l))) severities))].

Lemma count_all_keys l : list_to_set (dkeys (count_all l)) = (list_to_set l : gset string).
Proof.
  unfold count_all. enough (∀ c, list_to_set (dkeys (foldl (λ c s, counter_add s 1 c) c l))
    = (list_to_set (dkeys c) ∪ list_to_set l : gset string)) by (rewrite H; set_solver).
  induction l as [|s l IH]; intros c; cbn [foldl]; [set_solver|]. rewrite IH.
  unfold counter_add. rewrite dkeys_dset. case_decide; set_solver.
Qed.

Lemma tally_perm f l l' : l ≡ₚ l' → tally f l = tally f l'.
Proof.
  intros E. unfold tally. f_equal. induction E; simpl; [done| | |congruence].
  - destruct (f x); simpl; congruence.
  - destruct (f x), (f y); done.
Qed.

(** The KPI roll-up is the plain count.  The counters of counters give, for
    any observed subjects, the number of events, of distinct subjects, of dead
    letters and of events of each severity; the four severities sum to the
    total, and the order of the events does not matter. *)
Theorem summarize_kpis_exact l :
  summarize_kpis l = kpis_of l
  ∧ foldr (λ s acc, tally (of_severity s) l + acc) 0 severities = Z.of_nat (length l)
  ∧ ∀ l', l ≡ₚ l' → summarize_kpis l' = summarize_kpis l.
Proof.
  assert (Heq : ∀ l, summarize_kpis l = kpis_of l).
  { intros k. destruct (count_all_spec k) as [Hw Hf]. unfold summarize_kpis, kpis_of.
    rewrite counter_total_weight, dead_letters_weight, !Hf, <-count_all_keys, size_list_to_set by done.
    unfold tally at 1. replace (List.filter (λ _, true) k) with k
      by (clear; induction k as [|s k IH]; simpl; congruence).
    unfold dkeys. rewrite length_map.
    erewrite (map_ext (λ s, (severity_name s, VInt (counted _ _)))); [done|].
    intros s. by rewrite by_severity_weight, Hf. }
  split; [done|]. split.
  - unfold severities, tally. cbn [foldr]. induction l as [|s l IH]; [done|].
    cbn [List.filter length]. unfold of_severity in *.
    destruct (severity_for s); cbn [bool_decide decide] in *;
      repeat (case_bool_decide; try done); cbn [length]; lia.
  - intros l' E. rewrite !Heq. unfold kpis_of.
    assert (length l' = length l) as -> by by rewrite E.
    assert (list_to_set l' = (list_to_set l : gset string)) as ->
      by (apply set_eq; intros x; rewrite !elem_of_list_to_set; by rewrite E).
    rewrite (tally_perm (startswith _) _ _ E).
    erewrite (map_ext (λ s, (severity_name s, VInt (tally (of_severity s) l)))); [done|].
    intros s. by rewrite (tally_perm _ _ _ E).
Qed.

(** Each observed outcome is reported exactly once.  An outcome joins the
    window; a report request that is answered publishes the roll-up of exactly
    the window and starts an empty one; a request that fails, at any point,
    leaves the window as it was, so nothing is lost and nothing is counted
    twice. *)
Theorem report_window `{Externals} `{EventStoreLaws T} ev (s s' : proc T reporter) r :
  registry_ok (w_registry (p_world s)) → handle_report ev s = (r, s') →
  let window := observed (p_agent s) in
  if String.eqb (ev_subject ev) REPORT_REQUEST
  then match r with
       | Ok _ => observed (p_agent s') = []
           ∧ ∃ e : event, ev_subject e = "beacon.report.generated"
               ∧ dget "kpis" (ev_payload e) = Some (VDict (kpis_of window))
               ∧ w_bus (p_world s') = (w_bus (p_world s) ++ [(ev_subject e, wire e)])%list
       | Err _ => p_agent s' = p_agent s
       end
  else r = Ok tt ∧ observed (p_agent s') = (window ++ [ev_subject ev])%list
       ∧ p_world s' = p_world s.
Proof.
  intros Hr E window. unfold handle_report in E.
  destruct (String.eqb (ev_subject ev) REPORT_REQUEST); [|by injection E as <- <-].
  assert (Hag : ∀ name subject n c o payload (s0 : proc T reporter),
    p_agent (emit_new name subject n c o payload s0).2 = p_agent s0).
  { intros. unfold emit_new, in_world, zoom. by case_match. }
  unfold emit_report in E.
  destruct (get_str "tenant_id" (ev_payload ev)) as [t|e]; [|by injection E as <- <-].
  destruct (get_str "report_type" (ev_payload ev)) as [ty|e]; [|by injection E as <- <-].
  destruct (get_str "period_start" (ev_payload ev)) as [ps|e]; [|by injection E as <- <-].
  destruct (get_str "period_end" (ev_payload ev)) as [pe|e]; [|by injection E as <- <-].
  unfold mbind, M_bind, of_result, gets, in_world, zoom, fresh in E. cbn [p_world p_agent] in E.
  destruct (targets_of (ev_payload ev) (p_agent s)) as [ts|e]; [|by injection E as <- <-].
  destruct (emit_new _ _ _ _ _ _ _) as [[[]|e] s1] eqn:Ee.
  - apply emit_new_ok in Ee as [_ _ _ _ _ Hb _ _ _ _]; [|exact Hr].
    cbn in E. injection E as <- <-. split; [done|].
    eexists (Event _ _ _ _ _ _ _). split; [done|]. split; [|exact Hb].
    cbn. by rewrite (proj1 (summarize_kpis_exact _)).
  - injection E as <- <-. pose proof (Hag "beacon" "beacon.report.generated" 1 (ev_correlation_id ev) None
      (report_payload t ty (observed (p_agent s)) ps pe (clock_iso (w_tick (p_world s))) ts)
      (Proc (tick (p_world s)) (p_agent s))) as Ha. rewrite Ee in Ha. done.
Qed.

(** ** A concrete window *)
Module ReportDemo.
Definition reporter0 : reporter := Reporter [VStr "telegram:1"] ["ledger.posted"; "deadletter.ledger.entry"].
Definition proc0 : proc InMemoryEventStore.store reporter := Proc AgentDemo.world0 reporter0.
Definition ask : event :=
  Event REPORT_REQUEST 1 "n8n"
    [("tenant_id", VStr "acme"); ("report_type", VStr "daily"); ("period_start", VStr "a");
     ("period_end", VStr "b")] (Demo.uuid_of 9) None None.
End ReportDemo.

Section witnesses.
Import ReportDemo.

Lemma summarize_kpis_exact_witness :
  summarize_kpis ["ledger.rejected"; "deadletter.ledger.entry"]
  = summarize_kpis ["deadletter.ledger.entry"; "ledger.rejected"].
Proof. exact (proj2 (proj2 (summarize_kpis_exact _)) _ (perm_swap _ _ [])). Defined.

Lemma report_window_witness :
  let '(r, s') := handle_report (H := Demo.externals) ask proc0 in
  r = Ok tt ∧ observed (p_agent s') = [] ∧ length (w_bus (p_world s')) = 1%nat.
Proof.
  assert (Hr : (handle_report (H := Demo.externals) ask proc0).1 = Ok tt)
    by (vm_compute; reflexivity).
  destruct (handle_report (H := Demo.externals) ask proc0) as [r s'] eqn:E.
  cbn [fst] in Hr. subst r.
  split; [reflexivity|].
  destruct (report_window (H := Demo.externals) ask proc0 s' (Ok tt) Demo.registry_fresh E)
    as (Ho & e & _ & _ & Hb).
  split; [exact Ho|]. rewrite Hb. reflexivity.
Defined.
End witnesses.
