(* ===== verification/Ticker.v ===== *)
(** * Ticker (agents/ticker/ticker.py, agent.py)

    Exchange rates: conversion of minor units, the static rate source with
    inverse pairs, the caches with a time to live, the read-through lookup and
    the agent.  Rates are Python decimals; the source and the cache are
    interfaces, and Redis is a parameter.  Each read of a clock or of a cache
    happens at its own moment, a tick of the world. *)

From S2P Require Import Prelude PyStr PyFloat PyVal Json JsonText JsonFacts PyDecimal Contract Registry Metrics HashChain EventStore Agent.
Local Open Scope string_scope.

Definition DEFAULT_TTL_SECONDS : Z := 60.

(** ** Rates *)
Record rate : Type := Rate {
  rt_base : string;
  rt_quote : string;
  rt_rate : decimal;
  rt_as_of : pyval;
}.

Definition convert_minor (r : rate) (amount_minor : Z) (mode : rounding) : result Z :=
  dec_int <$> quantize1 mode (dec_mul (dec_of_Z amount_minor) (rt_rate r)).

(** ** Sources *)
Class RateSource (Src : Type) : Type := source_fetch : string → string → M Src decimal.

Module StaticRateSource.
Record source : Type := Source { rates : list ((string * string) * decimal); calls : Z }.

Fixpoint pair_get (k : string * string) (l : list ((string * string) * decimal)) : option decimal :=
  match l with
  | [] => None
  | (k', r) :: l => if decide (k' = k) then Some r else pair_get k l
  end.
Fixpoint pair_set (k : string * string) (r : decimal) (l : list ((string * string) * decimal))
    : list ((string * string) * decimal) :=
  match l with
  | [] => [(k, r)]
  | (k', r') :: l => if decide (k' = k) then (k', r) :: l else (k', r') :: pair_set k r l
  end.

(** The keys are put in upper case; a later pair wins. *)
Definition new_source (table : list ((string * string) * decimal)) : source :=
  Source (foldl (λ l t, pair_set (upper t.1.1, upper t.1.2) t.2 l) [] table) 0.

Definition static_fetch (base quote : string) : M source decimal := λ s,
  let s' := Source (rates s) (calls s + 1) in
  let base := upper base in
  let quote := upper quote in
  (if String.eqb base quote then Ok (dec_of_Z 1) else
   match pair_get (base, quote) (rates s) with
   | Some r => Ok r
   | None =>
       match pair_get (quote, base) (rates s) with
       | Some inverse => dec_div (dec_of_Z 1) inverse
       | None => raise_r RateNotFound ("no rate for " +:+ base +:+ "->" +:+ quote)
       end
   end, s').

#[global] Instance static_source : RateSource source := static_fetch.
End StaticRateSource.

(** ** Caches *)
Class CacheBackend (C : Type) : Type := {
  cache_get : string → nat → M C (option string);
  cache_set : string → string → Z → nat → M C unit;
}.

Module InMemoryCache.
Record cache : Type := Cache { data : gmap string (float * string) }.
Definition init : cache := Cache ∅.

Definition mem_get `{Externals} (key : string) (n : nat) : M cache (option string) := λ c,
  match data c !! key with
  | None => (Ok None, c)
  | Some (expires_at, value) =>
      if fleb expires_at (clock_time n) then (Ok None, Cache (delete key (data c)))
      else (Ok (Some value), c)
  end.

Definition mem_set `{Externals} (key value : string) (ttl_seconds : Z) (n : nat) : M cache unit :=
  modify (λ c, Cache (<[key := (fadd (clock_time n) (float_of_Z ttl_seconds), value)]> (data c))).

#[global] Instance memory_cache `{Externals} : CacheBackend cache := {
  cache_get := mem_get; cache_set := mem_set
}.
End InMemoryCache.

Module RedisCache.
(** [GET] and [SETEX], at some moment. *)
Class RedisStrings (R : Type) : Type := {
  redis_get : string → nat → M R (option string);
  redis_setex : string → Z → string → nat → M R unit;
}.

#[global] Instance redis_cache `{RedisStrings R} : CacheBackend R := {
  cache_get key n := redis_get key n;
  cache_set key value ttl n := redis_setex key ttl value n
}.
End RedisCache.

(** ** The lookup *)
Record ticker (Src C : Type) : Type := Ticker { tk_source : Src; tk_cache : C; tk_ttl : Z }.
Arguments Ticker {_ _} _ _ _.
Arguments tk_source {_ _} _.
Arguments tk_cache {_ _} _.
Arguments tk_ttl {_ _} _.

Definition cache_key (base quote : string) : string := "ticker:rate:" +:+ base +:+ ":" +:+ quote.

Definition encode_rate (r : rate) : string :=
  dumps Spaced (VDict [("base", VStr (rt_base r)); ("quote", VStr (rt_quote r));
                       ("rate", VStr (dec_str (rt_rate r))); ("as_of", rt_as_of r)]).

(** [Decimal(d["rate"])] of a text; the constructor's other arguments are left out. *)
Definition decode_rate (blob : string) : result rate :=
  match loads blob with
  | None => raise_r JSONDecodeError "Expecting value"
  | Some v =>
      d ← as_dict v;
      base ← get_str "base" d;
      quote ← get_str "quote" d;
      text ← get_str "rate" d;
      r ← dec_of_str text;
      as_of ← getitem "as_of" d;
      Ok (Rate base quote r as_of)
  end.

Section ticker.
Context `{Externals} `{RateSource Src} `{CacheBackend C}.
#[local] Notation K := (ticker Src C) (only parsing).

Definition on_source {A} (m : M Src A) : M K A :=
  zoom tk_source (λ s t, Ticker s (tk_cache t) (tk_ttl t)) m.
Definition on_cache {A} (m : M C A) : M K A :=
  zoom tk_cache (λ c t, Ticker (tk_source t) c (tk_ttl t)) m.

(** The lookup takes three moments: the cache read, the time stamp and the
    cache write. *)
Definition get_rate (n : nat) (base quote : string) : M K rate :=
  let base := upper base in
  let quote := upper quote in
  let key := cache_key base quote in
  cached ← on_cache (cache_get key n);
  match cached with
  | Some blob => of_result (decode_rate blob)
  | None =>
      fetched ← on_source (source_fetch base quote);
      let r := Rate base quote fetched (VFloat (clock_time (n + 1))) in
      ttl ← gets tk_ttl;
      on_cache (cache_set key (encode_rate r) ttl (n + 2)) ;;
      mret r
  end.

Definition convert (n : nat) (amount_minor : Z) (base quote : string) (mode : rounding) : M K Z :=
  r ← get_rate n base quote;
  of_result (convert_minor r amount_minor mode).

(** ** The agent *)
Context `{EventStore T}.

(** Three ticks of the world. *)
Definition three_moments : M (world T) nat :=
  n ← fresh id; _ ← fresh id; _ ← fresh id; mret n.

Definition price_payload (r : rate) : pydict :=
  [("base", VStr (rt_base r)); ("quote", VStr (rt_quote r));
   ("rate", VStr (dec_str (rt_rate r))); ("as_of", rt_as_of r)].

Definition handle_price (event : event) : M (proc T K) unit :=
  let req := ev_payload event in
  base ← of_result (get_str "base" req);
  quote ← of_result (get_str "quote" req);
  n ← in_world three_moments;
  outcome ← try_except (Some <$> in_agent (get_rate n base quote)) RateNotFound (λ _, mret None);
  match outcome with
  | None => mret tt
  | Some r =>
      payload ← of_result match dget "amount_minor" req with
        | None => Ok (price_payload r)
        | Some v =>
            amount ← py_int v;
            converted ← convert_minor r amount ROUND_HALF_UP;
            Ok (price_payload r ++ [("amount_minor", VInt amount); ("converted_minor", VInt converted)])%list
        end;
      emit_new "ticker" "ticker.price" 1 (ev_correlation_id event) None payload
  end.

#[export] Instance ticker_agent : Agent T K := {
  agent_name := "ticker";
  subjects := ["ticker.price.request"];
  handle := handle_price;
}.
End ticker.

(** [_DEMO_RATES] *)
Definition DEMO_RATES : list ((string * string) * decimal) :=
  [(("USD", "EUR"), Dec false 92 (-2)); (("USD", "GBP"), Dec false 79 (-2));
   (("EUR", "GBP"), Dec false 86 (-2))].

Lemma keeps_three_moments `{Externals} `{EventStoreLaws T} : keeps (evolves (T := T)) three_moments.
Proof. unfold three_moments. keeps_tac. Qed.
#[export] Hint Resolve keeps_three_moments : keeps.

#[export] Instance ticker_disciplined `{Externals} `{RateSource Src} `{CacheBackend C} `{EventStoreLaws T} :
  Disciplined (T := T) (A := ticker Src C).
Proof. intros e. simpl. unfold handle_price. keeps_tac. Qed.

(** ** Conversion *)
Local Open Scope Z_scope.

Lemma ndigits_of_round c k :
  (0 ≤ c < 10 ^ prec → 0 ≤ k → ndigits (round_off ROUND_HALF_UP false c k) ≤ prec)%Z.
Proof.
  intros Hc Hk. unfold round_off, away.
  assert (0 < 10 ^ k)%Z by (apply Z.pow_pos_nonneg; lia).
  pose proof (Z.div_mod c (10 ^ k)). pose proof (Z.mod_pos_bound c (10 ^ k)).
  assert (0 ≤ c / 10 ^ k)%Z by (apply Z.div_pos; lia).
  apply ndigits_le; [destruct (_ <=? _)%Z; lia|done|].
  destruct (Z.eq_dec k 0) as [->|Hk0].
  - change (10 ^ 0)%Z with 1%Z in *. rewrite Z.mod_1_r, Z.div_1_r in *. simpl. lia.
  - assert (10 ≤ 10 ^ k)%Z by (change 10%Z with (10 ^ 1)%Z at 1; apply Z.pow_le_mono_r; lia).
    destruct (Z.leb_spec (10 ^ k) (2 * (c mod 10 ^ k)))%Z; unfold prec in *; nia.
Qed.

(** C40: conversion is exact to the half unit.  For a rate with decimals (or
    none) and an amount whose product with it has at most 28 digits, the
    conversion returns, and returns the nearest integer to the exact product,
    ties going away from zero; it is exact when the product is an integer, and
    symmetric in the sign of the amount. *)
Theorem convert_minor_nearest r amount :
  let c := d_coeff (rt_rate r) in
  let k := (- d_exp (rt_rate r))%Z in
  (0 ≤ c → 0 ≤ k → Z.abs amount * c < 10 ^ prec →
   ∃ q, convert_minor r amount ROUND_HALF_UP = Ok q
     ∧ (let p := amount * signed (rt_rate r) in
        2 * Z.abs (p - q * 10 ^ k) ≤ 10 ^ k
        ∧ (2 * Z.abs (p - q * 10 ^ k) = 10 ^ k → Z.abs p < Z.abs q * 10 ^ k)))%Z.
Proof.
  intros c k Hc Hk Hsmall. unfold convert_minor, dec_mul.
  rewrite fix_prec_small by (cbn [d_coeff dec_of_Z]; fold c; lia).
  unfold quantize1. cbn [d_coeff d_exp d_neg dec_of_Z]. fold c.
  replace (0 + d_exp (rt_rate r))%Z with (- k)%Z by lia.
  set (neg := xorb (amount <? 0)%Z (d_neg (rt_rate r))).
  assert (Hq : (if 0 <=? - k then Z.abs amount * c * 10 ^ (- k)
                else round_off ROUND_HALF_UP neg (Z.abs amount * c) (- - k))%Z
             = round_off ROUND_HALF_UP neg (Z.abs amount * c) k).
  { rewrite Z.opp_involutive. destruct (Z.leb_spec 0 (- k)); [|done].
    assert (k = 0)%Z as -> by lia. unfold round_off, away. simpl (- 0)%Z.
    change (10 ^ 0)%Z with 1%Z. rewrite Z.mod_1_r, Z.div_1_r. simpl. lia. }
  rewrite Hq. set (q := round_off _ _ _ _).
  assert (Hd : (prec <? ndigits q)%Z = false).
  { apply Z.ltb_ge. apply ndigits_of_round; [nia|done]. }
  rewrite Hd. cbn [fmap result_fmap]. unfold dec_int. cbn [d_exp d_coeff d_neg].
  change (0 <=? 0)%Z with true. change (10 ^ 0)%Z with 1%Z. rewrite Z.mul_1_r.
  exists (if neg then - q else q)%Z. split; [done|].
  pose proof (round_half_up_spec neg (Z.abs amount * c) k ltac:(nia) Hk) as Hr. fold q in Hr.
  assert (Hp : (amount * signed (rt_rate r) = if neg then - (Z.abs amount * c) else Z.abs amount * c)%Z).
  { unfold neg, signed. fold c. destruct (Z.ltb_spec amount 0), (d_neg (rt_rate r)); simpl; lia. }
  rewrite Hp. assert (0 < 10 ^ k)%Z by (apply Z.pow_pos_nonneg; lia).
  set (t := (10 ^ k)%Z) in *. set (m := (Z.abs amount * c)%Z) in *. cbv zeta in Hr.
  assert (Hn : (Z.abs ((if neg then - m else m) - (if neg then - q else q) * t) = Z.abs (m - q * t))%Z)
    by (destruct neg; lia).
  assert (Hm : (Z.abs (if neg then - m else m) = m)%Z) by (destruct neg; subst m; lia).
  assert (Hz : (Z.abs (if neg then - q else q) = q)%Z) by (destruct neg; lia).
  cbv zeta. rewrite Hn, Hm, Hz. lia.
Qed.

(** ** Reading through *)
Section read_through.
Context `{Externals}.
#[local] Notation K := (ticker StaticRateSource.source InMemoryCache.cache) (only parsing).

(** The entry of a key that is still live at a moment. *)
Definition live (n : nat) (key : string) (c : InMemoryCache.cache) : option string :=
  match InMemoryCache.data c !! key with
  | Some (expires_at, blob) => if fleb expires_at (clock_time n) then None else Some blob
  | None => None
  end.

Lemma mem_get_live key n c :
  ∃ c', InMemoryCache.mem_get key n c = (Ok (live n key c), c')
    ∧ (∀ k, k ≠ key → InMemoryCache.data c' !! k = InMemoryCache.data c !! k)
    ∧ (live n key c ≠ None → c' = c).
Proof.
  unfold InMemoryCache.mem_get, live.
  destruct (InMemoryCache.data c !! key) as [[x v]|]; [|by exists c].
  destruct (fleb _ _); [|by exists c]. eexists. split; [done|]. split; [|done].
  intros k Hk. simpl. by rewrite lookup_delete_ne.
Qed.

(** Rates are read through the cache.  A lookup that finds a live entry
    returns what is stored and changes nothing, not even the count of calls
    to the source; any other asks the source exactly once, and what it returns
    is stored under its own key with the time to live, whatever the spelling
    of the currencies, so that every lookup of the pair before the entry
    expires is answered from it.  A lookup that fails stores nothing. *)
Theorem rate_read_through n base quote (t t' : K) r :
  get_rate n base quote t = (r, t') →
  let key := cache_key (upper base) (upper quote) in
  let data (t : K) := InMemoryCache.data (tk_cache t) in
  tk_ttl t' = tk_ttl t
  ∧ (∀ k, k ≠ key → data t' !! k = data t !! k)
  ∧ match live n key (tk_cache t) with
    | Some blob => r = decode_rate blob ∧ t' = t
    | None =>
        StaticRateSource.calls (tk_source t') = StaticRateSource.calls (tk_source t) + 1
        ∧ match r with
          | Ok rt => (StaticRateSource.static_fetch (upper base) (upper quote) (tk_source t)).1 = Ok (rt_rate rt)
              ∧ data t' !! key = Some (fadd (clock_time (n + 2)) (float_of_Z (tk_ttl t)), encode_rate rt)
              ∧ ∀ n' base' quote', upper base' = upper base → upper quote' = upper quote →
                  fleb (fadd (clock_time (n + 2)) (float_of_Z (tk_ttl t))) (clock_time n') = false →
                  get_rate n' base' quote' t' = (decode_rate (encode_rate rt), t')
          | Err _ => live n key (tk_cache t') = None
          end
    end.
Proof.
  intros E key data. unfold get_rate, mbind, M_bind, on_cache, zoom in E. fold key in E.
  cbn [cache_get InMemoryCache.memory_cache] in E.
  destruct (mem_get_live key n (tk_cache t)) as (c & Ec & Hc & Hsame). rewrite Ec in E.
  destruct (live n key (tk_cache t)) as [blob|] eqn:El.
  { rewrite Hsame in E by done. destruct t as [src cache ttl]. injection E as <- <-. done. }
  unfold on_source, zoom in E. cbn [tk_source tk_cache tk_ttl] in E.
  unfold source_fetch, StaticRateSource.static_source in E.
  destruct (StaticRateSource.static_fetch (upper base) (upper quote) (tk_source t)) as [f src] eqn:Ef.
  assert (Hcalls : StaticRateSource.calls src = StaticRateSource.calls (tk_source t) + 1).
  { unfold StaticRateSource.static_fetch in Ef. by injection Ef as _ <-. }
  destruct f as [d|e].
  - cbv [gets mret M_ret] in E. cbn [tk_source tk_cache tk_ttl cache_set InMemoryCache.memory_cache] in E.
    unfold InMemoryCache.mem_set, modify in E. injection E as <- <-.
    cbn [tk_ttl tk_cache tk_source rt_rate]. unfold data. cbn [tk_cache InMemoryCache.data].
    split; [done|]. split; [intros k Hk; rewrite lookup_insert_ne by done; by apply Hc|].
    split; [done|]. split; [done|]. split; [by rewrite lookup_insert_eq|].
    intros n' base' quote' Hb Hq Hlive. unfold get_rate, mbind, M_bind, on_cache, zoom.
    rewrite Hb, Hq. fold key. cbn [cache_get InMemoryCache.memory_cache tk_cache].
    unfold InMemoryCache.mem_get. cbn [InMemoryCache.data]. rewrite lookup_insert_eq, Hlive. done.
  - injection E as <- <-. cbn [tk_ttl tk_cache tk_source]. split; [done|]. split; [done|].
    split; [done|]. unfold InMemoryCache.mem_get in Ec. unfold live in *.
    destruct (InMemoryCache.data (tk_cache t) !! key) as [[x v]|] eqn:Ed.
    + destruct (fleb x (clock_time n)); [|done]. injection Ec as <-. simpl. by rewrite lookup_delete_eq.
    + injection Ec as <-. by rewrite Ed.
Qed.
End read_through.

(** ** Concrete rates *)
Module TickerDemo.
Definition ticker0 : ticker StaticRateSource.source InMemoryCache.cache :=
  Ticker (StaticRateSource.new_source DEMO_RATES) InMemoryCache.init DEFAULT_TTL_SECONDS.
Definition eur : rate := Rate "USD" "EUR" (Dec false 92 (-2)) (VInt 0).
End TickerDemo.

Section witnesses.
Import TickerDemo.

Lemma convert_minor_nearest_witness :
  convert_minor eur (-75) ROUND_HALF_UP = Ok (-69)
  ∧ ∃ q, convert_minor eur 1999 ROUND_HALF_UP = Ok q ∧ 2 * Z.abs (1999 * 92 - q * 100) <= 100.
Proof.
  split; [reflexivity|].
  destruct (convert_minor_nearest eur 1999 ltac:(discriminate) ltac:(discriminate) ltac:(reflexivity))
    as (q & E & Hq & _).
  exists q. split; [exact E|exact Hq].
Defined.

Lemma rate_read_through_witness :
  let '(r, t') := get_rate (H := Demo.externals) (H1 := InMemoryCache.memory_cache (H := Demo.externals)) 0 "usd" "eur" ticker0 in
  ∃ rt, r = Ok rt ∧ rt_rate rt = Dec false 92 (-2)
    ∧ get_rate (H := Demo.externals) (H1 := InMemoryCache.memory_cache (H := Demo.externals)) 61 "USD" "Eur" t' = (decode_rate (encode_rate rt), t')
    ∧ decode_rate (encode_rate rt) = Ok rt.
Proof.
  destruct (get_rate (H := Demo.externals) (H1 := InMemoryCache.memory_cache (H := Demo.externals)) 0 "usd" "eur" ticker0) as [r t'] eqn:E.
  pose proof (rate_read_through (H := Demo.externals) 0 "usd" "eur" ticker0 t' r E) as Ht.
  assert (Hr : r = Ok (Rate "USD" "EUR" (Dec false 92 (-2)) (VFloat (float_of_Z 1)))).
  { replace r with (get_rate (H := Demo.externals) (H1 := InMemoryCache.memory_cache (H := Demo.externals)) 0 "usd" "eur" ticker0).1 by (rewrite E; reflexivity).
    vm_compute. reflexivity. }
  subst r. eexists. split; [reflexivity|]. split; [reflexivity|]. split.
  - exact (proj2 (proj2 (proj2 (proj2 (proj2 Ht)))) 61%nat "USD" "Eur" eq_refl eq_refl
             ltac:(vm_compute; reflexivity)).
  - vm_compute. reflexivity.
Defined.
End witnesses.
