(* ===== verification/Webhook.v ===== *)
(** * Inbound webhooks (agents/ticker/webhook.py, webhook_agent.py)

    The event type of a raw webhook, the routing table with its fallback, the
    canonical payload and the agent. *)

From S2P Require Import Prelude PyStr PyFloat PyVal Json Contract Registry Metrics HashChain EventStore Agent.
Local Open Scope string_scope.

Definition DEFAULT_ROUTES : list (string * string) :=
  [("invoice.paid", "ledger.query"); ("invoice.updated", "mapper.transform");
   ("salesorder.created", "forge.write.propose")].
Definition DEFAULT_FALLBACK : string := "ticker.unrouted".
Definition DEFAULT_TYPE_KEYS : list string := ["event_type"; "type"; "kind"].

(** [repr] of a tuple of strings. *)
Definition tuple_repr (l : list string) : string :=
  match l with
  | [k] => "(" +:+ str_repr k +:+ ",)"
  | _ => "(" +:+ join ", " (map str_repr l) +:+ ")"
  end.

(** The first key that holds a string that is not blank. *)
Fixpoint first_type (raw_payload : pydict) (keys : list string) : option string :=
  match keys with
  | [] => None
  | key :: keys =>
      match get_or key VNone raw_payload with
      | VStr value => if str_empty (strip value) then first_type raw_payload keys else Some value
      | _ => first_type raw_payload keys
      end
  end.

Definition event_type_of (raw_payload : pydict) (keys : list string) : result string :=
  match first_type raw_payload keys with
  | Some value => Ok value
  | None => raise_r MalformedWebhook ("webhook has no event type in any of " +:+ tuple_repr keys)
  end.

(** ** The ingestor *)
Record ingestor : Type := Ingestor {
  in_routes : list (string * string);
  in_fallback : string;
  in_type_keys : list string;
}.

Definition new_ingestor (routes : option (list (string * string))) (fallback : string)
    (type_keys : list string) : result ingestor :=
  if str_empty fallback
  then raise_r ValueError "fallback route must be a non-empty subject"
  else Ok (Ingestor (default DEFAULT_ROUTES routes) fallback type_keys).

Definition default_ingestor : ingestor :=
  Ingestor DEFAULT_ROUTES DEFAULT_FALLBACK DEFAULT_TYPE_KEYS.

Definition route_for (i : ingestor) (event_type : string) : string :=
  default (in_fallback i) (dget event_type (in_routes i)).

Definition received_payload (i : ingestor) (tenant_id erp_platform event_type : string)
    (raw_payload : pydict) (received_at : string) : pydict :=
  [("tenant_id", VStr tenant_id); ("erp_platform", VStr erp_platform);
   ("event_type", VStr event_type); ("raw_payload", VDict raw_payload);
   ("received_at", VStr received_at); ("routed_to", VStr (route_for i event_type))].

Section agent.
Context `{Externals} `{EventStore T}.
#[local] Notation P := (proc T ingestor) (only parsing).

Definition ingest (tenant_id erp_platform : string) (raw_payload : pydict) : M P pydict :=
  i ← gets p_agent;
  event_type ← of_result (event_type_of raw_payload (in_type_keys i));
  received_at ← in_world (fresh clock_iso);
  mret (received_payload i tenant_id erp_platform event_type raw_payload received_at).

Definition handle_webhook (event : event) : M P unit :=
  let req := ev_payload event in
  tenant_id ← of_result (get_str "tenant_id" req);
  erp_platform ← of_result (get_str "erp_platform" req);
  raw_payload ← of_result (get_dict "raw_payload" req);
  outcome ← try_except (Some <$> ingest tenant_id erp_platform raw_payload) MalformedWebhook
              (λ _, mret None);
  match outcome with
  | None => mret tt
  | Some payload =>
      emit_new "ticker" "ticker.event.received" 1 (ev_correlation_id event) None payload
  end.

#[export] Instance webhook_agent : Agent T ingestor := {
  agent_name := "ticker";
  subjects := ["ticker.webhook"];
  handle := handle_webhook;
}.
End agent.

#[export] Instance webhook_disciplined `{Externals} `{EventStoreLaws T} :
  Disciplined (T := T) (A := ingestor).
Proof. intros e. simpl. unfold handle_webhook, ingest. keeps_tac. Qed.

(** ** Nothing recognizable is lost *)

Lemma first_type_spec raw keys :
  match first_type raw keys with
  | Some v => ∃ before key after, keys = (before ++ key :: after)%list
      ∧ dget key raw = Some (VStr v) ∧ strip v ≠ EmptyString
      ∧ ∀ k, k ∈ before → ∀ w, dget k raw = Some (VStr w) → strip w = EmptyString
  | None => ∀ k, k ∈ keys → ∀ w, dget k raw = Some (VStr w) → strip w = EmptyString
  end.
Proof.
  induction keys as [|key keys IH]; [by intros k Hk%not_elem_of_nil|].
  cbn [first_type]. unfold get_or.
  assert (Hskip : (∀ w, dget key raw = Some (VStr w) → strip w = EmptyString) →
    match first_type raw keys with
    | Some v => ∃ before key' after, (key :: keys)%list = (before ++ key' :: after)%list
        ∧ dget key' raw = Some (VStr v) ∧ strip v ≠ EmptyString
        ∧ ∀ k, k ∈ before → ∀ w, dget k raw = Some (VStr w) → strip w = EmptyString
    | None => ∀ k, k ∈ key :: keys → ∀ w, dget k raw = Some (VStr w) → strip w = EmptyString
    end).
  { intros Hkey. destruct (first_type raw keys) as [v|].
    - destruct IH as (before & key' & after & -> & Hd & Hs & Hb).
      exists (key :: before), key', after. split_and!; try done.
      intros k [->|Hk]%elem_of_cons; [done|by apply Hb].
    - intros k [->|Hk]%elem_of_cons; [done|by apply IH]. }
  destruct (dget key raw) as [[| | | |value| |]|] eqn:Ed; cbn [default from_option id];
    try (apply Hskip; intros w Hw; discriminate Hw).
  destruct (strip value) as [|c s] eqn:Es; cbn [str_empty].
  - apply Hskip. by intros w [= <-].
  - exists [], key, keys. rewrite Ed, Es. split_and!; [done..|]. by intros k Hk%not_elem_of_nil.
Qed.

(** A webhook is dropped only when it names no event.  A webhook whose
    handling ends normally either has, under none of the type keys, a string
    that is not blank, and then nothing at all is published or recorded; or it
    is published once as ticker.event.received, correlated with the request,
    with the raw payload verbatim, such a string as its type and the route of
    that type: the table's, or the fallback. *)
Theorem webhook_kept `{Externals} `{EventStoreLaws T} ev tenant_id erp_platform raw
    (s s' : proc T ingestor) :
  registry_ok (w_registry (p_world s)) →
  get_str "tenant_id" (ev_payload ev) = Ok tenant_id →
  get_str "erp_platform" (ev_payload ev) = Ok erp_platform →
  get_dict "raw_payload" (ev_payload ev) = Ok raw →
  handle_webhook ev s = (Ok tt, s') →
  p_agent s' = p_agent s
  ∧ ((s' = s ∧ ∀ k, k ∈ in_type_keys (p_agent s) → ∀ w, dget k raw = Some (VStr w) → strip w = EmptyString)
  ∨ ∃ (e : event) key event_type,
      w_bus (p_world s') = (w_bus (p_world s) ++ [("ticker.event.received", wire e)])%list
      ∧ ev_correlation_id e = ev_correlation_id ev
      ∧ key ∈ in_type_keys (p_agent s) ∧ dget key raw = Some (VStr event_type)
      ∧ strip event_type ≠ EmptyString
      ∧ dget "raw_payload" (ev_payload e) = Some (VDict raw)
      ∧ dget "event_type" (ev_payload e) = Some (VStr event_type)
      ∧ dget "routed_to" (ev_payload e) = Some (VStr (route_for (p_agent s) event_type))).
Proof.
  intros Hr E1 E2 E3 E. unfold handle_webhook in E. rewrite E1, E2, E3 in E.
  unfold mbind, M_bind, of_result in E. cbv beta iota in E.
  unfold try_except, ingest, fmap, M_fmap, mbind, M_bind, gets, of_result, in_world, zoom, fresh in E.
  unfold event_type_of in E. pose proof (first_type_spec raw (in_type_keys (p_agent s))) as Hf.
  destruct (first_type raw (in_type_keys (p_agent s))) as [v|].
  - cbv [mret M_ret] in E. cbn [p_world p_agent fst snd] in E.
    apply emit_new_ok in E as [_ _ _ _ _ Hb Ha _ _ _]; [|exact Hr].
    split; [exact Ha|]. right. destruct Hf as (before & key & after & Hk & Hd & Hs & _).
    eexists (Event _ _ _ _ _ _ _), key, v. split; [exact Hb|]. split; [done|].
    rewrite Hk. split; [apply elem_of_app; right; left|]. done.
  - cbn in E. injection E as <-. split; [done|]. left. done.
Qed.

(** Every ingestor that could be built has a route for every type. *)
Lemma route_never_empty routes fallback keys i event_type :
  new_ingestor routes fallback keys = Ok i → Forall (λ r : string * string, r.2 ≠ EmptyString) (in_routes i) →
  route_for i event_type ≠ EmptyString.
Proof.
  unfold new_ingestor. destruct (str_empty fallback) eqn:Ef; [done|]. intros [= <-] HF.
  unfold route_for. cbn [in_routes in_fallback] in *.
  destruct (dget event_type _) as [r|] eqn:Ed; cbn.
  - apply dget_Some_elem in Ed. rewrite Forall_forall in HF. exact (HF _ Ed).
  - by intros ->.
Qed.

(** ** A concrete webhook *)
Module WebhookDemo.
Definition posted : event :=
  Event "ticker.webhook" 1 "n8n"
    [("tenant_id", VStr "acme"); ("erp_platform", VStr "netsuite");
     ("raw_payload", VDict [("event_type", VStr " "); ("kind", VStr "invoice.voided"); ("n", VInt 1)])]
    (Demo.uuid_of 9) (Some "c1") None.
Definition proc0 : proc InMemoryEventStore.store ingestor := Proc AgentDemo.world0 default_ingestor.
End WebhookDemo.

Section witnesses.
Import WebhookDemo.

Lemma webhook_kept_witness :
  let '(r, s') := handle_webhook (H := Demo.externals) posted proc0 in
  r = Ok tt ∧ length (w_bus (p_world s')) = 1%nat ∧ p_agent s' = default_ingestor.
Proof.
  assert (Hr : (handle_webhook (H := Demo.externals) posted proc0).1 = Ok tt)
    by (vm_compute; reflexivity).
  assert (Hl : length (w_bus (p_world (handle_webhook (H := Demo.externals) posted proc0).2)) = 1%nat)
    by (vm_compute; reflexivity).
  destruct (handle_webhook (H := Demo.externals) posted proc0) as [r s'] eqn:E.
  cbn [fst snd] in Hr, Hl. subst r. split; [reflexivity|]. split; [exact Hl|].
  exact (proj1 (webhook_kept (H := Demo.externals) posted "acme" "netsuite"
    [("event_type", VStr " "); ("kind", VStr "invoice.voided"); ("n", VInt 1)] proc0 s'
    Demo.registry_fresh eq_refl eq_refl eq_refl E)).
Defined.
End witnesses.
