(* ===== verification/Files.v ===== *)
(** * Directories and file names

    What the scripts use of [pathlib] and [re]: a directory is a map from file
    name to text, [glob] lists the names with an extension in [sorted] order,
    and [dots_then] is the pattern [.+] followed by a tail up to the end of the
    name.  Names with characters beyond ASCII are outside the model (the class
    [\d] of [re] then has more digits). *)

From S2P Require Import Prelude PyStr PyFloat PyVal Json JsonText JsonFacts PyDecimal.
Local Open Scope string_scope.

(** [sorted(directory.glob("*" + ext))]: paths of one directory are ordered by
    name. *)
Definition glob (ext : string) (files : gmap string string) : list string :=
  sorted_strs (List.filter (endswith ext) (elements (dom files))).

(** [$] matches at the end of the text and before a final newline. *)
Definition at_end (s : string) : bool := String.eqb s EmptyString || String.eqb s newline.

(** [.+] takes as much as it can, no newline, such that the tail accepts the
    rest. *)
Fixpoint dots_then {A} (tail : string → option A) (s : string) : option (string * A) :=
  match s with
  | EmptyString => None
  | String c s =>
      if (N_of_ascii c =? 10)%N then None else
      match dots_then tail s with
      | Some (t, a) => Some (String c t, a)
      | None => (λ a, (String c EmptyString, a)) <$> tail s
      end
  end.

(** [\d+], which takes all the digits there are. *)
Definition digits_then (s : string) : option (string * string) :=
  let '(ds, rest) := span_digits s in
  if str_empty ds then None else Some (ds, rest).

Definition ascii_name (name : string) : result unit :=
  if ascii_str name then Ok tt else ill_typed "file name beyond ASCII".

(** ** Facts *)

Lemma elem_of_glob name ext files :
  name ∈ glob ext files ↔ is_Some (files !! name) ∧ endswith ext name = true.
Proof.
  unfold glob. rewrite elem_of_sorted_strs, list_elem_of_In, filter_In, <-list_elem_of_In.
  by rewrite elem_of_elements, elem_of_dom.
Qed.

Lemma glob_sorted ext files : StronglySorted str_le (glob ext files).
Proof. apply sorted_strs_sorted. Qed.

Lemma NoDup_filter_bool {A} (f : A → bool) (l : list A) : NoDup l → NoDup (List.filter f l).
Proof.
  rewrite !NoDup_ListNoDup. apply List.NoDup_filter.
Qed.

Lemma glob_nodup ext files : NoDup (glob ext files).
Proof.
  unfold glob. rewrite sorted_strs_perm. apply NoDup_filter_bool, NoDup_elements.
Qed.

(** The split is at [t] when the tail accepts [t] and nothing after it. *)
Lemma dots_then_split {A} (tail : string → option A) s t a :
  s ≠ EmptyString → str_mem (byte 10) s = false → tail t = Some a → dots_then tail t = None →
  dots_then tail (s +:+ t) = Some (s, a).
Proof.
  intros Hs Hn Ht Hd. induction s as [|c s IH]; [done|]. simpl in *.
  apply orb_false_iff in Hn as [Hc Hn].
  destruct (N.eqb_spec (N_of_ascii c) 10) as [E|_].
  { rewrite <-(ascii_N_embedding c), E in Hc. discriminate Hc. }
  destruct s as [|c' s]; [cbn [String.append]; by rewrite Hd, Ht|]. by rewrite IH.
Qed.

(** What a split is. *)
Lemma dots_then_sound {A} (tail : string → option A) s t a :
  dots_then tail s = Some (t, a) →
  t ≠ EmptyString ∧ ∃ rest, s = t +:+ rest ∧ tail rest = Some a.
Proof.
  revert t. induction s as [|c s IH]; intros t; [done|]. simpl.
  destruct (_ =? _)%N; [done|]. destruct (dots_then tail s) as [[t' a']|] eqn:E.
  - intros [= <- ->]. destruct (IH t' eq_refl) as (_ & rest & -> & ?). eauto.
  - destruct (tail s) as [a'|] eqn:Et; [|done]. intros [= <- ->]. eauto.
Qed.

Lemma digits_then_app ds rest :
  all_digit ds → ds ≠ EmptyString → no_digit rest → digits_then (ds +:+ rest) = Some (ds, rest).
Proof.
  intros Hd Hne Hr. unfold digits_then. rewrite span_digits_app by done. by destruct ds.
Qed.

Lemma span_digits_sound s ds rest :
  span_digits s = (ds, rest) → s = ds +:+ rest ∧ all_digit ds.
Proof.
  revert ds rest. induction s as [|c s IH]; intros ds rest; simpl; [by intros [= <- <-]|].
  destruct (is_digit c) eqn:Hc; [|by intros [= <- <-]].
  destruct (span_digits s) as [d r]. intros [= <- <-].
  destruct (IH d r eq_refl) as [-> ?]. by split.
Qed.

Lemma digits_then_sound s ds rest :
  digits_then s = Some (ds, rest) → s = ds +:+ rest ∧ all_digit ds ∧ ds ≠ EmptyString.
Proof.
  unfold digits_then. destruct (span_digits s) as [d r] eqn:E.
  destruct d as [|c d]; [done|]. intros [= <- <-].
  apply span_digits_sound in E as [-> ?]. done.
Qed.

Lemma str_rev_spec acc s : str_rev acc s = str_rev EmptyString s +:+ acc.
Proof.
  revert acc. induction s as [|c s IH]; intros acc; simpl; [done|].
  rewrite IH, (IH (String c EmptyString)), str_app_assoc. done.
Qed.

Lemma str_rev_app a b : str_rev EmptyString (a +:+ b) = str_rev EmptyString b +:+ str_rev EmptyString a.
Proof.
  induction a as [|c a IH]; simpl; [by rewrite str_app_nil_r|].
  rewrite (str_rev_spec (String c EmptyString) (a +:+ b)), (str_rev_spec (String c EmptyString) a).
  by rewrite IH, str_app_assoc.
Qed.

Lemma endswith_app a p : endswith p (a +:+ p) = true.
Proof. unfold endswith. rewrite str_rev_app. apply startswith_app. Qed.
