(* ===== verification/Bootstrap.v ===== *)
(** * Loading the schema registry (scripts/bootstrap.py)

    The script copies the schema files into the [schema_registry] table, whose
    keys the foreign key of the event log refers to.  The table is a map from
    its primary key; what a JSONB column makes of a text is a parameter. *)

From S2P Require Import Prelude PyStr PyFloat PyVal Json JsonText JsonFacts PyDecimal Registry Files.
Local Open Scope string_scope.
Local Open Scope Z_scope.

(** The tail of the pattern [_NAME]: [\.v(?P<version>\d+)\.json$]. *)
Definition version_tail (s : string) : option string :=
  if startswith ".v" s then
    match digits_then (removeprefix ".v" s) with
    | Some (ds, rest) =>
        if startswith ".json" rest && at_end (removeprefix ".json" rest) then Some ds else None
    | None => None
    end
  else None.

Definition parse_subject_version (filename : string) : result (string * Z) :=
  ascii_name filename ;;
  match dots_then version_tail filename with
  | Some (subject, ds) => Ok (subject, Z.of_N (digits_val ds))
  | None => raise_r ValueError ("schema filename " +:+ str_repr filename
      +:+ " does not match '<subject>.v<n>.json'")
  end.

Record schema_record : Type := SchemaRecord {
  sr_subject : string;
  sr_version : Z;
  sr_schema : pyval;
}.

(** The loop of [discover_schemas]: a name that does not match is skipped, a
    file that is no JSON ends the load. *)
Fixpoint discover_from (files : gmap string string) (names : list string)
    : result (list schema_record) :=
  match names with
  | [] => Ok []
  | name :: names =>
      match parse_subject_version name with
      | Err exc => if isinstance exc ValueError then discover_from files names else Err exc
      | Ok (subject, version) =>
          match loads (default EmptyString (files !! name)) with
          | None => raise_r JSONDecodeError ("in " +:+ name)
          | Some schema =>
              records ← discover_from files names;
              Ok (SchemaRecord subject version schema :: records)
          end
      end
  end.

Definition discover_schemas (files : gmap string string) : result (list schema_record) :=
  discover_from files (glob ".json" files).

(** What a JSONB column keeps of a text. *)
Class JsonbText (J : Type) : Type := jsonb_text : string → option J.

Record schema_row (J : Type) : Type := SchemaRow { json_schema : J; created_at : string }.
Arguments SchemaRow {_} _ _.
Arguments json_schema {_} _.
Arguments created_at {_} _.

Section load.
Context `{JsonbText J}.
#[local] Notation table := (gmap (string * Z) (schema_row J)) (only parsing).

(** [UPSERT_SQL]; the column [version] is an INTEGER of 32 bits. *)
Definition upsert (now : string) (rec : schema_record) : M table unit := λ t,
  if 2147483647 <? sr_version rec then (raise_r DatabaseError "integer out of range", t) else
  match jsonb_text (dumps Spaced (sr_schema rec)) with
  | None => (raise_r DatabaseError "invalid input syntax for type json", t)
  | Some j => (Ok tt, <[(sr_subject rec, sr_version rec) := SchemaRow j now]> t)
  end.

(** All the upserts are one transaction. *)
Definition load_schemas (files : gmap string string) (now : string) : M table Z :=
  records ← of_result (discover_schemas files);
  transaction (for_each records (upsert now)) ;;
  mret (Z.of_nat (length records)).
End load.

(** ** Names and keys *)

Lemma version_tail_digits ds :
  all_digit ds →
  version_tail (ds +:+ ".json") = None ∧ dots_then version_tail (ds +:+ ".json") = None.
Proof.
  induction ds as [|c ds IH]; [done|]. intros [Hc Hd]. destruct (IH Hd) as [Ht Hn].
  split.
  - unfold version_tail, startswith. cbn [String.append String.prefix].
    destruct (Ascii.ascii_dec "." c) as [<-|]; [discriminate Hc|done].
  - cbn [String.append dots_then].
    destruct (N.eqb_spec (N_of_ascii c) 10) as [E|_].
    { unfold is_digit in Hc. by rewrite E in Hc. }
    by rewrite Hn, Ht.
Qed.

Definition version_suffix (ds : string) : string := ".v" +:+ ds +:+ ".json".

Lemma version_tail_suffix ds :
  all_digit ds → ds ≠ EmptyString →
  version_tail (version_suffix ds) = Some ds ∧ dots_then version_tail (version_suffix ds) = None.
Proof.
  intros Hd Hne. destruct (version_tail_digits ds Hd) as [Ht Hn]. split.
  - unfold version_tail, version_suffix. rewrite startswith_app, removeprefix_app.
    by rewrite digits_then_app.
  - unfold version_suffix. cbn. rewrite Hn, Ht. done.
Qed.

Lemma startswith_split p s : startswith p s = true → s = p +:+ removeprefix p s.
Proof. intros [t ->]%startswith_spec. by rewrite removeprefix_app. Qed.

Lemma version_tail_sound s ds :
  version_tail s = Some ds →
  all_digit ds ∧ ds ≠ EmptyString ∧ ∃ e, s = version_suffix ds +:+ e ∧ at_end e = true.
Proof.
  unfold version_tail. destruct (startswith ".v" s) eqn:Hv; [|done].
  apply startswith_split in Hv as ->. rewrite removeprefix_app.
  destruct (digits_then _) as [[d rest]|] eqn:Hd; [|done].
  destruct (startswith ".json" rest) eqn:Hj; [|done].
  destruct (at_end _) eqn:He; [|done]. intros [= ->].
  apply digits_then_sound in Hd as (-> & ? & ?). apply startswith_split in Hj as Er.
  split_and!; [done..|]. exists (removeprefix ".json" rest). split; [|done].
  unfold version_suffix. rewrite !str_app_assoc. by rewrite <-Er.
Qed.

(** Subjects the pattern can carry. *)
Definition plain_subject (s : string) : Prop :=
  s ≠ EmptyString ∧ ascii_str s = true ∧ str_mem (byte 10) s = false.

Lemma ascii_digits ds : all_digit ds → ascii_str ds = true.
Proof.
  induction ds as [|c ds IH]; [done|]. intros [Hc Hd]. simpl. rewrite IH by done.
  unfold is_digit in Hc. cbv zeta in Hc. apply andb_true_iff in Hc as [_ Hc%N.leb_le].
  rewrite andb_true_r. apply N.ltb_lt. lia.
Qed.

Lemma schema_file_suffix s v : schema_file s v = s +:+ version_suffix (Z_str v).
Proof. unfold schema_file, schema_key, version_suffix. by rewrite !str_app_assoc. Qed.

Lemma schema_file_parses s v :
  plain_subject s → 0 ≤ v → parse_subject_version (schema_file s v) = Ok (s, v).
Proof.
  intros (Hs & Ha & Hn) Hv. destruct (Z_str_nonneg v Hv) as (Hd & Hne & Hval).
  destruct (version_tail_suffix _ Hd Hne) as [Ht Hdt].
  unfold parse_subject_version, ascii_name. rewrite schema_file_suffix.
  rewrite (dots_then_split _ _ _ _ Hs Hn Ht Hdt). unfold version_suffix.
  rewrite !ascii_str_app, Ha, (ascii_digits _ Hd). simpl. rewrite Hval, Z2N.id by done. done.
Qed.

(** File names and registry keys correspond.  The name under which the
    schema client looks up version [v] of a subject is the name from which the
    loader reads off that subject and version; and a name the loader accepts
    is a nonempty subject, [.v], digits whose number is the version, and
    [.json]. *)
Theorem schema_name_roundtrip :
  (∀ s v, plain_subject s → 0 ≤ v → parse_subject_version (schema_file s v) = Ok (s, v))
  ∧ (∀ name s v, parse_subject_version name = Ok (s, v) →
       s ≠ EmptyString ∧ ∃ ds e, name = s +:+ version_suffix ds +:+ e ∧ at_end e = true
         ∧ all_digit ds ∧ v = Z.of_N (digits_val ds)).
Proof.
  split.
  - intros s v. apply schema_file_parses.
  - intros name s v. unfold parse_subject_version, ascii_name.
    destruct (ascii_str name); [|done]. simpl.
    destruct (dots_then _ _) as [[s' ds]|] eqn:E; [|done]. intros [= -> <-].
    apply dots_then_sound in E as (Hs & rest & -> & Hr).
    apply version_tail_sound in Hr as (? & ? & e & -> & ?). split; [done|]. by exists ds, e.
Qed.

(** ** The table holds the files *)

Definition record_key (rec : schema_record) : string * Z := (sr_subject rec, sr_version rec).

Lemma discover_from_spec files names records :
  discover_from files names = Ok records →
  ∀ rec, rec ∈ records ↔ ∃ name, name ∈ names
    ∧ parse_subject_version name = Ok (record_key rec)
    ∧ loads (default EmptyString (files !! name)) = Some (sr_schema rec).
Proof.
  revert records. induction names as [|name names IH]; intros records; simpl.
  { intros [= <-] rec. setoid_rewrite elem_of_nil. naive_solver. }
  destruct (parse_subject_version name) as [[s v]|exc] eqn:Ep.
  - destruct (loads _) as [schema|] eqn:El; [|done]. intros E.
    apply result_bind_ok in E as (records' & E & [= <-]). intros [s' v' schema'].
    rewrite elem_of_cons, (IH _ E). setoid_rewrite elem_of_cons. unfold record_key. simpl. split.
    + intros [[= -> -> ->]|(n & ? & ?)]; eauto.
    + intros (n & [->|Hn] & Hp & Hl); [left; congruence|eauto].
  - destruct (isinstance exc ValueError); [|done]. intros E rec. rewrite (IH _ E).
    setoid_rewrite elem_of_cons. split; [naive_solver|].
    intros (n & [->|?] & Hp & ?); [congruence|eauto].
Qed.

(** No two names carry the same key, as happens with zero-padded versions. *)
Definition canonical_names (files : gmap string string) : Prop :=
  ∀ name s v, name ∈ glob ".json" files → parse_subject_version name = Ok (s, v) →
    name = schema_file s v.

Lemma discover_keys files names records :
  discover_from files names = Ok records → NoDup names →
  (∀ name s v, name ∈ names → parse_subject_version name = Ok (s, v) → name = schema_file s v) →
  NoDup (record_key <$> records).
Proof.
  revert records. induction names as [|name names IH]; intros records; simpl.
  { intros [= <-] _ _. constructor. }
  intros E [Hn Hnd]%NoDup_cons Hc.
  assert (∀ n s v, n ∈ names → parse_subject_version n = Ok (s, v) → n = schema_file s v) as Hc'.
  { intros n s v Hin. apply Hc. by right. }
  destruct (parse_subject_version name) as [[s v]|exc] eqn:Ep.
  - destruct (loads _) as [schema|] eqn:El; [|done].
    apply result_bind_ok in E as (records' & E & [= <-]). simpl. constructor; [|by apply IH].
    intros (rec & Hk & Hrec)%list_elem_of_fmap.
    apply (discover_from_spec _ _ _ E) in Hrec as (n & Hn' & Hp & _).
    unfold record_key in Hk, Hp. rewrite <-Hk in Hp. simpl in Hp.
    apply Hn. rewrite (Hc name s v); [|by left|done]. by rewrite <-(Hc' n s v).
  - destruct (isinstance exc ValueError); [|done]. by apply IH.
Qed.

Section loaded.
Context `{JsonbText J}.
#[local] Notation table := (gmap (string * Z) (schema_row J)) (only parsing).

Lemma upserts_spec (now : string) (records : list schema_record) (t t' : table) :
  for_each records (upsert now) t = (Ok tt, t') → NoDup (record_key <$> records) →
  (∀ rec, rec ∈ records → ∃ j, jsonb_text (dumps Spaced (sr_schema rec)) = Some j
     ∧ t' !! record_key rec = Some (SchemaRow j now))
  ∧ (∀ k, k ∉ record_key <$> records → t' !! k = t !! k).
Proof.
  revert t. induction records as [|rec records IH]; intros t; simpl.
  { intros [= <-] _. split; [by intros ? ?%elem_of_nil|done]. }
  intros E [Hk Hnd]%NoDup_cons. apply M_bind_ok in E as ([] & t1 & E1 & E).
  unfold upsert in E1. destruct (_ <? _); [done|].
  destruct (jsonb_text _) as [j|] eqn:Ej; [|done]. injection E1 as <-.
  destruct (IH _ E Hnd) as [IH1 IH2]. fold (record_key rec) in *. split.
  - intros r [->|Hr]%elem_of_cons; [|by apply IH1]. exists j. split; [done|].
    rewrite IH2 by done. apply lookup_insert_eq.
  - intros k. rewrite elem_of_cons. intros Hn. rewrite IH2 by tauto.
    apply lookup_insert_ne. naive_solver.
Qed.

(** The rows after a load: those of the files, stamped, and those from before
    that no file accounts for. *)
Lemma loaded_rows (files : gmap string string) (dir now : string) (t t' : table) (n : Z) :
  canonical_names files → load_schemas files now t = (Ok n, t') →
  (∀ s v schema, plain_subject s → 0 ≤ v → schema_of (Registry dir files ∅) s v = Ok schema →
     ∃ j, jsonb_text (dumps Spaced schema) = Some j ∧ t' !! (s, v) = Some (SchemaRow j now))
  ∧ (∀ s v, t' !! (s, v) = t !! (s, v)
       ∨ ∃ schema j, schema_of (Registry dir files ∅) s v = Ok schema
           ∧ jsonb_text (dumps Spaced schema) = Some j ∧ t' !! (s, v) = Some (SchemaRow j now)).
Proof.
  intros Hc E. unfold load_schemas in E.
  apply M_bind_ok in E as (records & t0 & E0 & E). injection E0 as Ed <-.
  apply M_bind_ok in E as ([] & t1 & E1 & E). injection E as _ <-.
  apply transaction_ok in E1 as Ef.
  pose proof (discover_from_spec _ _ _ Ed) as Hrec.
  destruct (upserts_spec _ _ _ _ Ef (discover_keys _ _ _ Ed (glob_nodup _ _) Hc)) as [Hin Hout].
  split.
  - intros s v schema Hs Hv Hof. unfold schema_of in Hof. simpl in Hof.
    destruct (files !! schema_file s v) as [text|] eqn:Et; [|done].
    destruct (loads text) as [w|] eqn:El; [|done]. injection Hof as ->.
    apply (Hin (SchemaRecord s v schema)), Hrec. exists (schema_file s v). split_and!.
    + apply elem_of_glob. split; [by eexists|]. unfold schema_file. apply endswith_app.
    + by apply schema_file_parses.
    + by rewrite Et.
  - intros s v. destruct (decide ((s, v) ∈ record_key <$> records)) as [Hk|Hk]; [right|left; by apply Hout].
    apply list_elem_of_fmap in Hk as (rec & Hk & Hr). destruct (Hin _ Hr) as (j & Hj & Ht).
    apply Hrec in Hr as (name & Hn & Hp & Hl). rewrite <-Hk in Hp, Ht.
    exists (sr_schema rec), j. split; [|done]. unfold schema_of. simpl.
    apply Hc in Hp; [|done]. rewrite <-Hp. apply elem_of_glob in Hn as [[text Et] _].
    rewrite Et in *. simpl in Hl. by rewrite Hl.
Qed.

(** C35: what a load makes of the table.  After a load that succeeds, in a
    directory where no name is zero-padded, the row of a subject and version is
    the schema the schema client finds for them in the files, stamped with this
    load; where the client finds none, the row is the one that was there before,
    if any: the loader replaces and adds, and never deletes.  So every event
    that passes its contract check satisfies the foreign key of the event log;
    and loaded into an empty table, the table and the files are the same
    registry. *)
Theorem registry_loaded (files : gmap string string) (dir now : string) (t t' : table) (n : Z) :
  canonical_names files → load_schemas files now t = (Ok n, t') →
  let found s v schema := schema_of (Registry dir files ∅) s v = Ok schema in
  (∀ s v row, plain_subject s → 0 ≤ v →
     t' !! (s, v) = Some row ↔
     (∃ schema, found s v schema ∧ jsonb_text (dumps Spaced schema) = Some (json_schema row)
        ∧ created_at row = now)
     ∨ (∀ schema, ¬ found s v schema) ∧ t !! (s, v) = Some row)
  ∧ (∀ s v schema, plain_subject s → 0 ≤ v → found s v schema → is_Some (t' !! (s, v)))
  ∧ (t = ∅ → ∀ s v, plain_subject s → 0 ≤ v →
       is_Some (t' !! (s, v)) ↔ ∃ schema, found s v schema).
Proof.
  intros Hc E found. destruct (loaded_rows files dir now t t' n Hc E) as [Hin Hout].
  assert (Hfound : ∀ s v schema, plain_subject s → 0 ≤ v → found s v schema → is_Some (t' !! (s, v))).
  { intros s v schema Hs Hv Hf. destruct (Hin _ _ _ Hs Hv Hf) as (j & _ & ->). by eexists. }
  split_and!; [|done|].
  - intros s v row Hs Hv. split.
    + intros Hr. destruct (schema_of (Registry dir files ∅) s v) as [schema|x] eqn:Ef.
      * left. exists schema. split; [done|]. destruct (Hin _ _ _ Hs Hv Ef) as (j & Hj & Ht).
        rewrite Ht in Hr. by injection Hr as <-.
      * right. unfold found. rewrite Ef. split; [done|]. rewrite <-Hr.
        destruct (Hout s v) as [?|(schema & j & Hf & _)]; [done|]. by rewrite Ef in Hf.
    + intros [(schema & Hf & Hj & <-)|[Hno Ht]].
      * destruct (Hin _ _ _ Hs Hv Hf) as (j & Hj' & Ht). rewrite Ht. rewrite Hj in Hj'.
        injection Hj' as <-. by destruct row.
      * destruct (Hout s v) as [->|(schema & j & Hf & _)]; [done|]. by destruct (Hno schema).
  - intros -> s v Hs Hv. split; [|intros [schema Hf]; by eapply Hfound].
    intros [row Hr]. destruct (Hout s v) as [Hsame|(schema & j & Hf & _)]; [|by exists schema].
    by rewrite Hsame, lookup_empty in Hr.
Qed.
End loaded.

(** ** The repository's directory *)
Module BootstrapDemo.
#[export] Instance texts : JsonbText string := Some.

Definition canonical_name (name : string) : bool :=
  match parse_subject_version name with
  | Ok (s, v) => String.eqb name (schema_file s v)
  | Err _ => true
  end.

Lemma canonical_files : canonical_names Demo.files.
Proof.
  assert (forallb canonical_name (glob ".json" Demo.files) = true) as Hall
    by (vm_compute; reflexivity).
  rewrite forallb_forall in Hall. intros name s v Hn Hp.
  specialize (Hall name (proj1 (list_elem_of_In _ _) Hn)). unfold canonical_name in Hall.
  rewrite Hp in Hall. by apply String.eqb_eq in Hall.
Qed.

Definition loaded : gmap (string * Z) (schema_row string) :=
  (load_schemas Demo.files "2024-01-01" ∅).2.

Example loads_all : (load_schemas (J := string) Demo.files "2024-01-01" ∅).1 = Ok 24.
Proof. vm_compute. reflexivity. Qed.

Example padded_versions : parse_subject_version "ledger.entry.v01.json" = Ok ("ledger.entry", 1).
Proof. reflexivity. Qed.

Example dotted : parse_subject_version "a.v1.json.v2.json" = Ok ("a.v1.json", 2).
Proof. reflexivity. Qed.
End BootstrapDemo.

Section witnesses.
Import BootstrapDemo.

Lemma schema_name_roundtrip_witness :
  plain_subject "ledger.entry" ∧ parse_subject_version (schema_file "ledger.entry" 2) = Ok ("ledger.entry", 2).
Proof.
  assert (plain_subject "ledger.entry") as Hs by by split_and!.
  exact (conj Hs (proj1 schema_name_roundtrip "ledger.entry" 2 Hs ltac:(lia))).
Defined.

(** A table with an old row of a file and a row without one. *)
Definition stale : gmap (string * Z) (schema_row string) :=
  {[("ledger.entry", 2) := SchemaRow "old" "2023-01-01"; ("ledger.note", 1) := SchemaRow "kept" "2023-01-01"]}.

Lemma registry_loaded_witness :
  let t' := (load_schemas Demo.files "2024-01-01" stale).2 in
  t' !! ("ledger.entry", 2) = Some (SchemaRow (dumps Spaced (VDict [])) "2024-01-01")
  ∧ t' !! ("ledger.note", 1) = Some (SchemaRow "kept" "2023-01-01").
Proof.
  intros t'. assert (El : (load_schemas (J := string) Demo.files "2024-01-01" stale).1 = Ok 24)
    by (vm_compute; reflexivity).
  assert (Hof : schema_of (Registry "schemas" Demo.files ∅) "ledger.entry" 2 = Ok (VDict []))
    by (vm_compute; reflexivity).
  assert (Hno : is_ok (schema_of (Registry "schemas" Demo.files ∅) "ledger.note" 1) = false)
    by (vm_compute; reflexivity).
  assert (Hst : stale !! ("ledger.note", 1) = Some (SchemaRow "kept" "2023-01-01")) by reflexivity.
  subst t'. destruct (load_schemas Demo.files "2024-01-01" stale) as [r t'] eqn:E.
  cbn [fst snd] in *. subst r.
  destruct (registry_loaded Demo.files "schemas" "2024-01-01" stale t' 24 canonical_files E) as [Hrow _].
  split; apply Hrow; try (by split_and!); try lia.
  - left. exists (VDict []). by split_and!.
  - right. split; [|exact Hst]. intros schema Hs. by rewrite Hs in Hno.
Defined.
End witnesses.
