(* ===== verification/Migrate.v ===== *)
(** * The migration runner (scripts/migrate.py)

    A database is its data, which the SQL of a migration changes in ways that
    are a parameter, and the [schema_migrations] table, absent at first.  Every
    [with connection()] block is a [transaction]; the operations run in the
    order of the code.  [main] takes the two flags as [argparse] hands them over
    and returns the exit code with the printed lines. *)

From S2P Require Import Prelude PyStr PyFloat PyVal Json JsonText JsonFacts PyDecimal Files.
Local Open Scope string_scope.

(** The tail of [_UP] after the version: [_(?P<name>.+)\.sql$]. *)
Definition sql_tail (s : string) : option unit :=
  if startswith ".sql" s && at_end (removeprefix ".sql" s) then Some tt else None.

Definition match_up (filename : string) : option (string * string) :=
  match digits_then filename with
  | Some (version, rest) =>
      if startswith "_" rest then (λ na, (version, na.1)) <$> dots_then sql_tail (removeprefix "_" rest)
      else None
  | None => None
  end.

Record migration : Type := Migration { version : string; name : string; path : string }.

Definition down_path (m : migration) : string := version m +:+ "_" +:+ name m +:+ ".down.sql".

Definition has_down (files : gmap string string) (m : migration) : bool :=
  bool_decide (is_Some (files !! down_path m)).

(** The body of the loop of [discover_migrations]. *)
Definition migration_of (filename : string) : option migration :=
  if endswith ".down.sql" filename then None
  else (λ vn, Migration vn.1 vn.2 filename) <$> match_up filename.

Definition discover_migrations (files : gmap string string) : result (list migration) :=
  mapM ascii_name (glob ".sql" files) ;;
  Ok (omap migration_of (glob ".sql" files)).

Definition pending (all_migrations : list migration) (applied_versions : list string)
    : list migration :=
  List.filter (λ m, negb (bool_decide (version m ∈ applied_versions))) all_migrations.

(** What PostgreSQL does with the text of a migration. *)
Class Sql (D : Type) : Type := sql_exec : string → D → result D.

Record database (D : Type) : Type := Database {
  db_data : D;
  db_migrations : option (list (string * string));
}.
Arguments Database {_} _ _.
Arguments db_data {_} _.
Arguments db_migrations {_} _.

Section migrate.
Context `{Sql D}.
#[local] Notation DB := (database D) (only parsing).

Definition create_tracking : M DB unit :=
  modify (λ db, Database (db_data db) (Some (default [] (db_migrations db)))).

Definition no_table {A} : result A :=
  raise_r DatabaseError "relation schema_migrations does not exist".

Definition applied_versions : M DB (list string) := λ db,
  match db_migrations db with
  | Some rows => (Ok rows.*1, db)
  | None => (no_table, db)
  end.

Definition execute (text : string) : M DB unit := λ db,
  match sql_exec text (db_data db) with
  | Ok d => (Ok tt, Database d (db_migrations db))
  | Err exc => (Err exc, db)
  end.

(** The version is the primary key. *)
Definition insert_migration (m : migration) : M DB unit := λ db,
  match db_migrations db with
  | Some rows =>
      if bool_decide (version m ∈ rows.*1)
      then (raise_r DatabaseError "duplicate key value violates unique constraint", db)
      else (Ok tt, Database (db_data db) (Some (rows ++ [(version m, name m)])%list))
  | None => (no_table, db)
  end.

Definition delete_migration (v : string) : M DB unit := λ db,
  match db_migrations db with
  | Some rows =>
      (Ok tt, Database (db_data db) (Some (List.filter (λ r, negb (String.eqb r.1 v)) rows)))
  | None => (no_table, db)
  end.

Definition read_text (files : gmap string string) (path : string) : M DB string :=
  match files !! path with
  | Some text => mret text
  | None => raise OSError ("no such file " +:+ path)
  end.

(** One turn of the loop of [apply_pending]. *)
Definition apply_one (files : gmap string string) (m : migration) : M DB unit :=
  transaction (text ← read_text files (path m); execute text ;; insert_migration m).

(** The loop, with [applied] so far. *)
Fixpoint apply_from (files : gmap string string) (done : list string) (ms : list migration)
    (applied : list string) : M DB (list string) :=
  match ms with
  | [] => mret applied
  | m :: ms =>
      if bool_decide (version m ∈ done) then apply_from files done ms applied
      else apply_one files m ;; apply_from files done ms (applied ++ [version m])%list
  end.

Definition tracked : M DB (list string) := transaction (create_tracking ;; applied_versions).

Definition apply_pending (files : gmap string string) : M DB (list string) :=
  done ← tracked;
  ms ← of_result (discover_migrations files);
  apply_from files done ms [].

Definition status (files : gmap string string) : M DB (list string * list string) :=
  done ← tracked;
  all_migrations ← of_result (discover_migrations files);
  mret (sorted_strs (version <$> List.filter (λ m, bool_decide (version m ∈ done)) all_migrations),
        version <$> pending all_migrations done).

(** [ORDER BY version DESC LIMIT 1]: versions are text, digits only, and all
    collations order those by code point. *)
Definition last_version (rows : list (string * string)) : option string :=
  last (sorted_strs rows.*1).

Definition rollback_last (files : gmap string string) : M DB (option string) :=
  row ← transaction (create_tracking ;;
          gets (λ db, last_version (default [] (db_migrations db))));
  match row with
  | None => mret None
  | Some v =>
      ms ← of_result (discover_migrations files);
      match List.find (λ m, String.eqb (version m) v) ms with
      | Some m =>
          if has_down files m then
            transaction (text ← read_text files (down_path m); execute text ;; delete_migration v) ;;
            mret (Some v)
          else raise SystemExit ("no down migration for " +:+ v +:+ "; cannot roll back")
      | None => raise SystemExit ("no down migration for " +:+ v +:+ "; cannot roll back")
      end
  end.

(** [', '.join(versions) or '-']. *)
Definition listed (versions : list string) : string :=
  let s := join ", " versions in if str_empty s then "-" else s.

Definition counted (what : string) (versions : list string) : string :=
  what +:+ " (" +:+ Z_str (Z.of_nat (length versions)) +:+ "): " +:+ listed versions.

(** [main]; [argparse] never sets both flags. *)
Definition main (files : gmap string string) (args_status args_rollback : bool)
    : M DB (Z * list string) :=
  if args_status then
    r ← status files;
    mret (0, [counted "applied" r.1; counted "pending" r.2])%Z
  else if args_rollback then
    version ← rollback_last files;
    mret (0, [match version with Some v => "rolled back " +:+ v | None => "nothing to roll back" end])%Z
  else
    applied ← apply_pending files;
    mret (0, ["applied " +:+ Z_str (Z.of_nat (length applied)) +:+ " migration(s): " +:+ listed applied])%Z.
End migrate.

(** ** Replays

    [replays files ms db db']: the migrations [ms], run in order and each
    recorded once, lead from [db] to [db']. *)
Section facts.
Context `{Sql D}.

Inductive replays (files : gmap string string) : list migration → database D → database D → Prop :=
  | replays_nil db : replays files [] db db
  | replays_cons m ms text rows d d1 db' :
      files !! path m = Some text → sql_exec text d = Ok d1 → version m ∉ rows.*1 →
      replays files ms (Database d1 (Some (rows ++ [(version m, name m)])%list)) db' →
      replays files (m :: ms) (Database d (Some rows)) db'.

Definition tracking (db : database D) : Prop := is_Some (db_migrations db).

Definition rows_of (db : database D) : list (string * string) := default [] (db_migrations db).

Lemma apply_one_run files m db r db' :
  tracking db → apply_one files m db = (r, db') →
  match r with
  | Ok _ => replays files [m] db db'
  | Err _ => db' = db
  end.
Proof.
  intros [rows Hrows] E. destruct db as [d ?]. simpl in Hrows. subst.
  destruct r as [[]|e]; [|by apply transaction_err in E].
  apply transaction_ok in E. apply M_bind_ok in E as (text & db2 & E2 & E3). unfold read_text in E2.
  destruct (files !! path m) as [t|] eqn:Ef; [|done]. apply M_ret_ok in E2 as [-> <-].
  apply M_bind_ok in E3 as ([] & db3 & E3 & E4). unfold execute in E3. simpl in E3.
  destruct (sql_exec text d) as [d1|] eqn:Ed; [|done]. injection E3 as <-.
  unfold insert_migration in E4. simpl in E4. case_bool_decide as Hv; [done|].
  injection E4 as <-. econstructor; [done..|constructor].
Qed.

Lemma replays_tracking files ms db db' : replays files ms db db' → tracking db → tracking db'.
Proof. induction 1; [done|]. intros _. apply IHreplays. by eexists. Qed.

Lemma replays_app files ms1 ms2 db db1 db2 :
  replays files ms1 db db1 → replays files ms2 db1 db2 → replays files (ms1 ++ ms2) db db2.
Proof. induction 1; intros; [done|]. econstructor; eauto. Qed.

(** A replay adds its migrations to the rows, in order. *)
Lemma replays_rows files ms db db' :
  replays files ms db db' →
  rows_of db' = (rows_of db ++ ((λ m, (version m, name m)) <$> ms))%list.
Proof.
  induction 1 as [|m ms text rows d d1 db' ? ? ? ? IH]; [by rewrite app_nil_r|].
  rewrite IH. unfold rows_of. simpl. by rewrite <-(assoc_L (++)).
Qed.

(** The loop, with the reason where it stops. *)
Lemma apply_from_run files done ms applied db r db' :
  tracking db → apply_from files done ms applied db = (r, db') →
  let todo := pending ms done in
  ∃ k, replays files (take k todo) db db' ∧
    match r with
    | Ok l => k = length todo ∧ l = (applied ++ (version <$> todo))%list
    | Err e => ∃ m, todo !! k = Some m ∧ apply_one files m db' = (Err e, db')
    end.
Proof.
  revert applied db. induction ms as [|m ms IH]; intros applied db Ht; simpl.
  { intros [= <- <-]. exists 0. rewrite app_nil_r. by repeat constructor. }
  case_bool_decide as Hv; simpl; [by apply IH|]. unfold mbind, M_bind.
  destruct (apply_one files m db) as [[[]|e] db1] eqn:E1;
    pose proof (apply_one_run _ _ _ _ _ Ht E1) as H1; simpl in H1.
  - intros E. destruct (IH _ _ (replays_tracking _ _ _ _ H1 Ht) E) as (k & Hk & Hr).
    exists (S k). split; [by eapply (replays_app _ [m])|]. destruct r as [l|e].
    + destruct Hr as [-> ->]. split; [done|]. simpl. by rewrite <-(assoc_L (++)).
    + done.
  - subst db1. intros [= <- <-]. exists 0. split; [constructor|]. by exists m.
Qed.

Lemma tracked_run db :
  tracked db = (Ok (rows_of db).*1, Database (db_data db) (Some (rows_of db))).
Proof. done. Qed.

Lemma pending_all_done ms done :
  (∀ m, m ∈ ms → version m ∈ done) → pending ms done = [].
Proof.
  intros Hd. induction ms as [|m ms IH]; [done|]. simpl.
  rewrite bool_decide_eq_true_2 by (apply Hd; left). apply IH. intros m' ?. apply Hd. by right.
Qed.

(** After a run that ends normally nothing is pending. *)
Lemma nothing_pending files ms db db' :
  replays files (pending ms (rows_of db).*1) db db' → pending ms (rows_of db').*1 = [].
Proof.
  intros Hk. apply pending_all_done. intros m Hm.
  rewrite (replays_rows _ _ _ _ Hk), fmap_app, elem_of_app.
  destruct (decide (version m ∈ (rows_of db).*1)) as [?|Hn]; [by left|]. right.
  rewrite <-list_fmap_compose. apply list_elem_of_fmap. exists m. split; [done|].
  unfold pending. rewrite list_elem_of_In, filter_In, <-list_elem_of_In.
  by rewrite bool_decide_eq_false_2.
Qed.

(** The run, as its loop. *)
Lemma apply_pending_run files ms db :
  discover_migrations files = Ok ms →
  apply_pending files db
  = apply_from files (rows_of db).*1 ms [] (Database (db_data db) (Some (rows_of db))).
Proof.
  intros Hd. unfold apply_pending. rewrite (M_bind_run _ _ _ _ _ (tracked_run db)), Hd.
  by rewrite (M_bind_run (of_result (Ok ms)) _ _ ms _ eq_refl).
Qed.

Lemma tracking_rows db : tracking db → Database (db_data db) (Some (rows_of db)) = db.
Proof. intros [rows Hrows]. destruct db as [d ?]. simpl in Hrows. by subst. Qed.

Lemma apply_pending_ok files ms (db db' : database D) l :
  discover_migrations files = Ok ms → apply_pending files db = (Ok l, db') →
  tracking db' ∧ pending ms (rows_of db').*1 = [].
Proof.
  intros Hd E. rewrite (apply_pending_run _ _ _ Hd) in E.
  set (db0 := Database _ _) in E. assert (tracking db0) as Ht by by eexists.
  destruct (apply_from_run _ _ _ _ _ _ _ Ht E) as (k & Hk & -> & _). rewrite firstn_all in Hk.
  split; [by eapply replays_tracking|by eapply (nothing_pending _ _ db0)].
Qed.

(** C37: the runner applies what is pending, in order, and records exactly
    that.  Each pending migration, in the order of the file names, either runs
    and is recorded, or stops the run and leaves no trace: what came before it
    stays, and running the same migration again would fail in the same way.  A
    run that ends normally has applied them all, reports their versions, and
    running it again changes nothing. *)
Theorem apply_pending_exact files ms (db db' : database D) r :
  discover_migrations files = Ok ms → apply_pending files db = (r, db') →
  let todo := pending ms (rows_of db).*1 in
  (∃ k, replays files (take k todo) (Database (db_data db) (Some (rows_of db))) db' ∧
     match r with
     | Ok l => k = length todo ∧ l = version <$> todo
     | Err e => ∃ m, todo !! k = Some m ∧ apply_one files m db' = (Err e, db')
     end)
  ∧ (is_ok r = true → apply_pending files db' = (Ok [], db')).
Proof.
  intros Hd E todo. split.
  - rewrite (apply_pending_run _ _ _ Hd) in E. set (db0 := Database _ _) in E. assert (tracking db0) as Ht by by eexists.
    destruct (apply_from_run _ _ _ _ _ _ _ Ht E) as (k & Hk & Hr). by exists k.
  - destruct r as [l|]; [|done]. intros _.
    destruct (apply_pending_ok _ _ _ _ _ Hd E) as [Ht Hp].
    rewrite (apply_pending_run _ _ _ Hd), tracking_rows by done.
    destruct (apply_from files _ ms [] db') as [r2 db2] eqn:E2.
    destruct (apply_from_run _ _ _ _ _ _ _ Ht E2) as (k2 & Hk2 & Hr2).
    rewrite Hp in Hk2, Hr2. rewrite take_nil in Hk2. inversion Hk2; subst.
    destruct r2 as [l2|e]; [by destruct Hr2 as [_ ->]|].
    destruct Hr2 as (m & Hm & _). by rewrite lookup_nil in Hm.
Qed.

Lemma filter_every_true {A} (f : A → bool) (l : list A) :
  (∀ x, x ∈ l → f x = true) → List.filter f l = l.
Proof.
  intros Hf. induction l as [|x l IH]; [done|]. simpl. rewrite Hf by left. f_equal.
  apply IH. intros y Hy. apply Hf. by right.
Qed.

(** What the command line says after an upgrade: asking for the status changes
    nothing and shows every migration as applied and none as pending. *)
Theorem status_after_upgrade files ms (db db' : database D) r :
  discover_migrations files = Ok ms → main files false false db = (Ok r, db') →
  main files true false db'
  = (Ok (0%Z, [counted "applied" (sorted_strs (version <$> ms)); "pending (0): -"]), db').
Proof.
  intros Hd E. apply M_bind_ok in E as (l & db1 & E & [= _ <-]).
  destruct (apply_pending_ok _ _ _ _ _ Hd E) as [Ht Hp]. unfold main, status.
  unfold mbind, M_bind. rewrite tracked_run, tracking_rows by done.
  rewrite Hd. unfold of_result, mret, M_ret. cbn [fst snd]. rewrite Hp.
  rewrite (filter_every_true _ ms); [done|]. intros m Hm. apply bool_decide_eq_true.
  destruct (decide (version m ∈ (rows_of db1).*1)) as [|Hn]; [done|].
  assert (m ∈ pending ms (rows_of db1).*1) as Hin; [|by rewrite Hp in Hin; inversion Hin].
  unfold pending. rewrite list_elem_of_In, filter_In, <-list_elem_of_In.
  by rewrite bool_decide_eq_false_2.
Qed.
End facts.

(** ** Rolling back *)
Section rollback.
Context `{Sql D}.

Lemma last_version_greatest rows v :
  Forall (λ w, str_le w v) rows → last (sorted_strs (rows ++ [v])) = Some v.
Proof.
  intros Hle. assert (sorted_strs (rows ++ [v]) = (sorted_strs rows ++ [v])%list) as ->.
  { eapply (StronglySorted_unique str_le); [apply sorted_strs_sorted| |].
    - apply StronglySorted_app. split_and!; [|apply sorted_strs_sorted|by repeat constructor].
      intros x y Hx Hy%list_elem_of_singleton. subst. apply (proj1 (elem_of_sorted_strs _ _)) in Hx.
      exact (proj1 (Forall_forall _ _) Hle x Hx).
    - by rewrite !sorted_strs_perm. }
  by rewrite last_snoc.
Qed.

(** Taking out a row that was just added. *)
Lemma filter_added (rows : list (string * string)) v n :
  v ∉ rows.*1 →
  List.filter (λ r : string * string, negb (String.eqb r.1 v)) (rows ++ [(v, n)])%list = rows.
Proof.
  intros Hv. rewrite List.filter_app. simpl. rewrite String.eqb_refl. simpl. rewrite app_nil_r.
  induction rows as [|[w k] rows IH]; [done|]. simpl in *.
  apply not_elem_of_cons in Hv as [Hw Hv]. rewrite (proj2 (String.eqb_neq w v)) by done.
  simpl. by rewrite IH.
Qed.

(** Rolling back undoes the last migration.  A migration just applied,
    whose version is above those recorded and whose down script takes its data
    back, is undone by [rollback_last]: the data and the rows are those from
    before. *)
Theorem rollback_undoes files ms m up down (db db' : database D) rows :
  discover_migrations files = Ok ms → List.find (λ x, String.eqb (version x) (version m)) ms = Some m →
  db_migrations db = Some rows → Forall (λ w, str_le w (version m)) rows.*1 →
  files !! path m = Some up → files !! down_path m = Some down →
  (∀ d, sql_exec up (db_data db) = Ok d → sql_exec down d = Ok (db_data db)) →
  apply_one files m db = (Ok tt, db') →
  rollback_last files db' = (Ok (Some (version m)), db).
Proof.
  intros Hms Hf Hrows Hle Hup Hdown Hundo E. destruct db as [d ?]. simpl in Hrows. subst.
  apply apply_one_run in E; [|by eexists].
  inversion E as [|? ? text ? ? d1 ? Ht Hx Hn Hr]; subst. inversion Hr; subst. simplify_eq.
  unfold rollback_last, mbind, M_bind. simpl. unfold last_version.
  rewrite fmap_app. simpl. rewrite last_version_greatest by done.
  rewrite Hms. simpl. rewrite Hf. unfold has_down. rewrite bool_decide_eq_true_2 by by eexists.
  unfold transaction, read_text, execute. rewrite Hdown. simpl. rewrite (Hundo d1) by done. simpl.
  by rewrite filter_added.
Qed.
End rollback.

(** ** A small directory *)
Module MigrateDemo.
(** The data is the list of the scripts run; [undo x] takes [x] off its end. *)
#[export] Instance scripts : Sql (list string) := λ text d,
  if startswith "undo " text then
    match reverse d with
    | x :: d => if String.eqb x (removeprefix "undo " text) then Ok (reverse d)
                else raise_r DatabaseError "not the last script"
    | [] => raise_r DatabaseError "nothing to undo"
    end
  else if startswith "bad" text then raise_r DatabaseError "syntax error"
  else Ok (d ++ [text])%list.

Definition files : gmap string string := list_to_map
  [("0001_init.sql", "a"); ("0002_ledger.sql", "b"); ("0002_ledger.down.sql", "undo b");
   ("readme.sql", "notes"); ("0003_tenant_isolation.sql", "bad")].

Definition m1 : migration := Migration "0001" "init" "0001_init.sql".
Definition m2 : migration := Migration "0002" "ledger" "0002_ledger.sql".
Definition m3 : migration := Migration "0003" "tenant_isolation" "0003_tenant_isolation.sql".

Example discovers : discover_migrations files = Ok [m1; m2; m3].
Proof. vm_compute. reflexivity. Qed.

Definition empty : database (list string) := Database [] None.

Definition after_two : database (list string) :=
  Database ["a"; "b"] (Some [("0001", "init"); ("0002", "ledger")]).

Example stops_at_the_bad_one :
  apply_pending files empty = (raise_r DatabaseError "syntax error", after_two).
Proof. vm_compute. reflexivity. Qed.

Example prints_status :
  (main files true false after_two).1
  = Ok (0%Z, ["applied (2): 0001, 0002"; "pending (1): 0003"]).
Proof. vm_compute. reflexivity. Qed.

Example tells_status : (status files after_two).1 = Ok (["0001"; "0002"], ["0003"]).
Proof. vm_compute. reflexivity. Qed.

(** Versions are compared as text, and the row taken is the one of the greatest
    version, not the one applied last. *)
Definition late : database (list string) :=
  Database ["b"; "a"] (Some [("0002", "ledger"); ("0001", "init")]).

Example rollback_by_version :
  (rollback_last files late).1 = raise_r DatabaseError "not the last script"
  ∧ last (rows_of late).*1 = Some "0001".
Proof. vm_compute. done. Qed.

Example text_order : last_version [("9", "x"); ("10", "y")] = Some "9".
Proof. vm_compute. reflexivity. Qed.
End MigrateDemo.

Section witnesses.
Import MigrateDemo.

Lemma apply_pending_exact_witness :
  (∃ k, replays files (take k [m1; m2; m3]) (Database [] (Some [])) after_two
     ∧ ∃ m, [m1; m2; m3] !! k = Some m
         ∧ apply_one files m after_two = (raise_r DatabaseError "syntax error", after_two)).
Proof.
  exact (proj1 (apply_pending_exact files [m1; m2; m3] empty after_two _ discovers
    stops_at_the_bad_one)).
Defined.

Lemma rollback_undoes_witness :
  let before : database (list string) := Database ["a"] (Some [("0001", "init")]) in
  rollback_last files after_two = (Ok (Some "0002"), before).
Proof.
  intros before.
  refine (rollback_undoes files [m1; m2; m3] m2 "b" "undo b" before after_two [("0001", "init")]
    discovers _ eq_refl _ _ _ _ _); try (vm_compute; reflexivity).
  - apply (bool_decide_unpack _). vm_compute. exact I.
  - intros d E. vm_compute in E. injection E as <-. vm_compute. reflexivity.
Defined.
End witnesses.
