(* ===== verification/Health.v ===== *)
(** * Probes and start-up (shared/health.py, shared/settings.py, the entry of agents/vault/service.py)

    The response builders of the health server, with the readiness checks as
    programs on an outside state, the routes and what a prober reads, and
    what the Vault service reads from its environment: the tenant allowlist, the
    store it runs on and the credentials it is seeded with.  Sockets and threads are left out. *)

From S2P Require Import Prelude PyStr PyFloat PyVal Json JsonText JsonFacts PyDecimal JsonFloat Http Metrics Registry Agent Vault VaultService.
Local Open Scope string_scope.
Local Open Scope Z_scope.

(** ** Health *)
Definition answer : Type := Z * pydict.

Definition health_response : answer := (200, [("status", VStr "ok")]).

Section readiness.
Context {W : Type}.

(** [bool(check())]; [except Exception] does not catch [SystemExit]. *)
Definition passed (check : M W pyval) : M W bool := λ w,
  match check w with
  | (Ok v, w) => (Ok (truthy v), w)
  | (Err exc, w) => if isinstance exc SystemExit then (Err exc, w) else (Ok false, w)
  end.

(** The loop, with [all_ok] and [results] so far: no check is skipped. *)
Fixpoint run_checks (checks : list (string * M W pyval)) (all_ok : bool) (results : pydict)
    : M W (bool * pydict) :=
  match checks with
  | [] => mret (all_ok, results)
  | (name, check) :: checks =>
      p ← passed check;
      run_checks checks (all_ok && p) (dset name (VBool p) results)
  end.

Definition readiness_response (checks : list (string * M W pyval)) : M W answer :=
  r ← run_checks checks true [];
  mret (if r.1 : bool then 200 else 503, [("ready", VBool r.1); ("checks", VDict r.2)]).

(** [do_GET]: what [_send] writes. *)
Definition do_GET (readiness : list (string * M W pyval)) (registry : metrics) (path : string)
    : M W Http.message :=
  let json (a : answer) := send_reply a.1 (Json a.2) "application/json" in
  if String.eqb path "/healthz" then mret (json health_response)
  else if String.eqb path "/readyz" then json <$> readiness_response readiness
  else if String.eqb path "/metrics"
       then mret (send_reply 200 (Text (prometheus registry)) "text/plain; version=0.0.4")
  else mret (json (404, [("error", VStr "not found")])).

(** [serve_health] up to the socket: the address, and the handler made for it. *)
Record health_server : Type := HealthServer {
  hs_host : string;
  hs_port : Z;
  hs_get : string → M W Http.message;
}.

Definition serve_health (host : string) (port : Z)
    (readiness : option (list (string * M W pyval))) (registry : metrics) : health_server :=
  HealthServer host port (do_GET (default [] readiness) registry).

(** What the checks give when run one after the other. *)
Fixpoint outcomes (checks : list (string * M W pyval)) (w : W) : list (result pyval) * W :=
  match checks with
  | [] => ([], w)
  | (_, check) :: checks =>
      let '(r, w) := check w in let '(rs, w) := outcomes checks w in (r :: rs, w)
  end.

Definition passing (r : result pyval) : bool :=
  match r with Ok v => truthy v | Err _ => false end.

Definition exits (r : result pyval) : bool :=
  match r with Ok _ => false | Err exc => isinstance exc SystemExit end.

Lemma run_checks_spec checks w all_ok results :
  let '(rs, w') := outcomes checks w in
  forallb (λ r, negb (exits r)) rs = true →
  run_checks checks all_ok results w
  = (Ok (all_ok && forallb passing rs,
         dupdate results (zip checks.*1 (map (λ r, VBool (passing r)) rs))), w').
Proof.
  revert w all_ok results. induction checks as [|[name check] checks IH]; intros w all_ok results.
  { simpl. by rewrite andb_true_r. }
  cbn [outcomes]. destruct (check w) as [r w1] eqn:Ec.
  specialize (IH w1 (all_ok && passing r) (dset name (VBool (passing r)) results)).
  destruct (outcomes checks w1) as [rs w'] eqn:Eo. cbn [forallb run_checks].
  intros [Hr Hrs]%andb_true_iff. unfold mbind, M_bind, passed. rewrite Ec.
  destruct r as [v|exc]; simpl in *; [|destruct (isinstance exc SystemExit); [done|]];
    rewrite IH by done; by rewrite <-andb_assoc.
Qed.

(** The checks that a probe is given, none of which ends the process. *)
Theorem readiness_exact checks w :
  let '(rs, w') := outcomes checks w in
  NoDup checks.*1 → forallb (λ r, negb (exits r)) rs = true →
  ∃ status body, readiness_response checks w = (Ok (status, body), w')
    ∧ (status = 200 ↔ ∀ r, r ∈ rs → passing r = true)
    ∧ (status = 200 ∨ status = 503)
    ∧ dget "ready" body = Some (VBool (bool_decide (status = 200)))
    ∧ dget "checks" body = Some (VDict (zip checks.*1 (map (λ r, VBool (passing r)) rs))).
Proof.
  pose proof (run_checks_spec checks w true []) as Hrun.
  assert (length (outcomes checks w).1 = length checks) as Hl.
  { clear Hrun. revert w. induction checks as [|[n c] cs IH]; intros w; [done|]. simpl.
    destruct (c w) as [r w1]. specialize (IH w1). destruct (outcomes cs w1). simpl in *. lia. }
  destruct (outcomes checks w) as [rs w']. simpl in Hl. intros Hnd Hex. specialize (Hrun Hex).
  unfold readiness_response. rewrite (M_bind_run _ _ _ _ _ Hrun). simpl.
  eexists _, _. split; [done|].
  assert (forallb passing rs = true ↔ ∀ r, r ∈ rs → passing r = true) as Hall.
  { rewrite forallb_forall. by setoid_rewrite list_elem_of_In. }
  split_and!.
  - rewrite <-Hall. by destruct (forallb passing rs).
  - destruct (forallb passing rs); auto.
  - simpl. by destruct (forallb passing rs).
  - simpl. do 2 f_equal. apply dict_of_wf. unfold wf_dict, dkeys.
    rewrite fst_zip; [done|]. by rewrite length_fmap, length_map, Hl.
Qed.
Lemma Forall_dset (P : string * pyval → Prop) k v d :
  Forall P d → P (k, v) → Forall P (dset k v d).
Proof.
  intros Hd Hk. induction Hd as [|[k' v'] d Hkv Hd IH]; simpl; [by repeat constructor|].
  destruct (String.eqb_spec k k'); subst; by constructor.
Qed.

Lemma run_checks_wf checks w all_ok results b d w' :
  run_checks checks all_ok results w = (Ok (b, d), w') →
  Forall valid_str checks.*1 → wf_val (VDict results) → wf_val (VDict d).
Proof.
  revert w all_ok results. induction checks as [|[name check] checks IH]; intros w all_ok results.
  { by intros [= _ <- _]. }
  cbn [run_checks]. intros E [Hn Hns]%Forall_cons [Hd Hw]%wf_val_dict.
  apply M_bind_ok in E as (p & w1 & _ & E). apply (IH _ _ _ E Hns), wf_val_dict.
  split; [by apply wf_dset|]. by apply Forall_dset.
Qed.

(** What a prober reads: a probe of /healthz or /readyz, and any unknown path,
    is answered with JSON text that [json.loads] reads back as the dict the
    builder made; the declared length is its length.  For /readyz the status is
    200 exactly when the dict says ready. *)
Theorem probe_read_back readiness registry path w m w' :
  do_GET readiness registry path w = (Ok m, w') →
  Forall valid_str readiness.*1 → path ≠ "/metrics" →
  ∃ d, loads (ms_body m) = Some (VDict d)
    ∧ (∃ l, dget "Content-Length" (ms_headers m) = Some l
         ∧ py_int (VStr l) = Ok (Z.of_nat (String.length (ms_body m))))
    ∧ (path = "/healthz" → ms_status m = 200 ∧ d = [("status", VStr "ok")])
    ∧ (path = "/readyz" → (ms_status m = 200 ↔ dget "ready" d = Some (VBool true)))
    ∧ (path ≠ "/healthz" ∧ path ≠ "/readyz" → ms_status m = 404).
Proof.
  intros E Hv Hp. unfold do_GET in E.
  assert (Hlen : ∀ z d, let m := send_reply z (Json d) "application/json" in
    ∃ l, dget "Content-Length" (ms_headers m) = Some l
      ∧ py_int (VStr l) = Ok (Z.of_nat (String.length (ms_body m)))).
  { intros z d. destruct (send_reply_length z (Json d) "application/json") as (l & H1 & H2 & _). eauto. }
  destruct (String.eqb_spec path "/healthz") as [->|H1].
  { injection E as <- <-. eexists. split; [vm_compute; reflexivity|]. split; [apply Hlen|].
    split_and!; [done|discriminate|by intros []]. }
  destruct (String.eqb_spec path "/readyz") as [->|H2].
  - unfold fmap, M_fmap, readiness_response, mbind, M_bind in E.
    destruct (run_checks readiness true [] w) as [[[b res]|e] w1] eqn:Er; [|done].
    injection E as <- <-.
    assert (Hw : wf_val (VDict [("ready", VBool b); ("checks", VDict res)])).
    { apply wf_val_dict. split; [apply (bool_decide_unpack _); vm_compute; done|].
      apply run_checks_wf in Er; [|done|by apply wf_val_dict; split; constructor].
      repeat apply Forall_cons_2; try done; (split; [by apply ascii_str_valid|done]). }
    eexists. split; [by apply loads_dumps|]. split; [apply Hlen|]. cbn.
    split_and!; [done|by destruct b|by intros [_ []]].
  - destruct (String.eqb_spec path "/metrics") as [|_]; [done|]. injection E as <- <-.
    eexists. split; [vm_compute; reflexivity|]. split; [apply Hlen|]. by split_and!.
Qed.
End readiness.

(** ** Start-up of the Vault service *)

(** [vault_tenant_allowset]; the empty set means any tenant. *)
Definition vault_tenant_allowset (vault_tenant_allowlist : string) : list string :=
  filter (λ t, t ≠ EmptyString) (map strip (split_char (byte 44) vault_tenant_allowlist)).

(** [os.environ]. *)
Definition environ : Type := string → option string.

Definition getenv (env : environ) (k dflt : string) : string := default dflt (env k).

Definition given (o : option string) : option string :=
  match o with Some s => if str_empty s then None else Some s | None => None end.

Definition seed_credentials (env : environ) (account_id : string) : pydict :=
  [("account_id", VStr account_id);
   ("consumer_key", VStr (getenv env "NETSUITE_CONSUMER_KEY" EmptyString));
   ("consumer_secret", VStr (getenv env "NETSUITE_CONSUMER_SECRET" EmptyString));
   ("token_id", VStr (getenv env "NETSUITE_TOKEN_ID" EmptyString));
   ("token_secret", VStr (getenv env "NETSUITE_TOKEN_SECRET" EmptyString))].

Definition seed_from_env `{CredentialStore C} (env : environ) : M (vault C) unit :=
  match given (env "CAVI_VAULT_SEED_TENANT"), given (env "NETSUITE_ACCOUNT_ID") with
  | Some tenant_id, Some account_id =>
      store_credentials tenant_id "netsuite" (seed_credentials env account_id)
  | _, _ => mret tt
  end.

(** The store is the one in memory or the keyring [k] of the machine. *)
Definition build_vault_from_env {K} (env : environ) (k : K)
    : result (vault InMemoryCredentialStore.memory_blobs + vault (KeyringCredentialStore.keyring_blobs K)) :=
  if String.eqb (lower (getenv env "CAVI_VAULT_STORE" "keyring")) "memory" then
    match seed_from_env env (Vault (InMemoryCredentialStore.Store ∅) DEFAULT_TTL_SECONDS) with
    | (Ok _, v) => Ok (inl v)
    | (Err exc, _) => Err exc
    end
  else Ok (inr (Vault (KeyringCredentialStore.Store "cavi-vault" k) DEFAULT_TTL_SECONDS)).

(** Start-up in memory mode never fails, and serves at most the tenant of the
    seed: for it the credentials of the environment, for all others none. *)
Lemma memory_vault_serves {K} env (k : K) :
  lower (getenv env "CAVI_VAULT_STORE" "keyring") = "memory" →
  ∃ v, build_vault_from_env env k = Ok (inl v) ∧
    ∀ t, held v t = Ok (match given (env "CAVI_VAULT_SEED_TENANT"), given (env "NETSUITE_ACCOUNT_ID") with
                        | Some tenant, Some account =>
                            if decide (t = tenant) then Some (seed_credentials env account) else None
                        | _, _ => None
                        end).
Proof.
  intros E. unfold build_vault_from_env, seed_from_env. rewrite E. simpl.
  destruct (given (env "CAVI_VAULT_SEED_TENANT")) as [tenant|]; [|by eexists].
  destruct (given (env "NETSUITE_ACCOUNT_ID")) as [account|]; [|by eexists].
  eexists. split; [reflexivity|]. intros t. unfold held. simpl.
  unfold InMemoryCredentialStore.mem_get. simpl. case_decide as Ht.
  - subst. by rewrite lookup_insert_eq.
  - by rewrite lookup_insert_ne by congruence.
Qed.

(** A tenant on the list is a nonempty name without blanks around it or commas
    in it. *)
Lemma allowset_names l t :
  t ∈ vault_tenant_allowset l ↔
  t ≠ EmptyString ∧ ∃ piece, piece ∈ split_char (byte 44) l ∧ t = strip piece.
Proof.
  unfold vault_tenant_allowset. rewrite list_elem_of_filter. apply and_iff_compat_l.
  rewrite list_elem_of_In, in_map_iff. setoid_rewrite list_elem_of_In. naive_solver.
Qed.

(** ** Examples *)
Module HealthDemo.
Definition up : M nat pyval := λ n, (Ok (VBool true), S n).
Definition down : M nat pyval := λ n, (raise_r OSError "refused", S n).
Definition checks : list (string * M nat pyval) := [("redis", up); ("postgres", down); ("bus", up)].

Example probes_all :
  readiness_response checks 0%nat
  = (Ok (503, [("ready", VBool false);
               ("checks", VDict [("redis", VBool true); ("postgres", VBool false);
                                 ("bus", VBool true)])]), 3%nat).
Proof. reflexivity. Qed.

Example allowed : vault_tenant_allowset " acme, ,globex " = ["acme"; "globex"].
Proof. reflexivity. Qed.
End HealthDemo.

Section witnesses.
Import HealthDemo.

Lemma readiness_exact_witness :
  ∃ status body, readiness_response checks 0%nat = (Ok (status, body), 3%nat) ∧ (status = 200 ∨ status = 503).
Proof.
  pose proof (readiness_exact checks 0%nat) as H.
  destruct (H ltac:(apply (bool_decide_unpack _); vm_compute; exact I) eq_refl)
    as (status & body & Hr & _ & Hs & _).
  exists status, body. exact (conj Hr Hs).
Defined.
End witnesses.
