(* ===== verification/Settings.v ===== *)
(** * Settings and process wiring (shared/settings.py, shared/cache.py, shared/db.py, shared/logging.py, agents/base/runtime.py)

    The settings with their names, aliases and defaults; how a process reads
    them once; and what is made from them: the database pool, the Redis client,
    the root logger and the run of an agent.  How pydantic looks a name up in
    the environment and reads an integer is a parameter. *)

From S2P Require Import Prelude PyStr PyFloat PyVal Agent.
Local Open Scope string_scope.
Local Open Scope Z_scope.

Record settings : Type := Settings {
  postgres_host : string;
  postgres_port : Z;
  postgres_db : string;
  postgres_user : string;
  postgres_password : string;
  postgres_pool_min_size : Z;
  postgres_pool_max_size : Z;
  redis_host : string;
  redis_port : Z;
  redis_db : Z;
  n8n_base_url : string;
  schema_registry_dir : string;
  health_host : string;
  health_port : Z;
  log_level : string;
  st_vault_api_secret : string;
  st_vault_tenant_allowlist : string;
  webhook_signing_secret : string;
  st_vault_url : string;
  st_netsuite_rest_url : string;
  st_hermes_webhook_url : string;
  st_beacon_target : string;
}.

Definition postgres_dsn (s : settings) : string :=
  "postgresql://" +:+ postgres_user s +:+ ":" +:+ postgres_password s +:+ "@" +:+ postgres_host s
    +:+ ":" +:+ Z_str (postgres_port s) +:+ "/" +:+ postgres_db s.

(** ** Reading the environment

    [env_text names] is the value of the first of the names that is set, in
    the environment or else in the [.env] file; [env_int] reads an integer. *)
Class Pydantic : Type := {
  env_text : list string → option string;
  env_int : string → option Z;
}.

Definition ENV_PREFIX : string := "CAVI_".

(** The name of a field without aliases. *)
Definition prefixed (field : string) : list string := [ENV_PREFIX +:+ upper field].

Section load.
Context `{Pydantic}.

Definition text_field (names : list string) (dflt : string) : result string :=
  Ok (default dflt (env_text names)).

Definition int_field (names : list string) (dflt : Z) : result Z :=
  match env_text names with
  | None => Ok dflt
  | Some t =>
      match env_int t with
      | Some z => Ok z
      | None => raise_r ValidationError "Input should be a valid integer"
      end
  end.

Definition vault_url_names : list string := ["CAVI_VAULT_URL"; "VAULT_URL"].
Definition netsuite_rest_url_names : list string := ["CAVI_NETSUITE_REST_URL"; "NETSUITE_REST_URL"].
Definition hermes_webhook_url_names : list string := ["CAVI_HERMES_WEBHOOK_URL"; "HERMES_WEBHOOK_URL"].

(** [Settings()]. *)
Definition load_settings : result settings :=
  postgres_host ← text_field (prefixed "postgres_host") "localhost";
  postgres_port ← int_field (prefixed "postgres_port") 5432;
  postgres_db ← text_field (prefixed "postgres_db") "cavi_erp";
  postgres_user ← text_field (prefixed "postgres_user") "cavi";
  postgres_password ← text_field (prefixed "postgres_password") "change-me";
  postgres_pool_min_size ← int_field (prefixed "postgres_pool_min_size") 1;
  postgres_pool_max_size ← int_field (prefixed "postgres_pool_max_size") 10;
  redis_host ← text_field (prefixed "redis_host") "localhost";
  redis_port ← int_field (prefixed "redis_port") 6379;
  redis_db ← int_field (prefixed "redis_db") 0;
  n8n_base_url ← text_field (prefixed "n8n_base_url") "http://localhost:5678";
  schema_registry_dir ← text_field (prefixed "schema_registry_dir") "schema_registry/schemas";
  health_host ← text_field (prefixed "health_host") "0.0.0.0";
  health_port ← int_field (prefixed "health_port") 0;
  log_level ← text_field (prefixed "log_level") "INFO";
  vault_api_secret ← text_field (prefixed "vault_api_secret") EmptyString;
  vault_tenant_allowlist ← text_field (prefixed "vault_tenant_allowlist") EmptyString;
  webhook_signing_secret ← text_field (prefixed "webhook_signing_secret") EmptyString;
  vault_url ← text_field vault_url_names EmptyString;
  netsuite_rest_url ← text_field netsuite_rest_url_names EmptyString;
  hermes_webhook_url ← text_field hermes_webhook_url_names EmptyString;
  beacon_target ← text_field (prefixed "beacon_target") "telegram:1370595013";
  Ok (Settings postgres_host postgres_port postgres_db postgres_user postgres_password
        postgres_pool_min_size postgres_pool_max_size redis_host redis_port redis_db n8n_base_url
        schema_registry_dir health_host health_port log_level vault_api_secret
        vault_tenant_allowlist webhook_signing_secret vault_url netsuite_rest_url
        hermes_webhook_url beacon_target).
End load.

(** ** A process

    What one process keeps globally: the cached settings, the pool of database
    connections and the root logger. *)

(** [ConnectionPool(dsn, min_size, max_size, open, name)]. *)
Record pool : Type := Pool {
  pool_dsn : string; pool_min : Z; pool_max : Z; pool_open : bool; pool_name : string;
}.

(** The formatters of the handlers, and the level. *)
Inductive formatter : Type := JsonFormatter | OtherFormatter.
Record root_logger : Type := RootLogger { root_handlers : list formatter; root_level : Z }.

Record process : Type := Process {
  p_settings : option settings;
  p_pool : option pool;
  p_root : root_logger;
  p_pools_made : nat;
}.

(** [redis.Redis(host, port, db, decode_responses)]. *)
Record redis_client : Type := RedisClient {
  rc_host : string; rc_port : Z; rc_db : Z; rc_decode : bool;
}.

Section process.
Context `{Pydantic}.

(** [get_settings] under [lru_cache]: a call that raises is not kept. *)
Definition get_settings : M process settings := λ p,
  match p_settings p with
  | Some s => (Ok s, p)
  | None =>
      match load_settings with
      | Ok s => (Ok s, Process (Some s) (p_pool p) (p_root p) (p_pools_made p))
      | Err x => (Err x, p)
      end
  end.

Definition get_pool : M process pool :=
  existing ← gets p_pool;
  match existing with
  | Some q => mret q
  | None =>
      s ← get_settings;
      let q := Pool (postgres_dsn s) (postgres_pool_min_size s) (postgres_pool_max_size s)
                 true "cavi-erp" in
      modify (λ p, Process (p_settings p) (Some q) (p_root p) (S (p_pools_made p))) ;;
      mret q
  end.

(** [shared.cache.get_client]. *)
Definition get_client : M process redis_client :=
  s ← get_settings; mret (RedisClient (redis_host s) (redis_port s) (redis_db s) true).

Definition INFO_LEVEL : Z := 20.

(** [getattr(logging, name, logging.INFO)], for the names of levels; the other
    attributes of the module are left out. *)
Definition level_of (name : string) : Z :=
  default INFO_LEVEL (dget name
    [("CRITICAL", 50); ("FATAL", 50); ("ERROR", 40); ("WARNING", 30); ("WARN", 30); ("INFO", 20);
     ("DEBUG", 10); ("NOTSET", 0)]).

(** [root.handlers[:] = [handler]; root.setLevel(level)]. *)
Definition configure_logging (level : Z) : M process unit :=
  modify (λ p, Process (p_settings p) (p_pool p) (RootLogger [JsonFormatter] level) (p_pools_made p)).

(** The health server and the agent's loop are arguments: what [run_agent]
    does is order them. *)
Definition run_agent (serve_health : string → Z → M process unit) (run : M process unit)
    : M process unit :=
  s ← get_settings;
  configure_logging (level_of (upper (log_level s))) ;;
  (if health_port s =? 0 then mret tt else serve_health (health_host s) (health_port s)) ;;
  run.
End process.

(** ** Facts *)

Definition default_settings : settings :=
  Settings "localhost" 5432 "cavi_erp" "cavi" "change-me" 1 10 "localhost" 6379 0
    "http://localhost:5678" "schema_registry/schemas" "0.0.0.0" 0 "INFO" EmptyString EmptyString
    EmptyString EmptyString EmptyString EmptyString "telegram:1370595013".

(** With nothing set every field has its default. *)
Lemma load_bare `{Pydantic} : (∀ names, env_text names = None) → load_settings = Ok default_settings.
Proof. intros Hn. unfold load_settings, text_field, int_field. rewrite !Hn. reflexivity. Qed.

Section facts.
Context `{Pydantic}.

Lemma get_settings_spec p r p' :
  get_settings p = (r, p') →
  p_pool p' = p_pool p ∧ p_root p' = p_root p ∧ p_pools_made p' = p_pools_made p
  ∧ (∀ s, r = Ok s → p_settings p' = Some s)
  ∧ (∀ s, p_settings p = Some s → r = Ok s ∧ p' = p).
Proof.
  unfold get_settings. destruct (p_settings p) as [s|] eqn:Es.
  - intros [= <- <-]. split_and!; try done; [by intros ? [= <-]|by intros ? [= <-]].
  - destruct load_settings as [s|x]; intros [= <- <-]; split_and!; try done. by intros ? [= <-].
Qed.

(** The pool, once made, is the one everybody gets, from the settings of the
    process. *)
Definition pool_ok (p : process) : Prop :=
  p_pools_made p = (if p_pool p then 1 else 0)%nat
  ∧ ∀ q, p_pool p = Some q → ∃ s, p_settings p = Some s
      ∧ q = Pool (postgres_dsn s) (postgres_pool_min_size s) (postgres_pool_max_size s) true "cavi-erp".

(** What any of the calls does. *)
Inductive call : Type := AskSettings | AskPool | AskRedis | SetLogging (level : Z).

Definition do_call (c : call) : M process unit :=
  match c with
  | AskSettings => _ ← get_settings; mret tt
  | AskPool => _ ← get_pool; mret tt
  | AskRedis => _ ← get_client; mret tt
  | SetLogging level => configure_logging level
  end.

(** Settings stay what they were first read as, and so does the pool. *)
Definition settled (p p' : process) : Prop :=
  (∀ s, p_settings p = Some s → p_settings p' = Some s)
  ∧ (∀ q, p_pool p = Some q → p_pool p' = Some q)
  ∧ (pool_ok p → pool_ok p').

#[export] Instance settled_preorder : PreOrder settled.
Proof. unfold settled. split; [auto|]. intros p1 p2 p3 (?&?&?) (?&?&?). auto 10. Qed.

Lemma get_settings_settled : keeps settled get_settings.
Proof.
  intros p r p' E. apply get_settings_spec in E as (E1 & _ & E2 & Hnew & Hold).
  assert (Hs : ∀ s, p_settings p = Some s → p_settings p' = Some s).
  { intros s Hs. by destruct (Hold s Hs) as [_ ->]. }
  unfold settled, pool_ok. rewrite E1, E2. split_and!; [done|done|].
  intros [? Hq]. split; [done|]. intros q Ep. destruct (Hq q Ep) as (s & Hps & ->). eauto.
Qed.

Lemma get_pool_settled : keeps settled get_pool.
Proof.
  intros p r p' E. unfold get_pool in E. unfold mbind at 1, M_bind, gets in E.
  destruct (p_pool p) as [q|] eqn:Ep; [by injection E as _ <-|].
  unfold mbind at 1, M_bind in E. destruct (get_settings p) as [[s|x] p1] eqn:Es;
    pose proof (get_settings_settled _ _ _ Es) as H1; [|by injection E as _ <-].
  trans p1; [done|]. apply get_settings_spec in Es as (E1 & _ & E2 & Hnew & _).
  injection E as _ <-. unfold settled, pool_ok. simpl. rewrite E1, Ep. split_and!; [done|done|].
  intros [Hm _]. rewrite Hm. split; [done|]. intros q [= <-]. exists s. split; [|done]. by apply Hnew.
Qed.

Lemma do_call_settled c : keeps settled (do_call c).
Proof.
  assert (Hret : keeps settled (mret tt)) by (apply keeps_ret; apply _).
  destruct c; simpl.
  - apply keeps_bind; [apply _|apply get_settings_settled|done].
  - apply keeps_bind; [apply _|apply get_pool_settled|done].
  - unfold get_client. apply keeps_bind; [apply _| |done].
    apply keeps_bind; [apply _|apply get_settings_settled|intros]. apply keeps_ret, _.
  - apply keeps_modify. by intros p.
Qed.

Definition fresh_process : process := Process None None (RootLogger [OtherFormatter] 30) 0.

(** A process is configured once.  However many times its parts ask for
    the settings, the database or Redis, in whatever order, at most one pool is
    ever opened, it is the one for the address and the bounds of the settings
    the process first read, and those settings answer every later call. *)
Theorem configured_once l p r :
  for_each l do_call fresh_process = (r, p) →
  (p_pools_made p ≤ 1)%nat
  ∧ ∀ q p', get_pool p = (Ok q, p') →
      ∃ s, p_settings p' = Some s ∧ (∀ s', p_settings p = Some s' → s' = s)
        ∧ pool_dsn q = postgres_dsn s ∧ pool_min q = postgres_pool_min_size s
        ∧ pool_max q = postgres_pool_max_size s
        ∧ p_pools_made p' = 1%nat ∧ ∀ l' r' p'', for_each l' do_call p' = (r', p'') →
            get_pool p'' = (Ok q, p'') ∧ p_pools_made p'' = 1%nat ∧ get_settings p'' = (Ok s, p'').
Proof.
  assert (Hall : ∀ l p r p', for_each l do_call p = (r, p') → settled p p').
  { intros l0. apply keeps_for_each; [apply _|]. intros. apply do_call_settled. }
  intros E. apply Hall in E as (_ & _ & Hok). destruct Hok as [Hm Hq]; [by split|].
  split; [rewrite Hm; destruct (p_pool p); lia|]. intros q p' Eq.
  assert (Hset : settled p p') by by eapply get_pool_settled.
  destruct Hset as (Hs1 & _ & Hok'). destruct Hok' as [Hm' Hq']; [by split|].
  assert (Hpool : p_pool p' = Some q).
  { unfold get_pool in Eq. unfold mbind at 1, M_bind, gets in Eq.
    destruct (p_pool p) as [q0|] eqn:Ep; [by injection Eq as <- <-|].
    unfold mbind at 1, M_bind in Eq. destruct (get_settings p) as [[s|x] p1]; [|done].
    by injection Eq as <- <-. }
  rewrite Hpool in Hm'. destruct (Hq' q Hpool) as (s & Hs & ->). exists s. simpl. split_and!; try done.
  - intros s' Hs'. apply Hs1 in Hs'. congruence.
  - intros l' r' p'' E'. apply Hall in E' as (Hs2 & Hp2 & Hok2). destruct Hok2 as [Hm2 _]; [by split; [rewrite Hpool|]|].
    specialize (Hp2 _ Hpool). rewrite Hp2 in Hm2. split_and!; [|done|].
    + unfold get_pool, mbind, M_bind, gets. by rewrite Hp2.
    + unfold get_settings. by rewrite (Hs2 s Hs).
Qed.
End facts.

(** ** Examples *)
Section witness.
(** Only the database's host is set. *)
Definition one_variable : Pydantic := {|
  env_text names := if decide (names = ["CAVI_POSTGRES_HOST"]) then Some "db" else None;
  env_int _ := None;
|}.
#[local] Existing Instance one_variable.

Lemma configured_once_witness :
  let '(r, p) := for_each [AskRedis; AskPool; AskSettings; AskPool] do_call fresh_process in
  r = Ok tt ∧ (p_pools_made p ≤ 1)%nat
  ∧ ∃ q, get_pool p = (Ok q, p)
    ∧ pool_dsn q = "postgresql://cavi:change-me@db:5432/cavi_erp".
Proof.
  assert (Hr : (for_each [AskRedis; AskPool; AskSettings; AskPool] do_call fresh_process).1 = Ok tt
    ∧ ∃ q, get_pool (for_each [AskRedis; AskPool; AskSettings; AskPool] do_call fresh_process).2
      = (Ok q, (for_each [AskRedis; AskPool; AskSettings; AskPool] do_call fresh_process).2)
      ∧ pool_dsn q = "postgresql://cavi:change-me@db:5432/cavi_erp")
    by (vm_compute; split; [done|eexists; split; reflexivity]).
  destruct (for_each _ _ _) as [r p] eqn:E. cbn [fst snd] in Hr. destruct Hr as [-> Hq]. split; [done|].
  split; [exact (proj1 (configured_once _ _ _ E))|exact Hq].
Defined.
End witness.
