(* ===== verification/System.v ===== *)
(** * The agents together

    What each agent says on the bus, whatever it is sent: its vocabulary, a list
    of subjects and versions, all of which have schema files; who listens to
    what; and which of the subjects listened to have no schema file, so that
    the runtime dead-letters whatever arrives on them.  The Mapper, which
    publishes on the subject it is asked for, has no fixed vocabulary, but what
    it publishes has a schema file all the same. *)

From S2P Require Import Prelude PyStr PyFloat PyVal Json JsonText JsonFacts Metrics Contract Registry HashChain EventStore Agent Forge Ledger Sales Write Breaker WriteAgent NetSuite Mapper PyDecimal ErpMap Reconcile Query PyTime Vault VaultService Beacon BeaconReport Ticker Webhook.
Local Open Scope string_scope.
Local Open Scope nat_scope.

(** ** Vocabularies *)
Definition words : Type := list (string * Z).

(** A dead letter, or the text of an event on one of the words. *)
Inductive spoken (L : words) : message → Prop :=
  | spoken_dead c d : startswith DEADLETTER c = true → spoken L (c, d)
  | spoken_event e : (ev_subject e, ev_schema_version e) ∈ L → spoken L (ev_subject e, wire e).

Definition speaks {T} (L : words) (w w' : world T) : Prop :=
  ∃ new, w_bus w' = (w_bus w ++ new)%list ∧ Forall (spoken L) new.

#[export] Instance speaks_preorder {T} L : PreOrder (@speaks T L).
Proof.
  split.
  - intros w. exists []. by rewrite app_nil_r.
  - intros w1 w2 w3 (n1 & E1 & F1) (n2 & E2 & F2). exists (n1 ++ n2)%list.
    rewrite E2, E1, (assoc_L (++)). split; [done|]. by apply Forall_app.
Qed.

Lemma same_bus_speaks {T} L (w w' : world T) : w_bus w' = w_bus w → speaks L w w'.
Proof. intros E. exists []. by rewrite app_nil_r. Qed.

Definition proc_speaks {T A} (L : words) (s s' : proc T A) : Prop :=
  speaks L (p_world s) (p_world s').

#[export] Instance proc_speaks_preorder {T A} L : PreOrder (@proc_speaks T A L).
Proof.
  unfold proc_speaks. split; [by intros s|]. intros s1 s2 s3 ??. by trans (p_world s2).
Qed.

(** The vocabulary of an agent: all that its loop ever publishes. *)
Definition vocabulary {T A} `{Externals} `{EventStore T} (agent : Agent T A) (L : words) : Prop :=
  ∀ l, keeps (proc_speaks L) (run (H1 := agent) l).

(** *** The runtime speaks only when told to *)
Section runtime.
Context `{Externals} `{EventStore T} (L : words).

Lemma speaks_zoom {S A} (get : world T → S) set (m : M S A) :
  (∀ x w, w_bus (set x w) = w_bus w) → keeps (speaks L) (zoom get set m).
Proof.
  intros Hs w r w'. unfold zoom. destruct (m (get w)). intros [= _ <-].
  by apply same_bus_speaks.
Qed.

Lemma speaks_count name v ls : keeps (speaks L) (count (T := T) name v ls).
Proof. apply keeps_modify. intros w. by apply same_bus_speaks. Qed.

Lemma speaks_fresh {A} (stream : nat → A) : keeps (speaks L) (fresh (T := T) stream).
Proof. intros w r w' [= _ <-]. by apply same_bus_speaks. Qed.

Lemma speaks_publish c d : spoken L (c, d) → keeps (speaks L) (publish (T := T) c d).
Proof. intros Hs. apply keeps_modify. intros w. exists [(c, d)]. split; [done|]. by constructor. Qed.

Lemma speaks_emit name e :
  (ev_subject e, ev_schema_version e) ∈ L → keeps (speaks L) (emit name e).
Proof.
  intros He. unfold emit.
  repeat (apply keeps_bind; [apply _| |intros]);
    first [by apply speaks_zoom|by apply speaks_publish; constructor|apply speaks_count].
Qed.

Lemma speaks_dead_letter name e error : keeps (speaks L) (dead_letter name e error).
Proof.
  unfold dead_letter.
  repeat (apply keeps_bind; [apply _| |intros]);
    try first [by apply speaks_zoom
              |apply speaks_publish; constructor; apply (startswith_app DEADLETTER)
              |apply speaks_count].
  apply keeps_try_excepts; [apply _|by apply speaks_zoom|]. intros. apply keeps_ret, _.
Qed.

Lemma speaks_in_world {A B} (m : M (world T) B) :
  keeps (speaks L) m → keeps (proc_speaks L) (in_world (A := A) m).
Proof.
  intros Hm s r s'. unfold in_world, zoom. destruct (m (p_world s)) as [o w] eqn:E.
  intros [= _ <-]. by apply Hm in E.
Qed.

Lemma speaks_in_agent {A B} (m : M A B) : keeps (proc_speaks (T := T) L) (in_agent m).
Proof.
  intros s r s'. unfold in_agent, zoom. destruct (m _). intros [= _ <-]. by apply same_bus_speaks.
Qed.

Lemma speaks_emit_new {A} name subject version c t payload :
  bool_decide ((subject, version) ∈ L) = true →
  keeps (proc_speaks (T := T) (A := A) L) (emit_new name subject version c t payload).
Proof.
  intros Hs%bool_decide_eq_true. apply speaks_in_world.
  intros w r w'. unfold new_event, mbind, M_bind. simpl. intros E.
  apply speaks_emit in E; [|done]. destruct E as (new & ? & ?). by exists new.
Qed.

Lemma speaks_run {A} (agent : Agent T A) :
  (∀ e, keeps (proc_speaks L) (handle e)) → vocabulary agent L.
Proof.
  intros Hh l. apply keeps_for_each; [apply _|]. intros d. unfold on_delivery.
  case_match; [|apply keeps_ret; apply _].
  apply keeps_bind; [apply _|apply keeps_of_result; apply _|]. intros e s r s'. unfold dispatch.
  destruct (in_world _ s) as [[u|x] s1] eqn:Ev; apply speaks_in_world in Ev;
    try by apply speaks_zoom.
  - intros E. trans s1; [done|]. eapply (keeps_bind (proc_speaks L)); [| |exact E].
    + apply speaks_in_world, speaks_count.
    + intros ?. apply Hh.
  - case_match; [|by intros [= _ <-]]. intros E. trans s1; [done|].
    eapply speaks_in_world, E. apply speaks_dead_letter.
Qed.
End runtime.

#[local] Hint Resolve speaks_count speaks_fresh speaks_dead_letter speaks_in_world speaks_in_agent
  speaks_emit_new : keeps.
#[local] Hint Extern 1 (bool_decide _ = true) => reflexivity : keeps.

(** ** The agents' vocabularies *)
Definition forge_words : words := [("forge.completed", 1); ("ledger.entry", 1)]%Z.
Definition ledger_words : words := [("ledger.posted", 1); ("ledger.rejected", 1)]%Z.
Definition write_words : words :=
  [("forge.write.requested", 3); ("forge.write.approved", 1); ("forge.write.rejected", 1);
   ("forge.write.completed", 1)]%Z.
Definition erp_mapper_words : words :=
  [("mapper.transform.completed", 1); ("mapper.transform.failed", 1)]%Z.
Definition reconcile_words : words :=
  [("ledger.reconciliation.completed", 1); ("ledger.drift.detected", 1)]%Z.
Definition query_words : words := [("ledger.query.completed", 1); ("ledger.query.failed", 1)]%Z.
Definition vault_words : words := [("vault.secret.granted", 1); ("vault.secret.denied", 1)]%Z.
Definition report_words : words := [("beacon.report.generated", 1)]%Z.
Definition price_words : words := [("ticker.price", 1)]%Z.
Definition webhook_words : words := [("ticker.event.received", 1)]%Z.

Section programs.
Context `{Externals} `{EventStore T} (L : words).

Lemma speaks_vend_token `{CredentialStore C} (v : vault C) tenant_id platform scopes ttl now :
  keeps (speaks (T := T) L) (vend_token v tenant_id platform scopes ttl now).
Proof. unfold vend_token. keeps_tac. Qed.

Lemma speaks_three_moments : keeps (speaks (T := T) L) three_moments.
Proof. unfold three_moments. keeps_tac. Qed.

(** A step of the write life cycle announces itself in the vocabulary. *)
Definition announced (step : write_step) : Prop :=
  bool_decide ((ws_subject step, ws_schema_version step) ∈ write_words) = true.

Lemma request_announced `{Erp E} args : returns announced (Write.request (E := E) args).
Proof. unfold Write.request. repeat (apply returns_bind; intros). by apply returns_ret. Qed.

Lemma reversal_announced `{Erp E} o op p b d x :
  returns announced (request_reversal (E := E) o op p b d x).
Proof. unfold request_reversal. case_decide; [apply request_announced|by intros ? ? ?]. Qed.

Lemma approve_announced {E} op b : returns announced (approve (E := E) op b).
Proof. unfold approve. repeat (apply returns_bind; intros). by apply returns_ret. Qed.

Lemma reject_announced {E} op b r : returns announced (reject (E := E) op b r).
Proof. unfold reject. repeat (apply returns_bind; intros). by apply returns_ret. Qed.

Lemma execute_announced `{Erp E} op : returns announced (execute (E := E) op).
Proof.
  unfold execute. case_decide; [|by intros ? ? ?].
  repeat (apply returns_bind; intros). by apply returns_ret.
Qed.

Lemma coordinate_ends {E B} (Q : B → Prop) (m : M (clocked E) B) :
  returns Q m → ends (proc_speaks (T := T) L) Q (coordinate m).
Proof.
  intros Hm s r s'. unfold coordinate, zoom. destruct (m _) as [o c] eqn:E0.
  intros [= <- <-]. split; [by apply same_bus_speaks|]. intros a ->. by eapply Hm.
Qed.

Lemma speaks_on_breaker {E B} b op (m : M (clocked breaker) B) :
  keeps (proc_speaks (T := T) (A := write_agent E) L) (on_breaker b op m).
Proof.
  intros s r s'. unfold on_breaker, zoom. destruct (m _). intros [= _ <-].
  by apply same_bus_speaks.
Qed.
End programs.

#[local] Hint Resolve speaks_vend_token speaks_three_moments speaks_on_breaker : keeps.

Section agents.
Context `{Externals} `{EventStore T}.

Lemma forge_speaks : vocabulary (T := T) forge_agent forge_words.
Proof. apply speaks_run. intros e. simpl. unfold handle_workorder. keeps_tac. Qed.

Lemma ledger_speaks `{LedgerStore L} : vocabulary (T := T) (A := L) ledger_agent ledger_words.
Proof. apply speaks_run. intros e. simpl. unfold handle_entry. keeps_tac. Qed.

Lemma reconcile_speaks `{Sources} : vocabulary (T := T) reconcile_agent reconcile_words.
Proof.
  apply speaks_run. intros e. simpl.
  unfold handle_due, read_sources, report, reconcile, count_drift. keeps_tac.
Qed.

Lemma vault_speaks `{CredentialStore C} : vocabulary (T := T) (A := vault C) vault_agent vault_words.
Proof. apply speaks_run. intros e. simpl. unfold handle_secret. keeps_tac. Qed.

Lemma beacon_speaks `{DedupStore D} `{Poster} :
  vocabulary (T := T) (A := beacon D) beacon_agent [].
Proof. apply speaks_run. intros e. simpl. unfold handle_outcome. keeps_tac. Qed.

Lemma report_speaks : vocabulary (T := T) report_agent report_words.
Proof. apply speaks_run. intros e. simpl. unfold handle_report, emit_report. keeps_tac. Qed.

Lemma price_speaks `{RateSource Src} `{CacheBackend C} :
  vocabulary (T := T) (A := ticker Src C) ticker_agent price_words.
Proof. apply speaks_run. intros e. simpl. unfold handle_price. keeps_tac. Qed.

Lemma webhook_speaks : vocabulary (T := T) webhook_agent webhook_words.
Proof. apply speaks_run. intros e. simpl. unfold handle_webhook, ingest. keeps_tac. Qed.

(** The agents that choose between two subjects. *)
Lemma query_speaks `{ErpReader} : vocabulary (T := T) query_agent query_words.
Proof.
  apply speaks_run. intros e. simpl. unfold handle_query.
  do 4 (apply keeps_bind; [apply _|apply keeps_of_result, _|intros]).
  apply (keeps_bind_ends _ (λ o : string * pydict, bool_decide ((o.1, 1%Z) ∈ query_words) = true)).
  - apply ends_try; [apply _| |intros exc];
      (apply (ends_bind _ (λ _, True)); [apply ends_keeps|intros; apply ends_ret; [apply _|reflexivity]]);
      unfold query, Query.failure; keeps_tac.
  - intros o Ho. by apply speaks_emit_new.
Qed.

Lemma erp_mapper_speaks : vocabulary (T := T) erp_mapper_agent erp_mapper_words.
Proof.
  apply speaks_run. intros e. simpl. unfold handle_erp_transform.
  do 5 (apply keeps_bind; [apply _|apply keeps_of_result, _|intros]).
  apply (keeps_bind_ends _ (λ o : string * pydict, bool_decide ((o.1, 1%Z) ∈ erp_mapper_words) = true)).
  - apply ends_try; [apply _| |intros exc];
      (apply (ends_bind _ (λ _, True)); [apply ends_keeps|intros; apply ends_ret; [apply _|reflexivity]]);
      unfold ErpMap.transform, ErpMap.failure; keeps_tac.
  - intros o Ho. by apply speaks_emit_new.
Qed.
End agents.

(** The write agent: every step it publishes is one of the life cycle. *)
Section write_agent.
Context `{Externals} `{EventStore T} `{Erp E} (breaker_factory : breaker).
#[local] Notation P := (proc T (write_agent E)) (only parsing).
#[local] Notation S := (proc_speaks (T := T) (A := write_agent E) write_words) (only parsing).

Lemma emit_step_speaks step c : announced step → keeps S (emit_step step c).
Proof.
  intros Hs. unfold emit_step, metric. apply keeps_bind; [apply _| |intros _].
  - apply speaks_in_world, speaks_count.
  - by apply speaks_emit_new.
Qed.

(** A step that may fail with an ERP error. *)
Lemma attempt_ends (m : M (clocked E) write_step) :
  returns announced m →
  ends S (λ o : write_step + exn, match o with inl step => announced step | inr _ => True end)
    (try_except (inl <$> coordinate m) ErpWriteError (λ exc, mret (inr exc))).
Proof.
  intros Hm. apply ends_try; [apply _| |intros; apply ends_ret; [apply _|reflexivity]].
  apply ends_fmap. by apply coordinate_ends.
Qed.

Lemma execute_write_speaks op cause c : keeps S (execute_write breaker_factory op cause c).
Proof.
  unfold execute_write. apply keeps_bind; [apply _|keeps_tac|intros [exc|]].
  { unfold metric, quarantine. keeps_tac. }
  unfold execute_open. apply keeps_bind; [apply _|keeps_tac|intros started].
  eapply keeps_bind_ends; [apply _|apply attempt_ends, execute_announced|].
  intros [step|exc] Hs; unfold metric, quarantine, pop_pending; [|keeps_tac].
  do 5 (apply keeps_bind; [apply _|solve [keeps_tac]|intros]). by apply emit_step_speaks.
Qed.

Lemma write_speaks : vocabulary (T := T) (write_agent_instance breaker_factory) write_words.
Proof.
  apply speaks_run. intros e. simpl. unfold handle_write. repeat case_match.
  - unfold propose. apply keeps_bind; [apply _|keeps_tac|intros args].
    eapply keeps_bind_ends; [apply _|apply attempt_ends, request_announced|].
    intros [step|exc] Hs; unfold put_pending, quarantine; [|keeps_tac].
    apply keeps_bind; [apply _|keeps_tac|intros]. by apply emit_step_speaks.
  - unfold decide_write. apply keeps_bind; [apply _|keeps_tac|intros wid].
    apply keeps_bind; [apply _|keeps_tac|intros [op|]]; [|keeps_tac].
    apply keeps_try_except; [apply _| |intros; unfold quarantine; keeps_tac].
    unfold decide_on. apply keeps_bind; [apply _|keeps_tac|intros decision].
    case_match; [case_decide; [apply execute_write_speaks|]|].
    + apply keeps_bind; [apply _|keeps_tac|intros reviewer].
      eapply keeps_bind_ends; [apply _|apply coordinate_ends, approve_announced|].
      intros step Hs. unfold put_pending. apply keeps_bind; [apply _|keeps_tac|intros].
      apply keeps_bind; [apply _|by apply emit_step_speaks|intros]. apply execute_write_speaks.
    + do 2 (apply keeps_bind; [apply _|keeps_tac|intros]).
      eapply keeps_bind_ends; [apply _|apply coordinate_ends, reject_announced|].
      intros step Hs. unfold pop_pending. apply keeps_bind; [apply _|keeps_tac|intros].
      by apply emit_step_speaks.
  - unfold reverse_write. apply keeps_bind; [apply _|keeps_tac|intros wid].
    apply keeps_bind; [apply _|keeps_tac|intros [original|]]; [|unfold quarantine; keeps_tac].
    do 4 (apply keeps_bind; [apply _|keeps_tac|intros]).
    eapply keeps_bind_ends; [apply _|apply attempt_ends, reversal_announced|].
    intros [step|exc] Hs; unfold put_pending, quarantine; [|keeps_tac].
    apply keeps_bind; [apply _|keeps_tac|intros]. by apply emit_step_speaks.
  - apply keeps_ret, _.
Qed.
End write_agent.

(** ** Who says what, and who hears it *)
Definition all_words : list words :=
  [forge_words; ledger_words; write_words; erp_mapper_words; reconcile_words; query_words;
   vault_words; report_words; price_words; webhook_words].

(** What a message of the Mapper is: a dead letter, or the text of an event whose
    subject and version name a schema file of the repository. *)
Inductive registered_message : message → Prop :=
  | registered_dead c d : startswith DEADLETTER c = true → registered_message (c, d)
  | registered_event e :
      schema_file (ev_subject e) (ev_schema_version e) ∈ schema_files →
      registered_message (ev_subject e, wire e).

Lemma checked_registered `{Externals} reg subject version payload :
  repository_files reg → Registry.check reg subject version payload = Ok tt →
  schema_file subject version ∈ schema_files.
Proof.
  intros Hf. unfold Registry.check, schema_of. destruct (reg_files reg !! _) as [text|] eqn:Et; [|done].
  intros _. apply Hf, elem_of_dom. by eexists.
Qed.

Lemma mapper_registered `{Externals} `{EventStoreLaws T} l (s s' : proc T mapper) r :
  registry_ok (w_registry (p_world s)) → repository_files (w_registry (p_world s)) →
  run (H1 := mapper_agent) l s = (r, s') →
  ∃ new, w_bus (p_world s') = (w_bus (p_world s) ++ new)%list ∧ Forall registered_message new.
Proof.
  intros Hr Hf E. apply keeps_run in E as [_ _ _ (new & Eb & _ & Ht) _].
  exists new. split; [done|]. eapply Forall_impl; [by apply Ht|]. intros m Hm.
  inversion Hm as [e Hc|e error]; subst; constructor;
    [by eapply checked_registered|exact (startswith_app DEADLETTER _)].
Qed.

(** C27: the agents only speak words that have a schema.  Whatever an agent is
    sent and however its loop ends, each message it has published is a dead
    letter or the text of an event.  For eleven of the twelve agents the event
    is on a subject and version of a fixed vocabulary, every word of which names
    a schema file of the repository; Beacon publishes no event at all.  The
    Mapper, which publishes on the subject it is asked for, has no vocabulary of
    its own, but with the repository's schema files whatever it publishes has a
    schema file there. *)
Theorem agents_speak_registered `{Externals} `{EventStore T} `{LedgerStore L} `{Erp E} `{Sources}
    `{ErpReader} `{CredentialStore C} `{DedupStore D} `{Poster} `{RateSource Src} `{CacheBackend K}
    (breaker_factory : breaker) :
  vocabulary (T := T) forge_agent forge_words
  ∧ vocabulary (T := T) (A := L) ledger_agent ledger_words
  ∧ vocabulary (T := T) (A := write_agent E) (write_agent_instance breaker_factory) write_words
  ∧ vocabulary (T := T) erp_mapper_agent erp_mapper_words
  ∧ vocabulary (T := T) reconcile_agent reconcile_words
  ∧ vocabulary (T := T) query_agent query_words
  ∧ vocabulary (T := T) (A := vault C) vault_agent vault_words
  ∧ vocabulary (T := T) (A := beacon D) beacon_agent []
  ∧ vocabulary (T := T) report_agent report_words
  ∧ vocabulary (T := T) (A := ticker Src K) ticker_agent price_words
  ∧ vocabulary (T := T) webhook_agent webhook_words
  ∧ (∀ L subject version, L ∈ all_words → (subject, version) ∈ L →
      schema_file subject version ∈ schema_files)
  ∧ ∀ `{!EventStoreLaws T} l (s s' : proc T mapper) r,
      registry_ok (w_registry (p_world s)) → repository_files (w_registry (p_world s)) →
      run (H1 := mapper_agent) l s = (r, s') →
      ∃ new, w_bus (p_world s') = (w_bus (p_world s) ++ new)%list ∧ Forall registered_message new.
Proof.
  split_and!.
  - apply forge_speaks.
  - apply ledger_speaks.
  - apply write_speaks.
  - apply erp_mapper_speaks.
  - apply reconcile_speaks.
  - apply query_speaks.
  - apply vault_speaks.
  - apply beacon_speaks.
  - apply report_speaks.
  - apply price_speaks.
  - apply webhook_speaks.
  - assert (forallb (forallb (λ sv, bool_decide (schema_file sv.1 sv.2 ∈ schema_files))) all_words
            = true) as Hall by (vm_compute; reflexivity).
    intros ws subject version HL Hw. rewrite forallb_forall in Hall.
    specialize (Hall ws (proj1 (list_elem_of_In _ _) HL)). rewrite forallb_forall in Hall.
    specialize (Hall _ (proj1 (list_elem_of_In _ _) Hw)). by apply bool_decide_eq_true in Hall.
  - intros Hlaws l s s' r. apply mapper_registered.
Qed.

(** The subjects the agents take their work from that have no schema file. *)
Definition command_subjects : list string :=
  ["forge.workorder"; "forge.write.propose"; "forge.write.decision"; "forge.write.reverse";
   "mapper.transform"; "mapper.erp.transform"; "ledger.query.request"; "vault.secret.request";
   "ticker.price.request"; "ticker.webhook"; "beacon.report.request"].

Lemma commands_unregistered : forallb unregistered command_subjects = true.
Proof. vm_compute. reflexivity. Qed.

Section deaf.
Context `{Externals} `{EventStoreLaws T} `{Agent T A}.

Definition at_home (s : proc T A) : Prop :=
  registry_ok (w_registry (p_world s)) ∧ repository_files (w_registry (p_world s)).

Definition unmoved (s s' : proc T A) : Prop :=
  p_agent s' = p_agent s ∧ proc_speaks [] s s' ∧ at_home s'.

Lemma evolves_at_home (s s' : proc T A) : proc_evolves s s' → at_home s → at_home s'.
Proof.
  intros [Hok [_ Hfiles] _ _ _] [Hr Hf]. split; [by apply Hok|].
  intros f. rewrite <-(Hf f). by rewrite <-Hfiles.
Qed.

(** An event on a subject without a schema file. *)
Lemma dispatch_unregistered e s r s' :
  at_home s → unregistered (ev_subject e) = true → dispatch e s = (r, s') → unmoved s s'.
Proof.
  intros [Hr Hf] Hu E.
  destruct (unregistered_never_handled e s Hr Hf Hu) as (reg & msg & Hreg & Hsame & Ed).
  rewrite Ed in E. clear Ed.
  assert (p_agent s' = p_agent s) as Ha.
  { unfold in_world, zoom in E. destruct (dead_letter _ _ _ _). by injection E as _ <-. }
  pose proof (speaks_in_world [] _ (speaks_dead_letter [] agent_name e msg) _ _ _ E) as Hs.
  pose proof (keeps_in_world _ (keeps_dead_letter agent_name e msg) _ _ _ E) as Hv.
  split; [done|]. split; [done|]. apply (evolves_at_home _ _ Hv). split; [done|].
  intros f. rewrite <-(Hf f). destruct Hsame as [_ E1]. simpl in *. by rewrite <-E1.
Qed.

Lemma dispatch_command e s r s' :
  at_home s → ev_subject e ∈ command_subjects → dispatch e s = (r, s') → unmoved s s'.
Proof.
  intros Hs He. apply dispatch_unregistered; [done|].
  pose proof commands_unregistered as Hall. rewrite forallb_forall in Hall.
  by apply Hall, list_elem_of_In.
Qed.

Lemma unmoved_refl s : at_home s → unmoved s s.
Proof. intros Hs. split; [done|]. by split; [reflexivity|]. Qed.

Lemma unmoved_trans s1 s2 s3 : unmoved s1 s2 → unmoved s2 s3 → unmoved s1 s3.
Proof. intros (? & ? & ?) (? & ? & ?). split; [congruence|]. split; [by trans s2|done]. Qed.

Lemma delivery_command d s r s' :
  at_home s → (∀ e, parse_wire (d_data d) = Ok e → ev_subject e ∈ command_subjects) →
  on_delivery d s = (r, s') → unmoved s s'.
Proof.
  intros Hs Hd. unfold on_delivery. case_match; [|intros [= _ <-]; by apply unmoved_refl].
  unfold mbind, M_bind, of_result.
  destruct (parse_wire (d_data d)) as [e|x]; [|intros [= _ <-]; by apply unmoved_refl].
  intros E. eapply dispatch_command; [done| |done]. by apply Hd.
Qed.

Lemma run_commands l s r s' :
  at_home s → (∀ d e, d ∈ l → parse_wire (d_data d) = Ok e → ev_subject e ∈ command_subjects) →
  run l s = (r, s') → unmoved s s'.
Proof.
  revert s. induction l as [|d l IH]; intros s Hs Hl.
  { intros [= _ <-]. by apply unmoved_refl. }
  unfold run. simpl. unfold mbind at 1, M_bind.
  destruct (on_delivery d s) as [[[]|x] s1] eqn:E1;
    (apply delivery_command in E1 as Hu1; [|done|intros e; apply Hl; by left]).
  - intros E. eapply unmoved_trans; [done|]. eapply IH, E; [by apply Hu1|].
    intros d' e ?. apply Hl. by right.
  - by intros [= _ <-].
Qed.

(** C28: a command is never carried out.  With the repository's schema files,
    whatever an agent is sent on the subjects the agents take their commands
    from, its own state stays as it is and all it publishes is dead letters:
    these subjects have no schema, so the runtime quarantines the events
    before the handler sees them. *)
Theorem commands_never_handled l (s s' : proc T A) r :
  at_home s →
  (∀ d e, d ∈ l → parse_wire (d_data d) = Ok e → ev_subject e ∈ command_subjects) →
  run l s = (r, s') →
  p_agent s' = p_agent s
  ∧ ∃ new, w_bus (p_world s') = (w_bus (p_world s) ++ new)%list
    ∧ ∀ channel data, (channel, data) ∈ new → startswith DEADLETTER channel = true.
Proof.
  intros Hs Hl E. destruct (run_commands l s r s' Hs Hl E) as (Ha & (new & Eb & Fb) & _).
  split; [done|]. exists new. split; [done|]. intros c m Hc.
  pose proof (proj1 (Forall_forall _ _) Fb _ Hc) as Hm.
  inversion Hm as [|? Hn]; [done|]. by apply elem_of_nil in Hn.
Qed.
End deaf.

(** The commands are what eight agents listen to, and Beacon's report request. *)
Lemma command_agents `{Externals} `{EventStore T} `{Erp E} `{ErpReader} `{CredentialStore C}
    `{RateSource Src} `{CacheBackend K} (breaker_factory : breaker) :
  command_subjects =
    (subjects (Agent := forge_agent (T := T))
     ++ subjects (Agent := write_agent_instance (T := T) (E := E) breaker_factory)
     ++ subjects (Agent := mapper_agent (T := T)) ++ subjects (Agent := erp_mapper_agent (T := T))
     ++ subjects (Agent := query_agent (T := T)) ++ subjects (Agent := vault_agent (T := T) (C := C))
     ++ subjects (Agent := ticker_agent (T := T) (Src := Src) (C := K))
     ++ subjects (Agent := webhook_agent (T := T)) ++ [REPORT_REQUEST])%list.
Proof. reflexivity. Qed.

(** The words that are heard: by the Ledger, the reconciler, Beacon and its
    reporter. *)
Definition heard_subjects : list string :=
  (["ledger.entry"; "ticker.reconciliation.due"] ++ BEACON_SUBJECTS ++ OUTCOME_SUBJECTS)%list.

Example words_heard :
  filter (λ s, s ∈ heard_subjects) (mjoin all_words).*1
  = ["forge.completed"; "ledger.entry"; "ledger.posted"; "ledger.rejected";
     "ledger.drift.detected"; "vault.secret.denied"].
Proof. vm_compute. reflexivity. Qed.

Section witnesses.
Import AgentDemo.
#[local] Existing Instance Demo.externals.

Definition order_delivery : delivery :=
  Delivery "message" "forge.workorder" (wire Agent.workorder_event).

Lemma commands_never_handled_witness :
  let '(r, s') := run (H1 := forge_agent) [order_delivery; order_delivery] proc0 in
  r = Ok tt ∧ length (w_bus (p_world s')) = 2
  ∧ ∃ new, w_bus (p_world s') = new
      ∧ ∀ channel data, (channel, data) ∈ new → startswith DEADLETTER channel = true.
Proof.
  assert (Hr : (run (H1 := forge_agent) [order_delivery; order_delivery] proc0).1 = Ok tt)
    by (vm_compute; reflexivity).
  assert (Hb : length (w_bus (p_world
    (run (H1 := forge_agent) [order_delivery; order_delivery] proc0).2)) = 2)
    by (vm_compute; reflexivity).
  destruct (run (H1 := forge_agent) _ _) as [r s'] eqn:E. cbn [fst snd] in Hr, Hb.
  refine (conj Hr (conj Hb (proj2 (commands_never_handled [order_delivery; order_delivery] proc0 s' r
    (conj Demo.registry_fresh Demo.registry_files) _ E)))).
  intros d e Hd Hp. assert (d = order_delivery) as -> by (rewrite !elem_of_cons, elem_of_nil in Hd; tauto).
  unfold order_delivery in Hp. cbn [d_data] in Hp.
  rewrite wire_roundtrip in Hp by (apply ascii_event_wf; reflexivity).
  injection Hp as <-. by left.
Defined.

(** A Ledger handed an entry on the bus answers with its posting; the Mapper,
    handed a request it cannot hear, leaves a dead letter. *)
Definition transform_delivery : delivery :=
  Delivery "message" "mapper.transform"
    (wire (Event "mapper.transform" 1 "tester" [("subject", VStr "ledger.entry")]
             (Demo.uuid_of 4) None (Some "acme"))).

Definition mapper0 : proc InMemoryEventStore.store mapper :=
  Proc world0 (new_mapper Demo.registry true).

#[local] Instance no_erp : Erp unit := {| erp_apply := unconfigured_apply; erp_fetch := None |}.
#[local] Existing Instance unconfigured_sources.
#[local] Existing Instance unconfigured_reader.
#[local] Instance reachable : Poster := λ _ _, None.

Lemma agents_speak_registered_witness :
  let '(r, s) := run (H1 := ledger_agent) [entry_delivery 100] ledger0 in
  let '(r', s') := run (H1 := mapper_agent) [transform_delivery] mapper0 in
  (r = Ok tt ∧ length (w_bus (p_world s)) = 1 ∧ Forall (spoken ledger_words) (w_bus (p_world s)))
  ∧ (r' = Ok tt ∧ length (w_bus (p_world s')) = 1
     ∧ Forall registered_message (w_bus (p_world s'))).
Proof.
  assert (Hr : (run (H1 := ledger_agent) [entry_delivery 100] ledger0).1 = Ok tt
    ∧ length (w_bus (p_world (run (H1 := ledger_agent) [entry_delivery 100] ledger0).2)) = 1)
    by (vm_compute; split; reflexivity).
  assert (Hr' : (run (H1 := mapper_agent) [transform_delivery] mapper0).1 = Ok tt
    ∧ length (w_bus (p_world (run (H1 := mapper_agent) [transform_delivery] mapper0).2)) = 1)
    by (vm_compute; split; reflexivity).
  destruct (agents_speak_registered (T := InMemoryEventStore.store) (L := InMemoryLedgerStore.store)
      (C := InMemoryCredentialStore.memory_blobs) (D := InMemoryDedupStore.sent_times)
      (Src := StaticRateSource.source) (K := InMemoryCache.cache) (E := unit) (Breaker 5 (float_of_Z 300) 0 None false))
    as (_ & Hledger & _ & _ & _ & _ & _ & _ & _ & _ & _ & _ & Hmapper).
  destruct (run (H1 := ledger_agent) _ _) as [r s] eqn:E.
  destruct (run (H1 := mapper_agent) _ _) as [r' s'] eqn:E'. cbn [fst snd] in Hr, Hr'.
  destruct Hr as [Hr Hb], Hr' as [Hr' Hb'].
  split.
  - destruct (Hledger _ ledger0 _ _ E) as (new & Enew & Hnew).
    refine (conj Hr (conj Hb _)). rewrite Enew. exact Hnew.
  - destruct (Hmapper _ _ mapper0 _ _ Demo.registry_fresh Demo.registry_files E') as (new & Enew & Hnew).
    refine (conj Hr' (conj Hb' _)). rewrite Enew. exact Hnew.
Defined.
End witnesses.
