(* ===== verification/Alerts.v ===== *)
(** * From an incident to a human

    What Beacon makes of the incidents the other agents report.  An entry that
    Ledger refuses is reported, as a warning, by any Beacon that hears of it.
    But the two severities that are routed to a human are those of subjects
    that begin with [deadletter.], and no event on such a subject ever passes
    the runtime: with the schemas, the routes and the channels of the
    repository, Beacon never pages anyone. *)

From S2P Require Import Prelude PyStr PyFloat PyVal Json JsonText JsonFacts Metrics Contract Registry HashChain EventStore Agent Forge Ledger Sales Beacon System.
Local Open Scope string_scope.
Local Open Scope Z_scope.

(** ** A refused entry *)

Definition imbalance (e : journal_entry) : exn :=
  Exn UnbalancedEntry ("entry " +:+ entry_id e +:+ ": debits " +:+ Z_str (total_debits e)
    +:+ " != credits " +:+ Z_str (total_credits e)).

Lemma refused_key e x c :
  al_dedup_key (classify "ledger.rejected" (rejected_payload e x) c) = "ledger.rejected:" +:+ entry_id e.
Proof. unfold classify, ident_of, or_else. cbn. destruct (entry_id e); cbn; reflexivity. Qed.

(** Beacon takes a message off the bus: what it sends, if the gateway fails
    only with HTTP errors. *)
Lemma beacon_hears `{Externals} `{EventStoreLaws T} `{DedupStore D} `{Poster} e (q : proc T (beacon D)) dup d :
  let a := classify (ev_subject e) (ev_payload e) (ev_correlation_id e) in
  let b := p_agent q in
  registry_ok (w_registry (p_world q)) → wf_event e → http_errors_only →
  check (w_registry (p_world q)) (ev_subject e) (ev_schema_version e) (ev_payload e) = Ok tt →
  is_duplicate (al_dedup_key a) (b_dedup_window b) (w_tick (p_world q)) (b_dedup b) = (Ok dup, d) →
  ∃ q', on_delivery (Delivery "message" (ev_subject e) (wire e)) q = (Ok tt, q')
    ∧ w_bus (p_world q') = w_bus (p_world q)
    ∧ b_sent (p_agent q') = (b_sent b ++ map (λ name, (name, a))
        (reached b (if dup : bool then [] else routes_of b (al_severity a))))%list.
Proof.
  intros a b Hr Hw Hp Hc Hd. unfold on_delivery. cbn [d_type d_data String.eqb Ascii.eqb Bool.eqb].
  rewrite wire_roundtrip by done. unfold of_result. rewrite (M_bind_run _ _ q e q) by done.
  destruct (dispatch_run e q Hr) as (reg & _ & _ & ->). rewrite Hc. cbn [handle beacon_agent].
  destruct (alert_delivered (w_tick (p_world q)) (ev_subject e) (ev_payload e) (ev_correlation_id e)
    b dup d Hp Hd) as (b' & En & Es & _).
  unfold handle_outcome, mbind, M_bind, in_world, in_agent, zoom, fresh. cbn [p_world p_agent].
  cbn [w_tick set_metrics set_registry]. unfold id. fold b. rewrite En.
  eexists. split; [reflexivity|]. split; [done|exact Es].
Qed.

(** C17: a refused entry is reported.  When Ledger handles an unbalanced entry
    and returns, the books are as they were and the one message it published is
    the rejection.  Any Beacon under the same contracts that hears it, with
    whatever store of sent alerts, raises nothing and publishes nothing, and
    unless the same entry was reported within the window, hands a warning that
    names the entry to every channel warnings are routed to. *)
Theorem rejection_reported `{Externals} `{EventStoreLaws T} `{EventStoreLaws T'} `{LedgerStoreLaws L}
    `{DedupStore D} `{Poster} ev tn entry (s s' : proc T L) :
  let payload := rejected_payload entry (imbalance entry) in
  let e := Event "ledger.rejected" 1 "ledger" payload (uuid4 (w_tick (p_world s)))
             (ev_correlation_id ev) (Some tn) in
  registry_ok (w_registry (p_world s)) →
  ev_tenant_id ev = Some tn → tn ≠ EmptyString → entry_of_payload (ev_payload ev) tn = Ok entry →
  is_balanced entry = false → wf_event e → http_errors_only →
  handle_entry ev s = (Ok tt, s') →
  p_agent s' = p_agent s
  ∧ w_bus (p_world s') = (w_bus (p_world s) ++ [("ledger.rejected", wire e)])%list
  ∧ ∀ (q : proc T' (beacon D)) dup d,
      registry_ok (w_registry (p_world q)) →
      same_files (w_registry (p_world s)) (w_registry (p_world q)) →
      is_duplicate ("ledger.rejected:" +:+ entry_id entry) (b_dedup_window (p_agent q))
        (w_tick (p_world q)) (b_dedup (p_agent q)) = (Ok dup, d) →
      ∃ q' a, on_delivery (Delivery "message" "ledger.rejected" (wire e)) q = (Ok tt, q')
        ∧ w_bus (p_world q') = w_bus (p_world q)
        ∧ al_severity a = WARNING ∧ al_subject a = "ledger.rejected"
        ∧ al_dedup_key a = "ledger.rejected:" +:+ entry_id entry
        ∧ b_sent (p_agent q') = (b_sent (p_agent q) ++ map (λ name, (name, a))
            (reached (p_agent q) (if dup : bool then [] else routes_of (p_agent q) WARNING)))%list.
Proof.
  intros payload e Hr Ht Hne Ee Hb Hw Hp E.
  rewrite (handle_entry_run ev tn entry s Ht Hne Ee), post_run, Hb in E.
  apply emit_new_ok in E as [_ _ _ Hc _ Hbus Ha _ _ _]; [|done].
  split; [done|]. split; [exact Hbus|]. intros q dup d Hrq Hfq Hd.
  pose proof (refused_key entry (imbalance entry) (ev_correlation_id ev)) as Hkey.
  destruct (beacon_hears e q dup d) as (q' & E' & Hbq & Hs); [done|done|done| |rewrite <-Hkey in Hd; exact Hd|].
  { change (ev_subject e) with "ledger.rejected". rewrite <-Hfq. exact Hc. }
  exists q', (classify "ledger.rejected" payload (ev_correlation_id ev)). split; [exact E'|].
  split; [done|]. split_and!; [reflexivity|reflexivity|exact Hkey|exact Hs].
Qed.

(** ** Paging *)

(** What Beacon hears, as the runtime publishes it: an event on its subject, or
    a dead letter on the channel of its subject. *)
Definition heard (d : delivery) (e : event) : Prop :=
  d_channel d ∈ BEACON_SUBJECTS
  ∧ (d_channel d = ev_subject e ∨ d_channel d = DEADLETTER +:+ ev_subject e).

(** The severities that are routed to the log only. *)
Definition low (subject : string) : bool :=
  match severity_for subject with INFO | WARNING => true | ERROR | CRITICAL => false end.

Definition harmless (subject : string) : bool := unregistered subject || low subject.

Lemma heard_harmless d e : heard d e → harmless (ev_subject e) = true.
Proof.
  assert (forallb (λ c, harmless c && harmless (removeprefix DEADLETTER c)) BEACON_SUBJECTS = true)
    as Hall by (vm_compute; reflexivity).
  rewrite forallb_forall in Hall. intros [Hc He].
  apply list_elem_of_In, Hall, andb_true_iff in Hc as [H1 H2].
  destruct He as [He|He]; rewrite He in *; [done|]. by rewrite removeprefix_app in H2.
Qed.

Definition to_hermes (sent : list (string * alert)) : list (string * alert) :=
  List.filter (λ na, String.eqb na.1 "hermes") sent.

Section paging.
Context `{Externals} `{EventStoreLaws T} `{DedupStore D} `{Poster} (target url : string).

(** Beacon as it is built, whatever it was asked before, and no page since
    [b0]. *)
Record unpaged (b0 b : beacon D) : Prop := {
  up_channels : b_channels b = default_channels target url;
  up_routes : b_routes b = DEFAULT_ROUTES;
  up_posts : b_posts b = b_posts b0;
  up_sent : to_hermes (b_sent b) = to_hermes (b_sent b0);
}.

Lemma notify_unpaged n subject payload c b0 b r b' :
  low subject = true → unpaged b0 b → notify n subject payload c b = (r, b') → unpaged b0 b'.
Proof.
  intros Hl [Hch Hro Hpo Hse] E. unfold notify, mbind, M_bind, gets, zoom in E.
  destruct (is_duplicate _ _ _ _) as [[[]|x] d]; [by injection E as _ <-| |by injection E as _ <-].
  assert (Hroute : routes_of (set_dedup d b) (al_severity (classify subject payload c)) = ["log"]).
  { unfold routes_of. cbn [b_routes set_dedup]. rewrite Hro. unfold low in Hl.
    cbn [al_severity classify]. by destruct (severity_for subject). }
  unfold dispatch_alert, mbind, M_bind, gets, id in E. rewrite Hroute in E.
  cbn [for_each b_channels set_dedup] in E. rewrite Hch in E.
  cbn in E. injection E as _ <-. split; try done. cbn [b_sent handed set_dedup].
  unfold to_hermes. rewrite List.filter_app. simpl. by rewrite app_nil_r.
Qed.

#[local] Notation P := (proc T (beacon D)) (only parsing).

Lemma dispatch_unpaged e b0 (s s' : P) r :
  at_home s → harmless (ev_subject e) = true → unpaged b0 (p_agent s) →
  dispatch e s = (r, s') → at_home s' ∧ unpaged b0 (p_agent s').
Proof.
  intros Hs He Hb E.
  split; [eapply evolves_at_home; [by eapply (keeps_dispatch e)|done]|].
  apply orb_true_iff in He as [Hu|Hl].
  - by destruct (dispatch_unregistered e s r s' Hs Hu E) as [-> _].
  - destruct (dispatch_run e s (proj1 Hs)) as (reg & _ & _ & Ed). rewrite Ed in E.
    destruct (check _ _ _ _) as [[]|x].
    + simpl in E. unfold handle_outcome, mbind, M_bind, in_world, in_agent, zoom, fresh in E.
      cbn [p_world p_agent] in E. destruct (notify _ _ _ _ _) as [o b'] eqn:En.
      apply (notify_unpaged _ _ _ _ b0) in En; [|done|done].
      by destruct o; injection E as _ <-.
    + destruct (is_contract_error x); [|by injection E as _ <-].
      unfold in_world, zoom in E. destruct (dead_letter _ _ _ _). by injection E as _ <-.
Qed.

Lemma delivery_unpaged d b0 (s s' : P) r :
  (∀ e, parse_wire (d_data d) = Ok e → heard d e) → at_home s ∧ unpaged b0 (p_agent s) →
  on_delivery d s = (r, s') → at_home s' ∧ unpaged b0 (p_agent s').
Proof.
  intros Hd [Hs Hb]. unfold on_delivery. case_match; [|by intros [= _ <-]].
  unfold mbind, M_bind, of_result. destruct (parse_wire (d_data d)) as [e|x]; [|by intros [= _ <-]].
  intros E. eapply dispatch_unpaged, E; [done|apply (heard_harmless d), Hd|]; done.
Qed.

(** C18: no one is ever paged.  Take Beacon as the repository builds it, with
    its channels and routes and any target, webhook and store of sent alerts,
    and the repository's schema files.  Whatever it hears on the subjects it
    subscribes to, published as the runtime publishes events and dead letters,
    it never posts anything to the gateway and hands Hermes no alert: errors
    and critical alerts are those of subjects that begin with [deadletter.],
    no such event passes the runtime, and a dead letter carries the subject of
    the event that failed. *)
Theorem nobody_is_paged l (d : D) (w : world T) r (s' : P) :
  at_home (Proc w (default_beacon d target url)) →
  (∀ x e, x ∈ l → parse_wire (d_data x) = Ok e → heard x e) →
  run l (Proc w (default_beacon d target url)) = (r, s') →
  b_posts (p_agent s') = [] ∧ ∀ a, ("hermes", a) ∉ b_sent (p_agent s').
Proof.
  set (b0 := default_beacon d target url). intros Hs Hl E.
  assert (∀ s r s', at_home s ∧ unpaged b0 (p_agent s) → run l s = (r, s') →
                    at_home s' ∧ unpaged b0 (p_agent s')) as Hrun.
  { clear E Hs r s'. induction l as [|x l IH]; intros s r s' Hs; [by intros [= _ <-]|].
    unfold run. simpl. unfold mbind at 1, M_bind.
    destruct (on_delivery x s) as [[[]|exc] s1] eqn:E1;
      (apply (delivery_unpaged _ b0) in E1; [|by intros e; apply Hl; left|done]);
      [|by intros [= _ <-]].
    apply IH; [|done]. intros y e Hy. apply Hl. by right. }
  apply Hrun in E as [_ [_ _ Hp Hsent]]; [|by split; [|split]].
  split; [exact Hp|]. intros a Ha.
  assert (("hermes", a) ∈ to_hermes (b_sent (p_agent s'))) as Hin.
  { unfold to_hermes. rewrite list_elem_of_In, filter_In, <-list_elem_of_In. by split. }
  rewrite Hsent in Hin. by apply elem_of_nil in Hin.
Qed.
End paging.

(** ** Examples *)
Section witnesses.
Import BeaconDemo.
#[local] Existing Instance Demo.externals.
#[local] Existing Instance down.

Definition beacon0 : proc InMemoryEventStore.store (beacon InMemoryDedupStore.sent_times) :=
  Proc AgentDemo.world0 fresh_beacon.

(** Debits of 100 against credits of 90. *)
Definition uneven : journal_entry :=
  JournalEntry "e-1" "acme" "USD" [JournalLine "cash" DEBIT 100; JournalLine "sales" CREDIT 90] None.

Definition uneven_event : event := entry_event 90.

Definition refusal_event : event :=
  Event "ledger.rejected" 1 "ledger" (rejected_payload uneven (imbalance uneven)) (uuid4 (w_tick (p_world ledger0)))
    None (Some "acme").

Lemma refusal_event_wf : wf_event refusal_event.
Proof. apply ascii_event_wf. vm_compute. reflexivity. Qed.

Lemma down_http : http_errors_only.
Proof. by intros l p exc [= <-]. Qed.

Lemma rejection_reported_witness :
  let '(r, s') := handle_entry uneven_event ledger0 in
  r = Ok tt ∧ w_bus (p_world s') = [("ledger.rejected", wire refusal_event)]
  ∧ ∃ q' a, on_delivery (Delivery "message" "ledger.rejected" (wire refusal_event)) beacon0 = (Ok tt, q')
      ∧ al_severity a = WARNING ∧ b_sent (p_agent q') = [("log", a)].
Proof.
  assert (Hr : (handle_entry uneven_event ledger0).1 = Ok tt) by (vm_compute; reflexivity).
  destruct (handle_entry uneven_event ledger0) as [r s'] eqn:E. simpl in Hr. subst r. split; [done|].
  assert (Hne : "acme" ≠ EmptyString) by done.
  destruct (rejection_reported (T' := InMemoryEventStore.store) (D := InMemoryDedupStore.sent_times)
    uneven_event "acme" uneven ledger0 s' Demo.registry_fresh eq_refl Hne eq_refl eq_refl
    refusal_event_wf down_http E) as (_ & Hb & Hall).
  split; [exact Hb|].
  destruct (Hall beacon0 false _ Demo.registry_fresh (conj eq_refl eq_refl) eq_refl)
    as (q' & a & Eq & _ & Hsev & _ & _ & Hs).
  exists q', a. split; [exact Eq|]. split; [exact Hsev|exact Hs].
Defined.

(** A dead-lettered entry, and the rejection of another. *)
Definition dead_entry : delivery :=
  Delivery "message" "deadletter.ledger.entry"
    (dumps Spaced (VDict (dead_envelope uneven_event "invalid"))).
Definition incidents : list delivery :=
  [dead_entry; Delivery "message" "ledger.rejected" (wire refusal_event); dead_entry].

Lemma nobody_is_paged_witness :
  let '(r, s') := run incidents beacon0 in
  r = Ok tt ∧ length (b_sent (p_agent s')) = 2%nat
  ∧ b_posts (p_agent s') = [] ∧ ∀ a, ("hermes", a) ∉ b_sent (p_agent s').
Proof.
  assert (Hr : (run incidents beacon0).1 = Ok tt
    ∧ length (b_sent (p_agent (run incidents beacon0).2)) = 2%nat) by (vm_compute; split; reflexivity).
  destruct (run incidents beacon0) as [r s'] eqn:E. destruct Hr as [Hr Hl]. cbn [fst snd] in Hr, Hl.
  split; [exact Hr|]. split; [exact Hl|].
  refine (nobody_is_paged "telegram:1" "http://hermes/notify" incidents InMemoryDedupStore.init
    AgentDemo.world0 r s' (conj Demo.registry_fresh Demo.registry_files) _ E).
  assert (Hdead : parse_wire (d_data dead_entry) = Ok uneven_event) by (vm_compute; reflexivity).
  assert (Hc : "deadletter.ledger.entry" ∈ BEACON_SUBJECTS ∧ "ledger.rejected" ∈ BEACON_SUBJECTS)
    by (apply (bool_decide_unpack _); vm_compute; exact Logic.I).
  intros x e Hx Hp. apply list_elem_of_In in Hx as [<-|[<-|[<-|[]]]].
  - rewrite Hdead in Hp. injection Hp as <-. split; [apply Hc|right; reflexivity].
  - cbn [d_data] in Hp. rewrite (wire_roundtrip _ refusal_event_wf) in Hp. injection Hp as <-.
    split; [apply Hc|left; reflexivity].
  - rewrite Hdead in Hp. injection Hp as <-. split; [apply Hc|right; reflexivity].
Defined.
End witnesses.
