(* ===== verification/Recovery.v ===== *)
(** * Recovery of the write path (agents/forge/write_agent.py, agents/forge/breaker.py)

    The breaker lets one probe through after the cooldown and refuses all else
    until the probe has reported back.  Here: the agent's handlers always
    report back, so that no breaker is left waiting; and what a redelivered
    approval does to a write that is approved and still pending: it is carried
    out when its breaker has cooled down and the ERP agrees, and stays as it was
    otherwise.  Nothing in the repository delivers a decision again; that is for
    an operator to do. *)

From S2P Require Import Prelude PyStr PyFloat PyVal Json JsonText JsonFacts Metrics Contract Registry HashChain EventStore Agent Write Breaker WriteAgent.
Local Open Scope string_scope.
Local Open Scope nat_scope.

(** ** The breaker alone *)
Section breaker.
Context `{Externals}.

(** An open breaker that has cooled down and waits for no probe. *)
Definition cooled (s : clocked breaker) : Prop :=
  ∃ t0, opened_at (c_val s) = Some t0 ∧ probing (c_val s) = false
    ∧ fleb (cooldown (c_val s)) (fsub (clock_monotonic (c_tick s)) t0) = true.

(** The breaker does not stay open for good.  Once it has cooled down it
    lets a probe through; a probe that succeeds closes it, with no failure
    counted; a probe that fails opens it from that moment without another
    escalation, and again it lets a probe through when it has cooled down. *)
Theorem breaker_recovers s :
  cooled s →
  ∃ s1, check s = (Ok tt, s1)
    ∧ (∀ n, let s2 := Clocked (c_val s1) n in
         ∃ s3, record_success s2 = (Ok tt, s3)
           ∧ opened_at (c_val s3) = None ∧ consecutive_failures (c_val s3) = 0%Z
           ∧ ∀ m, check (Clocked (c_val s3) m) = (Ok tt, Clocked (c_val s3) m))
    ∧ (∀ n, let s2 := Clocked (c_val s1) n in
         ∃ s3, record_failure s2 = (Ok false, s3)
           ∧ opened_at (c_val s3) = Some (clock_monotonic n)
           ∧ ∀ m, fleb (cooldown (c_val s)) (fsub (clock_monotonic m) (clock_monotonic n)) = true →
               cooled (Clocked (c_val s3) m) ∧ ∃ s4, check (Clocked (c_val s3) m) = (Ok tt, s4)).
Proof.
  intros (t0 & Ho & Hp & Hc). destruct s as [b t]. simpl in *.
  eexists. split; [rewrite check_run; simpl; by rewrite Ho, Hc, Hp|]. split; intros n; simpl.
  - eexists. split; [done|]. simpl. split_and!; [done..|]. intros m. by rewrite check_run.
  - rewrite record_failure_run. simpl. rewrite Ho, orb_true_r. simpl.
    eexists. split; [done|]. simpl. split; [done|]. intros m Hm. split.
    + exists (clock_monotonic n). by split_and!.
    + rewrite check_run. simpl. rewrite Hm. by eexists.
Qed.
End breaker.

(** ** No probe is lost *)
Section probes.
Context `{Externals} `{EventStore T} `{Erp E}.
Variable breaker_factory : breaker.
Hypothesis factory_idle : probing breaker_factory = false.

(** The ERP client raises no error of the write state machine. *)
Hypothesis erp_polite : ∀ op e x e',
  erp_apply op e = (Err x, e') → isinstance x InvalidTransition = false.

#[local] Notation P := (proc T (write_agent E)) (only parsing).

Definition same_breakers : relation (write_agent E) := λ a a', wa_breakers a' = wa_breakers a.

#[local] Instance same_breakers_preorder : PreOrder same_breakers.
Proof. unfold same_breakers. split; [done|]. intros a1 a2 a3. congruence. Qed.

#[local] Notation steady := (agent_rel (T := T) same_breakers).

(** All breakers, or all but that of one key, wait for no probe. *)
Definition idle_but (skip : option (string * string)) (s : P) : Prop :=
  ∀ k b, Some k ≠ skip → wa_breakers (p_agent s) !! k = Some b → probing b = false.
#[local] Notation idle := (idle_but None).

Lemma idle_but_stable skip : stable steady (idle_but skip).
Proof. intros s s' Ew Hs k b. rewrite Ew. apply Hs. Qed.

(** The outcomes after which the loop goes on. *)
Definition settled {A} (r : result A) : Prop :=
  match r with Ok _ => True | Err e => isinstance e InvalidTransition = true end.

Definition calm {A} (m : M P A) : Prop := hoare idle m (λ r s, settled r → idle s).

Lemma calm_bind {A B} (m : M P A) (f : A → M P B) :
  calm m → (∀ a, calm (f a)) → calm (m ≫= f).
Proof.
  intros Hm Hf. apply (hoare_bind _ _ _ (λ _, idle)); [|done].
  eapply hoare_weaken; [exact Hm|done|]. intros [a|e] s Hr; [by apply Hr|done].
Qed.

Lemma steady_hoare {A} skip (m : M P A) :
  keeps steady m → hoare (idle_but skip) m (λ _, idle_but skip).
Proof. intros Hm. eapply hoare_keeps; [exact Hm|apply idle_but_stable|done]. Qed.

Lemma calm_steady {A} (m : M P A) : keeps steady m → calm m.
Proof. intros Hm. by eapply hoare_weaken; [apply (steady_hoare None), Hm| |]. Qed.

Lemma coordinate_steady {B} (m : M (clocked E) B) : keeps steady (coordinate m).
Proof. intros s r s'. unfold coordinate, zoom. destruct (m _). by intros [= _ <-]. Qed.

Lemma put_pending_steady i op : keeps steady (put_pending i op).
Proof. apply in_agent_rel. by apply keeps_modify. Qed.

Lemma pop_pending_steady i : keeps steady (pop_pending i).
Proof. apply in_agent_rel. by apply keeps_modify. Qed.

Lemma emit_step_steady step c : keeps steady (emit_step step c).
Proof. unfold emit_step, metric. keeps_tac. Qed.

#[local] Hint Resolve coordinate_steady put_pending_steady pop_pending_steady emit_step_steady : keeps.

Lemma breaker_idle k s : idle s → probing (breaker_at breaker_factory k (p_agent s)) = false.
Proof.
  intros Hs. unfold breaker_at. destruct (wa_breakers (p_agent s) !! k) as [b|] eqn:Eb; [|done].
  by eapply Hs.
Qed.

(** Recording puts the breaker of the operation at rest. *)
Lemma on_breaker_rest {B} op (m : M (clocked breaker) B) s r s' :
  (∀ c o c', m c = (o, c') → probing (c_val c') = false) →
  idle_but (Some (breaker_key op)) s → on_breaker breaker_factory op m s = (r, s') → idle s'.
Proof.
  intros Hm Hs. unfold on_breaker, zoom. destruct (m _) as [o c] eqn:Em. intros [= _ <-] k b _.
  simpl. rewrite lookup_insert. case_decide as Hk; [intros [= <-]; by eapply Hm|].
  intros Hb. eapply Hs; [|done]. congruence.
Qed.

Lemma check_gate op :
  hoare idle (on_breaker breaker_factory op check)
    (λ r s, match r with
            | Ok _ => idle_but (Some (breaker_key op)) s
            | Err e => idle s
            end).
Proof.
  intros s r s' Hs. pose proof (breaker_idle (breaker_key op) s Hs) as Hb.
  unfold on_breaker, zoom. rewrite check_run. cbn [c_val c_tick].
  set (b := breaker_at _ _ _) in *.
  assert (∀ w b', probing b' = false →
    idle (Proc w (set_breaker (breaker_key op) b' (p_agent s)))) as Hset.
  { intros w b' Hb' k c _. simpl. rewrite lookup_insert. case_decide; [by intros [= <-]|by apply Hs]. }
  assert (∀ w b', idle_but (Some (breaker_key op))
    (Proc w (set_breaker (breaker_key op) b' (p_agent s)))) as Hbut.
  { intros w b' k c Hk. simpl. rewrite lookup_insert_ne by congruence. by apply Hs. }
  destruct (opened_at b); [destruct (_ && _)|]; intros [= <- <-];
    [by apply Hbut|by apply Hset|by apply Hbut].
Qed.

Lemma execute_settles op :
  wo_state op = APPROVED →
  hoare (idle_but (Some (breaker_key op))) (coordinate (execute op))
    (λ r s, idle_but (Some (breaker_key op)) s
            ∧ match r with Ok _ => True | Err e => isinstance e InvalidTransition = false end).
Proof.
  intros Hst s r s' Hs Er. split; [by eapply idle_but_stable, Hs; eapply coordinate_steady|].
  revert Er. unfold coordinate, zoom. rewrite execute_run, decide_True by done. cbn [c_val].
  destruct (erp_apply op _) as [[conf|x] e'] eqn:Ea; intros [= <- _]; [done|].
  by eapply erp_polite.
Qed.

Lemma execute_open_rests op cause c :
  wo_state op = APPROVED →
  hoare (idle_but (Some (breaker_key op))) (execute_open breaker_factory op cause c)
    (λ r s, settled r → idle s).
Proof.
  intros Hst. unfold execute_open.
  apply (hoare_bind _ _ _ (λ _, idle_but (Some (breaker_key op)))).
  { by intros s r s' Hs [= <- <-]. }
  intros started. apply (hoare_bind _ _ _ (λ _, idle_but (Some (breaker_key op)))).
  { apply hoare_try, hoare_fmap. eapply hoare_weaken; [by apply execute_settles|done|].
    intros [step|x] s [Hs Hx]; simpl; [done|].
    destruct (isinstance x ErpWriteError); [by apply hoare_ret; intros ? ->|].
    rewrite Hx. done. }
  intros [completed|exc].
  - apply (hoare_bind _ _ _ (λ _, idle)).
    { intros s r s' Hs Er. assert (idle s') as Hi.
      { eapply on_breaker_rest; [|exact Hs|exact Er]. by intros ? ? ? [= _ <-]. }
      by destruct r. }
    intros _. apply calm_steady. unfold metric. keeps_tac; apply keeps_modify; done.
  - apply (hoare_bind _ _ _ (λ _, idle_but (Some (breaker_key op)))).
    { by intros s r s' Hs [= <- <-]. }
    intros _. apply (hoare_bind _ _ _ (λ _, idle)).
    { intros s r s' Hs Er. assert (idle s') as Hi.
      { eapply on_breaker_rest; [|exact Hs|exact Er]. intros x o x'. rewrite record_failure_run.
        by destruct (_ || _); intros [= _ <-]. }
      by destruct r. }
    intros tripped. apply calm_steady. unfold metric, quarantine. keeps_tac.
Qed.

Lemma execute_write_calm op cause c :
  wo_state op = APPROVED → calm (execute_write breaker_factory op cause c).
Proof.
  intros Hst. unfold execute_write, calm.
  apply (hoare_bind _ _ _ (λ o s, match o with
                                  | None => idle_but (Some (breaker_key op)) s
                                  | Some _ => idle s end)).
  { apply hoare_try. apply (hoare_bind _ _ _ (λ _, idle_but (Some (breaker_key op)))).
    - eapply hoare_weaken; [apply check_gate|done|]. intros [a|e] s Hs; [done|].
      destruct (isinstance e BreakerOpen); [by apply hoare_ret; intros ? ->|done].
    - intros _. by apply hoare_ret. }
  intros [exc|]; [|by apply execute_open_rests].
  apply calm_steady. unfold metric, quarantine. keeps_tac.
Qed.

Lemma transition_APPROVED op b s step s' :
  coordinate (T := T) (E := E) (approve op b) s = (Ok step, s') → wo_state (ws_op step) = APPROVED.
Proof.
  unfold coordinate, zoom, approve, transition_to, mbind, M_bind, of_result.
  case_decide; simpl; intros Ea; by simplify_eq/=.
Qed.

Lemma decide_on_calm wid op ev : calm (decide_on breaker_factory wid op ev).
Proof.
  unfold decide_on. apply calm_bind; [apply calm_steady; keeps_tac|intros decision]. case_match.
  - case_decide as Hst; [by apply execute_write_calm|].
    apply calm_bind; [apply calm_steady; keeps_tac|intros reviewer].
    apply (hoare_bind _ _ _ (λ step s, idle s ∧ wo_state (ws_op step) = APPROVED)).
    { intros s r s' Hs Er. assert (idle s') as Hi by (eapply idle_but_stable, Hs; by eapply coordinate_steady).
      destruct r; [|done]. split; [done|]. by eapply transition_APPROVED. }
    intros approved s r s' [Hs Ha] Er.
    refine (calm_bind (put_pending wid (ws_op approved)) _ _ _ s r s' Hs Er);
      [apply calm_steady; keeps_tac|intros _].
    apply calm_bind; [apply calm_steady; keeps_tac|intros _]. by apply execute_write_calm.
  - apply calm_steady. keeps_tac.
Qed.

Lemma handle_write_calm ev : calm (handle_write breaker_factory ev).
Proof.
  unfold handle_write. repeat case_match.
  - apply calm_steady. unfold propose, quarantine. keeps_tac.
  - unfold decide_write. apply calm_bind; [apply calm_steady; keeps_tac|intros wid].
    apply calm_bind; [apply calm_steady; keeps_tac|intros [op|]]; [|apply calm_steady; keeps_tac].
    apply hoare_try. eapply hoare_weaken; [apply decide_on_calm|done|].
    intros [a|e] s Hs; [done|]. destruct (isinstance e InvalidTransition) eqn:He.
    + intros s1 r s2 -> Er _. eapply idle_but_stable; [|by apply Hs].
      eapply (in_world_rel same_breakers). exact Er.
    + simpl. by rewrite He.
  - apply calm_steady. unfold reverse_write, quarantine. keeps_tac.
  - apply calm_steady. keeps_tac.
Qed.
Lemma run_calm l : calm (run (H1 := write_agent_instance breaker_factory) l).
Proof.
  unfold run. induction l as [|d l IH]; simpl; [by apply hoare_ret|].
  apply calm_bind; [|intros _; exact IH]. unfold on_delivery.
  case_match; [|by apply hoare_ret]. apply calm_bind; [by apply calm_steady, keeps_of_result, _|].
  intros e s r s' Hs. unfold dispatch.
  destruct (in_world _ s) as [[u|x] s1] eqn:Ev;
    apply (in_world_rel same_breakers) in Ev; intros Er;
    assert (idle s1) as Hs1 by by eapply idle_but_stable.
  - refine (calm_bind _ _ _ _ s1 r s' Hs1 Er);
      [apply calm_steady, in_world_rel, _|intros; apply handle_write_calm].
  - revert Er. case_match; [|by intros [= <- <-]]. intros Er _.
    eapply idle_but_stable, Hs1. by eapply (in_world_rel same_breakers).
Qed.

(** The write is booked as completed and its breaker is at rest. *)
Definition done_with (op : write_operation) (a : write_agent E) : Prop :=
  wa_completed a !! write_id op = Some (with_state COMPLETED op)
  ∧ wa_pending a !! write_id op = None
  ∧ opened_at (breaker_at breaker_factory (breaker_key op) a) = None
  ∧ consecutive_failures (breaker_at breaker_factory (breaker_key op) a) = 0%Z.

Lemma in_world_agent {A B} (m : M (world T) B) (s : proc T A) r s' :
  in_world m s = (r, s') → p_agent s' = p_agent s.
Proof. unfold in_world, zoom. destruct (m _). by intros [= _ <-]. Qed.

Lemma emit_step_agent step c (s : P) r s' : emit_step step c s = (r, s') → p_agent s' = p_agent s.
Proof.
  unfold emit_step, mbind, M_bind. destruct (metric _ _ _ s) as [[u|x] s1] eqn:Em;
    apply in_world_agent in Em; rewrite <-Em; [apply in_world_agent|by intros [= _ <-]].
Qed.

Lemma execute_write_completes op cause c (s : P) n1 b1 conf e' r s' :
  wo_state op = APPROVED →
  on_breaker breaker_factory op check s
    = (Ok tt, Proc (set_tick n1 (p_world s)) (set_breaker (breaker_key op) b1 (p_agent s))) →
  erp_apply op (wa_erp (p_agent s)) = (Ok conf, e') →
  execute_write breaker_factory op cause c s = (r, s') →
  done_with op (p_agent s') ∧ wa_erp (p_agent s') = e'.
Proof.
  intros Hst Ek Herp. unfold execute_write, mbind, M_bind, try_except. rewrite Ek.
  unfold mret, M_ret. unfold execute_open, mbind, M_bind, in_world at 1, zoom, fresh.
  unfold try_except, fmap, M_fmap, coordinate, zoom.
  rewrite execute_run, decide_True by done. cbn [c_val p_agent p_world wa_erp set_breaker].
  rewrite Herp. cbn. intros Em. apply emit_step_agent in Em. rewrite Em. unfold done_with. cbn.
  unfold breaker_at. cbn. rewrite !lookup_insert_eq, lookup_delete_eq. done.
Qed.

(** The clock that the breaker of an operation reads, and the breaker. *)
Definition gate_of (op : write_operation) (s : P) : clocked breaker :=
  Clocked (breaker_at breaker_factory (breaker_key op) (p_agent s)) (w_tick (p_world s)).

(** Closed, or open and cooled down. *)
Definition lets_through (c : clocked breaker) : bool :=
  match opened_at (c_val c) with
  | Some t0 => fleb (cooldown (c_val c)) (fsub (clock_monotonic (c_tick c)) t0)
  | None => true
  end.

(** Nothing was booked or dropped. *)
Definition kept (a a' : write_agent E) : Prop :=
  wa_pending a' = wa_pending a ∧ wa_completed a' = wa_completed a.

(** The books and the ERP, whatever became of the breakers. *)
Definition same_books : relation (write_agent E) := λ a a', kept a a' ∧ wa_erp a' = wa_erp a.

#[local] Instance same_books_preorder : PreOrder same_books.
Proof.
  unfold same_books, kept. split; [done|]. intros a1 a2 a3 ((H1' & H2) & H3) ((H4 & H5) & H6).
  split_and!; congruence.
Qed.

Lemma on_breaker_books {B} op (m : M (clocked breaker) B) :
  keeps (agent_rel (T := T) same_books) (on_breaker breaker_factory op m).
Proof. intros s r s'. unfold on_breaker, zoom. destruct (m _). by intros [= _ <-]. Qed.

#[local] Hint Resolve on_breaker_books : keeps.

(** The gate of an agent at rest. *)
Lemma gate_check op (s : P) :
  idle s →
  if lets_through (gate_of op s)
  then ∃ b1 n1, on_breaker breaker_factory op check s
         = (Ok tt, Proc (set_tick n1 (p_world s)) (set_breaker (breaker_key op) b1 (p_agent s)))
  else ∃ msg b1 n1, on_breaker breaker_factory op check s
         = (raise_r BreakerOpen msg, Proc (set_tick n1 (p_world s)) (set_breaker (breaker_key op) b1 (p_agent s))).
Proof.
  intros Hs. pose proof (breaker_idle (breaker_key op) s Hs) as Hprobe.
  unfold lets_through, gate_of, on_breaker, zoom. rewrite check_run. cbn [c_val c_tick].
  destruct (opened_at _) as [t0|]; [|by eexists _, _]. rewrite Hprobe, andb_true_r.
  destruct (fleb _ _); [by eexists _, _|by eexists _, _, _].
Qed.

Lemma execute_write_refused op cause c (s : P) msg b1 n1 r s' :
  on_breaker breaker_factory op check s
    = (raise_r BreakerOpen msg, Proc (set_tick n1 (p_world s)) (set_breaker (breaker_key op) b1 (p_agent s))) →
  execute_write breaker_factory op cause c s = (r, s') → same_books (p_agent s) (p_agent s').
Proof.
  intros Ek. unfold execute_write, mbind at 1, M_bind at 1, try_except.
  unfold mbind at 1, M_bind at 1. rewrite Ek. cbn [raise_r]. cbn. intros Er.
  assert (Hk : keeps (agent_rel (T := T) same_books)
    (metric (T := T) (E := E) ERP_WRITE_FAILURES one [("reason", "breaker_open")] ;; quarantine cause msg))
    by (unfold metric, quarantine; keeps_tac).
  exact (Hk _ _ _ Er).
Qed.

Lemma execute_write_fails op cause c (s : P) n1 b1 x e' r s' :
  wo_state op = APPROVED →
  on_breaker breaker_factory op check s
    = (Ok tt, Proc (set_tick n1 (p_world s)) (set_breaker (breaker_key op) b1 (p_agent s))) →
  erp_apply op (wa_erp (p_agent s)) = (Err x, e') →
  execute_write breaker_factory op cause c s = (r, s') →
  kept (p_agent s) (p_agent s') ∧ wa_erp (p_agent s') = e'.
Proof.
  intros Hst Ek Herp. unfold execute_write, mbind at 1, M_bind at 1, try_except.
  unfold mbind at 1, M_bind at 1. rewrite Ek. cbn.
  unfold execute_open. erewrite M_bind_run; [|reflexivity].
  unfold mbind at 1, M_bind at 1, try_except, fmap, M_fmap, coordinate, zoom.
  rewrite execute_run, decide_True by done. cbn [c_val c_tick p_agent p_world wa_erp set_breaker].
  rewrite Herp. cbn [c_val c_tick].
  destruct (isinstance x ErpWriteError); [|by intros [= _ <-]]. unfold mret at 1, M_ret at 1. intros Er.
  assert (Hk : keeps (agent_rel (T := T) same_books)
    (metric (T := T) (E := E) ERP_WRITE_FAILURES one [("reason", "erp_error")] ;;
     tripped ← on_breaker breaker_factory op record_failure;
     if tripped : bool then
       metric BREAKER_OPENS one [] ;;
       quarantine cause ("circuit breaker opened; last error: " +:+ exn_msg x)
     else mret tt)) by (unfold metric, quarantine; keeps_tac).
  destruct (Hk _ _ _ Er) as [[Hp Hc] He]. rewrite He. by split.
Qed.

(** C5: what a redelivered approval does.  However the agent came to its state,
    without its loop dying: when an approve decision for a pending, approved
    write is delivered again, the breaker of its tenant and platform decides
    alone whether the ERP is asked, for no probe is ever left out.  If it is
    closed or has cooled down and the ERP agrees, the write is completed and no
    longer pending, and the breaker is closed with no failure counted; if the
    ERP fails, or the breaker refuses (the ERP then not being asked), the write
    is still pending and approved, nothing else is booked, and the same decision
    can be delivered again. *)
Theorem redelivered_approval l (s0 s s' : P) ev wid op r :
  wa_breakers (p_agent s0) = ∅ →
  run (H1 := write_agent_instance breaker_factory) l s0 = (Ok tt, s) →
  ev_subject ev = "forge.write.decision" →
  dget "write_id" (ev_payload ev) = Some (VStr wid) →
  dget "decision" (ev_payload ev) = Some (VStr "approve") →
  wa_pending (p_agent s) !! wid = Some op → wo_state op = APPROVED →
  handle_write breaker_factory ev s = (r, s') →
  if lets_through (gate_of op s) then
    ∀ o e', erp_apply op (wa_erp (p_agent s)) = (o, e') →
      wa_erp (p_agent s') = e'
      ∧ if is_ok o then done_with op (p_agent s') else kept (p_agent s) (p_agent s')
  else kept (p_agent s) (p_agent s') ∧ wa_erp (p_agent s') = wa_erp (p_agent s).
Proof.
  intros H0' Hrun Hsub Hw Hd Hp Hst Eh.
  assert (idle s) as Hs.
  { eapply run_calm; [|exact Hrun|done]. intros k b _. by rewrite H0', lookup_empty. }
  assert (handle_write breaker_factory ev s
    = try_except (decide_on breaker_factory wid op ev) InvalidTransition
        (λ exc, quarantine ev ("illegal decision: " +:+ exn_msg exc)) s) as Ed.
  { unfold handle_write. rewrite Hsub. simpl. unfold decide_write, get_str, getitem. rewrite Hw.
    unfold mbind, M_bind. simpl. by rewrite Hp. }
  assert (decide_on breaker_factory wid op ev s
          = execute_write breaker_factory op ev (ev_correlation_id ev) s) as Edo.
  { unfold decide_on, getitem. rewrite Hd. unfold mbind at 1, M_bind. simpl. by rewrite decide_True. }
  rewrite Ed in Eh. unfold try_except in Eh. rewrite Edo in Eh.
  destruct (execute_write _ _ _ _ s) as [r1 s1] eqn:Ex.
  assert (Ha : p_agent s' = p_agent s1).
  { destruct r1 as [u|x]; [by injection Eh as _ <-|].
    destruct (isinstance x InvalidTransition); [|by injection Eh as _ <-]. by apply in_world_agent in Eh. }
  rewrite Ha. clear Eh Ha Ed Edo. pose proof (gate_check op s Hs) as Hg.
  destruct (lets_through (gate_of op s)).
  - destruct Hg as (b1 & n1 & Ek). intros [conf|x] e' Herp; cbn [is_ok].
    + destruct (execute_write_completes _ _ _ _ _ _ _ _ _ _ Hst Ek Herp Ex) as [? ?]. by split.
    + apply and_comm. by eapply execute_write_fails.
  - destruct Hg as (msg & b1 & n1 & Ek). by eapply execute_write_refused.
Qed.
End probes.

(** ** An ERP that is down at first *)
Module RecoveryDemo.
(** Refuses the first write and takes the others. *)
#[export] Instance flaky : Erp nat := {
  erp_apply op n := (if Nat.eqb n 0 then raise_r ErpWriteError "HTTP 503" else Ok [], S n);
  erp_fetch := None;
}.

Lemma flaky_polite op n x n' : erp_apply op n = (Err x, n') → isinstance x InvalidTransition = false.
Proof. simpl. destruct (Nat.eqb n 0); [|done]. by intros [= <- _]. Qed.

(** One failure opens it, for one second. *)
Definition nervous : breaker := Breaker 1 (float_of_Z 1) 0 None false.

Definition decision : event :=
  Event "forge.write.decision" 1 "review"
    [("write_id", VStr "w-"); ("decision", VStr "approve"); ("reviewer", VStr "bo")] "t" None (Some "acme").

(** The proposal and its approval, which meets the failure. *)
Definition story : list delivery := take 2 write_story.

Definition start : proc InMemoryEventStore.store (write_agent nat) := Proc write_world (empty_agent 0).
End RecoveryDemo.

Section witnesses.
Import RecoveryDemo.
#[local] Existing Instance Demo.unique.

Lemma breaker_recovers_witness :
  let s := Clocked (Breaker 3 (float_of_Z 2) 3 (Some (float_of_Z 1)) false) 5 in
  cooled s ∧ ∃ s1, check s = (Ok tt, s1).
Proof.
  intros s. assert (cooled s) as Hc.
  { exists (float_of_Z 1). split; [reflexivity|]. split; [reflexivity|]. vm_compute. reflexivity. }
  destruct (breaker_recovers s Hc) as (s1 & H1 & _). exact (conj Hc (ex_intro _ s1 H1)).
Defined.

Lemma redelivered_approval_witness :
  let s := (run (H1 := write_agent_instance nervous) story start).2 in
  let op := default (WriteDemo.op "none") (wa_pending (p_agent s) !! "w-") in
  let s' := (handle_write nervous decision s).2 in
  write_id op = "w-" ∧ is_Some (opened_at (c_val (gate_of nervous op s)))
  ∧ done_with nervous op (p_agent s').
Proof.
  intros s op s'. split; [vm_compute; reflexivity|].
  split; [apply (bool_decide_unpack _); vm_compute; exact Logic.I|].
  unfold s'. clear s'. destruct (handle_write nervous decision s) as [r q] eqn:Eh. cbn [snd].
  assert (Hl : lets_through (gate_of nervous op s) = true) by (vm_compute; reflexivity).
  assert (Herp : erp_apply op (wa_erp (p_agent s)) = (Ok [], 2)) by (vm_compute; reflexivity).
  assert (Hd : if lets_through (gate_of nervous op s) then
    ∀ o e', erp_apply op (wa_erp (p_agent s)) = (o, e') →
      wa_erp (p_agent q) = e'
      ∧ if is_ok o then done_with nervous op (p_agent q) else kept (p_agent s) (p_agent q)
    else kept (p_agent s) (p_agent q) ∧ wa_erp (p_agent q) = wa_erp (p_agent s)).
  { refine (redelivered_approval nervous eq_refl flaky_polite story start s q decision "w-" op r
      eq_refl _ eq_refl eq_refl eq_refl _ _ Eh).
    - unfold s. assert ((run (H1 := write_agent_instance nervous) story start).1 = Ok tt) as Hr
        by (vm_compute; reflexivity).
      destruct (run _ _) as [r0 s0]. cbn [fst snd] in *. by rewrite Hr.
    - vm_compute. reflexivity.
    - vm_compute. reflexivity. }
  rewrite Hl in Hd. exact (proj2 (Hd _ _ Herp)).
Defined.
End witnesses.
