(* ===== verification/SchemaDocs.v ===== *)
(** * The registered schemas (schema_registry/schemas)

    The JSON documents the contracts are written in, one definition per file.
    [documents] lists them under their file names. *)

From S2P Require Import Prelude PyStr PyFloat PyVal Registry.
Local Open Scope string_scope.
Local Open Scope Z_scope.

Definition beacon_report_generated_v1 : pyval := VDict [
  ("$schema", VStr "https://json-schema.org/draft/2020-12/schema");
  ("$id", VStr "cavi:beacon.report.generated.v1");
  ("title", VStr "Beacon Report Generated");
  ("description", VStr "Emitted by Beacon when a KPI/period report is generated and ready for delivery.");
  ("type", VStr "object");
  ("required", VList [VStr "tenant_id"; VStr "report_type"; VStr "kpis"; VStr "period_start"; VStr "period_end";
      VStr "generated_at"; VStr "delivery_targets"]);
  ("additionalProperties", VBool false);
  ("properties", VDict [
    ("tenant_id", VDict [
      ("type", VStr "string");
      ("minLength", VInt 1);
      ("description", VStr "Owning tenant. Never empty.")]);
    ("report_type", VDict [
      ("type", VStr "string");
      ("minLength", VInt 1);
      ("description", VStr "Report kind (e.g. weekly_ops, ar_aging, throughput).")]);
    ("kpis", VDict [
      ("type", VStr "object");
      ("additionalProperties", VBool true);
      ("description", VStr "Free-form metric map for the reporting period.")]);
    ("period_start", VDict [
      ("type", VStr "string");
      ("format", VStr "date-time");
      ("description", VStr "ISO 8601 inclusive start of the reporting window.")]);
    ("period_end", VDict [
      ("type", VStr "string");
      ("format", VStr "date-time");
      ("description", VStr "ISO 8601 exclusive end of the reporting window.")]);
    ("generated_at", VDict [
      ("type", VStr "string");
      ("format", VStr "date-time");
      ("description", VStr "ISO 8601 generation timestamp.")]);
    ("delivery_targets", VDict [
      ("type", VStr "array");
      ("items", VDict [("type", VStr "string"); ("minLength", VInt 1)]);
      ("description", VStr "Where the report is delivered (e.g. telegram:1370595013, email:ops@…).")])])].

Definition deadletter_envelope_v1 : pyval := VDict [
  ("$schema", VStr "https://json-schema.org/draft/2020-12/schema");
  ("$id", VStr "cavi:deadletter.envelope.v1");
  ("title", VStr "Dead-letter Envelope");
  ("description", VStr "Wraps an event that failed validation in BaseAgent._dispatch(). Published to 'deadletter.<subject>' and watched by Beacon. The outer envelope is strict so consumers can rely on it; the inner 'payload' is intentionally free-form because it is the exact data that failed its own contract.");
  ("type", VStr "object");
  ("required", VList [VStr "id"; VStr "subject"; VStr "schema_version"; VStr "source"; VStr "correlation_id";
      VStr "tenant_id"; VStr "payload"; VStr "error"]);
  ("additionalProperties", VBool false);
  ("properties", VDict [
    ("id", VDict [
      ("type", VStr "string");
      ("format", VStr "uuid");
      ("description", VStr "Original event id, preserved for replay.")]);
    ("subject", VDict [("type", VStr "string"); ("description", VStr "Original subject the event failed on.")]);
    ("schema_version", VDict [
      ("type", VStr "integer");
      ("minimum", VInt 1);
      ("description", VStr "Schema version the producer claimed.")]);
    ("source", VDict [("type", VStr "string"); ("description", VStr "Agent that emitted the failed event.")]);
    ("correlation_id", VDict [
      ("type", VList [VStr "string"; VStr "null"]);
      ("description", VStr "Business-transaction id, kept so a quarantined event stays traceable end to end. Always present (may be null) — Event.to_dict() emits it unconditionally, so it is required to honor the 'no optional root fields' house rule.")]);
    ("tenant_id", VDict [
      ("type", VList [VStr "string"; VStr "null"]);
      ("description", VStr "Owning tenant of the quarantined event (envelope metadata). Always present (may be null) — Event.to_dict() emits it unconditionally.")]);
    ("payload", VDict [
      ("type", VStr "object");
      ("description", VStr "The original, unmodified payload that failed validation. Free-form by design.");
      ("additionalProperties", VBool true)]);
    ("error", VDict [
      ("type", VStr "string");
      ("minLength", VInt 1);
      ("description", VStr "Validation error message that caused the dead-letter.")])])].

Definition forge_completed_v1 : pyval := VDict [
  ("$schema", VStr "https://json-schema.org/draft/2020-12/schema");
  ("$id", VStr "cavi:forge.completed.v1");
  ("title", VStr "Forge Work Order Completed");
  ("description", VStr "Emitted when Forge finishes a work order. The financial consequence travels separately as a ledger.entry.");
  ("type", VStr "object");
  ("required", VList [VStr "work_order_id"; VStr "tenant_id"; VStr "sku"; VStr "quantity"; VStr "currency";
      VStr "net_minor"; VStr "tax_minor"; VStr "gross_minor"]);
  ("additionalProperties", VBool false);
  ("properties", VDict [
    ("work_order_id", VDict [("type", VStr "string"); ("minLength", VInt 1)]);
    ("tenant_id", VDict [("type", VStr "string"); ("minLength", VInt 1)]);
    ("sku", VDict [("type", VStr "string"); ("minLength", VInt 1)]);
    ("quantity", VDict [("type", VStr "integer"); ("minimum", VInt 1)]);
    ("currency", VDict [("type", VStr "string"); ("pattern", VStr "^[A-Z]{3}$")]);
    ("net_minor", VDict [("type", VStr "integer"); ("minimum", VInt 1)]);
    ("tax_minor", VDict [("type", VStr "integer"); ("minimum", VInt 0)]);
    ("gross_minor", VDict [("type", VStr "integer"); ("minimum", VInt 1)])])].

Definition forge_write_approved_v1 : pyval := VDict [
  ("$schema", VStr "https://json-schema.org/draft/2020-12/schema");
  ("$id", VStr "cavi:forge.write.approved.v1");
  ("title", VStr "Forge Write Approved");
  ("description", VStr "Emitted by Forge when a proposed write clears review and is cleared to execute. write_id ties it back to the request.");
  ("type", VStr "object");
  ("required", VList [VStr "tenant_id"; VStr "erp_platform"; VStr "operation"; VStr "approved_by";
      VStr "approved_at"; VStr "write_id"]);
  ("additionalProperties", VBool false);
  ("properties", VDict [
    ("tenant_id", VDict [
      ("type", VStr "string");
      ("minLength", VInt 1);
      ("description", VStr "Owning tenant. Never empty.")]);
    ("erp_platform", VDict [
      ("type", VStr "string");
      ("minLength", VInt 1);
      ("description", VStr "ERP the write targets.")]);
    ("operation", VDict [
      ("type", VStr "string");
      ("minLength", VInt 1);
      ("description", VStr "Mutation verb being approved.")]);
    ("approved_by", VDict [
      ("type", VStr "string");
      ("minLength", VInt 1);
      ("description", VStr "Reviewer who approved the write.")]);
    ("approved_at", VDict [
      ("type", VStr "string");
      ("format", VStr "date-time");
      ("description", VStr "ISO 8601 approval timestamp.")]);
    ("write_id", VDict [
      ("type", VStr "string");
      ("minLength", VInt 1);
      ("description", VStr "Correlation id shared across the write lifecycle.")])])].

Definition forge_write_completed_v1 : pyval := VDict [
  ("$schema", VStr "https://json-schema.org/draft/2020-12/schema");
  ("$id", VStr "cavi:forge.write.completed.v1");
  ("title", VStr "Forge Write Completed");
  ("description", VStr "Emitted by Forge when an approved write has been applied to the ERP. Carries the ERP's confirmation record.");
  ("type", VStr "object");
  ("required", VList [VStr "tenant_id"; VStr "erp_platform"; VStr "operation"; VStr "write_id";
      VStr "erp_confirmation"; VStr "completed_at"]);
  ("additionalProperties", VBool false);
  ("properties", VDict [
    ("tenant_id", VDict [
      ("type", VStr "string");
      ("minLength", VInt 1);
      ("description", VStr "Owning tenant. Never empty.")]);
    ("erp_platform", VDict [
      ("type", VStr "string");
      ("minLength", VInt 1);
      ("description", VStr "ERP the write was applied to.")]);
    ("operation", VDict [
      ("type", VStr "string");
      ("minLength", VInt 1);
      ("description", VStr "Mutation verb that executed.")]);
    ("write_id", VDict [
      ("type", VStr "string");
      ("minLength", VInt 1);
      ("description", VStr "Correlation id shared across the write lifecycle.")]);
    ("erp_confirmation", VDict [
      ("type", VStr "object");
      ("additionalProperties", VBool true);
      ("description", VStr "Free-form confirmation record returned by the ERP (ids, revision, receipt).")]);
    ("completed_at", VDict [
      ("type", VStr "string");
      ("format", VStr "date-time");
      ("description", VStr "ISO 8601 completion timestamp.")])])].

Definition forge_write_rejected_v1 : pyval := VDict [
  ("$schema", VStr "https://json-schema.org/draft/2020-12/schema");
  ("$id", VStr "cavi:forge.write.rejected.v1");
  ("title", VStr "Forge Write Rejected");
  ("description", VStr "Emitted by Forge when a proposed write is refused during review and will not execute.");
  ("type", VStr "object");
  ("required", VList [VStr "tenant_id"; VStr "erp_platform"; VStr "operation"; VStr "rejected_by";
      VStr "rejected_at"; VStr "reason"]);
  ("additionalProperties", VBool false);
  ("properties", VDict [
    ("tenant_id", VDict [
      ("type", VStr "string");
      ("minLength", VInt 1);
      ("description", VStr "Owning tenant. Never empty.")]);
    ("erp_platform", VDict [
      ("type", VStr "string");
      ("minLength", VInt 1);
      ("description", VStr "ERP the write would have targeted.")]);
    ("operation", VDict [
      ("type", VStr "string");
      ("minLength", VInt 1);
      ("description", VStr "Mutation verb being rejected.")]);
    ("rejected_by", VDict [
      ("type", VStr "string");
      ("minLength", VInt 1);
      ("description", VStr "Reviewer who rejected the write.")]);
    ("rejected_at", VDict [
      ("type", VStr "string");
      ("format", VStr "date-time");
      ("description", VStr "ISO 8601 rejection timestamp.")]);
    ("reason", VDict [
      ("type", VStr "string");
      ("minLength", VInt 1);
      ("description", VStr "Human-readable rejection cause.")])])].

Definition forge_write_requested_v1 : pyval := VDict [
  ("$schema", VStr "https://json-schema.org/draft/2020-12/schema");
  ("$id", VStr "cavi:forge.write.requested.v1");
  ("title", VStr "Forge Write Requested");
  ("description", VStr "Emitted by Forge when a mutating ERP operation is proposed and awaiting approval. Carries the intended payload and a human-readable diff preview.");
  ("type", VStr "object");
  ("required", VList [VStr "tenant_id"; VStr "erp_platform"; VStr "operation"; VStr "target_module";
      VStr "payload"; VStr "requested_by"; VStr "requested_at"; VStr "diff_preview"]);
  ("additionalProperties", VBool false);
  ("properties", VDict [
    ("tenant_id", VDict [
      ("type", VStr "string");
      ("minLength", VInt 1);
      ("description", VStr "Owning tenant. Never empty.")]);
    ("erp_platform", VDict [
      ("type", VStr "string");
      ("minLength", VInt 1);
      ("description", VStr "ERP the write targets.")]);
    ("operation", VDict [
      ("type", VStr "string");
      ("minLength", VInt 1);
      ("description", VStr "Mutation verb (e.g. create, update, void).")]);
    ("target_module", VDict [
      ("type", VStr "string");
      ("minLength", VInt 1);
      ("description", VStr "ERP module/entity the write affects.")]);
    ("payload", VDict [
      ("type", VStr "object");
      ("additionalProperties", VBool true);
      ("description", VStr "Free-form intended write body.")]);
    ("requested_by", VDict [
      ("type", VStr "string");
      ("minLength", VInt 1);
      ("description", VStr "Actor (agent or user) proposing the write.")]);
    ("requested_at", VDict [
      ("type", VStr "string");
      ("format", VStr "date-time");
      ("description", VStr "ISO 8601 proposal timestamp.")]);
    ("diff_preview", VDict [
      ("type", VStr "string");
      ("description", VStr "Rendered before/after diff for reviewer sign-off.")])])].

Definition forge_write_requested_v2 : pyval := VDict [
  ("$schema", VStr "https://json-schema.org/draft/2020-12/schema");
  ("$id", VStr "cavi:forge.write.requested.v2");
  ("title", VStr "Forge Write Requested");
  ("description", VStr "Emitted by Forge when a mutating ERP operation is proposed and awaiting approval. v2 adds `reverses` (required, nullable): the write_id of the COMPLETED write this proposal compensates, or null for an ordinary write — making every reversal auditable back to its original. Old producers coerce via Mapper (forge_write_requested_v1_to_v2).");
  ("type", VStr "object");
  ("required", VList [VStr "tenant_id"; VStr "erp_platform"; VStr "operation"; VStr "target_module";
      VStr "payload"; VStr "requested_by"; VStr "requested_at"; VStr "diff_preview";
      VStr "reverses"]);
  ("additionalProperties", VBool false);
  ("properties", VDict [
    ("tenant_id", VDict [
      ("type", VStr "string");
      ("minLength", VInt 1);
      ("description", VStr "Owning tenant. Never empty.")]);
    ("erp_platform", VDict [
      ("type", VStr "string");
      ("minLength", VInt 1);
      ("description", VStr "ERP the write targets.")]);
    ("operation", VDict [
      ("type", VStr "string");
      ("minLength", VInt 1);
      ("description", VStr "Mutation verb (e.g. create, update, void).")]);
    ("target_module", VDict [
      ("type", VStr "string");
      ("minLength", VInt 1);
      ("description", VStr "ERP module/entity the write affects.")]);
    ("payload", VDict [
      ("type", VStr "object");
      ("additionalProperties", VBool true);
      ("description", VStr "Free-form intended write body.")]);
    ("requested_by", VDict [
      ("type", VStr "string");
      ("minLength", VInt 1);
      ("description", VStr "Actor (agent or user) proposing the write.")]);
    ("requested_at", VDict [
      ("type", VStr "string");
      ("format", VStr "date-time");
      ("description", VStr "ISO 8601 proposal timestamp.")]);
    ("diff_preview", VDict [
      ("type", VStr "string");
      ("description", VStr "Rendered before/after diff for reviewer sign-off.")]);
    ("reverses", VDict [
      ("type", VList [VStr "string"; VStr "null"]);
      ("description", VStr "write_id of the completed write this proposal reverses; null for an ordinary write.")])])].

Definition forge_write_requested_v3 : pyval := VDict [
  ("$schema", VStr "https://json-schema.org/draft/2020-12/schema");
  ("$id", VStr "cavi:forge.write.requested.v3");
  ("title", VStr "Forge Write Requested");
  ("description", VStr "Emitted by Forge when a mutating ERP operation is proposed and awaiting approval. v3 adds `target_external_id` (required, nullable): the ERP external id of the existing record an update modifies — kept separate from the per-write idempotency key, which is minted fresh per write and can never address a pre-existing record. Null for a create. Old producers coerce via Mapper (v1 -> v2 -> v3).");
  ("type", VStr "object");
  ("required", VList [VStr "tenant_id"; VStr "erp_platform"; VStr "operation"; VStr "target_module";
      VStr "payload"; VStr "requested_by"; VStr "requested_at"; VStr "diff_preview";
      VStr "reverses"; VStr "target_external_id"]);
  ("additionalProperties", VBool false);
  ("properties", VDict [
    ("tenant_id", VDict [
      ("type", VStr "string");
      ("minLength", VInt 1);
      ("description", VStr "Owning tenant. Never empty.")]);
    ("erp_platform", VDict [
      ("type", VStr "string");
      ("minLength", VInt 1);
      ("description", VStr "ERP the write targets.")]);
    ("operation", VDict [
      ("type", VStr "string");
      ("minLength", VInt 1);
      ("description", VStr "Mutation verb (e.g. create, update, void).")]);
    ("target_module", VDict [
      ("type", VStr "string");
      ("minLength", VInt 1);
      ("description", VStr "ERP module/entity the write affects.")]);
    ("payload", VDict [
      ("type", VStr "object");
      ("additionalProperties", VBool true);
      ("description", VStr "Free-form intended write body.")]);
    ("requested_by", VDict [
      ("type", VStr "string");
      ("minLength", VInt 1);
      ("description", VStr "Actor (agent or user) proposing the write.")]);
    ("requested_at", VDict [
      ("type", VStr "string");
      ("format", VStr "date-time");
      ("description", VStr "ISO 8601 proposal timestamp.")]);
    ("diff_preview", VDict [
      ("type", VStr "string");
      ("description", VStr "Rendered before/after diff for reviewer sign-off.")]);
    ("reverses", VDict [
      ("type", VList [VStr "string"; VStr "null"]);
      ("description", VStr "write_id of the completed write this proposal reverses; null for an ordinary write.")]);
    ("target_external_id", VDict [
      ("type", VList [VStr "string"; VStr "null"]);
      ("description", VStr "ERP external id of the existing record an update modifies; null for a create.")])])].

Definition ledger_drift_detected_v1 : pyval := VDict [
  ("$schema", VStr "https://json-schema.org/draft/2020-12/schema");
  ("$id", VStr "cavi:ledger.drift.detected.v1");
  ("title", VStr "Ledger Drift Detected");
  ("description", VStr "Emitted by Ledger when a reconciliation pass finds Cavi and the ERP disagreeing. Advisory only: a human disposes each discrepancy; any correction goes through the forge.write approval gate as a new proposal.");
  ("type", VStr "object");
  ("required", VList [VStr "tenant_id"; VStr "erp_platform"; VStr "scope"; VStr "run_id"; VStr "discrepancies";
      VStr "detected_at"]);
  ("additionalProperties", VBool false);
  ("properties", VDict [
    ("tenant_id", VDict [
      ("type", VStr "string");
      ("minLength", VInt 1);
      ("description", VStr "Owning tenant. Never empty.")]);
    ("erp_platform", VDict [
      ("type", VStr "string");
      ("minLength", VInt 1);
      ("description", VStr "ERP the drift was detected against.")]);
    ("scope", VDict [
      ("type", VStr "string");
      ("minLength", VInt 1);
      ("description", VStr "Record type reconciled, e.g. journalEntry.")]);
    ("run_id", VDict [
      ("type", VStr "string");
      ("minLength", VInt 1);
      ("description", VStr "Correlates with ledger.reconciliation.completed.")]);
    ("discrepancies", VDict [
      ("type", VStr "array");
      ("minItems", VInt 1);
      ("description", VStr "Every disagreement found this pass.");
      ("items", VDict [
        ("type", VStr "object");
        ("required", VList [VStr "external_id"; VStr "kind"]);
        ("additionalProperties", VBool false);
        ("properties", VDict [
          ("external_id", VDict [
            ("type", VStr "string");
            ("minLength", VInt 1);
            ("description", VStr "External id (write idempotency key) of the record.")]);
          ("kind", VDict [
            ("type", VStr "string");
            ("enum", VList [VStr "missing_in_erp"; VStr "unexpected_in_erp"; VStr "field_mismatch"]);
            ("description", VStr "How the two sides disagree.")]);
          ("fields", VDict [
            ("type", VStr "array");
            ("minItems", VInt 1);
            ("description", VStr "For field_mismatch: each managed field that differs.");
            ("items", VDict [
              ("type", VStr "object");
              ("required", VList [VStr "field"]);
              ("additionalProperties", VBool false);
              ("properties", VDict [
                ("field", VDict [
                  ("type", VStr "string");
                  ("minLength", VInt 1);
                  ("description", VStr "Managed field name.")]);
                ("expected", VDict [("description", VStr "Value Cavi holds (free-form).")]);
                ("actual", VDict [("description", VStr "Value the ERP holds (free-form).")])])])])])])]);
    ("detected_at", VDict [
      ("type", VStr "string");
      ("format", VStr "date-time");
      ("description", VStr "ISO 8601 detection timestamp.")])])].

Definition ledger_entry_v1 : pyval := VDict [
  ("$schema", VStr "https://json-schema.org/draft/2020-12/schema");
  ("$id", VStr "cavi:ledger.entry.v1");
  ("title", VStr "Ledger Entry");
  ("description", VStr "A balanced double-entry journal posting.");
  ("type", VStr "object");
  ("required", VList [VStr "entry_id"; VStr "currency"; VStr "lines"]);
  ("additionalProperties", VBool false);
  ("properties", VDict [
    ("entry_id", VDict [("type", VStr "string"); ("format", VStr "uuid")]);
    ("currency", VDict [("type", VStr "string"); ("pattern", VStr "^[A-Z]{3}$")]);
    ("memo", VDict [("type", VStr "string"); ("maxLength", VInt 280)]);
    ("lines", VDict [
      ("type", VStr "array");
      ("minItems", VInt 2);
      ("items", VDict [
        ("type", VStr "object");
        ("required", VList [VStr "account"; VStr "direction"; VStr "amount_minor"]);
        ("additionalProperties", VBool false);
        ("properties", VDict [
          ("account", VDict [("type", VStr "string")]);
          ("direction", VDict [("enum", VList [VStr "debit"; VStr "credit"])]);
          ("amount_minor", VDict [("type", VStr "integer"); ("minimum", VInt 1)])])])])])].

Definition ledger_entry_v2 : pyval := VDict [
  ("$schema", VStr "https://json-schema.org/draft/2020-12/schema");
  ("$id", VStr "cavi:ledger.entry.v2");
  ("title", VStr "Ledger Entry (v2)");
  ("description", VStr "v2 of ledger.entry: `memo` is renamed to `description` and a required `entry_type` classifier is added. additionalProperties is false, so a v1->v2 coercion MUST drop the old `memo` key.");
  ("type", VStr "object");
  ("required", VList [VStr "entry_id"; VStr "currency"; VStr "entry_type"; VStr "lines"]);
  ("additionalProperties", VBool false);
  ("properties", VDict [
    ("entry_id", VDict [("type", VStr "string"); ("format", VStr "uuid")]);
    ("currency", VDict [("type", VStr "string"); ("pattern", VStr "^[A-Z]{3}$")]);
    ("entry_type", VDict [("enum", VList [VStr "sale"; VStr "refund"; VStr "adjustment"])]);
    ("description", VDict [("type", VStr "string"); ("maxLength", VInt 280)]);
    ("lines", VDict [
      ("type", VStr "array");
      ("minItems", VInt 2);
      ("items", VDict [
        ("type", VStr "object");
        ("required", VList [VStr "account"; VStr "direction"; VStr "amount_minor"]);
        ("additionalProperties", VBool false);
        ("properties", VDict [
          ("account", VDict [("type", VStr "string")]);
          ("direction", VDict [("enum", VList [VStr "debit"; VStr "credit"])]);
          ("amount_minor", VDict [("type", VStr "integer"); ("minimum", VInt 1)])])])])])].

Definition ledger_posted_v1 : pyval := VDict [
  ("$schema", VStr "https://json-schema.org/draft/2020-12/schema");
  ("$id", VStr "cavi:ledger.posted.v1");
  ("title", VStr "Ledger Posted");
  ("description", VStr "Emitted by Ledger after a balanced journal entry is persisted.");
  ("type", VStr "object");
  ("required", VList [VStr "entry_id"; VStr "currency"; VStr "total_minor"; VStr "line_count"]);
  ("additionalProperties", VBool false);
  ("properties", VDict [
    ("entry_id", VDict [("type", VStr "string"); ("format", VStr "uuid")]);
    ("currency", VDict [("type", VStr "string"); ("pattern", VStr "^[A-Z]{3}$")]);
    ("total_minor", VDict [
      ("type", VStr "integer");
      ("minimum", VInt 1);
      ("description", VStr "Total debits (== total credits) in minor units.")]);
    ("line_count", VDict [("type", VStr "integer"); ("minimum", VInt 2)])])].

Definition ledger_query_completed_v1 : pyval := VDict [
  ("$schema", VStr "https://json-schema.org/draft/2020-12/schema");
  ("$id", VStr "cavi:ledger.query.completed.v1");
  ("title", VStr "Ledger Query Completed");
  ("description", VStr "Emitted by Ledger when a read against an ERP resolves successfully. Carries the normalized result set.");
  ("type", VStr "object");
  ("required", VList [VStr "tenant_id"; VStr "erp_platform"; VStr "subject"; VStr "filters"; VStr "result_count";
      VStr "payload"; VStr "schema_version"; VStr "queried_at"]);
  ("additionalProperties", VBool false);
  ("properties", VDict [
    ("tenant_id", VDict [
      ("type", VStr "string");
      ("minLength", VInt 1);
      ("description", VStr "Owning tenant. Never empty.")]);
    ("erp_platform", VDict [
      ("type", VStr "string");
      ("minLength", VInt 1);
      ("description", VStr "ERP that served the read.")]);
    ("subject", VDict [
      ("type", VStr "string");
      ("minLength", VInt 1);
      ("description", VStr "Entity queried (e.g. invoices, purchase_orders).")]);
    ("filters", VDict [
      ("type", VStr "object");
      ("additionalProperties", VBool true);
      ("description", VStr "Free-form filter map applied to the query.")]);
    ("result_count", VDict [
      ("type", VStr "integer");
      ("minimum", VInt 0);
      ("description", VStr "Number of rows returned.")]);
    ("payload", VDict [
      ("type", VStr "array");
      ("items", VDict [("type", VStr "object"); ("additionalProperties", VBool true)]);
      ("description", VStr "Normalized result rows.")]);
    ("schema_version", VDict [
      ("type", VStr "string");
      ("minLength", VInt 1);
      ("description", VStr "Version of the normalized row shape carried in payload.")]);
    ("queried_at", VDict [
      ("type", VStr "string");
      ("format", VStr "date-time");
      ("description", VStr "ISO 8601 completion timestamp.")])])].

Definition ledger_query_failed_v1 : pyval := VDict [
  ("$schema", VStr "https://json-schema.org/draft/2020-12/schema");
  ("$id", VStr "cavi:ledger.query.failed.v1");
  ("title", VStr "Ledger Query Failed");
  ("description", VStr "Emitted by Ledger when a read against an ERP fails (auth, timeout, unknown subject, upstream error).");
  ("type", VStr "object");
  ("required", VList [VStr "tenant_id"; VStr "erp_platform"; VStr "subject"; VStr "filters"; VStr "reason";
      VStr "failed_at"]);
  ("additionalProperties", VBool false);
  ("properties", VDict [
    ("tenant_id", VDict [
      ("type", VStr "string");
      ("minLength", VInt 1);
      ("description", VStr "Owning tenant. Never empty.")]);
    ("erp_platform", VDict [
      ("type", VStr "string");
      ("minLength", VInt 1);
      ("description", VStr "ERP that failed to serve the read.")]);
    ("subject", VDict [("type", VStr "string"); ("minLength", VInt 1); ("description", VStr "Entity queried.")]);
    ("filters", VDict [
      ("type", VStr "object");
      ("additionalProperties", VBool true);
      ("description", VStr "Free-form filter map applied to the query.")]);
    ("reason", VDict [
      ("type", VStr "string");
      ("minLength", VInt 1);
      ("description", VStr "Human-readable failure cause.")]);
    ("failed_at", VDict [
      ("type", VStr "string");
      ("format", VStr "date-time");
      ("description", VStr "ISO 8601 failure timestamp.")])])].

Definition ledger_reconciliation_completed_v1 : pyval := VDict [
  ("$schema", VStr "https://json-schema.org/draft/2020-12/schema");
  ("$id", VStr "cavi:ledger.reconciliation.completed.v1");
  ("title", VStr "Ledger Reconciliation Completed");
  ("description", VStr "Emitted by Ledger after every reconciliation pass, drift or not — the heartbeat that Cavi and the ERP were compared. Discrepancy details ride on ledger.drift.detected.");
  ("type", VStr "object");
  ("required", VList [VStr "tenant_id"; VStr "erp_platform"; VStr "scope"; VStr "run_id"; VStr "checked";
      VStr "matched"; VStr "drift_count"; VStr "completed_at"]);
  ("additionalProperties", VBool false);
  ("properties", VDict [
    ("tenant_id", VDict [
      ("type", VStr "string");
      ("minLength", VInt 1);
      ("description", VStr "Owning tenant. Never empty.")]);
    ("erp_platform", VDict [
      ("type", VStr "string");
      ("minLength", VInt 1);
      ("description", VStr "ERP reconciled against.")]);
    ("scope", VDict [
      ("type", VStr "string");
      ("minLength", VInt 1);
      ("description", VStr "Record type reconciled, e.g. journalEntry.")]);
    ("run_id", VDict [
      ("type", VStr "string");
      ("minLength", VInt 1);
      ("description", VStr "Correlates this pass with its drift event.")]);
    ("checked", VDict [
      ("type", VStr "integer");
      ("minimum", VInt 0);
      ("description", VStr "Distinct external ids examined across both sides.")]);
    ("matched", VDict [
      ("type", VStr "integer");
      ("minimum", VInt 0);
      ("description", VStr "Records with no discrepancy.")]);
    ("drift_count", VDict [
      ("type", VStr "integer");
      ("minimum", VInt 0);
      ("description", VStr "Discrepancies found this pass.")]);
    ("completed_at", VDict [
      ("type", VStr "string");
      ("format", VStr "date-time");
      ("description", VStr "ISO 8601 completion timestamp.")])])].

Definition ledger_rejected_v1 : pyval := VDict [
  ("$schema", VStr "https://json-schema.org/draft/2020-12/schema");
  ("$id", VStr "cavi:ledger.rejected.v1");
  ("title", VStr "Ledger Rejected");
  ("description", VStr "Emitted when a well-formed entry fails a business rule (e.g. debits != credits). Distinct from a schema failure, which is dead-lettered.");
  ("type", VStr "object");
  ("required", VList [VStr "entry_id"; VStr "currency"; VStr "reason"; VStr "total_debits"; VStr "total_credits"]);
  ("additionalProperties", VBool false);
  ("properties", VDict [
    ("entry_id", VDict [("type", VStr "string"); ("format", VStr "uuid")]);
    ("currency", VDict [("type", VStr "string"); ("pattern", VStr "^[A-Z]{3}$")]);
    ("reason", VDict [("type", VStr "string"); ("minLength", VInt 1)]);
    ("total_debits", VDict [("type", VStr "integer"); ("minimum", VInt 0)]);
    ("total_credits", VDict [("type", VStr "integer"); ("minimum", VInt 0)])])].

Definition mapper_transform_completed_v1 : pyval := VDict [
  ("$schema", VStr "https://json-schema.org/draft/2020-12/schema");
  ("$id", VStr "cavi:mapper.transform.completed.v1");
  ("title", VStr "Mapper Transform Completed");
  ("description", VStr "Emitted by Mapper when a source ERP record is successfully transformed into a target schema. input_hash pins the source for idempotency.");
  ("type", VStr "object");
  ("required", VList [VStr "tenant_id"; VStr "source_erp"; VStr "source_schema"; VStr "target_schema";
      VStr "input_hash"; VStr "output"; VStr "transformed_at"]);
  ("additionalProperties", VBool false);
  ("properties", VDict [
    ("tenant_id", VDict [
      ("type", VStr "string");
      ("minLength", VInt 1);
      ("description", VStr "Owning tenant. Never empty.")]);
    ("source_erp", VDict [
      ("type", VStr "string");
      ("minLength", VInt 1);
      ("description", VStr "ERP the source record came from.")]);
    ("source_schema", VDict [
      ("type", VStr "string");
      ("minLength", VInt 1);
      ("description", VStr "Schema/version of the input record.")]);
    ("target_schema", VDict [
      ("type", VStr "string");
      ("minLength", VInt 1);
      ("description", VStr "Schema/version produced by the transform.")]);
    ("input_hash", VDict [
      ("type", VStr "string");
      ("minLength", VInt 1);
      ("description", VStr "Stable hash of the source input for dedupe/idempotency.")]);
    ("output", VDict [
      ("type", VStr "object");
      ("additionalProperties", VBool true);
      ("description", VStr "Free-form transformed record in the target schema.")]);
    ("transformed_at", VDict [
      ("type", VStr "string");
      ("format", VStr "date-time");
      ("description", VStr "ISO 8601 transform timestamp.")])])].

Definition mapper_transform_failed_v1 : pyval := VDict [
  ("$schema", VStr "https://json-schema.org/draft/2020-12/schema");
  ("$id", VStr "cavi:mapper.transform.failed.v1");
  ("title", VStr "Mapper Transform Failed");
  ("description", VStr "Emitted by Mapper when a source ERP record cannot be transformed (unknown field, validation failure, unsupported source schema).");
  ("type", VStr "object");
  ("required", VList [VStr "tenant_id"; VStr "source_erp"; VStr "source_schema"; VStr "reason"; VStr "failed_at"]);
  ("additionalProperties", VBool false);
  ("properties", VDict [
    ("tenant_id", VDict [
      ("type", VStr "string");
      ("minLength", VInt 1);
      ("description", VStr "Owning tenant. Never empty.")]);
    ("source_erp", VDict [
      ("type", VStr "string");
      ("minLength", VInt 1);
      ("description", VStr "ERP the source record came from.")]);
    ("source_schema", VDict [
      ("type", VStr "string");
      ("minLength", VInt 1);
      ("description", VStr "Schema/version of the input record.")]);
    ("reason", VDict [
      ("type", VStr "string");
      ("minLength", VInt 1);
      ("description", VStr "Human-readable failure cause.")]);
    ("failed_at", VDict [
      ("type", VStr "string");
      ("format", VStr "date-time");
      ("description", VStr "ISO 8601 failure timestamp.")])])].

Definition ticker_event_received_v1 : pyval := VDict [
  ("$schema", VStr "https://json-schema.org/draft/2020-12/schema");
  ("$id", VStr "cavi:ticker.event.received.v1");
  ("title", VStr "Ticker Event Received");
  ("description", VStr "Emitted by Ticker when an inbound ERP webhook/event is ingested. Carries the raw payload and the internal route it was dispatched to.");
  ("type", VStr "object");
  ("required", VList [VStr "tenant_id"; VStr "erp_platform"; VStr "event_type"; VStr "raw_payload";
      VStr "received_at"; VStr "routed_to"]);
  ("additionalProperties", VBool false);
  ("properties", VDict [
    ("tenant_id", VDict [
      ("type", VStr "string");
      ("minLength", VInt 1);
      ("description", VStr "Owning tenant. Never empty.")]);
    ("erp_platform", VDict [
      ("type", VStr "string");
      ("minLength", VInt 1);
      ("description", VStr "ERP that emitted the event.")]);
    ("event_type", VDict [
      ("type", VStr "string");
      ("minLength", VInt 1);
      ("description", VStr "Source event name as reported by the ERP.")]);
    ("raw_payload", VDict [
      ("type", VStr "object");
      ("additionalProperties", VBool true);
      ("description", VStr "Verbatim inbound payload before normalization.")]);
    ("received_at", VDict [
      ("type", VStr "string");
      ("format", VStr "date-time");
      ("description", VStr "ISO 8601 ingestion timestamp.")]);
    ("routed_to", VDict [
      ("type", VStr "string");
      ("minLength", VInt 1);
      ("description", VStr "Internal subject/handler the event was dispatched to.")])])].

Definition ticker_price_v1 : pyval := VDict [
  ("$schema", VStr "https://json-schema.org/draft/2020-12/schema");
  ("$id", VStr "cavi:ticker.price.v1");
  ("title", VStr "Ticker Price Snapshot");
  ("description", VStr "An FX rate snapshot served by Ticker. `rate` is a decimal string to preserve precision (1 base == rate quote). Optional converted amount when the request supplied amount_minor.");
  ("type", VStr "object");
  ("required", VList [VStr "base"; VStr "quote"; VStr "rate"; VStr "as_of"]);
  ("additionalProperties", VBool false);
  ("properties", VDict [
    ("base", VDict [("type", VStr "string"); ("pattern", VStr "^[A-Z]{3}$")]);
    ("quote", VDict [("type", VStr "string"); ("pattern", VStr "^[A-Z]{3}$")]);
    ("rate", VDict [
      ("type", VStr "string");
      ("pattern", VStr "^[0-9]+(\.[0-9]+)?$");
      ("description", VStr "Decimal as string.")]);
    ("as_of", VDict [("type", VStr "number"); ("description", VStr "Epoch seconds the rate was sourced.")]);
    ("amount_minor", VDict [("type", VStr "integer"); ("minimum", VInt 0)]);
    ("converted_minor", VDict [("type", VStr "integer"); ("minimum", VInt 0)])])].

Definition ticker_reconciliation_due_v1 : pyval := VDict [
  ("$schema", VStr "https://json-schema.org/draft/2020-12/schema");
  ("$id", VStr "cavi:ticker.reconciliation.due.v1");
  ("title", VStr "Ticker Reconciliation Due");
  ("description", VStr "Emitted on the reconciliation cadence (scheduled through n8n) to trigger a Cavi-vs-ERP reconciliation pass for one tenant and record-type scope.");
  ("type", VStr "object");
  ("required", VList [VStr "tenant_id"; VStr "erp_platform"; VStr "scope"; VStr "due_at"]);
  ("additionalProperties", VBool false);
  ("properties", VDict [
    ("tenant_id", VDict [
      ("type", VStr "string");
      ("minLength", VInt 1);
      ("description", VStr "Owning tenant. Never empty.")]);
    ("erp_platform", VDict [
      ("type", VStr "string");
      ("minLength", VInt 1);
      ("description", VStr "ERP to reconcile against.")]);
    ("scope", VDict [
      ("type", VStr "string");
      ("minLength", VInt 1);
      ("description", VStr "Record type to reconcile, e.g. journalEntry.")]);
    ("due_at", VDict [
      ("type", VStr "string");
      ("format", VStr "date-time");
      ("description", VStr "ISO 8601 timestamp the pass became due.")])])].

Definition vault_secret_denied_v1 : pyval := VDict [
  ("$schema", VStr "https://json-schema.org/draft/2020-12/schema");
  ("$id", VStr "cavi:vault.secret.denied.v1");
  ("title", VStr "Vault Secret Denied");
  ("description", VStr "Emitted by Vault when a secret/token request is refused (policy, missing grant, expired credential).");
  ("type", VStr "object");
  ("required", VList [VStr "tenant_id"; VStr "erp_platform"; VStr "reason"; VStr "requested_at"]);
  ("additionalProperties", VBool false);
  ("properties", VDict [
    ("tenant_id", VDict [
      ("type", VStr "string");
      ("minLength", VInt 1);
      ("description", VStr "Owning tenant. Never empty.")]);
    ("erp_platform", VDict [
      ("type", VStr "string");
      ("minLength", VInt 1);
      ("description", VStr "ERP the caller attempted to reach.")]);
    ("reason", VDict [
      ("type", VStr "string");
      ("minLength", VInt 1);
      ("description", VStr "Human-readable denial cause.")]);
    ("requested_at", VDict [
      ("type", VStr "string");
      ("format", VStr "date-time");
      ("description", VStr "ISO 8601 time the request was made.")])])].

Definition vault_secret_granted_v1 : pyval := VDict [
  ("$schema", VStr "https://json-schema.org/draft/2020-12/schema");
  ("$id", VStr "cavi:vault.secret.granted.v1");
  ("title", VStr "Vault Secret Granted");
  ("description", VStr "Emitted by Vault when an ERP secret/token is brokered to a caller. Carries the token reference, its scopes, and lifetime — never the key material itself.");
  ("type", VStr "object");
  ("required", VList [VStr "tenant_id"; VStr "erp_platform"; VStr "token_id"; VStr "scopes"; VStr "expires_at";
      VStr "issued_at"]);
  ("additionalProperties", VBool false);
  ("properties", VDict [
    ("tenant_id", VDict [
      ("type", VStr "string");
      ("minLength", VInt 1);
      ("description", VStr "Owning tenant. Never empty.")]);
    ("erp_platform", VDict [
      ("type", VStr "string");
      ("minLength", VInt 1);
      ("description", VStr "ERP the secret unlocks (e.g. netsuite, sap).")]);
    ("token_id", VDict [
      ("type", VStr "string");
      ("minLength", VInt 1);
      ("description", VStr "Opaque handle for the brokered token.")]);
    ("scopes", VDict [
      ("type", VStr "array");
      ("items", VDict [("type", VStr "string"); ("minLength", VInt 1)]);
      ("description", VStr "Capabilities the token authorizes.")]);
    ("expires_at", VDict [
      ("type", VStr "string");
      ("format", VStr "date-time");
      ("description", VStr "ISO 8601 token expiry.")]);
    ("issued_at", VDict [
      ("type", VStr "string");
      ("format", VStr "date-time");
      ("description", VStr "ISO 8601 grant timestamp.")])])].

Definition documents : list (string * pyval) :=
  [("beacon.report.generated.v1.json", beacon_report_generated_v1);
   ("deadletter.envelope.v1.json", deadletter_envelope_v1);
   ("forge.completed.v1.json", forge_completed_v1);
   ("forge.write.approved.v1.json", forge_write_approved_v1);
   ("forge.write.completed.v1.json", forge_write_completed_v1);
   ("forge.write.rejected.v1.json", forge_write_rejected_v1);
   ("forge.write.requested.v1.json", forge_write_requested_v1);
   ("forge.write.requested.v2.json", forge_write_requested_v2);
   ("forge.write.requested.v3.json", forge_write_requested_v3);
   ("ledger.drift.detected.v1.json", ledger_drift_detected_v1);
   ("ledger.entry.v1.json", ledger_entry_v1);
   ("ledger.entry.v2.json", ledger_entry_v2);
   ("ledger.posted.v1.json", ledger_posted_v1);
   ("ledger.query.completed.v1.json", ledger_query_completed_v1);
   ("ledger.query.failed.v1.json", ledger_query_failed_v1);
   ("ledger.reconciliation.completed.v1.json", ledger_reconciliation_completed_v1);
   ("ledger.rejected.v1.json", ledger_rejected_v1);
   ("mapper.transform.completed.v1.json", mapper_transform_completed_v1);
   ("mapper.transform.failed.v1.json", mapper_transform_failed_v1);
   ("ticker.event.received.v1.json", ticker_event_received_v1);
   ("ticker.price.v1.json", ticker_price_v1);
   ("ticker.reconciliation.due.v1.json", ticker_reconciliation_due_v1);
   ("vault.secret.denied.v1.json", vault_secret_denied_v1);
   ("vault.secret.granted.v1.json", vault_secret_granted_v1)].

(** The files the registry is known to hold, no more and no less. *)
Lemma documents_files : documents.*1 = schema_files.
Proof. reflexivity. Qed.
