(* ===== verification/Schemas.v ===== *)
(** * What the contracts say (schema_registry/schemas, jsonschema)

    [conforms] is the meaning of the validation keywords the registered
    schemas use, as the JSON Schema specification gives it.  [Contracts] is
    what the deployment promises: the directory holds the documents of
    SchemaDocs.v and [jsonschema] implements the keywords.  The lemmas then say
    which payloads the registry lets through. *)

From S2P Require Import Prelude PyStr PyFloat PyVal Json Registry SchemaDocs.
From Stdlib Require Import SpecFloat.
Local Open Scope string_scope.
Local Open Scope Z_scope.

(** ** The keywords *)

(** The length of a string counts code points. *)
Definition str_len (s : string) : Z := Z.of_nat (length (utf8_decode s)).

(** A float with an integral value is an integer to JSON Schema. *)
Definition is_integral (x : float) : bool :=
  match float_trunc x with Ok z => Z_eq_float z x | Err _ => false end.

Definition type_is (t : string) (v : pyval) : bool :=
  match v with
  | VNone => String.eqb t "null"
  | VBool _ => String.eqb t "boolean"
  | VInt _ => String.eqb t "integer" || String.eqb t "number"
  | VFloat x => String.eqb t "number" || (String.eqb t "integer" && is_integral x)
  | VStr _ => String.eqb t "string"
  | VList _ => String.eqb t "array"
  | VDict _ => String.eqb t "object"
  end.

Definition type_ok (t v : pyval) : bool :=
  match t with
  | VStr t => type_is t v
  | VList ts => existsb (λ t, match t with VStr t => type_is t v | _ => false end) ts
  | _ => true
  end.

(** [m <= x], the comparison being exact; NaN is not below anything. *)
Definition Z_le_float (m : Z) (x : float) : bool :=
  match x with
  | S754_zero _ => m <=? 0
  | S754_infinity s => negb s
  | S754_nan => true
  | S754_finite s p e =>
      let p := if s then Zneg p else Zpos p in
      if 0 <=? e then m <=? p * 2 ^ e else m * 2 ^ (- e) <=? p
  end.

Definition minimum_ok (m v : pyval) : bool :=
  match m, v with
  | VInt m, VInt z => m <=? z
  | VInt m, VFloat x => Z_le_float m x
  | _, _ => true
  end.

Definition is_upper_letter (c : ascii) : bool := ((65 <=? N_of_ascii c) && (N_of_ascii c <=? 90))%N.

(** Where the dollar matches: also before a last newline. *)
Definition at_end (s : string) : bool := String.eqb s EmptyString || String.eqb s newline.

(** [re.search("^[A-Z]{3}$", s)]. *)
Definition is_currency (s : string) : bool :=
  match s with
  | String a (String b (String c r)) =>
      is_upper_letter a && is_upper_letter b && is_upper_letter c
      && at_end r
  | _ => false
  end.

(** [re.search("^[0-9]+(\.[0-9]+)?$", s)]. *)
Definition is_rate_text (s : string) : bool :=
  let '(whole, rest) := span_digits s in
  negb (str_empty whole) &&
  (at_end rest ||
   match rest with
   | String c r =>
       let '(frac, rest) := span_digits r in
       (N_of_ascii c =? 46)%N && negb (str_empty frac) && at_end rest
   | EmptyString => false
   end).

(** The two patterns there are. *)
Definition pattern_ok (p v : pyval) : bool :=
  match p, v with
  | VStr p, VStr s =>
      if String.eqb p "^[A-Z]{3}$" then is_currency s
      else if String.eqb p "^[0-9]+(\.[0-9]+)?$" then is_rate_text s
      else true
  | _, _ => true
  end.

Definition min_length_ok (n v : pyval) : bool :=
  match n, v with VInt n, VStr s => n <=? str_len s | _, _ => true end.
Definition max_length_ok (n v : pyval) : bool :=
  match n, v with VInt n, VStr s => str_len s <=? n | _, _ => true end.
Definition min_items_ok (n v : pyval) : bool :=
  match n, v with VInt n, VList l => n <=? Z.of_nat (length l) | _, _ => true end.
Definition enum_ok (e v : pyval) : bool :=
  match e with VList l => existsb (py_eq v) l | _ => true end.
Definition required_ok (r v : pyval) : bool :=
  match r, v with
  | VList ks, VDict d => forallb (λ k, match k with VStr k => dmem k d | _ => true end) ks
  | _, _ => true
  end.
Definition additional_ok (a : pyval) (known : pydict) (v : pyval) : bool :=
  match a, v with
  | VBool false, VDict d => forallb (λ k, dmem k known) (dkeys d)
  | _, _ => true
  end.

Definition keyword (k : string) (sc : pydict) (f : pyval → bool) : bool :=
  match dget k sc with Some a => f a | None => true end.

Definition subschemas (sc : pydict) : pydict :=
  match dget "properties" sc with Some (VDict ps) => ps | _ => [] end.

(** The schema of a property, and of the items of an array. *)
Definition property_of (k : string) (sc : pyval) : pyval :=
  match sc with VDict sc => default VNone (dget k (subschemas sc)) | _ => VNone end.
Definition items_of (sc : pyval) : pyval :=
  match sc with VDict sc => default VNone (dget "items" sc) | _ => VNone end.

Definition all_items (f : pyval → bool) (l : list pyval) : bool := forallb f l.

(** One schema against one value, [rec] judging the parts.  [title],
    [description], [$id], [$schema] and [format] assert nothing. *)
Definition keywords_ok (rec : pyval → pyval → bool) (sc : pydict) (v : pyval) : bool :=
  keyword "type" sc (λ a, type_ok a v)
  && keyword "enum" sc (λ a, enum_ok a v)
  && keyword "minimum" sc (λ a, minimum_ok a v)
  && keyword "minLength" sc (λ a, min_length_ok a v)
  && keyword "maxLength" sc (λ a, max_length_ok a v)
  && keyword "pattern" sc (λ a, pattern_ok a v)
  && keyword "minItems" sc (λ a, min_items_ok a v)
  && keyword "required" sc (λ a, required_ok a v)
  && keyword "additionalProperties" sc (λ a, additional_ok a (subschemas sc) v)
  && match v with
     | VDict d =>
         forallb (λ p, match dget p.1 d with Some x => rec p.2 x | None => true end)
           (subschemas sc)
     | VList l => keyword "items" sc (λ a, all_items (rec a) l)
     | _ => true
     end.

Fixpoint conforms_at (fuel : nat) (sc v : pyval) : bool :=
  match fuel, sc with
  | S fuel, VDict sc => keywords_ok (conforms_at fuel) sc v
  | _, _ => true
  end.

(** The documents nest six schemas at most: seven levels never run out. *)
Definition conforms : pyval → pyval → bool := conforms_at 7.

(** The schemas inside a schema. *)
Definition inner_schemas (sc : pydict) : list pyval :=
  map snd (subschemas sc) ++ match dget "items" sc with Some a => [a] | None => [] end.

Fixpoint depth (fuel : nat) (sc : pyval) : nat :=
  match fuel, sc with
  | S fuel, VDict sc => S (foldr (λ a d, Nat.max (depth fuel a) d) 0%nat (inner_schemas sc))
  | _, _ => 0%nat
  end.

Lemma inner_depth fuel l a :
  a ∈ l → (depth fuel a ≤ foldr (λ a d, Nat.max (depth fuel a) d) 0 l)%nat.
Proof. induction l as [|b l IH]; [set_solver|]. intros [->|Ha]%elem_of_cons; simpl; [lia|]. specialize (IH Ha). lia. Qed.

Lemma forallb_ext_in {A} (f g : A → bool) l : (∀ x, x ∈ l → f x = g x) → forallb f l = forallb g l.
Proof.
  induction l as [|x l IH]; intros H; simpl; [done|].
  rewrite H by left. f_equal. apply IH. intros y Hy. apply H. by right.
Qed.

Lemma keywords_ok_ext rec rec' sc v :
  (∀ a x, a ∈ inner_schemas sc → rec a x = rec' a x) → keywords_ok rec sc v = keywords_ok rec' sc v.
Proof.
  intros H. unfold keywords_ok. f_equal. unfold inner_schemas in H.
  destruct v as [| | | | |l|d]; try done.
  - unfold keyword. destruct (dget "items" sc); [|done]. unfold all_items. apply forallb_ext_in.
    intros x _. apply H. set_solver.
  - apply forallb_ext_in. intros p Hp. destruct (dget p.1 d); [|done]. apply H.
    apply elem_of_app. left. apply list_elem_of_fmap. by exists p.
Qed.

(** More fuel than the depth changes nothing. *)
Lemma conforms_at_enough fuel sc v n m :
  (depth fuel sc < fuel → depth fuel sc ≤ n → depth fuel sc ≤ m →
   conforms_at n sc v = conforms_at m sc v)%nat.
Proof.
  revert sc v n m. induction fuel as [|fuel IH]; intros sc v n m Hf Hn Hm; [lia|].
  destruct sc as [| | | | | |sc]; try by destruct n, m.
  cbn [depth] in *. destruct n as [|n]; [lia|]. destruct m as [|m]; [lia|]. cbn [conforms_at].
  apply keywords_ok_ext. intros a x Ha. pose proof (inner_depth fuel _ _ Ha). apply IH; lia.
Qed.

Lemma documents_depth f doc : (f, doc) ∈ documents → (depth 20 doc ≤ 6)%nat.
Proof.
  intros Hp. repeat (apply elem_of_cons in Hp as [[= _ ->]|Hp]; [vm_compute; lia|]). set_solver.
Qed.

Lemma conforms_enough f doc v n :
  (f, doc) ∈ documents → (6 ≤ n)%nat → conforms_at n doc v = conforms doc v.
Proof. intros Hd%documents_depth Hn. apply (conforms_at_enough 20); lia. Qed.

(** ** The deployment *)

(** Documented: [jsonschema.validate] raises when and only when the instance
    breaks a keyword. *)
Class JsonSchema `{Externals} : Prop :=
  jsonschema_spec : ∀ f doc v, (f, doc) ∈ documents →
    jsonschema_validate doc v = None ↔ conforms doc v = true.

(** The directory holds the registered documents. *)
Definition holds_documents (r : registry) : Prop :=
  ∀ f doc, (f, doc) ∈ documents → ∃ text, reg_files r !! f = Some text ∧ loads text = Some doc.

Lemma holds_documents_files r r' : same_files r r' → holds_documents r → holds_documents r'.
Proof. intros [_ E] H f doc Hd. rewrite <-E. by apply H. Qed.

Lemma check_document `{JsonSchema} r subject version doc payload :
  holds_documents r → (schema_file subject version, doc) ∈ documents →
  check r subject version payload = Ok tt ↔ conforms doc (VDict payload) = true.
Proof.
  intros Hr Hd. destruct (Hr _ _ Hd) as (text & Hf & Hl). unfold check, schema_of.
  rewrite Hf, Hl. simpl. rewrite <-(jsonschema_spec _ _ _ Hd).
  by destruct (jsonschema_validate doc (VDict payload)).
Qed.

(** ** Reading an accepted value *)

Lemma keyword_use k sc f a : keyword k sc f = true → dget k sc = Some a → f a = true.
Proof. unfold keyword. intros H E. by rewrite E in H. Qed.

Section accepted.
Context (n : nat) (sc : pydict).

Lemma accepted_keywords v :
  conforms_at (S n) (VDict sc) v = true →
  keyword "type" sc (λ a, type_ok a v) = true ∧ keyword "enum" sc (λ a, enum_ok a v) = true
  ∧ keyword "minimum" sc (λ a, minimum_ok a v) = true
  ∧ keyword "minLength" sc (λ a, min_length_ok a v) = true
  ∧ keyword "maxLength" sc (λ a, max_length_ok a v) = true
  ∧ keyword "pattern" sc (λ a, pattern_ok a v) = true
  ∧ keyword "minItems" sc (λ a, min_items_ok a v) = true
  ∧ keyword "required" sc (λ a, required_ok a v) = true
  ∧ keyword "additionalProperties" sc (λ a, additional_ok a (subschemas sc) v) = true.
Proof. cbn [conforms_at]. unfold keywords_ok. rewrite !andb_true_iff. tauto. Qed.

Lemma accepted_type t v :
  conforms_at (S n) (VDict sc) v = true → dget "type" sc = Some (VStr t) → type_is t v = true.
Proof. intros (Ht & _)%accepted_keywords E. exact (keyword_use _ _ _ _ Ht E). Qed.

Lemma accepted_string v :
  conforms_at (S n) (VDict sc) v = true → dget "type" sc = Some (VStr "string") → ∃ s, v = VStr s.
Proof. intros Ha E. pose proof (accepted_type _ _ Ha E). destruct v; try done. by eexists. Qed.

Lemma accepted_object v :
  conforms_at (S n) (VDict sc) v = true → dget "type" sc = Some (VStr "object") → ∃ d, v = VDict d.
Proof. intros Ha E. pose proof (accepted_type _ _ Ha E). destruct v; try done. by eexists. Qed.

Lemma accepted_array v item :
  conforms_at (S n) (VDict sc) v = true → dget "type" sc = Some (VStr "array") →
  dget "items" sc = Some item → ∃ l, v = VList l ∧ ∀ x, x ∈ l → conforms_at n item x = true.
Proof.
  intros Ha E Ei. pose proof (accepted_type _ _ Ha E). destruct v as [| | | | |l|]; try done.
  exists l. split; [done|]. cbn [conforms_at] in Ha. unfold keywords_ok in Ha.
  rewrite !andb_true_iff in Ha. destruct Ha as [_ Hi].
  apply (keyword_use _ _ _ item) in Hi; [|done]. unfold all_items in Hi.
  rewrite forallb_forall in Hi. intros x Hx. by apply Hi, list_elem_of_In.
Qed.

Lemma accepted_property d k sub x :
  conforms_at (S n) (VDict sc) (VDict d) = true → dget k (subschemas sc) = Some sub →
  dget k d = Some x → conforms_at n sub x = true.
Proof.
  cbn [conforms_at]. unfold keywords_ok. rewrite !andb_true_iff. intros [_ Hp] Hs Hx.
  rewrite forallb_forall in Hp. apply dget_Some_elem, list_elem_of_In in Hs.
  specialize (Hp _ Hs). simpl in Hp. by rewrite Hx in Hp.
Qed.

(** A required property is there, and as its own schema says. *)
Lemma accepted_required d ks k sub :
  conforms_at (S n) (VDict sc) (VDict d) = true →
  dget "required" sc = Some (VList ks) → VStr k ∈ ks → dget k (subschemas sc) = Some sub →
  ∃ x, dget k d = Some x ∧ conforms_at n sub x = true.
Proof.
  intros Ha Er Hk Hs. pose proof (accepted_keywords _ Ha) as (_ & _ & _ & _ & _ & _ & _ & Hr & _).
  apply (keyword_use _ _ _ _ Hr) in Er. simpl in Er. rewrite forallb_forall in Er.
  specialize (Er (VStr k) (proj1 (list_elem_of_In _ _) Hk)). simpl in Er.
  unfold dmem in Er. apply bool_decide_eq_true in Er as [x Hx].
  exists x. split; [done|]. by eapply accepted_property.
Qed.

Lemma accepted_only d k :
  conforms_at (S n) (VDict sc) (VDict d) = true →
  dget "additionalProperties" sc = Some (VBool false) → dget k (subschemas sc) = None →
  dget k d = None.
Proof.
  intros Ha Er Hk. pose proof (accepted_keywords _ Ha) as (_ & _ & _ & _ & _ & _ & _ & _ & Hc).
  apply (keyword_use _ _ _ _ Hc) in Er. simpl in Er. rewrite forallb_forall in Er.
  apply dget_None. intros Hin. specialize (Er k (proj1 (list_elem_of_In _ _) Hin)).
  apply dmem_keys in Er. by apply dget_None in Hk.
Qed.
End accepted.

(** An integer to the schema, at least [m], is one to [int()], with the same
    bound. *)
Lemma Z_le_float_eq m z x : Z_le_float m x = true → Z_eq_float z x = true → m ≤ z.
Proof.
  destruct x as [b|b| |b p e]; simpl; try done.
  - rewrite Z.leb_le, Z.eqb_eq. lia.
  - destruct (Z.leb_spec 0 e) as [He|He]; rewrite Z.leb_le, Z.eqb_eq; [by intros ? ->|].
    intros Hm Hz. rewrite <-Hz in Hm. assert (0 < 2 ^ (- e)) by (apply Z.pow_pos_nonneg; lia). nia.
Qed.

Lemma accepted_integer n sc v m :
  conforms_at (S n) (VDict sc) v = true → dget "type" sc = Some (VStr "integer") →
  dget "minimum" sc = Some (VInt m) → ∃ z, py_int v = Ok z ∧ m ≤ z.
Proof.
  intros Ha Et Em. pose proof (accepted_keywords _ _ _ Ha) as (_ & _ & Hm & _).
  apply (keyword_use _ _ _ _ Hm) in Em. pose proof (accepted_type _ _ _ _ Ha Et) as Ht.
  destruct v as [| |z|x| | |]; try done; simpl in *.
  - exists z. split; [done|]. by apply Z.leb_le.
  - unfold is_integral in Ht. destruct (float_trunc x) as [z|]; [|done].
    exists z. split; [done|]. by eapply Z_le_float_eq.
Qed.

Lemma registered subject version doc :
  dget (schema_file subject version) documents = Some doc →
  (schema_file subject version, doc) ∈ documents.
Proof. apply dget_Some_elem. Qed.

(** ** Computing with the schemas *)
Lemma conforms_dict n sc v : conforms_at (S n) (VDict sc) v = keywords_ok (conforms_at n) sc v.
Proof. reflexivity. Qed.

Lemma all_items_cons f x l : all_items f (x :: l) = f x && all_items f l.
Proof. reflexivity. Qed.
Lemma all_items_nil f : all_items f [] = true.
Proof. reflexivity. Qed.

(** Unfolds what a schema says of a payload whose shape is known. *)
Ltac conform_step :=
  repeat (rewrite ?all_items_cons, ?all_items_nil, conforms_dict;
          lazy -[conforms_at all_items andb str_len is_currency is_rate_text Z.leb Z.of_nat length
                 is_integral Z_le_float opt_str Z.add Z.sub Z.mul map]);
  rewrite ?all_items_nil, ?andb_true_l, ?andb_true_r.

Ltac conformity :=
  match goal with |- context [conforms ?doc _] => unfold conforms, doc end; conform_step.

Definition has_text (s : string) : bool := 1 <=? str_len s.

Lemma has_text_ascii c s : (N_of_ascii c < 128)%N → has_text (String c s) = true.
Proof.
  intros Hc. unfold has_text, str_len. cbn [utf8_decode].
  destruct (N.ltb_spec (N_of_ascii c) 192); [|lia]. simpl length. apply Z.leb_le. lia.
Qed.

(** ** A deployment that keeps the promises, for the examples *)
Module Enforced.
Definition externals : Externals := {|
  jsonschema_validate doc v :=
    if conforms doc v then None else Some (Exn ValidationError "invalid");
  uuid4 := Demo.uuid_of;
  clock_iso _ := "2024-01-01T00:00:00+00:00";
  clock_time n := float_of_Z (Z.of_nat n);
  clock_monotonic n := float_of_Z (Z.of_nat n);
|}.

#[export] Instance enforced : JsonSchema (H := externals).
Proof. intros f doc v _. simpl. by destruct (conforms doc v). Qed.

Definition registry : Registry.registry :=
  Registry "schemas" (list_to_map ((λ p, (p.1, dumps Spaced p.2)) <$> documents)) ∅.

Lemma strict_registry_fresh : registry_ok registry.
Proof.
  intros k v H. change (reg_cache registry) with (∅ : gmap string pyval) in H.
  by rewrite lookup_empty in H.
Qed.

Lemma documents_reread :
  (λ p, loads (dumps Spaced p.2)) <$> documents = (λ p, Some p.2) <$> documents.
Proof. vm_compute. reflexivity. Qed.

Lemma registry_holds : holds_documents registry.
Proof.
  intros f doc Hd. exists (dumps Spaced doc). split.
  - change (reg_files registry) with
      (list_to_map ((λ p, (p.1, dumps Spaced p.2)) <$> documents) : gmap string string).
    apply elem_of_list_to_map_1.
    + rewrite <-list_fmap_compose. unfold compose. cbn [fst].
      change (NoDup (documents.*1)). rewrite documents_files. apply (bool_decide_unpack _).
      vm_compute. exact Logic.I.
    + apply list_elem_of_fmap. by exists (f, doc).
  - apply list_elem_of_lookup in Hd as [i Hi].
    pose proof (f_equal (.!! i) documents_reread) as E.
    rewrite !list_lookup_fmap, Hi in E. simpl in E. by injection E.
Qed.
End Enforced.
