(* ===== verification/Conformance.v ===== *)
(** * The payloads against their schemas

    Every event is checked against its schema when it is emitted, and an
    emission that fails raises in the middle of a handler.  This file settles
    when that can happen: for each payload the agents build, what its schema
    asks of it; and that Ledger can always give its verdict on an entry that
    was let in. *)

From S2P Require Import Prelude PyStr PyFloat PyVal Json Registry SchemaDocs Schemas Contract EventStore Agent Ledger Forge Sales.
Local Open Scope string_scope.
Local Open Scope Z_scope.

(** ** Emitting what conforms *)
Section emit.
Context `{JsonSchema} `{EventStoreLaws T} {A : Type}.

(** An emission that raises publishes nothing. *)
Lemma emit_new_err name subject version c t payload (s s' : proc T A) x :
  registry_ok (w_registry (p_world s)) →
  emit_new name subject version c t payload s = (Err x, s') → w_bus (p_world s') = w_bus (p_world s).
Proof.
  intros Hr E. unfold emit_new, in_world, zoom in E.
  set (e := Event subject version name payload (uuid4 (w_tick (p_world s))) c t).
  assert (new_event subject version name c t payload (p_world s) = (Ok e, tick (p_world s)))
    as En by done.
  rewrite (M_bind_run _ _ _ _ _ En) in E.
  destruct (emit_run name e (tick (p_world s))) as (reg & Hreg & Hf & E'); [done|].
  rewrite E' in E. destruct (check _ _ _ _); [|by injection E as _ <-].
  destruct (record_event e _) as [[[]|y] st]; [done|by injection E as _ <-].
Qed.

(** The event store of [s] fails on an event with this subject and payload. *)
Definition store_fails (subject : string) (payload : pydict) (s : proc T A) (x : exn) : Prop :=
  ∃ e, ev_subject e = subject ∧ ev_payload e = payload
    ∧ record_event e (w_store (p_world s)) = (Err x, w_store (p_world s)).

(** A payload its document accepts is emitted, unless the store fails. *)
Lemma emit_new_conforms name subject version doc c t payload (s s' : proc T A) x :
  registry_ok (w_registry (p_world s)) → holds_documents (w_registry (p_world s)) →
  (schema_file subject version, doc) ∈ documents → conforms doc (VDict payload) = true →
  emit_new name subject version c t payload s = (Err x, s') → store_fails subject payload s' x.
Proof.
  intros Hr Hd Hdoc Hc E. unfold emit_new, in_world, zoom in E.
  set (e := Event subject version name payload (uuid4 (w_tick (p_world s))) c t).
  assert (new_event subject version name c t payload (p_world s) = (Ok e, tick (p_world s)))
    as En by done.
  rewrite (M_bind_run _ _ _ _ _ En) in E.
  destruct (emit_run name e (tick (p_world s))) as (reg & Hreg & Hf & E'); [done|].
  rewrite E' in E. change (w_registry (tick (p_world s))) with (w_registry (p_world s)) in *.
  change (ev_payload e) with payload in E.
  rewrite (proj2 (check_document _ _ _ _ _ Hd Hdoc) Hc) in E.
  destruct (record_event e _) as [[[]|y] st] eqn:Er; [done|]. injection E as -> <-.
  pose proof (record_event_err _ _ _ _ Er) as Est. rewrite Est in Er. exists e. by subst st.
Qed.
End emit.

(** ** Ledger *)

Lemma posted_conforms r :
  conforms ledger_posted_v1 (VDict (posted_payload r))
  = is_currency (pr_currency r) && ((1 <=? pr_total_minor r) && (2 <=? pr_line_count r)).
Proof. destruct r as [i c st t n]. unfold posted_payload. simpl. by conformity. Qed.

Lemma refusal_shape i c r d k :
  conforms ledger_rejected_v1 (VDict [("entry_id", VStr i); ("currency", VStr c);
    ("reason", VStr r); ("total_debits", VInt d); ("total_credits", VInt k)])
  = is_currency c && (has_text r && ((0 <=? d) && (0 <=? k))).
Proof. unfold has_text. by conformity. Qed.

(** What the contract of [ledger.entry] says of the entry read. *)
Record fair_entry (tn : string) (e : journal_entry) : Prop := {
  fe_tenant : je_tenant_id e = tn;
  fe_currency : is_currency (je_currency e) = true;
  fe_lines : (2 ≤ length (lines e))%nat;
  fe_positive : Forall (λ l, 1 ≤ amount_minor l) (lines e);
}.

Lemma line_decodes v n item :
  VDict item = VDict [("type", VStr "object");
    ("required", VList [VStr "account"; VStr "direction"; VStr "amount_minor"]);
    ("additionalProperties", VBool false);
    ("properties", VDict [("account", VDict [("type", VStr "string")]);
      ("direction", VDict [("enum", VList [VStr "debit"; VStr "credit"])]);
      ("amount_minor", VDict [("type", VStr "integer"); ("minimum", VInt 1)])])] →
  conforms_at (S (S n)) (VDict item) v = true →
  ∃ l, journal_line_of v = Ok l ∧ 1 ≤ amount_minor l.
Proof.
  intros [= ->] Ha. destruct (accepted_object _ _ _ Ha eq_refl) as [d ->].
  destruct (accepted_required _ _ d _ "account" _ Ha eq_refl ltac:(set_solver) eq_refl) as (a & Ea & Sa).
  destruct (accepted_required _ _ d _ "direction" _ Ha eq_refl ltac:(set_solver) eq_refl) as (r & Er & Sr).
  destruct (accepted_required _ _ d _ "amount_minor" _ Ha eq_refl ltac:(set_solver) eq_refl)
    as (m & Em & Sm).
  destruct (accepted_string _ _ _ Sa eq_refl) as [acc ->].
  destruct (accepted_integer _ _ _ 1 Sm eq_refl eq_refl) as (z & Hz & Hle).
  pose proof (accepted_keywords _ _ _ Sr) as (_ & He & _).
  assert (∃ dir, direction_of r = Ok dir) as [dir Hdir].
  { unfold direction_of. destruct r as [| | | |s| |]; try done.
    apply (keyword_use _ _ _ (VList [VStr "debit"; VStr "credit"])) in He; [|done].
    cbn [enum_ok existsb py_eq] in He.
    cbn [List.find py_eq direction_value].
    rewrite (String.eqb_sym "debit"), (String.eqb_sym "credit").
    destruct (String.eqb s "debit"); [by eexists|]. destruct (String.eqb s "credit"); [by eexists|].
    done. }
  exists (JournalLine acc dir z). split; [|done].
  unfold journal_line_of, get_str, getitem. cbn [mbind result_bind as_dict].
  rewrite Ea, Er, Em. cbn [mbind result_bind as_str]. rewrite Hdir. cbn [mbind result_bind]. by rewrite Hz.
Qed.

Lemma mapM_decodes {A} (f : pyval → result A) (P : A → Prop) l :
  (∀ v, v ∈ l → ∃ a, f v = Ok a ∧ P a) →
  ∃ k, mapM f l = Ok k ∧ length k = length l ∧ Forall P k.
Proof.
  induction l as [|v l IH]; intros H; [by exists []|].
  destruct (H v ltac:(left)) as (a & Ea & Ha).
  destruct IH as (k & Ek & Hl & Hk); [intros w Hw; apply H; by right|].
  exists (a :: k). cbn [mapM]. rewrite Ea, Ek. simpl. by rewrite Hl; auto.
Qed.

(** Both versions of the contract ask this much. *)
Lemma entry_decodes doc payload tn :
  doc = ledger_entry_v1 ∨ doc = ledger_entry_v2 →
  conforms doc (VDict payload) = true → tn ≠ EmptyString →
  ∃ e, entry_of_payload payload tn = Ok e ∧ fair_entry tn e.
Proof.
  intros Hdoc Ha Hne.
  assert (∃ i c ls, get_str "entry_id" payload = Ok i ∧ get_str "currency" payload = Ok c
    ∧ is_currency c = true ∧ getitem "lines" payload = Ok (VList ls) ∧ (2 ≤ length ls)%nat
    ∧ (∀ v, v ∈ ls → ∃ l, journal_line_of v = Ok l ∧ 1 ≤ amount_minor l)
    ∧ ∃ m, as_opt_str (get_or "memo" VNone payload) = Ok m)
    as (i & c & ls & Ei & Ec & Hc & El & Hl & Hls & m & Em).
  { unfold get_str, getitem, get_or. unfold conforms in Ha.
    destruct Hdoc as [-> | ->];
      (destruct (accepted_required _ _ payload _ "entry_id" _ Ha eq_refl ltac:(set_solver) eq_refl)
         as (i & -> & Si);
       destruct (accepted_required _ _ payload _ "currency" _ Ha eq_refl ltac:(set_solver) eq_refl)
         as (c & -> & Sc);
       destruct (accepted_required _ _ payload _ "lines" _ Ha eq_refl ltac:(set_solver) eq_refl)
         as (ls & -> & Sl);
       destruct (accepted_string _ _ _ Si eq_refl) as [i' ->];
       destruct (accepted_string _ _ _ Sc eq_refl) as [c' ->];
       destruct (accepted_array _ _ _ _ Sl eq_refl eq_refl) as (ls' & -> & Hls);
       pose proof (accepted_keywords _ _ _ Sl) as (_ & _ & _ & _ & _ & _ & Hmin & _);
       pose proof (accepted_keywords _ _ _ Sc) as (_ & _ & _ & _ & _ & Hpat & _);
       apply (keyword_use _ _ _ (VInt 2)) in Hmin; [|done];
       apply (keyword_use _ _ _ (VStr "^[A-Z]{3}$")) in Hpat; [|done]; simpl in Hmin;
       apply Z.leb_le in Hmin;
       exists i', c', ls'; split_and!;
         [done|done|exact Hpat|done|lia|intros v Hv; eapply line_decodes; [|by apply Hls]; done|]).
    - destruct (dget "memo" payload) as [x|] eqn:Ex; [|by eexists].
      pose proof (accepted_property _ _ _ "memo" _ _ Ha eq_refl Ex) as Sx.
      destruct (accepted_string _ _ _ Sx eq_refl) as [x' ->]. by eexists.
    - rewrite (accepted_only _ _ _ "memo" Ha eq_refl eq_refl). by eexists. }
  destruct (mapM_decodes journal_line_of (λ l, 1 ≤ amount_minor l) ls Hls) as (k & Ek & Hk & Hp).
  exists (JournalEntry i tn c k m). split; [|split; simpl; try done; lia].
  unfold entry_of_payload. destruct tn; [done|]. simpl. rewrite El. simpl. rewrite Ek. simpl.
  by rewrite Ei, Ec, Em.
Qed.

Lemma total_nonneg d ls : Forall (λ l, 1 ≤ amount_minor l) ls → 0 ≤ total d ls.
Proof. induction 1; simpl; [done|]. case_decide; lia. Qed.

Lemma fair_posted tn e b :
  fair_entry tn e → is_balanced e = true →
  conforms ledger_posted_v1 (VDict (posted_payload (result_of e b))) = true.
Proof.
  intros [_ Hc Hl _] [_ Hb]%is_balanced_spec. rewrite posted_conforms. simpl.
  rewrite Hc. simpl. apply andb_true_iff. rewrite !Z.leb_le. lia.
Qed.

Lemma fair_rejected tn e x :
  fair_entry tn e → has_text (exn_msg x) = true →
  conforms ledger_rejected_v1 (VDict (rejected_payload e x)) = true.
Proof.
  intros [_ Hc _ Hp] Hx. unfold rejected_payload. rewrite refusal_shape, Hc, Hx. simpl.
  pose proof (total_nonneg DEBIT _ Hp). pose proof (total_nonneg CREDIT _ Hp).
  apply andb_true_iff. rewrite !Z.leb_le. done.
Qed.

Section ledger.
Context `{JsonSchema} `{EventStoreLaws T} `{LedgerStoreLaws L}.

(** Ledger always gives its verdict.  On an entry event that its contract
    let in, of either version, the handler decodes the payload, and the
    posted or rejected event it answers with is accepted by its own contract:
    the handler returns, unless the event store fails on that very answer or
    the books fail on the entry. *)
Theorem ledger_always_answers ev (s s' : proc T L) r :
  registry_ok (w_registry (p_world s)) → holds_documents (w_registry (p_world s)) →
  (ev_schema_version ev = 1 ∨ ev_schema_version ev = 2) →
  check (w_registry (p_world s)) "ledger.entry" (ev_schema_version ev) (ev_payload ev) = Ok tt →
  handle_entry ev s = (r, s') →
  r = Ok tt ∨ ∃ x, r = Err x ∧
    ((∃ subject payload, subject ∈ ["ledger.posted"; "ledger.rejected"]
        ∧ store_fails subject payload s' x)
     ∨ ∃ entry, insert_if_absent entry (p_agent s') = (Err x, p_agent s')).
Proof.
  intros Hr Hd Hv Hc E. destruct r as [[]|x]; [by left|right]. exists x. split; [done|]. destruct (ev_tenant_id ev) as [tn|] eqn:Et;
    [|unfold handle_entry in E; by rewrite Et in E].
  destruct (decide (tn = EmptyString)) as [->|Hne]; [unfold handle_entry in E; by rewrite Et in E|].
  assert (∃ entry, entry_of_payload (ev_payload ev) tn = Ok entry ∧ fair_entry tn entry)
    as (entry & Ee & Hf).
  { destruct Hv as [Hv|Hv]; rewrite Hv in Hc.
    - apply (check_document _ _ _ ledger_entry_v1) in Hc; [|done|by apply registered].
      by apply (entry_decodes ledger_entry_v1); [left|..].
    - apply (check_document _ _ _ ledger_entry_v2) in Hc; [|done|by apply registered].
      by apply (entry_decodes ledger_entry_v2); [right|..]. }
  rewrite (handle_entry_run ev tn entry s Et Hne Ee), post_run in E.
  destruct (is_balanced entry) eqn:Eb.
  - destruct (insert_if_absent entry (p_agent s)) as [[b|y] l] eqn:Ei.
    + destruct (String.eqb _ _); [done|]. left. eexists "ledger.posted", _. split; [left|].
      refine (emit_new_conforms _ _ _ ledger_posted_v1 _ _ _ (Proc (p_world s) l) _ _ Hr Hd _ _ E); [by apply registered|].
      by apply (fair_posted tn).
    + destruct (insert_err _ _ _ _ Ei) as [-> Hy]. rewrite Hy in E. injection E as -> <-. eauto.
  - left. eexists "ledger.rejected", _. split; [right; left|].
    refine (emit_new_conforms _ _ _ ledger_rejected_v1 _ _ _ s _ _ Hr Hd _ _ E); [by apply registered|].
    apply (fair_rejected tn); [done|]. by apply has_text_ascii.
Qed.
End ledger.

(** ** Forge *)

Lemma sale_shape w t k q c n x g :
  conforms forge_completed_v1 (VDict [("work_order_id", VStr w); ("tenant_id", VStr t);
    ("sku", VStr k); ("quantity", VInt q); ("currency", VStr c); ("net_minor", VInt n);
    ("tax_minor", VInt x); ("gross_minor", VInt g)])
  = has_text w && (has_text t && (has_text k && ((1 <=? q) && (is_currency c
      && ((1 <=? n) && ((0 <=? x) && (1 <=? g))))))).
Proof. unfold has_text. by conformity. Qed.

(** The entry of a sale, with its tax line and without. *)
Lemma entry_shape2 i c m a1 z1 a2 z2 :
  conforms ledger_entry_v1 (VDict [("entry_id", VStr i); ("currency", VStr c); ("memo", VStr m);
    ("lines", VList [line a1 "debit" z1; line a2 "credit" z2])])
  = is_currency c && ((str_len m <=? 280) && ((1 <=? z1) && (1 <=? z2))).
Proof. unfold line. by conformity. Qed.

Lemma entry_shape3 i c m a1 z1 a2 z2 a3 z3 :
  conforms ledger_entry_v1 (VDict [("entry_id", VStr i); ("currency", VStr c); ("memo", VStr m);
    ("lines", VList [line a1 "debit" z1; line a2 "credit" z2; line a3 "credit" z3])])
  = is_currency c && ((str_len m <=? 280) && ((1 <=? z1) && ((1 <=? z2) && (1 <=? z3)))).
Proof. unfold line. by conformity. Qed.

Definition memo_of (o : work_order) : string :=
  "sale " +:+ sku o +:+ " x" +:+ Z_str (quantity o) +:+ " (wo " +:+ work_order_id o +:+ ")".

(** What can be sold: the names, the currency and the amounts are in order. *)
Definition sellable (o : work_order) : Prop :=
  has_text (work_order_id o) = true ∧ has_text (tenant_id o) = true ∧ has_text (sku o) = true
  ∧ is_currency (currency o) = true
  ∧ 1 ≤ quantity o ∧ 1 ≤ unit_price_minor o ∧ 0 ≤ tax_minor o.

Lemma completed_accepted o :
  conforms forge_completed_v1 (VDict (completed_event o)) = true ↔ sellable o.
Proof.
  unfold completed_event. rewrite sale_shape, !andb_true_iff, !Z.leb_le. unfold sellable, gross_minor, net_minor.
  split; [|intros (? & ? & ? & ? & ? & ? & ?); split_and!; try done; nia].
  intros (? & ? & ? & ? & ? & ? & ? & ?). split_and!; try done. nia.
Qed.

Lemma entry_accepted o :
  sellable o →
  conforms ledger_entry_v1 (VDict (ledger_entry o)) = true ↔ str_len (memo_of o) ≤ 280.
Proof.
  intros (_ & _ & _ & Hc & Hq & Hp & Ht). unfold ledger_entry, revenue_lines. fold (memo_of o).
  assert (1 ≤ net_minor o) by (unfold net_minor; nia).
  assert (1 ≤ gross_minor o) by (unfold gross_minor; lia).
  destruct (Z.eqb_spec (tax_minor o) 0) as [E|E]; cbn [app];
    [rewrite entry_shape2|rewrite entry_shape3]; rewrite Hc, !andb_true_iff, !Z.leb_le; lia.
Qed.

Section forge.
Context `{JsonSchema} `{EventStoreLaws T}.

(** C16: what becomes of a sale.  The handler of an open work order returns
    only if the order is sellable (its names are not empty, its currency is
    three capitals, its quantity and price are at least one and its tax is not
    negative) and the memo of the entry, built from the names, has at most 280
    characters; then the sale and its revenue are published.  If it raises, it
    published nothing, or only the announcement of a sellable order: that is
    what happens to a sellable order with a longer memo, whose revenue is never
    published, unless the event store failed on the announcement.  With a short
    memo only a failure of the event store on one of the two events can stop a
    sellable order. *)
Theorem sale_published ev o (s s' : proc T unit) r :
  registry_ok (w_registry (p_world s)) → holds_documents (w_registry (p_world s)) →
  work_order_of_payload (ev_payload ev) = Ok o → is_terminal (state o) = false →
  handle_workorder ev s = (r, s') →
  let bus := w_bus (p_world s) in
  (r = Ok tt → sellable o ∧ str_len (memo_of o) ≤ 280
     ∧ ∃ m1 m2, w_bus (p_world s') = (bus ++ [("forge.completed", m1); ("ledger.entry", m2)])%list)
  ∧ (∀ x, r = Err x →
       (w_bus (p_world s') = bus
        ∨ sellable o ∧ ∃ m, w_bus (p_world s') = (bus ++ [("forge.completed", m)])%list)
       ∧ (sellable o → 280 < str_len (memo_of o) →
          store_fails "forge.completed" (completed_event o) s' x
          ∨ ∃ m, w_bus (p_world s') = (bus ++ [("forge.completed", m)])%list)
       ∧ (sellable o → str_len (memo_of o) ≤ 280 →
          store_fails "forge.completed" (completed_event o) s' x
          ∨ store_fails "ledger.entry" (ledger_entry o) s' x)).
Proof.
  intros Hr Hd Ho Hst E bus. rewrite (handle_workorder_run ev o s Ho), Hst in E.
  unfold mbind, M_bind in E.
  destruct (emit_new "forge" "forge.completed" _ _ _ _ s) as [[[]|y] s1] eqn:E1.
  - pose proof (emit_new_ok _ _ _ _ _ _ _ _ Hr E1) as [_ _ _ Hc1 _ Hb1 _ _ Hr1 Hf1].
    apply (check_document _ _ _ forge_completed_v1), completed_accepted in Hc1; [|done|by apply registered].
    pose proof (holds_documents_files _ _ Hf1 Hd) as Hd1. split.
    + intros ->. pose proof (emit_new_ok _ _ _ _ _ _ _ _ Hr1 E) as [_ _ _ Hc2 _ Hb2 _ _ _ _].
      apply (check_document _ _ _ ledger_entry_v1), entry_accepted in Hc2; [|done|done|by apply registered].
      split_and!; [done..|]. rewrite Hb2, Hb1, <-(assoc_L (++)). eauto.
    + intros x ->. pose proof (emit_new_err _ _ _ _ _ _ _ _ _ Hr1 E) as Hb2.
      assert (∃ m, w_bus (p_world s') = (bus ++ [("forge.completed", m)])%list) as Hb.
      { rewrite Hb2. eauto. }
      split_and!; [by right|by right|]. intros _ Hm. right.
      refine (emit_new_conforms _ _ _ ledger_entry_v1 _ _ _ _ _ _ Hr1 Hd1 _ _ E);
        [by apply registered|by apply entry_accepted].
  - injection E as <- <-. split; [done|]. intros x [= <-].
    assert (sellable o → store_fails "forge.completed" (completed_event o) s1 y) as Hfail.
    { intros Hsell. refine (emit_new_conforms _ _ _ forge_completed_v1 _ _ _ _ _ _ Hr Hd _ _ E1);
        [by apply registered|by apply completed_accepted]. }
    split_and!; [left; by apply (emit_new_err _ _ _ _ _ _ _ _ _ Hr E1)|by left; apply Hfail..].
Qed.
End forge.

(** ** Examples *)
Section witnesses.
#[local] Existing Instance Enforced.externals.
#[local] Existing Instance Enforced.enforced.

Definition strict_world : world InMemoryEventStore.store :=
  World Enforced.registry InMemoryEventStore.init [] [] 0.
Definition strict_ledger : proc InMemoryEventStore.store InMemoryLedgerStore.store :=
  Proc strict_world books0.
Definition strict_forge : proc InMemoryEventStore.store unit := Proc strict_world tt.

(** An unbalanced entry that its schema lets in. *)
Definition lopsided : event :=
  Event "ledger.entry" 1 "forge"
    [("entry_id", VStr "e-1"); ("currency", VStr "USD");
     ("lines", VList [line "cash" "debit" 100; line "sales" "credit" 90])]
    (Demo.uuid_of 7) None (Some "acme").

Lemma ledger_always_answers_witness :
  let '(r, s') := handle_entry lopsided strict_ledger in
  is_ok r = true
  ∧ length (w_bus (p_world s')) = 1%nat.
Proof.
  assert (Hb : length (w_bus (p_world (handle_entry lopsided strict_ledger).2)) = 1%nat)
    by (vm_compute; reflexivity).
  assert (Hc : check (w_registry (p_world strict_ledger)) "ledger.entry" 1 (ev_payload lopsided) = Ok tt)
    by (vm_compute; reflexivity).
  destruct (handle_entry lopsided strict_ledger) as [r s'] eqn:E. split; [|exact Hb].
  destruct (ledger_always_answers lopsided strict_ledger s' r Enforced.strict_registry_fresh
    Enforced.registry_holds (or_introl eq_refl) Hc E)
    as [->|(x & _ & [(su & pl & _ & e & _ & _ & He)|[entry He]])]; [reflexivity|..].
  - unfold record_event in He. simpl in He. unfold InMemoryEventStore.mem_record in He. by case_decide.
  - unfold insert_if_absent in He. simpl in He. unfold InMemoryLedgerStore.mem_insert in He. by case_match.
Defined.

Definition open_sale (name : string) : event :=
  Event "forge.workorder" 1 "api"
    [("work_order_id", VStr "wo-1"); ("tenant_id", VStr "acme"); ("sku", VStr name);
     ("quantity", VInt 3); ("unit_price_minor", VInt 1999); ("currency", VStr "USD");
     ("tax_rate_bps", VInt 825)]
    (Demo.uuid_of 9) None (Some "acme").

(** A name of 300 letters is sellable, and its revenue is lost. *)
Definition long_name : string := zeros 300.

Lemma sale_published_witness :
  let '(r, s') := handle_workorder (open_sale long_name) strict_forge in
  (∃ x, r = Err x) ∧ sellable (WorkOrder "wo-1" "acme" long_name 3 1999 "USD" 825 CREATED)
  ∧ ∃ m, w_bus (p_world s') = [("forge.completed", m)].
Proof.
  set (o := WorkOrder "wo-1" "acme" long_name 3 1999 "USD" 825 CREATED).
  assert (Hr : is_ok (handle_workorder (open_sale long_name) strict_forge).1 = false
    ∧ length (w_bus (p_world (handle_workorder (open_sale long_name) strict_forge).2)) = 1%nat)
    by (split; vm_compute; reflexivity).
  destruct (handle_workorder _ _) as [r s'] eqn:E. destruct Hr as [Hr Hl]. cbn [fst snd] in Hr, Hl.
  destruct r as [[]|x]; [done|].
  destruct (sale_published (open_sale long_name) o strict_forge s' (Err x) Enforced.strict_registry_fresh
    Enforced.registry_holds eq_refl eq_refl E) as [_ Herr].
  destruct (Herr x eq_refl) as [[Hb|[_ [m Hb]]] _]; [by rewrite Hb in Hl|].
  split; [by exists x|]. split; [|by exists m].
  unfold sellable. split_and!; first [vm_compute; reflexivity|vm_compute; discriminate].
Defined.
End witnesses.
