(* ===== verification/Contracts.v ===== *)
(** * What each contract asks of each payload

    For the events of the write lifecycle, of reconciliation, of the ERP
    queries, mappings and secrets, of Ticker and of Beacon: exactly when the
    payload an agent builds is accepted by its schema. *)

From S2P Require Import Prelude PyStr PyFloat PyVal Json Registry SchemaDocs Schemas Agent Write Reconcile Query ErpMap PyDecimal Vault BeaconReport Ticker Webhook.
Local Open Scope string_scope.
Local Open Scope Z_scope.

(** ** The write lifecycle *)
Section write.
Implicit Types (op : write_operation).

Lemma requested_shape t p o m d by_ at_ diff rev ext :
  conforms forge_write_requested_v3 (VDict [("tenant_id", VStr t); ("erp_platform", VStr p);
    ("operation", VStr o); ("target_module", VStr m); ("payload", VDict d);
    ("requested_by", VStr by_); ("requested_at", VStr at_); ("diff_preview", VStr diff);
    ("reverses", opt_str rev); ("target_external_id", opt_str ext)])
  = has_text t && (has_text p && (has_text o && (has_text m && has_text by_))).
Proof. unfold has_text. destruct rev, ext; simpl opt_str; by conformity. Qed.

Lemma approved_shape t p o by_ at_ i :
  conforms forge_write_approved_v1 (VDict [("tenant_id", VStr t); ("erp_platform", VStr p);
    ("operation", VStr o); ("approved_by", VStr by_); ("approved_at", VStr at_);
    ("write_id", VStr i)])
  = has_text t && (has_text p && (has_text o && (has_text by_ && has_text i))).
Proof. unfold has_text. by conformity. Qed.

Lemma declined_shape t p o by_ at_ r :
  conforms forge_write_rejected_v1 (VDict [("tenant_id", VStr t); ("erp_platform", VStr p);
    ("operation", VStr o); ("rejected_by", VStr by_); ("rejected_at", VStr at_);
    ("reason", VStr r)])
  = has_text t && (has_text p && (has_text o && (has_text by_ && has_text r))).
Proof. unfold has_text. by conformity. Qed.

Lemma applied_shape t p o i c at_ :
  conforms forge_write_completed_v1 (VDict [("tenant_id", VStr t); ("erp_platform", VStr p);
    ("operation", VStr o); ("write_id", VStr i); ("erp_confirmation", VDict c);
    ("completed_at", VStr at_)])
  = has_text t && (has_text p && (has_text o && has_text i)).
Proof. unfold has_text. by conformity. Qed.
End write.

(** ** Reconciliation *)
Lemma reconciled_shape t p s i c m d at_ :
  conforms ledger_reconciliation_completed_v1 (VDict [("tenant_id", VStr t);
    ("erp_platform", VStr p); ("scope", VStr s); ("run_id", VStr i); ("checked", VInt c);
    ("matched", VInt m); ("drift_count", VInt d); ("completed_at", VStr at_)])
  = has_text t && (has_text p && (has_text s && (has_text i && ((0 <=? c) && ((0 <=? m) && (0 <=? d)))))).
Proof. unfold has_text. by conformity. Qed.

Definition discrepancy_schema : pyval :=
  Eval vm_compute in items_of (property_of "discrepancies" ledger_drift_detected_v1).
Definition field_schema : pyval :=
  Eval vm_compute in items_of (property_of "fields" discrepancy_schema).

Lemma drift_shape t p s i l at_ :
  conforms ledger_drift_detected_v1 (VDict [("tenant_id", VStr t); ("erp_platform", VStr p);
    ("scope", VStr s); ("run_id", VStr i); ("discrepancies", VList l); ("detected_at", VStr at_)])
  = has_text t && (has_text p && (has_text s && (has_text i
      && ((1 <=? Z.of_nat (length l)) && all_items (conforms_at 5 discrepancy_schema) l)))).
Proof. unfold has_text. by conformity. Qed.

Lemma field_shape n f e a :
  conforms_at (S (S n)) field_schema (VDict [("field", VStr f); ("expected", e); ("actual", a)])
  = has_text f.
Proof. unfold has_text. unfold field_schema. conform_step. destruct e, a; apply andb_true_r. Qed.

Lemma discrepancy_shape n i k :
  conforms_at (S (S n)) discrepancy_schema (VDict [("external_id", VStr i); ("kind", VStr k)])
  = has_text i && existsb (String.eqb k) [MISSING_IN_ERP; UNEXPECTED_IN_ERP; FIELD_MISMATCH].
Proof. unfold has_text, discrepancy_schema. by conform_step. Qed.

Lemma mismatch_shape n i k l :
  conforms_at (S (S (S n))) discrepancy_schema
    (VDict [("external_id", VStr i); ("kind", VStr k); ("fields", VList l)])
  = has_text i && (existsb (String.eqb k) [MISSING_IN_ERP; UNEXPECTED_IN_ERP; FIELD_MISMATCH]
      && ((1 <=? Z.of_nat (length l)) && all_items (conforms_at (S n) field_schema) l)).
Proof. unfold has_text, discrepancy_schema. by conform_step. Qed.

(** A discrepancy that can be reported: its id and the fields it names are
    not empty. *)
Definition named (d : discrepancy) : Prop :=
  has_text (external_id d) = true
  ∧ ∀ f name, f ∈ d_fields d → dget "field" f = Some (VStr name) → has_text name = true.

Lemma all_items_Forall f l : all_items f l = true ↔ ∀ x, x ∈ l → f x = true.
Proof.
  unfold all_items. rewrite forallb_forall. split; intros H x Hx; apply H; by apply list_elem_of_In.
Qed.

Lemma compare_kinds expected actual d :
  d ∈ compare expected actual →
  existsb (String.eqb (d_kind d)) [MISSING_IN_ERP; UNEXPECTED_IN_ERP; FIELD_MISMATCH] = true
  ∧ ∀ f, f ∈ d_fields d → ∃ name e a, f = [("field", VStr name); ("expected", e); ("actual", a)].
Proof.
  intros [[_ E]|(_ & _ & ->)]%compare_In; [|by split; [|set_solver]].
  unfold compare_one in E. destruct (dget (external_id d) actual) as [c|];
    [|injection E as <-; by split; [|set_solver]].
  destruct (mismatches _ c) as [|f fs] eqn:Em; [done|]. injection E as E. rewrite <-E. simpl.
  split; [done|]. intros g Hg. rewrite <-Em in Hg. unfold mismatches in Hg.
  apply list_elem_of_In, in_map_iff in Hg as (name & <- & _). unfold mismatch. eauto.
Qed.

Lemma discrepancy_accepted expected actual d :
  d ∈ compare expected actual →
  conforms_at 5 discrepancy_schema (VDict (discrepancy_payload d)) = true ↔ named d.
Proof.
  intros [Hk Hf]%compare_kinds. unfold named, discrepancy_payload. destruct d as [i k fs].
  cbn [external_id d_kind d_fields] in *. destruct fs as [|g fs].
  - rewrite discrepancy_shape, Hk, andb_true_r. split; [|by intros []]. split; [done|set_solver].
  - change (dset "fields" (VList (map VDict (g :: fs))) [("external_id", VStr i); ("kind", VStr k)])
      with [("external_id", VStr i); ("kind", VStr k); ("fields", VList (map VDict (g :: fs)))].
    rewrite mismatch_shape, Hk. cbn [andb]. rewrite andb_true_iff. f_equiv.
    rewrite andb_true_iff, all_items_Forall. split.
    + intros [_ H] f name Hin Hn. destruct (Hf f Hin) as (name' & e & a & ->).
      specialize (H (VDict [("field", VStr name'); ("expected", e); ("actual", a)])).
      rewrite field_shape in H. simpl in Hn. injection Hn as <-. apply H.
      apply list_elem_of_In, in_map, list_elem_of_In, Hin.
    + intros H. split; [simpl; apply Z.leb_le; lia|]. intros x Hx.
      apply list_elem_of_In, in_map_iff in Hx as (f & <- & Hin%list_elem_of_In).
      destruct (Hf f Hin) as (name & e & a & ->). rewrite field_shape. by eapply H.
Qed.

(** When a reconciliation can be reported.  The heartbeat of a run is
    accepted exactly if the tenant, the platform, the scope and the run id are
    not empty, whatever the counts; the drift event exactly if, besides, every
    discrepancy has a non-empty id and names no empty field. *)
Theorem reconciliation_accepted expected actual t p sc i at_ :
  wf_dict expected → wf_dict actual →
  let r := ReconciliationResult t p sc i (ids_checked expected actual)
             (compare expected actual) at_ in
  let texts := has_text t = true ∧ has_text p = true ∧ has_text sc = true ∧ has_text i = true in
  (conforms ledger_reconciliation_completed_v1 (VDict (Reconcile.completed_payload r)) = true ↔ texts)
  ∧ ∀ drift, drift_payload r = Some drift →
      conforms ledger_drift_detected_v1 (VDict drift) = true
      ↔ texts ∧ Forall named (compare expected actual).
Proof.
  intros He Ha r texts. destruct (compare_counts expected actual He Ha) as [H1 H2]. split.
  - unfold Reconcile.completed_payload. rewrite reconciled_shape, !andb_true_iff, !Z.leb_le.
    unfold texts, r, drift_count. cbn. intuition lia.
  - unfold drift_payload. cbn [discrepancies r]. intros drift.
    destruct (compare expected actual) as [|d ds] eqn:Ec; [done|]. intros [= <-]. rewrite <-Ec.
    rewrite drift_shape, !andb_true_iff, all_items_Forall, Forall_forall.
    assert (Hitems : (∀ x, x ∈ map (λ d, VDict (discrepancy_payload d)) (compare expected actual) →
        conforms_at 5 discrepancy_schema x = true) ↔ ∀ d, d ∈ compare expected actual → named d).
    { split.
      - intros H e Hin. apply (discrepancy_accepted expected actual e Hin), H.
        by apply list_elem_of_In, in_map_iff; eexists; split; [|apply list_elem_of_In].
      - intros H x Hx. apply list_elem_of_In, in_map_iff in Hx as (e & <- & Hin%list_elem_of_In).
        by apply (discrepancy_accepted expected actual e Hin), H. }
    rewrite <-Hitems, Ec. unfold texts. cbn [map length].
    rewrite Z.leb_le. intuition lia.
Qed.

(** A write that says where it goes and what it does. *)
Definition addressed (op : write_operation) : Prop :=
  has_text (wo_tenant_id op) = true ∧ has_text (erp_platform op) = true ∧ has_text (operation op) = true.

(** When the steps of a write can be announced.  A write is [addressed] if
    its tenant, platform and operation are not empty.  The request is accepted
    exactly if besides the module and the requester are named; the approval if
    the reviewer and the write id are; the rejection if the reviewer and the
    reason are; the completion if the write id is, whatever the ERP confirmed. *)
Theorem write_steps_accepted (op : write_operation) by_ reason confirmation at_ :
  (conforms forge_write_requested_v3 (VDict (requested_payload op at_)) = true
   ↔ addressed op ∧ has_text (target_module op) = true ∧ has_text (requested_by op) = true)
  ∧ (conforms forge_write_approved_v1 (VDict (approved_payload op by_ at_)) = true
     ↔ addressed op ∧ has_text by_ = true ∧ has_text (write_id op) = true)
  ∧ (conforms forge_write_rejected_v1 (VDict (Write.rejected_payload op by_ reason at_)) = true
     ↔ addressed op ∧ has_text by_ = true ∧ has_text reason = true)
  ∧ (conforms forge_write_completed_v1 (VDict (Write.completed_payload op confirmation at_)) = true
     ↔ addressed op ∧ has_text (write_id op) = true).
Proof.
  unfold requested_payload, approved_payload, Write.rejected_payload, Write.completed_payload.
  rewrite requested_shape, approved_shape, declined_shape, applied_shape, !andb_true_iff.
  unfold addressed. tauto.
Qed.

(** ** Queries, mappings, secrets *)
Lemma query_completed_shape t p s f n l v at_ :
  conforms ledger_query_completed_v1 (VDict [("tenant_id", VStr t); ("erp_platform", VStr p);
    ("subject", VStr s); ("filters", VDict f); ("result_count", VInt n); ("payload", VList l);
    ("schema_version", VStr v); ("queried_at", VStr at_)])
  = has_text t && (has_text p && (has_text s && ((0 <=? n)
      && (all_items (conforms_at 5 (items_of (property_of "payload" ledger_query_completed_v1))) l
      && has_text v)))).
Proof. unfold has_text. by conformity. Qed.

Lemma query_failed_shape t p s f r at_ :
  conforms ledger_query_failed_v1 (VDict [("tenant_id", VStr t); ("erp_platform", VStr p);
    ("subject", VStr s); ("filters", VDict f); ("reason", VStr r); ("failed_at", VStr at_)])
  = has_text t && (has_text p && (has_text s && has_text r)).
Proof. unfold has_text. by conformity. Qed.

Lemma transformed_shape t e s g h o at_ :
  conforms mapper_transform_completed_v1 (VDict [("tenant_id", VStr t); ("source_erp", VStr e);
    ("source_schema", VStr s); ("target_schema", VStr g); ("input_hash", VStr h);
    ("output", VDict o); ("transformed_at", VStr at_)])
  = has_text t && (has_text e && (has_text s && (has_text g && has_text h))).
Proof. unfold has_text. by conformity. Qed.

Lemma untransformed_shape t e s r at_ :
  conforms mapper_transform_failed_v1 (VDict [("tenant_id", VStr t); ("source_erp", VStr e);
    ("source_schema", VStr s); ("reason", VStr r); ("failed_at", VStr at_)])
  = has_text t && (has_text e && (has_text s && has_text r)).
Proof. unfold has_text. by conformity. Qed.

Lemma denied_shape t e r at_ :
  conforms vault_secret_denied_v1 (VDict [("tenant_id", VStr t); ("erp_platform", VStr e);
    ("reason", VStr r); ("requested_at", VStr at_)])
  = has_text t && (has_text e && has_text r).
Proof. unfold has_text. by conformity. Qed.

Lemma received_shape t e y raw at_ g :
  conforms ticker_event_received_v1 (VDict [("tenant_id", VStr t); ("erp_platform", VStr e);
    ("event_type", VStr y); ("raw_payload", VDict raw); ("received_at", VStr at_);
    ("routed_to", VStr g)])
  = has_text t && (has_text e && (has_text y && has_text g)).
Proof. unfold has_text. by conformity. Qed.

(** ** Ticker *)
Lemma price_shape b q r x :
  conforms ticker_price_v1 (VDict [("base", VStr b); ("quote", VStr q); ("rate", VStr r);
    ("as_of", VFloat x)])
  = is_currency b && (is_currency q && is_rate_text r).
Proof. by conformity. Qed.

Lemma converted_price_shape b q r x a c :
  conforms ticker_price_v1 (VDict [("base", VStr b); ("quote", VStr q); ("rate", VStr r);
    ("as_of", VFloat x); ("amount_minor", VInt a); ("converted_minor", VInt c)])
  = is_currency b && (is_currency q && (is_rate_text r && ((0 <=? a) && (0 <=? c)))).
Proof. by conformity. Qed.

(** The pattern stops at the first letter of an exponent. *)
Lemma at_end_exponent e : at_end (exponent_text e) = (e =? 0).
Proof. unfold exponent_text. by destruct (e =? 0). Qed.

Lemma no_point_exponent e :
  match exponent_text e with
  | String c r => let '(frac, rest) := span_digits r in
      (N_of_ascii c =? 46)%N && negb (str_empty frac) && at_end rest
  | EmptyString => false
  end = false.
Proof.
  unfold exponent_text. destruct (e =? 0); [done|]. cbn [String.append].
  by destruct (span_digits _).
Qed.

Lemma rate_whole s e :
  all_digit s → s ≠ EmptyString → is_rate_text (s +:+ exponent_text e) = (e =? 0).
Proof.
  intros Hd Hne. unfold is_rate_text.
  rewrite span_digits_app by (try done; apply exponent_text_no_digit).
  rewrite at_end_exponent, no_point_exponent, orb_false_r. by destruct s.
Qed.

Lemma rate_point w f e :
  all_digit w → all_digit f → w ≠ EmptyString → f ≠ EmptyString →
  is_rate_text (w +:+ "." +:+ f +:+ exponent_text e) = (e =? 0).
Proof.
  intros Hw Hf Hnw Hnf. unfold is_rate_text. rewrite span_digits_app by done.
  cbn [String.append]. rewrite span_digits_app by (try done; apply exponent_text_no_digit).
  rewrite at_end_exponent. destruct w; [done|]. by destruct f.
Qed.

(** The text of a rate fits its pattern exactly if it needs no exponent. *)
Lemma rate_text c x :
  0 ≤ c →
  is_rate_text (dec_str (Dec false c x))
  = (x <=? 0) && (-6 <? x + Z.of_nat (String.length (Z_str c))).
Proof.
  intros Hc. destruct (Z_str_nonneg c Hc) as (Hd & Hne & _).
  unfold dec_str. cbn [d_coeff d_exp d_neg].
  change (String.append EmptyString) with (λ s : string, s). cbn beta.
  set (s := Z_str c) in *. set (len := Z.of_nat (String.length s)).
  assert (Hlen : 0 < len) by (unfold len; destruct s; [done|simpl; lia]).
  set (plain := (x <=? 0) && (-6 <? x + len)). set (dot := if plain then x + len else 1).
  assert (Hdot : (x + len - dot =? 0) = plain).
  { unfold dot, plain. destruct (Z.leb_spec x 0), (Z.ltb_spec (-6) (x + len)); simpl; lia. }
  change (if x + len - dot =? 0 then EmptyString
          else "E" +:+ (if x + len - dot <? 0 then EmptyString else "+") +:+ Z_str (x + len - dot))
    with (exponent_text (x + len - dot)).
  rewrite <-Hdot.
  destruct (Z.leb_spec dot 0) as [H0|H0]; [|destruct (Z.leb_spec len dot) as [H1|H1]].
  - rewrite !str_app_assoc, <-(str_app_assoc (zeros _)). change ("0." +:+ ?a) with ("0" +:+ "." +:+ a).
    rewrite rate_point; [done|done| |done|by destruct (zeros _)].
    apply all_digit_app. split; [apply all_digit_zeros|done].
  - rewrite !str_app_assoc, <-str_app_assoc. apply rate_whole; [|by destruct s].
    apply all_digit_app. split; [done|apply all_digit_zeros].
  - rewrite !str_app_assoc. pose proof (take_drop_str (Z.to_nat dot) s) as Hs.
    rewrite <-Hs in Hd. apply all_digit_app in Hd as [Ht Hr].
    pose proof (length_str_drop (Z.to_nat dot) s) as Hl.
    apply rate_point; [done|done| |].
    + destruct (Z.to_nat dot) eqn:En; [lia|]. by destruct s.
    + intros E. rewrite E in Hl. simpl in Hl. lia.
Qed.

(** When a price can be published.  With the codes of both currencies in
    order, the price event is accepted exactly if the rate is not negative and
    its text needs no exponent: its last digit is at the unit or after, and
    its first digit is within six places of the point.  A rate of 0.0000001 is
    quoted as 1E-7 and refused by the contract of the event that carries it. *)
Theorem price_accepted (b q : string) (rate : decimal) (x : float) :
  0 ≤ d_coeff rate → is_currency b = true → is_currency q = true →
  conforms ticker_price_v1 (VDict (price_payload (Rate b q rate (VFloat x)))) = true
  ↔ d_neg rate = false ∧ d_exp rate ≤ 0
    ∧ -6 < d_exp rate + Z.of_nat (String.length (Z_str (d_coeff rate))).
Proof.
  intros Hc Hb Hq. unfold price_payload. cbn [rt_base rt_quote rt_rate rt_as_of].
  rewrite price_shape, Hb, Hq. cbn [andb]. destruct rate as [[] c e]; cbn [d_neg d_coeff d_exp] in *.
  - split; [|by intros []]. by unfold dec_str.
  - rewrite rate_text, andb_true_iff, Z.leb_le, Z.ltb_lt by done. tauto.
Qed.

(** ** The replies *)
Lemma rows_accepted rows :
  all_items (conforms_at 5 (items_of (property_of "payload" ledger_query_completed_v1)))
    (map VDict rows) = true.
Proof. apply all_items_Forall. intros x Hx%list_elem_of_In%in_map_iff. by destruct Hx as (d & <- & _). Qed.

Lemma input_hash_text record : has_text (input_hash record) = true.
Proof. unfold input_hash. by apply has_text_ascii. Qed.

(** Every reply of the query, mapping and webhook agents is accepted
    exactly if the texts it repeats from the request are not empty: the count
    and the rows of a query, the hash and the output of a mapping and the raw
    payload of a webhook never matter; and a failure is only ever refused over
    its names or an empty reason. *)
Theorem replies_accepted t p s reason filters rows version target raw output record i type at_ :
  (conforms ledger_query_completed_v1
     (VDict (Query.completed_payload t p s filters rows version at_)) = true
   ↔ has_text t = true ∧ has_text p = true ∧ has_text s = true ∧ has_text version = true)
  ∧ (conforms ledger_query_failed_v1 (VDict (Query.failed_payload t p s filters reason at_)) = true
     ↔ has_text t = true ∧ has_text p = true ∧ has_text s = true ∧ has_text reason = true)
  ∧ (conforms mapper_transform_completed_v1
       (VDict (ErpMap.completed_payload t p s target record output at_)) = true
     ↔ has_text t = true ∧ has_text p = true ∧ has_text s = true ∧ has_text target = true)
  ∧ (conforms mapper_transform_failed_v1 (VDict (ErpMap.failed_payload t p s reason at_)) = true
     ↔ has_text t = true ∧ has_text p = true ∧ has_text s = true ∧ has_text reason = true)
  ∧ (conforms ticker_event_received_v1 (VDict (received_payload i t p type raw at_)) = true
     ↔ has_text t = true ∧ has_text p = true ∧ has_text type = true
       ∧ has_text (route_for i type) = true).
Proof.
  unfold Query.completed_payload, Query.failed_payload, ErpMap.completed_payload,
    ErpMap.failed_payload, received_payload.
  rewrite query_completed_shape, query_failed_shape, transformed_shape, untransformed_shape,
    received_shape, rows_accepted, input_hash_text, !andb_true_iff.
  assert (0 <=? Z.of_nat (length rows) = true) as -> by (apply Z.leb_le; lia). tauto.
Qed.

(** ** Examples *)
Lemma reconciliation_accepted_witness :
  let expected := [("inv-1", [("total", VInt 5)])] in
  let r := ReconciliationResult "acme" "netsuite" "invoice" "run-1" (ids_checked expected [])
             (compare expected []) "2024-01-01T00:00:00+00:00" in
  conforms ledger_reconciliation_completed_v1 (VDict (Reconcile.completed_payload r)) = true
  ∧ ∃ drift, drift_payload r = Some drift
    ∧ conforms ledger_drift_detected_v1 (VDict drift) = true.
Proof.
  intros expected r.
  assert (He : wf_dict expected) by apply NoDup_singleton.
  assert (Ha : wf_dict (V := pydict) []) by apply NoDup_nil_2.
  destruct (reconciliation_accepted expected [] "acme" "netsuite" "invoice" "run-1"
    "2024-01-01T00:00:00+00:00" He Ha) as [H1 H2].
  assert (Ht : has_text "acme" = true ∧ has_text "netsuite" = true ∧ has_text "invoice" = true
    ∧ has_text "run-1" = true) by (vm_compute; done).
  split; [by apply H1|]. eexists. split; [vm_compute; reflexivity|].
  apply H2; [vm_compute; reflexivity|]. split; [exact Ht|]. vm_compute.
  apply Forall_cons. split; [|by apply Forall_nil]. split; [vm_compute; done|]. intros f n Hf. by apply not_elem_of_nil in Hf.
Defined.

(** 0.0000001 and 1.25. *)
Lemma price_accepted_witness :
  conforms ticker_price_v1 (VDict (price_payload (Rate "IDR" "BTC" (Dec false 1 (-7)) (VFloat fzero))))
  = false
  ∧ conforms ticker_price_v1 (VDict (price_payload (Rate "EUR" "USD" (Dec false 125 (-2)) (VFloat fzero))))
    = true.
Proof.
  assert (0 ≤ 1 ∧ 0 ≤ 125) as [H1 H2] by lia. split.
  - destruct (conforms _ _) eqn:E; [|done].
    apply (price_accepted "IDR" "BTC" (Dec false 1 (-7)) fzero H1 eq_refl eq_refl) in E
      as (_ & _ & E). vm_compute in E. done.
  - apply (price_accepted "EUR" "USD" (Dec false 125 (-2)) fzero H2 eq_refl eq_refl).
    split_and!; vm_compute; done.
Defined.
