(* ===== verification/Concurrent.v ===== *)
(** * Concurrent callers

    Agents run their handlers on several bus threads, and several processes
    share one database.  A caller runs its statements one by one, and the
    statements of different callers interleave in any order.  [Locked] callers
    hold a mutual exclusion lock (a [threading.Lock], or the advisory lock of
    a transaction) from the first statement to the last; [Single] ones are one
    atomic statement outside the lock.

    The general theorem: an interleaving of such callers always comes to an
    end, and what it leaves is what the callers do one after another in some
    order.  [LogWriters], [EntryWriters] and [Counting] apply it to the three
    critical sections of the program. *)

From S2P Require Import Prelude PyStr PyFloat PyVal Json JsonText JsonFacts Digest Metrics HashChain Contract EventStore Ledger.

(** ** The machine *)
Section machine.
Context {S R : Type}.

(** The rest of a critical section: an atomic statement changes the shared
    state by [upd], and what follows depends on the state it saw. *)
Inductive code : Type :=
  | Ret (r : R)
  | Act (upd : S → S) (next : S → code).

(** The section when nobody interferes. *)
Fixpoint run (c : code) (s : S) : R * S :=
  match c with
  | Ret r => (r, s)
  | Act upd next => run (next s) (upd s)
  end.

Inductive task : Type :=
  | Locked (c : code)
  | Single (f : S → R * S).

Definition run_task (t : task) : S → R * S :=
  match t with Locked c => run c | Single f => f end.

Inductive phase : Type :=
  | Todo (t : task)
  | Inside (c : code)
  | Done (r : R).

Record config : Type := Config {
  callers : list phase;
  holder : option nat;
  shared : S;
}.

Inductive step : config → config → Prop :=
  | step_acquire i c ts s :
      ts !! i = Some (Todo (Locked c)) →
      step (Config ts None s) (Config (<[i := Inside c]> ts) (Some i) s)
  | step_act i upd next ts h s :
      ts !! i = Some (Inside (Act upd next)) →
      step (Config ts h s) (Config (<[i := Inside (next s)]> ts) h (upd s))
  | step_release i r ts h s :
      ts !! i = Some (Inside (Ret r)) →
      step (Config ts h s) (Config (<[i := Done r]> ts) None s)
  | step_single i f ts h s :
      ts !! i = Some (Todo (Single f)) →
      step (Config ts h s) (Config (<[i := Done (f s).1]> ts) h (f s).2).

Definition start (ts : list task) (s : S) : config := Config (Todo <$> ts) None s.

Definition is_done (p : phase) : Prop := ∃ r, p = Done r.

(** The callers named by [order], one after another. *)
Fixpoint in_turn (ts : list task) (order : list nat) (s : S) : list (nat * R) * S :=
  match order with
  | [] => ([], s)
  | i :: order =>
      match ts !! i with
      | None => in_turn ts order s
      | Some t =>
          let '(r, s1) := run_task t s in
          let '(rs, s2) := in_turn ts order s1 in ((i, r) :: rs, s2)
      end
  end.

Lemma in_turn_snoc ts order i t s :
  ts !! i = Some t →
  in_turn ts (order ++ [i]) s
  = (((in_turn ts order s).1 ++ [(i, (run_task t (in_turn ts order s).2).1)])%list,
     (run_task t (in_turn ts order s).2).2).
Proof.
  intros Ht. revert s. induction order as [|j order IH]; intros s; simpl.
  - rewrite Ht. by destruct (run_task t s).
  - destruct (ts !! j) as [u|]; [|apply IH]. destruct (run_task u s) as [r s1]. rewrite IH.
    by destruct (in_turn ts order s1).
Qed.

(** ** Every interleaving ends *)
Inductive closer : phase → phase → Prop :=
  | closer_acquire c : closer (Todo (Locked c)) (Inside c)
  | closer_act upd next s : closer (Inside (Act upd next)) (Inside (next s))
  | closer_release r : closer (Inside (Ret r)) (Done r)
  | closer_single f r : closer (Todo (Single f)) (Done r).

Lemma phase_ends p : sn closer p.
Proof.
  assert (Hdone : ∀ r, sn closer (Done r)) by (intros r; constructor; intros q Hq; inversion Hq).
  assert (Hin : ∀ c, sn closer (Inside c)).
  { induction c as [r|upd next IH]; constructor; intros q Hq; inversion Hq; subst; auto. }
  destruct p as [[c|f]|c|r]; [| |apply Hin|apply Hdone];
    constructor; intros q Hq; inversion Hq; subst; auto.
Qed.

(** One caller gets closer, the others stay. *)
Definition one_closer (l l' : list phase) : Prop :=
  ∃ i p q, l !! i = Some p ∧ closer p q ∧ l' = <[i := q]> l.

Lemma callers_end l : sn one_closer l.
Proof.
  induction l as [|p l IH].
  { constructor. intros l' (i & p & q & Hp & _). by rewrite lookup_nil in Hp. }
  revert l IH. induction (phase_ends p) as [p _ IHp].
  induction 1 as [l Hl IHl]. constructor.
  intros l' ([|i] & x & q & Hx & Hc & ->); simpl in *.
  - injection Hx as <-. by apply IHp; [|constructor].
  - apply IHl. by exists i, x, q.
Qed.

Lemma step_closer c c' : step c c' → one_closer (callers c) (callers c').
Proof.
  destruct 1 as [i ? ? ? E|i ? ? ? ? ? E|i ? ? ? ? E|i ? ? ? ? E];
    (eexists i, _, _; split; [exact E|]); (split; [constructor|done]).
Qed.

Lemma steps_end c : sn step c.
Proof.
  destruct c as [ts h s].
  assert (H : ∀ c, callers c = ts → sn step c); [|by apply H].
  clear h s. induction (callers_end ts) as [ts _ IH]. intros c <-.
  constructor. intros c' Hs. eapply IH; [|done]. by apply step_closer.
Qed.

(** ** Serializability *)

(** [g] and the statements of [c] do not see each other. *)
Fixpoint commutes (g : S → R * S) (c : code) : Prop :=
  match c with
  | Ret _ => True
  | Act upd next =>
      (∀ s, (g (upd s)).1 = (g s).1 ∧ (g (upd s)).2 = upd (g s).2 ∧ next (g s).2 = next s)
      ∧ ∀ s, commutes g (next s)
  end.

(** The section [c], entered in [s0], has come to [c'] with the state [s]. *)
Inductive partway (c : code) (s0 : S) : code → S → Prop :=
  | partway_enter : partway c s0 c s0
  | partway_act upd next s :
      partway c s0 (Act upd next) s → partway c s0 (next s) (upd s).

Lemma partway_run c s0 c' s : partway c s0 c' s → run c s0 = run c' s.
Proof. induction 1; auto. Qed.

Lemma partway_commutes g c s0 c' s :
  partway c s0 c' s → commutes g c →
  partway c (g s0).2 c' (g s).2 ∧ (g s0).1 = (g s).1 ∧ commutes g c'.
Proof.
  induction 1 as [|upd next s _ IH]; intros Hg; [by split_and!; [constructor|..]|].
  destruct (IH Hg) as (Hp & Hr & [Hc Hn]). destruct (Hc s) as (E1 & E2 & E3).
  rewrite E1, E2, <-E3. by split_and!; [constructor| |apply Hn].
Qed.

Definition independent (ts : list task) : Prop :=
  ∀ g c, Single g ∈ ts → Locked c ∈ ts → commutes g c.

(** What holds at every moment: the finished callers ran in the order [order],
    and the holder of the lock, if any, is part of the way from where they
    left the state. *)
Record at_moment (ts : list task) (s : S) (c : config) (order : list nat) (s0 : S) : Prop := {
  am_nodup : NoDup order;
  am_len : length (callers c) = length ts;
  am_turn : (in_turn ts order s).2 = s0;
  am_done : ∀ i r, callers c !! i = Some (Done r) ↔ (i, r) ∈ (in_turn ts order s).1;
  am_order : ∀ i, i ∈ order ↔ ∃ r, callers c !! i = Some (Done r);
  am_todo : ∀ i t, callers c !! i = Some (Todo t) → ts !! i = Some t;
  am_inside : ∀ i c', callers c !! i = Some (Inside c') →
    holder c = Some i ∧ ∃ c0, ts !! i = Some (Locked c0) ∧ partway c0 s0 c' (shared c);
  am_holder : ∀ i, holder c = Some i → ∃ c', callers c !! i = Some (Inside c');
  am_free : holder c = None → shared c = s0;
}.

Lemma at_start ts s : at_moment ts s (start ts s) [] s.
Proof.
  split; simpl; try done; [constructor|by rewrite length_fmap|..].
  - intros i r. rewrite list_lookup_fmap. destruct (ts !! i); set_solver.
  - intros i. rewrite list_lookup_fmap. destruct (ts !! i); set_solver.
  - intros i t. rewrite list_lookup_fmap. destruct (ts !! i); naive_solver.
  - intros i c. rewrite list_lookup_fmap. destruct (ts !! i); naive_solver.
Qed.

(** The caller [i] ends with what it would have done alone from [s0]. *)
Lemma at_finish ts s c order s0 i t r s1 h :
  at_moment ts s c order s0 →
  callers c !! i ≠ None → (∀ q, callers c !! i ≠ Some (Done q)) →
  ts !! i = Some t → (run_task t s0).1 = r →
  let s0' := (run_task t s0).2 in
  (∀ j c', j ≠ i → callers c !! j = Some (Inside c') →
     h = Some j ∧ ∃ c0, ts !! j = Some (Locked c0) ∧ partway c0 s0' c' s1) →
  (∀ j, h = Some j → j ≠ i ∧ holder c = Some j) →
  (h = None → s1 = s0') →
  at_moment ts s (Config (<[i := Done r]> (callers c)) h s1) (order ++ [i]) s0'.
Proof.
  intros [Hnd Hlen <- Hdone Hord Htodo Hin Hh Hf] Hi Hnew Ht <- s0' Hin' Hh' Hf'.
  assert (Hlt : i < length (callers c)) by by apply lookup_lt_is_Some, not_eq_None_Some.
  assert (Hfresh : i ∉ order) by (intros [q Hq]%Hord; by apply (Hnew q)).
  pose proof (in_turn_snoc ts order i t s Ht) as Hturn.
  split; simpl; [| | | | | |intros j c'|intros j Hj|done].
  - apply NoDup_app. split_and!; [done|set_solver|apply NoDup_singleton].
  - by rewrite length_insert.
  - by rewrite Hturn.
  - intros j q. rewrite Hturn. simpl. rewrite elem_of_app, list_elem_of_singleton, <-Hdone.
    destruct (decide (i = j)) as [<-|Hne].
    + rewrite list_lookup_insert_eq by done. split; [|by intros [?%Hnew|[= <-]]].
      intros [= <-]. by right.
    + rewrite list_lookup_insert_ne by done. split; [by left|]. intros [?|[= -> _]]; done.
  - intros j. rewrite elem_of_app, list_elem_of_singleton, Hord.
    destruct (decide (i = j)) as [<-|Hne].
    + rewrite list_lookup_insert_eq by done. split; [by eexists|by right].
    + rewrite list_lookup_insert_ne by done. split; [|by left]. by intros [?| ->].
  - intros j u. destruct (decide (i = j)) as [<-|Hne].
    + by rewrite list_lookup_insert_eq.
    + rewrite list_lookup_insert_ne by done. apply Htodo.
  - destruct (decide (i = j)) as [<-|Hne].
    + by rewrite list_lookup_insert_eq.
    + rewrite list_lookup_insert_ne by done. by apply Hin'.
  - destruct (Hh' j Hj) as [Hne Hold]. destruct (Hh j Hold) as [c' Hc'].
    exists c'. by rewrite list_lookup_insert_ne.
Qed.

(** The caller [i] takes the lock or a step under it. *)
Lemma at_inside ts s c order s0 i c0 c' s1 :
  at_moment ts s c order s0 →
  callers c !! i ≠ None → (∀ q, callers c !! i ≠ Some (Done q)) →
  (∀ j, holder c = Some j → j = i) →
  ts !! i = Some (Locked c0) → partway c0 s0 c' s1 →
  at_moment ts s (Config (<[i := Inside c']> (callers c)) (Some i) s1) order s0.
Proof.
  intros [Hnd Hlen Hs0 Hdone Hord Htodo Hin Hh Hf] Hi Hnew Hown Ht Hp.
  assert (Hlt : i < length (callers c)) by by apply lookup_lt_is_Some, not_eq_None_Some.
  assert (Hsame : ∀ j q, <[i := Inside c']> (callers c) !! j = Some (Done q)
                         ↔ callers c !! j = Some (Done q)).
  { intros j q. destruct (decide (i = j)) as [<-|Hne].
    - rewrite list_lookup_insert_eq by done. split; [done|by intros ?%Hnew].
    - by rewrite list_lookup_insert_ne. }
  split; simpl; [done|by rewrite length_insert|done| | |intros j u|intros j d| |done].
  - intros j q. by rewrite Hsame.
  - intros j. rewrite Hord. by setoid_rewrite Hsame.
  - destruct (decide (i = j)) as [<-|Hne].
    + by rewrite list_lookup_insert_eq.
    + rewrite list_lookup_insert_ne by done. apply Htodo.
  - destruct (decide (i = j)) as [<-|Hne].
    + rewrite list_lookup_insert_eq by done. intros [= <-]. eauto.
    + rewrite list_lookup_insert_ne by done. intros [Hj _]%Hin. by destruct Hne; rewrite (Hown j).
  - intros j [= <-]. exists c'. by rewrite list_lookup_insert_eq.
Qed.

Lemma at_step ts s c c' order s0 :
  independent ts → at_moment ts s c order s0 → step c c' →
  ∃ order' s0', at_moment ts s c' order' s0'.
Proof.
  intros Hind Ham Hs. inversion Hs as [i c0 l s1 E|i upd next l h s1 E|i r l h s1 E|i f l h s1 E];
    subst c c'; simpl in *.
  - exists order, s0. apply (at_inside _ _ _ _ _ i c0 c0 s1 Ham); simpl; rewrite ?E; try done.
    + by apply (am_todo _ _ _ _ _ Ham).
    + rewrite (am_free _ _ _ _ _ Ham eq_refl : s1 = s0). constructor.
  - destruct (am_inside _ _ _ _ _ Ham i _ E) as (Hh & c0 & Ht & Hp). simpl in *. subst h.
    exists order, s0. apply (at_inside _ _ _ _ _ i c0 (next s1) (upd s1) Ham); simpl; rewrite ?E;
      try done; [congruence|by constructor].
  - destruct (am_inside _ _ _ _ _ Ham i _ E) as (Hh & c0 & Ht & Hp). simpl in *. subst h.
    apply partway_run in Hp. simpl in Hp. eexists _, _.
    apply (at_finish _ _ _ _ _ i (Locked c0) r s1 None Ham); simpl; rewrite ?E, ?Hp; try done.
    intros j d Hne Hj. by destruct (am_inside _ _ _ _ _ Ham j d Hj) as [[= ->] _].
  - pose proof (am_todo _ _ _ _ _ Ham i _ E) as Ht. simpl in *.
    assert (Hlate : ∀ j d, l !! j = Some (Inside d) → h = Some j ∧ ∃ c0, ts !! j = Some (Locked c0)
      ∧ partway c0 (f s0).2 d (f s1).2 ∧ (f s0).1 = (f s1).1).
    { intros j d Hj. destruct (am_inside _ _ _ _ _ Ham j d Hj) as (Hh & c0 & Hc0 & Hp).
      split; [done|]. exists c0. destruct (partway_commutes f _ _ _ _ Hp) as (? & ? & _); [|done].
      apply Hind; by eapply list_elem_of_lookup_2. }
    eexists _, _. apply (at_finish _ _ _ _ _ i (Single f) _ _ h Ham); simpl; rewrite ?E; try done.
    + destruct h as [j|]; [|by rewrite (am_free _ _ _ _ _ Ham eq_refl : s1 = s0)].
      destruct (am_holder _ _ _ _ _ Ham j eq_refl) as [d Hd]. by destruct (Hlate j d Hd) as (_ & ? & _ & _ & ?).
    + intros j d _ Hj. destruct (Hlate j d Hj) as (? & c0 & ? & ? & _). eauto.
    + intros j ->. split; [|done]. intros ->.
      destruct (am_holder _ _ _ _ _ Ham i eq_refl) as [d Hd]. simpl in Hd. congruence.
    + intros ->. by rewrite (am_free _ _ _ _ _ Ham eq_refl : s1 = s0).
Qed.

Lemma at_steps ts s c :
  independent ts → rtc step (start ts s) c → ∃ order s0, at_moment ts s c order s0.
Proof.
  intros Hind. assert (H0 : ∃ order s0, at_moment ts s (start ts s) order s0)
    by (eexists _, _; apply at_start).
  revert H0. generalize (start ts s). induction 2 as [|c c1 c2 Hs _ IH]; [done|].
  destruct H0 as (order & s0 & Ham). apply IH. by eapply at_step.
Qed.

(** No interleaving gets stuck before every caller is done. *)
Lemma progress ts s c :
  independent ts → rtc step (start ts s) c → nf step c → Forall is_done (callers c).
Proof.
  intros Hind (order & s0 & Ham)%at_steps Hnf; [|done]. apply Forall_lookup. intros i p Hp.
  destruct c as [l h s1]. simpl in *. destruct p as [[c|f]|c|r]; [| | |by eexists].
  - destruct h as [j|]; [|destruct Hnf; eexists; by eapply step_acquire].
    destruct (am_holder _ _ _ _ _ Ham j eq_refl) as [[r|upd next] Hd]; destruct Hnf; eexists;
      [by eapply step_release|by eapply step_act].
  - destruct Hnf. eexists. by eapply step_single.
  - destruct c as [r|upd next]; destruct Hnf; eexists; [by eapply step_release|by eapply step_act].
Qed.

(** [P] holds of every state the section goes through from [s]. *)
Fixpoint along (P : S → Prop) (c : code) (s : S) : Prop :=
  P s ∧ match c with Ret _ => True | Act upd next => along P (next s) (upd s) end.

Lemma partway_along P c s0 c' s : partway c s0 c' s → along P c s0 → along P c' s.
Proof. induction 1 as [|upd next s _ IH]; intros Ha; [done|]. by apply IH. Qed.

Lemma along_now P c s : along P c s → P s.
Proof. destruct c; by intros []. Qed.

(** What every task keeps at each of its statements holds at every moment. *)
Lemma always (P : S → Prop) ts s c :
  independent ts → P s →
  (∀ c0 s, Locked c0 ∈ ts → P s → along P c0 s ∧ P (run c0 s).2) →
  (∀ f s, Single f ∈ ts → P s → P (f s).2) →
  rtc step (start ts s) c → P (shared c).
Proof.
  intros Hind Hs Hl Hf (order & s0 & Ham)%at_steps; [|done].
  assert (H0 : P s0).
  { rewrite <-(am_turn _ _ _ _ _ Ham). clear Ham. revert s Hs.
    induction order as [|i order IH]; intros s Hs; simpl; [done|].
    destruct (ts !! i) as [t|] eqn:Et; [|by apply IH]. apply list_elem_of_lookup_2 in Et.
    assert (Ht : P (run_task t s).2) by (destruct t; [by apply Hl|by apply Hf]).
    destruct (run_task t s) as [r s1]. specialize (IH s1 Ht). by destruct (in_turn ts order s1). }
  destruct (holder c) as [i|] eqn:Eh; [|by rewrite (am_free _ _ _ _ _ Ham Eh)].
  destruct (am_holder _ _ _ _ _ Ham i Eh) as [c' Hc].
  destruct (am_inside _ _ _ _ _ Ham i c' Hc) as (_ & c0 & Ht & Hp).
  apply list_elem_of_lookup_2 in Ht.
  eapply along_now, partway_along; [exact Hp|]. by apply Hl.
Qed.

(** When nothing is left to do, all is as if the callers had come one after
    another. *)
Lemma serializable ts s c :
  independent ts → rtc step (start ts s) c → nf step c →
  ∃ order rs, order ≡ₚ seq 0 (length ts) ∧ in_turn ts order s = (rs, shared c)
    ∧ ∀ i r, callers c !! i = Some (Done r) ↔ (i, r) ∈ rs.
Proof.
  intros Hind Hs Hnf. pose proof (progress _ _ _ Hind Hs Hnf) as Hall.
  rewrite Forall_lookup in Hall. apply at_steps in Hs as (order & s0 & Ham); [|done].
  exists order, (in_turn ts order s).1.
  assert (Hfree : holder c = None).
  { destruct (holder c) as [j|] eqn:Eh; [|done].
    destruct (am_holder _ _ _ _ _ Ham j Eh) as [d Hd]. by destruct (Hall _ _ Hd). }
  split_and!; [| |apply Ham].
  - apply NoDup_Permutation; [apply Ham|apply NoDup_seq|]. intros i.
    rewrite (am_order _ _ _ _ _ Ham), elem_of_seq, <-(am_len _ _ _ _ _ Ham). split.
    + intros [r Hr]. apply lookup_lt_Some in Hr. lia.
    + intros [_ [p Hp]%lookup_lt_is_Some]. destruct (Hall _ _ Hp) as [r ->]. eauto.
  - rewrite (am_free _ _ _ _ _ Ham Hfree), <-(am_turn _ _ _ _ _ Ham). by destruct (in_turn _ _ _).
Qed.
End machine.
Lemma locked_independent {S R} (cs : list (code (S := S) (R := R))) : independent (Locked <$> cs).
Proof. by intros g c (? & [=] & _)%list_elem_of_fmap. Qed.

Lemma all_done {S R} (ts : list (task (S := S) (R := R))) s c :
  independent ts → rtc step (start ts s) c → nf step c →
  ∀ i, i < length ts → ∃ r, callers c !! i = Some (Done r).
Proof.
  intros Hind Hs Hnf i Hi. pose proof (progress _ _ _ Hind Hs Hnf) as Hall.
  apply at_steps in Hs as (order & s0 & Ham); [|done]. rewrite Forall_lookup in Hall.
  rewrite <-(am_len _ _ _ _ _ Ham) in Hi. apply lookup_lt_is_Some in Hi as [p Hp].
  destruct (Hall _ _ Hp) as [r ->]. eauto.
Qed.

(** ** Running an interleaving

    [advance i] lets the caller [i] execute its next statement, if it may. *)
Definition advance {S R} (i : nat) (c : config (S := S) (R := R)) : option config :=
  match callers c !! i, holder c with
  | Some (Todo (Locked k)), None => Some (Config (<[i := Inside k]> (callers c)) (Some i) (shared c))
  | Some (Inside (Act upd next)), h =>
      Some (Config (<[i := Inside (next (shared c))]> (callers c)) h (upd (shared c)))
  | Some (Inside (Ret r)), _ => Some (Config (<[i := Done r]> (callers c)) None (shared c))
  | Some (Todo (Single f)), h =>
      Some (Config (<[i := Done (f (shared c)).1]> (callers c)) h (f (shared c)).2)
  | _, _ => None
  end.

Fixpoint interleave {S R} (sched : list nat) (c : config (S := S) (R := R)) : option config :=
  match sched with
  | [] => Some c
  | i :: sched => match advance i c with Some c' => interleave sched c' | None => None end
  end.

Lemma advance_step {S R} i (c c' : config (S := S) (R := R)) : advance i c = Some c' → step c c'.
Proof.
  destruct c as [ts h s]. unfold advance. simpl.
  destruct (ts !! i) as [[[k|f]|[r|upd next]|r]|] eqn:E; [destruct h|..]; try done;
    intros [= <-]; by econstructor.
Qed.

Lemma interleave_steps {S R} sched (c c' : config (S := S) (R := R)) :
  interleave sched c = Some c' → rtc step c c'.
Proof.
  revert c. induction sched as [|i sched IH]; intros c; simpl; [by intros [= ->]|].
  destruct (advance i c) as [c1|] eqn:E; [|done]. intros H.
  eapply rtc_l; [by eapply advance_step|by apply IH].
Qed.

Lemma done_nf {S R} (c : config (S := S) (R := R)) : Forall is_done (callers c) → nf step c.
Proof.
  rewrite Forall_lookup. intros Hall [c' Hs].
  destruct Hs as [i ? ? ? E|i ? ? ? ? ? E|i ? ? ? ? E|i ? ? ? ? E]; by destruct (Hall _ _ E).
Qed.

(** The callers as [order] names them. *)
Definition named {A} (l : list A) (order : list nat) : list A := omap (l !!.) order.

Lemma named_all {A} (l : list A) : named l (seq 0 (length l)) = l.
Proof.
  enough (H : ∀ pre : list A, omap ((pre ++ l)%list !!.) (seq (length pre) (length l)) = l)
    by exact (H []).
  induction l as [|x l IH]; intros pre; simpl; [done|].
  rewrite list_lookup_middle by done. f_equal. specialize (IH (pre ++ [x])%list).
  rewrite <-(assoc_L (++)%list), length_app in IH. simpl in IH. by rewrite Nat.add_1_r in IH.
Qed.

Lemma named_perm {A} (l : list A) order : order ≡ₚ seq 0 (length l) → named l order ≡ₚ l.
Proof.
  intros Ho. transitivity (named l (seq 0 (length l))); [by apply omap_Permutation|].
  by rewrite named_all.
Qed.

Lemma in_turn_state {S R} (ts : list (task (S := S) (R := R))) order s :
  (in_turn ts order s).2 = foldl (λ s t, (run_task t s).2) s (named ts order).
Proof.
  revert s. induction order as [|i order IH]; intros s; simpl; [done|].
  destruct (ts !! i) as [t|]; [|apply IH]. simpl. rewrite <-IH.
  destruct (run_task t s) as [r s1]. simpl. by destruct (in_turn ts order s1).
Qed.

Lemma named_fmap {A B} (f : A → B) (l : list A) order : named (f <$> l) order = f <$> named l order.
Proof.
  unfold named. induction order as [|i order IH]; simpl; [done|].
  rewrite list_lookup_fmap. destruct (l !! i); simpl; [f_equal|]; exact IH.
Qed.

(** A result in turn is the result of the caller, from a state in between. *)
Lemma in_turn_result {S R} (ts : list (task (S := S) (R := R))) order s i r :
  (i, r) ∈ (in_turn ts order s).1 →
  ∃ before after t s1, order = (before ++ i :: after)%list ∧ ts !! i = Some t
    ∧ (in_turn ts before s).2 = s1 ∧ r = (run_task t s1).1
    ∧ (in_turn ts order s).2 = (in_turn ts after (run_task t s1).2).2.
Proof.
  revert s. induction order as [|j order IH]; intros s; simpl; [set_solver|].
  destruct (ts !! j) as [t|] eqn:Et.
  - destruct (run_task t s) as [r1 s1] eqn:Er. destruct (in_turn ts order s1) as [rs s2] eqn:Eo.
    simpl. intros [[= -> ->]|Hin]%elem_of_cons.
    + exists [], order, t, s. rewrite Er. simpl. by rewrite Eo.
    + specialize (IH s1). rewrite Eo in IH.
      destruct (IH Hin) as (b & a & u & s3 & -> & Hu & <- & Hr & Hs).
      exists (j :: b), a, u, (in_turn ts b s1).2. simpl in *. rewrite Et, Er.
      by destruct (in_turn ts b s1).
  - intros Hin. destruct (IH s Hin) as (b & a & u & s3 & -> & Hu & <- & Hr & Hs).
    exists (j :: b), a, u, (in_turn ts b s).2. simpl. by rewrite Et.
Qed.

Arguments code : clear implicits.
Arguments task : clear implicits.
Arguments config : clear implicits.
Arguments phase : clear implicits.

(** ** Writers of the event log

    The transaction of [PostgresEventStore.record_event], a statement at a
    time: the advisory lock is taken first and given up at the end of the
    transaction, after the commit.  The row is out of sight until then. *)
Module LogWriters.
Import PostgresEventStore.

Section writers.
Context `{PgServer}.

Definition commit_row (r : row) (t : tables) : tables :=
  Tables (event_log t ++ [r])%list (event_deadletter t) (schemas t).

Definition record_event_steps (e : event) : code tables (result unit) :=
  Act id (λ t, let prev := last_hash t in
  Act id (λ t,
    match as_uuid (VStr (ev_id e)), jsonb (ev_payload e) with
    | None, _ => Ret (raise_r DatabaseError "null value in column id")
    | _, None => Ret (raise_r DatabaseError "payload is not JSONB")
    | Some i, Some p =>
        if decide (i ∈ row_id <$> event_log t) then Ret (Ok tt) else
        if decide ((ev_subject e, ev_schema_version e) ∈ schemas t) then
          let r := Row i (ev_subject e) (ev_schema_version e) (ev_source e)
             (as_uuid (opt_str (ev_correlation_id e))) (ev_tenant_id e) p
             (Some (chain_hash prev (chain_envelope e)))
             (Z.of_nat (S (length (event_log t)))) (pg_now (length (event_log t))) in
          Act (commit_row r) (λ _, Ret (Ok tt))
        else Ret (raise_r DatabaseError "foreign key violation on (subject, schema_version)")
    end)).

(** Nobody interferes: the transaction as one step. *)
Lemma record_event_alone e t : run (record_event_steps e) t = pg_record e t.
Proof.
  unfold pg_record, transaction. cbn. destruct (as_uuid _) as [i|]; [|done].
  destruct (jsonb _); [|done]. by repeat case_decide.
Qed.

(** An event to record, or a dead letter. *)
Inductive job : Type := Log (e : event) | Dead (env : pydict).

Definition task_of (j : job) : task tables (result unit) :=
  match j with Log e => Locked (record_event_steps e) | Dead env => Single (pg_record_dead env) end.

Definition do_job (j : job) : M tables unit :=
  match j with Log e => pg_record e | Dead env => pg_record_dead env end.

Lemma run_task_of j t : run_task (task_of j) t = do_job j t.
Proof. destruct j; [apply record_event_alone|done]. Qed.

Lemma foldl_jobs jobs t :
  foldl (λ t u, (run_task u t).2) t (task_of <$> jobs) = foldl (λ t j, (do_job j t).2) t jobs.
Proof. revert t. induction jobs as [|j l IH]; intros t; simpl; [done|]. by rewrite run_task_of, IH. Qed.

(** The two tables do not meet. *)
Lemma dead_commutes env e : commutes (pg_record_dead env) (record_event_steps e).
Proof.
  assert (Hd : ∀ t, event_log (pg_record_dead env t).2 = event_log t
                    ∧ schemas (pg_record_dead env t).2 = schemas t).
  { intros t. unfold pg_record_dead, transaction. destruct (dead_row_of env); [case_decide|]; done. }
  simpl. split; [|intros t; split].
  - intros t. unfold last_hash. by destruct (Hd t) as [-> _].
  - intros u. by destruct (Hd u) as [-> ->].
  - intros u. destruct (as_uuid _) as [i|]; [|done]. destruct (jsonb _); [|done].
    repeat case_decide; simpl; try done. split; [|done]. intros w.
    unfold pg_record_dead, transaction, commit_row. destruct (dead_row_of env); [|done].
    simpl. by case_decide.
Qed.

Lemma jobs_independent jobs : independent (task_of <$> jobs).
Proof.
  intros g c ([e|env] & [= ->] & _)%list_elem_of_fmap ([e'|env'] & [= ->] & _)%list_elem_of_fmap.
  apply dead_commutes.
Qed.

(** The chain is whole at each statement of the transaction, for the row
    appears at once. *)
Lemma record_along `{!PgServerLaws} e t :
  pg_accepts e → pg_ok t → along pg_ok (record_event_steps e) t.
Proof.
  intros He Ht. assert (Ht' : pg_ok (pg_record e t).2)
    by (destruct (pg_record e t) as [r t'] eqn:E; by eapply pg_record_ok).
  rewrite <-record_event_alone in Ht'. revert Ht'. simpl.
  destruct (as_uuid _) as [i|]; [|done]. destruct (jsonb _); [|done].
  repeat case_decide; simpl; auto.
Qed.

Definition accepts_job (j : job) : Prop := match j with Log e => pg_accepts e | Dead _ => True end.

Lemma do_job_has `{!PgServerLaws} j t i : pg_has t i → pg_has (do_job j t).2 i.
Proof.
  destruct (do_job j t) as [r t'] eqn:E. destruct j.
  - exact (proj1 (proj2 (record_event_keeps (H := pg_store) t e r t' E)) i).
  - exact (proj1 (proj2 (proj2 (proj2 (record_deadletter_keeps (H := pg_store) t env r t' E)))) i).
Qed.

Lemma in_turn_has `{!PgServerLaws} jobs order t i :
  pg_has t i → pg_has (in_turn (task_of <$> jobs) order t).2 i.
Proof.
  rewrite in_turn_state, named_fmap. revert t. induction (named jobs order) as [|j l IH];
    intros t Hi; simpl; [done|]. apply IH. rewrite run_task_of. by apply do_job_has.
Qed.

(** C4: concurrent writers cannot fork the chain.  Any number of transactions
    record dead letters and events that the columns give back as they were hashed
    ([pg_accepts]) in the same database at the same time, their statements
    interleaved in any way.  At every moment the audit of what is
    committed finds an unbroken chain; the transactions all come to an end; and
    then the tables are those of the same calls made one after another, with
    each event whose caller returned on the log. *)
Theorem concurrent_writers_keep_chain `{!PgServerLaws} jobs t c :
  Forall accepts_job jobs → pg_ok t → rtc step (start (task_of <$> jobs) t) c →
  main_verify (chained (shared c)) = Ok 0%Z
  ∧ sn step c
  ∧ (nf step c →
     (∃ jobs', jobs' ≡ₚ jobs ∧ shared c = foldl (λ t j, (do_job j t).2) t jobs')
     ∧ ∀ i e, jobs !! i = Some (Log e) → callers c !! i = Some (Done (Ok tt)) →
         pg_has (shared c) (ev_id e)).
Proof.
  intros Hj Ht Hc. split_and!; [|apply steps_end|intros Hnf].
  - rewrite main_verify_chained. assert (pg_ok (shared c)) as ->; [|done].
    rewrite Forall_forall in Hj. apply (always pg_ok _ _ _ (jobs_independent jobs) Ht) in Hc; [done| |].
    + intros c0 u ([e|env] & [= ->] & Hin)%list_elem_of_fmap Hu. rewrite record_event_alone.
      split; [by apply record_along; [apply (Hj _ Hin)|]|].
      destruct (pg_record e u) as [r u'] eqn:E. eapply pg_record_ok; [apply (Hj _ Hin)|done|done].
    + intros f u ([e|env] & [= ->] & Hin)%list_elem_of_fmap Hu.
      destruct (pg_record_dead env u) as [r u'] eqn:E.
      exact (proj1 (record_deadletter_keeps (H := pg_store) u env r u' E) Hu).
  - destruct (serializable _ _ _ (jobs_independent jobs) Hc Hnf) as (order & rs & Ho & Hrun & Hres).
    pose proof (f_equal snd Hrun) as Hstate. simpl in Hstate. split.
    + exists (named jobs order). rewrite length_fmap in Ho. split; [by apply named_perm|].
      by rewrite <-Hstate, in_turn_state, named_fmap, foldl_jobs.
    + intros i e Hi Hd. apply Hres in Hd.
      pose proof (f_equal fst Hrun) as Hrs. simpl in Hrs. rewrite <-Hrs in Hd.
      apply in_turn_result in Hd as (b & a & u & s1 & _ & Hu & _ & Hr & Hs).
      rewrite <-Hstate, Hs. apply in_turn_has. rewrite list_lookup_fmap, Hi in Hu.
      injection Hu as <-. change (run_task _) with (run (record_event_steps e)) in Hr |- *.
      rewrite record_event_alone in Hr |- *.
      destruct (pg_record e s1) as [r s2] eqn:E. simpl in Hr. subst r.
      exact (record_event_has (H := pg_store) (EventStoreLaws := pg_laws) s1 e s2 E).
Qed.
End writers.
End LogWriters.

(** ** Posting the same entry from several threads

    [InMemoryLedgerStore.insert_if_absent] under its lock: the lookup, then the
    insertion. *)
Module EntryWriters.
Import InMemoryLedgerStore.

Definition insert_if_absent_steps (e : journal_entry) : code store (result bool) :=
  Act id (λ s,
    match entries s !! entry_id e with
    | Some _ => Ret (Ok false)
    | None => Act (λ s, Store (<[entry_id e := e]> (entries s))) (λ _, Ret (Ok true))
    end).

Lemma insert_alone e s : run (insert_if_absent_steps e) s = mem_insert e s.
Proof. unfold mem_insert. simpl. by destruct (entries s !! entry_id e). Qed.

Definition posts (es : list journal_entry) : list (task store (result bool)) :=
  Locked <$> (insert_if_absent_steps <$> es).

Lemma lookup_posts es k : posts es !! k = Locked ∘ insert_if_absent_steps <$> es !! k.
Proof. unfold posts. rewrite !list_lookup_fmap. by destruct (es !! k). Qed.

(** An entry on the books stays, and every further post of its id is refused. *)
Lemma posted_stays es order s i e0 :
  entries s !! i = Some e0 →
  entries (in_turn (posts es) order s).2 !! i = Some e0
  ∧ ∀ k r e, (k, r) ∈ (in_turn (posts es) order s).1 → es !! k = Some e → entry_id e = i →
      r = Ok false.
Proof.
  revert s. induction order as [|x order IH]; intros s Hi; simpl; [set_solver|].
  rewrite lookup_posts. destruct (es !! x) as [ex|] eqn:Ex; [|by apply IH].
  cbn [fmap option_fmap option_map compose run_task]. rewrite insert_alone. unfold mem_insert.
  assert (Hnext : ∀ r s1, entries s1 !! i = Some e0 → (entry_id ex = i → r = Ok false) →
    let '(rs, s2) := in_turn (posts es) order s1 in
    entries s2 !! i = Some e0 ∧ ∀ k q e, (k, q) ∈ (x, r) :: rs → es !! k = Some e →
      entry_id e = i → q = Ok false).
  { intros r s1 Hs1 Hr. destruct (IH s1 Hs1) as [H1 H2].
    destruct (in_turn (posts es) order s1) as [rs s2]. split; [done|].
    intros k q e [[= -> ->]|Hin]%elem_of_cons; [|by apply H2]. rewrite Ex. intros [= <-]. done. }
  destruct (entries s !! entry_id ex) as [e1|] eqn:Ee.
  - specialize (Hnext (Ok false) s Hi). by destruct (in_turn _ _ _); apply Hnext.
  - specialize (Hnext (Ok true) (Store (<[entry_id ex := ex]> (entries s)))).
    destruct (in_turn _ _ _). apply Hnext; simpl.
    + rewrite lookup_insert_ne; congruence.
    + congruence.
Qed.

Lemma in_turn_named {S R} (ts : list (task S R)) order s k r :
  (k, r) ∈ (in_turn ts order s).1 → k ∈ order.
Proof. intros (b & a & _ & _ & -> & _)%in_turn_result. set_solver. Qed.

(** The first post of an id that is not on the books wins. *)
Lemma first_wins es order s i :
  NoDup order → entries s !! i = None →
  (∃ k e, k ∈ order ∧ es !! k = Some e ∧ entry_id e = i) →
  ∃ j e, es !! j = Some e ∧ entry_id e = i
    ∧ entries (in_turn (posts es) order s).2 !! i = Some e
    ∧ ∀ k r e', (k, r) ∈ (in_turn (posts es) order s).1 → es !! k = Some e' → entry_id e' = i →
        r = Ok (bool_decide (k = j)).
Proof.
  intros Hnd. revert s. induction Hnd as [|x order Hx Hnd IH]; intros s Hi Hex; simpl;
    [set_solver|]. rewrite lookup_posts. destruct (es !! x) as [ex|] eqn:Ex.
  2: { apply IH; [done|]. destruct Hex as (k & e & [->|Hk]%elem_of_cons & Hek & He); [congruence|eauto]. }
  cbn [fmap option_fmap option_map compose run_task]. rewrite insert_alone. unfold mem_insert.
  destruct (decide (entry_id ex = i)) as [<-|Hne].
  - rewrite Hi. set (s1 := Store _). exists x, ex.
    destruct (posted_stays es order s1 (entry_id ex) ex) as [H1 H2]; [apply lookup_insert_eq|].
    pose proof (in_turn_named (posts es) order s1) as Hn.
    destruct (in_turn (posts es) order s1) as [rs s2]. split_and!; [done|done|done|].
    intros k r e' [[= -> ->]|Hin]%elem_of_cons He' Hid; [by rewrite bool_decide_eq_true_2|].
    rewrite bool_decide_eq_false_2; [by eapply H2|]. intros ->. by apply Hx, (Hn _ r).
  - set (o := match entries s !! entry_id ex with Some _ => _ | None => _ end).
    assert (Ho : entries o.2 !! i = None).
    { unfold o. destruct (entries s !! entry_id ex); [done|]. simpl. by rewrite lookup_insert_ne. }
    destruct o as [r1 s1]. simpl in Ho. destruct (IH s1 Ho) as (j & e & Hj & He & Hs & Hr).
    { destruct Hex as (k & e & [->|Hk]%elem_of_cons & Hek & He); [congruence|eauto]. }
    exists j, e. destruct (in_turn (posts es) order s1) as [rs s2]. split_and!; [done..|].
    intros k r e' [[= -> ->]|Hin]%elem_of_cons He' Hid; [congruence|by eapply Hr].
Qed.

(** A concurrent double post has exactly one winner.  Threads insert entries
    in the same books at the same time, their statements interleaved in any way.
    When they are all done, each entry id that was free is booked by exactly one
    of the threads posting it, which alone gets True, and the books hold its
    entry; an id already booked keeps its entry and everyone gets False. *)
Theorem double_post_one_winner es s c i :
  rtc step (start (posts es) s) c → nf step c →
  match entries s !! i with
  | Some e0 =>
      entries (shared c) !! i = Some e0
      ∧ ∀ k e, es !! k = Some e → entry_id e = i → callers c !! k = Some (Done (Ok false))
  | None => (∃ e, e ∈ es ∧ entry_id e = i) →
      ∃ j e, es !! j = Some e ∧ entry_id e = i ∧ entries (shared c) !! i = Some e
        ∧ ∀ k e', es !! k = Some e' → entry_id e' = i →
            callers c !! k = Some (Done (Ok (bool_decide (k = j))))
  end.
Proof.
  intros Hs Hnf. pose proof (locked_independent (insert_if_absent_steps <$> es)) as Hind.
  destruct (serializable _ _ _ Hind Hs Hnf) as (order & rs & Ho & Hrun & Hres).
  fold (posts es) in Hrun. unfold posts in Ho. rewrite !length_fmap in Ho.
  assert (Hdone : ∀ k e, es !! k = Some e → ∃ r, (k, r) ∈ rs ∧ callers c !! k = Some (Done r)).
  { intros k e Hk. destruct (all_done _ _ _ Hind Hs Hnf k) as [r Hr].
    - rewrite !length_fmap. by eapply lookup_lt_Some.
    - exists r. by rewrite <-Hres. }
  destruct (entries s !! i) as [e0|] eqn:Ei.
  - destruct (posted_stays es order s i e0 Ei) as [H1 H2]. rewrite Hrun in H1, H2.
    split; [done|]. intros k e Hk Hid. destruct (Hdone k e Hk) as (r & Hr & ->).
    by rewrite (H2 k r e Hr Hk Hid).
  - intros (e & Hin & Hid). apply list_elem_of_lookup in Hin as [k Hk].
    destruct (first_wins es order s i) as (j & e' & Hj & He & Hb & Hr);
      [rewrite Ho; apply NoDup_seq|done| |].
    + exists k, e. split; [|done]. rewrite Ho, elem_of_seq. apply lookup_lt_Some in Hk. lia.
    + rewrite Hrun in Hb, Hr. exists j, e'. split_and!; [done..|].
      intros q eq Hq Hidq. destruct (Hdone q eq Hq) as (r & Hin & ->). by rewrite (Hr q r eq Hin Hq Hidq).
Qed.
End EntryWriters.

(** ** Counting from several threads

    [Metrics.inc] under its lock.  [self._counters[key] += value] reads, adds
    and writes back; a [defaultdict] puts in the missing key as it is read. *)
Module Counting.

(** [d[k] = v]. *)
Fixpoint mset (k : series) (v : float) (m : metrics) : metrics :=
  match m with
  | [] => [(k, v)]
  | (k', w) :: m => if decide (k = k') then (k', v) :: m else (k', w) :: mset k v m
  end.

Definition mread (k : series) (m : metrics) : metrics :=
  match mget k m with Some _ => m | None => mset k fzero m end.

Record increment : Type := Increment { i_name : string; i_value : float; i_labels : labels }.

Definition i_key (i : increment) : series := series_key (i_name i) (i_labels i).

Definition inc_steps (i : increment) : code metrics unit :=
  Act (mread (i_key i)) (λ m, let w := default fzero (mget (i_key i) m) in
  Act (mset (i_key i) (fadd w (i_value i))) (λ _, Ret tt)).

Lemma mset_present k v w m : mget k m = Some w → mset k (fadd w v) m = madd k v m.
Proof.
  induction m as [|[k' w'] m IH]; simpl; [done|]. case_decide; [by intros [= ->]|].
  intros E. by rewrite IH.
Qed.

Lemma mset_absent k v m : mget k m = None → mset k (fadd fzero v) (mset k fzero m) = madd k v m.
Proof.
  induction m as [|[k' w'] m IH]; simpl; [by rewrite decide_True|].
  case_decide as Hk; [done|]. intros E. simpl. rewrite decide_False by done. f_equal. exact (IH E).
Qed.

Lemma mset_mread k v m : mset k (fadd (default fzero (mget k m)) v) (mread k m) = madd k v m.
Proof. unfold mread. destruct (mget k m) eqn:E; [by apply mset_present|by apply mset_absent]. Qed.

Lemma inc_alone i m : run (inc_steps i) m = (tt, inc (i_name i) (i_value i) (i_labels i) m).
Proof. simpl. by rewrite mset_mread. Qed.

Definition incs (l : list increment) : list (task metrics unit) := Locked <$> (inc_steps <$> l).

(** The amounts added to one series. *)
Definition amounts (k : series) (l : list increment) : list float :=
  i_value <$> filter (λ i, i_key i = k) l.

Lemma value_incs name ls l m :
  value name ls (foldl (λ m t, (run_task t m).2) m (incs l))
  = foldl fadd (value name ls m) (amounts (series_key name ls) l).
Proof.
  unfold incs, amounts. revert m. induction l as [|i l IH]; intros m; [done|].
  cbn [fmap list_fmap foldl run_task]. rewrite IH, inc_alone, filter_cons. cbn [snd].
  rewrite value_inc. unfold i_key. case_decide as Hk; [|done]. simpl. f_equal.
  unfold value. by rewrite Hk.
Qed.

(** No increment is lost.  Threads increment counters of the same
    registry at the same time, the reads and writes interleaved in any way.
    When they are all done, each series has grown by all the amounts added to
    it, in some order. *)
Theorem no_increment_lost l m c name ls :
  rtc step (start (incs l) m) c → nf step c →
  ∃ l', l' ≡ₚ l
    ∧ value name ls (shared c) = foldl fadd (value name ls m) (amounts (series_key name ls) l').
Proof.
  intros Hs Hnf.
  destruct (serializable _ _ _ (locked_independent (inc_steps <$> l)) Hs Hnf)
    as (order & rs & Ho & Hrun & _).
  rewrite !length_fmap in Ho. exists (named l order). split; [by apply named_perm|].
  pose proof (f_equal snd Hrun) as Hst. simpl in Hst.
  rewrite <-Hst, in_turn_state. fold (incs l). unfold incs at 1. rewrite !named_fmap.
  apply (value_incs name ls (named l order)).
Qed.
End Counting.

(** ** Examples *)
Section witnesses.
Import PostgresEventStore LogWriters.
#[local] Existing Instance demo_server.
#[local] Existing Instance demo_server_laws.

(** Two writers and a dead letter, which commits while the first writer has
    the lock. *)
Definition uuid1 : string := "00000000-0000-4000-8000-00000000000b".
Definition bad_letter : pydict :=
  [("id", VStr uuid1); ("subject", VStr "ledger.entry"); ("source", VStr "forge");
   ("error", VStr "broken")].
Definition two_writers : list job :=
  [Log (posted_event uuid0); Dead bad_letter; Log (posted_event uuid1)].
Definition write_order : list nat := [2; 2; 1; 2; 2; 2; 0; 0; 0; 0; 0].

Lemma posted_event1_accepted : pg_accepts (posted_event uuid1).
Proof.
  split; [|by split; [apply ascii_val_wf|]].
  exists [0; 0; 0; 0; 0; 0; 64; 0; 128; 0; 0; 0; 0; 0; 0; 11]%N. split; vm_compute; reflexivity.
Qed.

Lemma two_writers_accepted : Forall accepts_job two_writers.
Proof.
  apply Forall_cons. split; [exact posted_event_accepted|]. apply Forall_cons. split; [done|].
  apply Forall_cons. split; [exact posted_event1_accepted|by apply Forall_nil].
Qed.

Lemma concurrent_writers_keep_chain_witness :
  match interleave write_order (start (task_of <$> two_writers) tables0) with
  | None => False
  | Some c => main_verify (chained (shared c)) = Ok 0%Z
      ∧ pg_has (shared c) uuid0 ∧ pg_has (shared c) uuid1
      ∧ length (event_deadletter (shared c)) = 1%nat
  end.
Proof.
  assert (Hdone : match interleave write_order (start (task_of <$> two_writers) tables0) with
    | None => False
    | Some c => callers c = [Done (Ok tt); Done (Ok tt); Done (Ok tt)]
        ∧ length (event_deadletter (shared c)) = 1%nat end) by (vm_compute; done).
  destruct (interleave _ _) as [c|] eqn:E; [|done]. apply interleave_steps in E.
  destruct (concurrent_writers_keep_chain two_writers tables0 c two_writers_accepted eq_refl E)
    as (Hv & _ & Hend).
  destruct Hdone as [Hc Hd]. destruct Hend as [_ Hhas].
  { apply done_nf. rewrite Hc. repeat constructor; eexists; done. }
  split; [exact Hv|]. split; [|split; [|exact Hd]].
  - by apply (Hhas 0%nat (posted_event uuid0)); [|rewrite Hc].
  - by apply (Hhas 2%nat (posted_event uuid1)); [|rewrite Hc].
Defined.
End witnesses.

Section more_witnesses.
Import EntryWriters Counting.

Definition double_post : list journal_entry := [entry_for "acme"; entry_for "acme"].

Lemma double_post_one_winner_witness :
  match interleave [1; 1; 1; 1; 0; 0; 0] (start (posts double_post) books0) with
  | None => False
  | Some c => ∃ j e, double_post !! j = Some e
      ∧ InMemoryLedgerStore.entries (shared c) !! entry_id (entry_for "acme") = Some e
      ∧ callers c !! 0 = Some (Done (Ok (bool_decide (0 = j))))
      ∧ callers c !! 1 = Some (Done (Ok (bool_decide (1 = j))))
  end.
Proof.
  assert (Hdone : match interleave [1; 1; 1; 1; 0; 0; 0] (start (posts double_post) books0) with
    | None => False | Some c => callers c = [Done (Ok false); Done (Ok true)] end)
    by (vm_compute; done).
  destruct (interleave _ _) as [c|] eqn:E; [|done]. apply interleave_steps in E.
  assert (Hnf : nf step c) by (apply done_nf; rewrite Hdone; repeat constructor; eexists; done).
  destruct (double_post_one_winner double_post books0 c (entry_id (entry_for "acme")) E Hnf)
    as (j & e & Hj & _ & He & Hall); [exists (entry_for "acme"); by split; [left|]|].
  exists j, e. split; [exact Hj|]. split; [exact He|].
  split; by apply (Hall _ (entry_for "acme")).
Defined.

Definition emitted_by (agent : string) : increment := Increment EVENTS_EMITTED one [("agent", agent)].

Lemma no_increment_lost_witness :
  match interleave [0; 0; 0; 0; 1; 1; 1; 1]
          (start (incs [emitted_by "forge"; emitted_by "forge"]) []) with
  | None => False
  | Some c => value EVENTS_EMITTED [("agent", "forge")] (shared c) = fadd (fadd fzero one) one
  end.
Proof.
  assert (Hdone : match interleave [0; 0; 0; 0; 1; 1; 1; 1]
      (start (incs [emitted_by "forge"; emitted_by "forge"]) []) with
    | None => False | Some c => callers c = [Done tt; Done tt] end) by (vm_compute; done).
  destruct (interleave _ _) as [c|] eqn:E; [|done]. apply interleave_steps in E.
  assert (Hnf : nf step c) by (apply done_nf; rewrite Hdone; repeat constructor; eexists; done).
  destruct (no_increment_lost _ _ c EVENTS_EMITTED [("agent", "forge")] E Hnf) as (l' & Hp & ->).
  assert (l' = [emitted_by "forge"; emitted_by "forge"]) as ->; [|vm_compute; done].
  by apply Permutation_sym, Permutation_length_2_inv in Hp as [->| ->].
Defined.
End more_witnesses.
