(* ===== verification/Transactions.v ===== *)
(** * Posting to PostgreSQL from several workers

    The transaction of [PostgresLedgerStore.insert_if_absent] taken apart into
    its statements, for any number of workers on one database at READ COMMITTED.
    A worker's rows are its own until it commits.  [ON CONFLICT (entry_id) DO
    NOTHING] writes no row when a committed one has the id, and waits while
    another transaction holds an uncommitted row with it; a statement that
    raises, and a connection that breaks, roll the transaction back; but when the
    connection breaks while COMMIT is under way, the commit may have gone through
    and the worker does not hear of it.

    The theorems: such workers never get stuck waiting for each other and all
    come to an end; the committed tables and the answers are those of the same
    calls made one after another ([PostgresLedgerStore.pg_insert] as one step),
    an unheard commit counting as a call that returned True; and an entry id is
    posted by at most one of them, with all its lines.

    The committed rows of [journal_line] are kept in the order of the commits.
    PostgreSQL numbers them as they are inserted; the one query that orders them
    asks for the lines of a single entry, which come from one transaction. *)

From S2P Require Import Prelude PyStr PyFloat PyVal Json JsonText JsonFacts Digest Metrics HashChain Contract EventStore Ledger Concurrent.
Import PostgresLedgerStore.
Local Open Scope string_scope.

Section server.
Context `{PgServer}.

(** Where a worker is: before the INSERT of the head; inside, with the rows it
    has written and the lines still to insert; returned or raised; or its
    connection broken, its transaction committed or not. *)
Inductive worker : Type :=
  | Starting (e : journal_entry)
  | Writing (e : journal_entry) (b : list N) (mine : tables) (rest : list journal_line)
  | Finished (r : result bool)
  | Lost (landed : bool).

Record server : Type := Server { workers : list worker; committed : tables }.

Definition no_rows : tables := Tables [] [].

(** What a commit makes visible. *)
Definition add_rows (t mine : tables) : tables :=
  Tables (journal_entries t ++ journal_entries mine)%list (journal_lines t ++ journal_lines mine)%list.

(** Another transaction has an uncommitted head with the id. *)
Definition holds (b : list N) (w : worker) : Prop :=
  match w with Writing _ b' _ _ => b' = b | _ => False end.

Definition is_free (b : list N) (ws : list worker) : Prop := Forall (λ w, ¬ holds b w) ws.

(** One statement of one worker, on the committed tables. *)
Inductive statement (ws : list worker) : worker → tables → worker → tables → Prop :=
  | bad_id e t :
      pg_uuid (entry_id e) = None →
      statement ws (Starting e) t
        (Finished (raise_r DatabaseError "invalid input syntax for type uuid")) t
  | head_refused e b x t :
      pg_uuid (entry_id e) = Some b → insert_head b e t = (Err x, t) →
      statement ws (Starting e) t (Finished (Err x)) t
  | head_exists e b t :
      pg_uuid (entry_id e) = Some b → insert_head b e t = (Ok false, t) →
      statement ws (Starting e) t (Finished (Ok false)) t
  | head_written e b t t' :
      pg_uuid (entry_id e) = Some b → insert_head b e t = (Ok true, t') → is_free b ws →
      statement ws (Starting e) t (Writing e b (insert_head b e no_rows).2 (lines e)) t
  | line_written e b mine mine' l rest t :
      insert_line b e l mine = (Ok tt, mine') →
      statement ws (Writing e b mine (l :: rest)) t (Writing e b mine' rest) t
  | line_refused e b mine mine' l rest x t :
      insert_line b e l mine = (Err x, mine') →
      statement ws (Writing e b mine (l :: rest)) t (Finished (Err x)) t
  | commit e b mine t :
      statement ws (Writing e b mine []) t (Finished (Ok true)) (add_rows t mine).

(** A worker that is done, one way or the other. *)
Definition ended (w : worker) : Prop :=
  match w with Finished _ | Lost _ => True | _ => False end.

(** One step of the server: a statement of a worker, or a connection that
    breaks, at any time with the rows rolled back, and at the COMMIT also with
    the rows committed. *)
Inductive step : server → server → Prop :=
  | step_statement i w w' ws t t' :
      ws !! i = Some w → statement ws w t w' t' →
      step (Server ws t) (Server (<[i := w']> ws) t')
  | step_lost i w ws t :
      ws !! i = Some w → ¬ ended w →
      step (Server ws t) (Server (<[i := Lost false]> ws) t)
  | step_lost_in_commit i e b mine ws t :
      ws !! i = Some (Writing e b mine []) →
      step (Server ws t) (Server (<[i := Lost true]> ws) (add_rows t mine)).

(** What has become of a call, if its transaction is over: the answer given, or
    the commit nobody was told of. *)
Definition outcome (w : worker) : option (result bool) :=
  match w with
  | Finished r => Some r
  | Lost true => Some (Ok true)
  | _ => None
  end.

Definition settled (s : server) (k : nat) (r : result bool) : Prop :=
  workers s !! k ≫= outcome = Some r.

Definition start (es : list journal_entry) (t : tables) : server := Server (Starting <$> es) t.

(** The calls as single steps. *)
Definition calls (es : list journal_entry) : list (task tables (result bool)) :=
  (λ e, Single (pg_insert e)) <$> es.

(** ** One transaction *)

Lemma add_no_rows t : add_rows t no_rows = t.
Proof. destruct t. unfold add_rows. simpl. by rewrite !app_nil_r. Qed.

(** The head INSERT looks at the committed ids only to see whether its own is
    there, and adds one row. *)
Lemma insert_head_new b e t t' :
  insert_head b e t = (Ok true, t') →
  b ∉ h_entry_id <$> journal_entries t
  ∧ h_entry_id <$> journal_entries (insert_head b e no_rows).2 = [b]
  ∧ ∀ u, b ∉ h_entry_id <$> journal_entries u →
      insert_head b e u = (Ok true, add_rows u (insert_head b e no_rows).2).
Proof.
  unfold insert_head. destruct (char3 _) as [c|]; [|done]. destruct (positive_bigint _); [|done].
  case_decide as Hb; [done|]. intros _. split; [done|].
  rewrite (decide_False (P := b ∈ h_entry_id <$> journal_entries no_rows)) by (simpl; set_solver).
  split; [done|]. intros u Hu. rewrite decide_False by done. unfold add_rows. simpl.
  by rewrite app_nil_r.
Qed.

Lemma insert_lines_add b e ls t mine :
  for_each ls (insert_line b e) (add_rows t mine)
  = ((for_each ls (insert_line b e) mine).1, add_rows t (for_each ls (insert_line b e) mine).2).
Proof.
  revert mine. induction ls as [|l ls IH]; intros mine; [done|]. cbn [for_each].
  unfold mbind, M_bind, insert_line. destruct (positive_bigint _); [|done].
  specialize (IH (Tables (journal_entries mine) (journal_lines mine ++ [line_row_of b e l])%list)).
  unfold add_rows in IH at 1. simpl in IH. rewrite (assoc_L (++)) in IH. exact IH.
Qed.

Lemma insert_lines_heads b e ls t r t' :
  for_each ls (insert_line b e) t = (r, t') → journal_entries t' = journal_entries t.
Proof.
  revert t. induction ls as [|l ls IH]; intros t; [by intros [= _ <-]|]. cbn [for_each].
  unfold mbind, M_bind, insert_line. destruct (positive_bigint _); [|by intros [= _ <-]].
  intros E. by apply IH in E.
Qed.

(** A worker inside its transaction: its id is free in [t], and its rows are
    those of its head and of the lines before [rest]. *)
Definition midway (e : journal_entry) (b : list N) (mine : tables) (rest : list journal_line)
    (t : tables) : Prop :=
  pg_uuid (entry_id e) = Some b
  ∧ (insert_head b e t).1 = Ok true
  ∧ h_entry_id <$> journal_entries mine = [b]
  ∧ ∃ past, lines e = (past ++ rest)%list
      ∧ for_each past (insert_line b e) (insert_head b e no_rows).2 = (Ok tt, mine).

Lemma midway_elsewhere e b mine rest t t' :
  midway e b mine rest t → b ∉ h_entry_id <$> journal_entries t' → midway e b mine rest t'.
Proof.
  intros (Hu & Hh & Hm & Hp) Hb. split_and!; [done| |done|done].
  destruct (insert_head b e t) as [r u] eqn:E. simpl in Hh. subst r.
  apply insert_head_new in E as (_ & _ & E). by rewrite E.
Qed.

Lemma midway_free e b mine rest t : midway e b mine rest t → b ∉ h_entry_id <$> journal_entries t.
Proof.
  intros (_ & Hh & _). destruct (insert_head b e t) as [r u] eqn:E. simpl in Hh. subst r.
  by apply insert_head_new in E as [? _].
Qed.

(** What is left of the transaction, as one step. *)
Lemma midway_rest e b mine rest t :
  midway e b mine rest t →
  pg_insert e t = match for_each rest (insert_line b e) mine with
                  | (Ok _, mine') => (Ok true, add_rows t mine')
                  | (Err x, _) => (Err x, t)
                  end.
Proof.
  intros (Hu & Hh & _ & past & Hl & Hp). unfold pg_insert. rewrite Hu.
  destruct (insert_head b e t) as [r u] eqn:E. simpl in Hh. subst r.
  apply insert_head_new in E as Hn. destruct Hn as (Hb & _ & Hn).
  pose proof (Hn t Hb) as E'. unfold transaction, mbind, M_bind. rewrite E'.
  rewrite Hl, insert_lines_add.
  assert (Happ : for_each (past ++ rest) (insert_line b e) (insert_head b e no_rows).2
    = for_each rest (insert_line b e) mine).
  { clear -Hp. revert Hp. generalize (insert_head b e no_rows).2.
    induction past as [|l past IH]; intros m; cbn [for_each app]; [by intros [= <-]|].
    unfold mbind, M_bind. destruct (insert_line b e l m) as [[[]|x] m1]; [apply IH|done]. }
  rewrite Happ. by destruct (for_each rest _ mine) as [[[]|x] m].
Qed.

(** A worker that still has its entry to insert, wherever it is. *)
Definition busy (e : journal_entry) (w : worker) (t : tables) : Prop :=
  match w with
  | Starting e' => e' = e
  | Writing e' b mine rest => e' = e ∧ midway e b mine rest t
  | Finished _ | Lost _ => False
  end.

(** A statement either ends the call, with what the call does as one step on
    the committed tables, or leaves them and brings the worker midway. *)
Lemma statement_cases ws w t w' t' e :
  statement ws w t w' t' → busy e w t →
  (∃ r, w' = Finished r ∧ pg_insert e t = (r, t'))
  ∨ (t' = t ∧ busy e w' t ∧ ∃ b mine rest, w' = Writing e b mine rest ∧ (is_free b ws ∨ holds b w)).
Proof.
  intros Hs Hb.
  assert (Hhead : ∀ b r u, pg_uuid (entry_id e) = Some b → insert_head b e t = (r, u) →
            r ≠ Ok true → pg_insert e t = (r, u) ∧ u = t).
  { intros b r u Eu Eh Hr. unfold pg_insert, transaction, mbind, M_bind. rewrite Eu, Eh.
    unfold insert_head in Eh. repeat case_match; simplify_eq; done. }
  destruct Hs as [e' t Eu|e' b x t Eu Eh|e' b t Eu Eh|e' b t u Eu Eh Hf
    |e' b mine mine' l rest t El|e' b mine mine' l rest x t El|e' b mine t]; simpl in Hb.
  - subst e'. left. eexists. split; [done|]. unfold pg_insert. by rewrite Eu.
  - subst e'. left. eexists. split; [done|]. by apply (Hhead b).
  - subst e'. left. eexists. split; [done|]. by apply (Hhead b).
  - subst e'. right. split; [done|].
    assert (midway e b (insert_head b e no_rows).2 (lines e) t) as Hm.
    { apply insert_head_new in Eh as Hn. destruct Hn as (_ & Hn & _).
      split_and!; [done|by rewrite Eh|done|]. by exists []. }
    split; [done|]. exists b. eauto.
  - destruct Hb as [-> Hm]. right. split; [done|]. split; [|exists b; simpl; eauto].
    split; [done|]. destruct Hm as (Hu & Hh & Hm & past & Hl & Hp). split_and!; [done..| |].
    + assert (journal_entries mine' = journal_entries mine) as ->; [|done].
      by eapply (insert_lines_heads b e [l]); cbn [for_each]; unfold mbind, M_bind; rewrite El.
    + exists (past ++ [l])%list. split; [by rewrite <-(assoc_L (++))|].
      clear -Hp El. revert Hp. generalize (insert_head b e no_rows).2.
      induction past as [|k past IH]; intros m; cbn [for_each app]; unfold mbind, M_bind.
      * intros [= ->]. by rewrite El.
      * destruct (insert_line b e k m) as [[[]|x] m1]; [apply IH|done].
  - destruct Hb as [-> Hm]. left. eexists. split; [done|]. rewrite (midway_rest _ _ _ _ _ Hm).
    cbn [for_each]. unfold mbind, M_bind. by rewrite El.
  - destruct Hb as [-> Hm]. left. eexists. split; [done|]. by rewrite (midway_rest _ _ _ _ _ Hm).
Qed.

(** ** The invariant *)
Record serial (es : list journal_entry) (t0 : tables) (s : server) (order : list nat)
    (rs : list (nat * result bool)) : Prop := {
  sr_turn : in_turn (calls es) order t0 = (rs, committed s);
  sr_once : NoDup order;
  sr_results : ∀ k r, settled s k r ↔ (k, r) ∈ rs;
  sr_all : length (workers s) = length es;
  sr_busy : ∀ k w, workers s !! k = Some w → ended w
            ∨ ∃ e, es !! k = Some e ∧ busy e w (committed s);
  sr_apart : ∀ k k' w w' b, workers s !! k = Some w → workers s !! k' = Some w' →
             holds b w → holds b w' → k = k';
  sr_tables : pg_ok (committed s);
}.

Lemma serial_start es t : pg_ok t → serial es t (start es t) [] [].
Proof.
  intros Ht. split; simpl; [done|constructor| |by rewrite length_fmap| | |done].
  - intros k r. unfold settled. simpl. rewrite list_lookup_fmap. destruct (es !! k); simpl; set_solver.
  - intros k w. rewrite list_lookup_fmap. intros (e & Hk & ->)%fmap_Some. right. by exists e.
  - intros k k' w w' b. rewrite list_lookup_fmap. by intros (e & _ & ->)%fmap_Some.
Qed.

Lemma calls_lookup es k : calls es !! k = (λ e, Single (pg_insert e)) <$> es !! k.
Proof. apply list_lookup_fmap. Qed.

Lemma lookup_calls es k e : es !! k = Some e → calls es !! k = Some (Single (pg_insert e)).
Proof. intros Hk. by rewrite calls_lookup, Hk. Qed.

(** The heads an atomic call adds are none or its own. *)
Lemma pg_insert_heads e t r t' b' :
  pg_insert e t = (r, t') → b' ∈ h_entry_id <$> journal_entries t' →
  b' ∈ h_entry_id <$> journal_entries t ∨ r = Ok true ∧ pg_uuid (entry_id e) = Some b'.
Proof.
  intros [(x & -> & -> & _)|(b & Eb & [(-> & -> & _)|(c & -> & _ & _ & ->)])]%pg_insert_cases;
    [by left..|]. simpl. rewrite fmap_app, elem_of_app. intros [?|Hin]; [by left|right].
  simpl in Hin. apply list_elem_of_singleton in Hin as ->. done.
Qed.

Section steps.
Context (es : list journal_entry) (t0 : tables) (ws : list worker) (t : tables).
Context (order : list nat) (rs : list (nat * result bool)).
Hypothesis Hs : serial es t0 (Server ws t) order rs.

Lemma not_in_order i w : ws !! i = Some w → outcome w = None → i ∉ order.
Proof.
  intros Hi Hw Hin. destruct Hs as [Ht _ Hr Hl _ _ _]. simpl in *.
  assert (∃ e, es !! i = Some e) as [e He].
  { apply lookup_lt_is_Some. rewrite <-Hl. by eapply lookup_lt_Some. }
  assert (∃ r, (i, r) ∈ rs) as [r Hir].
  { clear Hr. revert Hin Ht. clear -He. revert t0 rs. induction order as [|j l IH]; intros u qs Hin;
      [by apply elem_of_nil in Hin|]. cbn [in_turn]. apply elem_of_cons in Hin as [<-|Hin].
    - rewrite (lookup_calls _ _ _ He). destruct (run_task _ u) as [r u1].
      destruct (in_turn _ l u1). intros [= <- _]. exists r. left.
    - destruct (calls es !! j) as [c|]; [|by apply IH]. destruct (run_task c u) as [r1 u1].
      destruct (in_turn (calls es) l u1) as [q1 u2] eqn:E. intros [= <- Eu].
      rewrite Eu in E. destruct (IH u1 q1 Hin E) as [r Hr]. exists r. by right. }
  apply Hr in Hir. unfold settled in Hir. simpl in Hir. rewrite Hi in Hir. simpl in Hir. congruence.
Qed.

(** A call is over: its worker [v] is done and its outcome is that of the call
    as one step. *)
Lemma serial_finish i w v e r t' :
  ws !! i = Some w → outcome w = None → ended v → outcome v = Some r →
  es !! i = Some e → busy e w t →
  pg_insert e t = (r, t') →
  (∀ k v b, k ≠ i → ws !! k = Some v → holds b v → r = Ok true → pg_uuid (entry_id e) ≠ Some b) →
  serial es t0 (Server (<[i := v]> ws) t') (order ++ [i]) (rs ++ [(i, r)]).
Proof.
  intros Hi Hw Hv Hvr He Hb Ei Hother. pose proof (not_in_order i w Hi Hw) as Hno.
  assert (i < length ws)%nat as Hlt by by eapply lookup_lt_Some.
  destruct Hs as [Ht Hnd Hr Hl Hbusy Hap Hok]. simpl in *. split; simpl.
  - rewrite (in_turn_snoc _ _ _ _ _ (lookup_calls _ _ _ He)), Ht. simpl. by rewrite Ei.
  - apply NoDup_app. split_and!; [done|set_solver|apply NoDup_singleton].
  - intros k q. rewrite elem_of_app, list_elem_of_singleton, <-Hr. unfold settled. simpl.
    destruct (decide (k = i)) as [->|Hk].
    + rewrite list_lookup_insert_eq, Hi by done. simpl. rewrite Hw, Hvr.
      split; [intros [= ->]; by right|]. by intros [?|[= ->]].
    + rewrite list_lookup_insert_ne by done. split; [by left|]. intros [?|[= ? _]]; done.
  - by rewrite length_insert.
  - intros k v' Hk. destruct (decide (k = i)) as [->|Hne].
    + rewrite list_lookup_insert_eq in Hk by done. injection Hk as <-. by left.
    + rewrite list_lookup_insert_ne in Hk by done. destruct (Hbusy k v' Hk) as [?|(e' & He' & Hv')];
        [by left|right]. exists e'. split; [done|]. destruct v' as [|e2 b mine rest| |]; try done.
      destruct Hv' as [-> Hm]. split; [done|]. apply (midway_elsewhere _ _ _ _ t); [done|].
      intros Hin. apply (pg_insert_heads e t r) in Hin as [Hin|[Hq Hu]]; [| |done].
      * by apply (midway_free _ _ _ _ _ Hm).
      * by apply (Hother k (Writing e' b mine rest) b).
  - assert (Hno' : ∀ b, ¬ holds b v) by (destruct v; [done|done|by intros ? []..]).
    intros k k' u u' b Hk Hk' Hu Hu'.
    destruct (decide (k = i)) as [->|Hne];
      [rewrite list_lookup_insert_eq in Hk by done; injection Hk as <-; by destruct (Hno' b)|].
    destruct (decide (k' = i)) as [->|Hne'];
      [rewrite list_lookup_insert_eq in Hk' by done; injection Hk' as <-; by destruct (Hno' b)|].
    rewrite list_lookup_insert_ne in Hk, Hk' by done. by eapply Hap.
  - exact (insert_ok (L := tables) t e r t' Hok Ei).
Qed.

(** A worker moves on, or is lost: nothing shows. *)
Lemma serial_quiet i w w' :
  ws !! i = Some w → outcome w = None → outcome w' = None →
  ended w' ∨ (∃ e, es !! i = Some e ∧ busy e w' t)
    ∧ (∀ b, holds b w' → is_free b ws ∨ holds b w) →
  serial es t0 (Server (<[i := w']> ws) t) order rs.
Proof.
  intros Hi Hw Hw' Hcase. assert (i < length ws)%nat as Hlt by by eapply lookup_lt_Some.
  destruct Hs as [Ht Hnd Hr Hl Hbusy Hap Hok]. simpl in *. split; simpl; try done.
  - intros k q. rewrite <-Hr. unfold settled. simpl. destruct (decide (k = i)) as [->|Hk].
    + rewrite list_lookup_insert_eq, Hi by done. simpl. by rewrite Hw, Hw'.
    + by rewrite list_lookup_insert_ne.
  - by rewrite length_insert.
  - intros k v Hk. destruct (decide (k = i)) as [->|Hne].
    + rewrite list_lookup_insert_eq in Hk by done. injection Hk as <-.
      destruct Hcase as [?|[? _]]; [by left|by right].
    + rewrite list_lookup_insert_ne in Hk by done. by apply Hbusy.
  - assert (Hnew : ∀ k v b, k ≠ i → ws !! k = Some v → holds b v → holds b w' → False).
    { intros k v b Hne Hk Hv Hh. destruct Hcase as [Hend|[_ Hf]]; [by destruct w'|].
      destruct (Hf b Hh) as [Hf'|Hf'].
      - unfold is_free in Hf'. rewrite Forall_lookup in Hf'. by apply (Hf' k v).
      - apply Hne. by eapply Hap. }
    intros k k' v v' b Hk Hk' Hv Hv'.
    destruct (decide (k = i)) as [->|Hne], (decide (k' = i)) as [->|Hne']; [done|..];
      repeat first [rewrite list_lookup_insert_eq in Hk by done|rewrite list_lookup_insert_eq in Hk' by done
                   |rewrite list_lookup_insert_ne in Hk by done|rewrite list_lookup_insert_ne in Hk' by done];
      simplify_eq; [by destruct (Hnew k' v' b)|by destruct (Hnew k v b)|by eapply Hap].
Qed.

Lemma serial_step s' :
  step (Server ws t) s' → ∃ order' rs', serial es t0 s' order' rs'.
Proof.
  assert (Hbusy : ∀ i w, ws !! i = Some w → ¬ ended w →
            outcome w = None ∧ ∃ e, es !! i = Some e ∧ busy e w t).
  { intros i w Hi Hw. destruct (sr_busy _ _ _ _ _ Hs i w Hi) as [?|Hb]; [done|].
    split; [|done]. by destruct w as [| |r|[]]; try destruct (Hw Logic.I). }
  intros Hst. inversion Hst as [i w w' ws1 t1 t' Hi Hstm|i w ws1 t1 Hi Hw|i e' b' mine' ws1 t1 Hi]; subst.
  - destruct (Hbusy i w Hi) as (Hw & e & He & Hb); [by inversion Hstm; intros []|].
    destruct (statement_cases _ _ _ _ _ e Hstm Hb) as [(r & -> & Ei)|(-> & Hb' & b & mine & rest & -> & Hf)].
    + exists (order ++ [i])%list, (rs ++ [(i, r)])%list. eapply serial_finish; try done.
      intros k v b Hk Hv Hh -> Hu. inversion Hstm; subst. destruct Hb as [-> [Hu' _]].
      rewrite Hu in Hu'. injection Hu' as <-. apply Hk. by eapply (sr_apart _ _ _ _ _ Hs).
    + exists order, rs. eapply serial_quiet; [done..|]. right. split; [by exists e|].
      intros b' <-. done.
  - exists order, rs. eapply serial_quiet; [done|by eapply Hbusy|done|by left].
  - destruct (Hbusy i _ Hi) as (Hw & e & He & [-> Hm]); [by intros []|].
    exists (order ++ [i])%list, (rs ++ [(i, Ok true)])%list.
    pose proof (midway_rest _ _ _ _ _ Hm) as Ei. cbn [for_each] in Ei.
    eapply (serial_finish i (Writing e b' mine' []) (Lost true) e); try done.
    intros k v b Hk Hv Hh _ Hu. destruct Hm as [Hu' _]. rewrite Hu in Hu'. injection Hu' as <-.
    apply Hk. by eapply (sr_apart _ _ _ _ _ Hs).
Qed.
End steps.

Lemma serial_steps es t s :
  pg_ok t → rtc step (start es t) s → ∃ order rs, serial es t s order rs.
Proof.
  intros Ht. revert s. apply rtc_ind_r.
  - exists [], []. by apply serial_start.
  - intros [ws u] s' _ Hstep (order & rs & Hs). by eapply serial_step.
Qed.

(** ** Every run ends, and no one waits for ever *)
Definition weight (w : worker) : nat :=
  match w with
  | Starting e => S (S (length (lines e)))
  | Writing _ _ _ rest => S (length rest)
  | Finished _ | Lost _ => 0
  end.

Lemma statement_weight ws w t w' t' : statement ws w t w' t' → (weight w' < weight w)%nat.
Proof. destruct 1; simpl; lia. Qed.

Lemma weight_insert i w w' ws :
  ws !! i = Some w → (weight w' < weight w)%nat →
  (sum_list_with weight (<[i := w']> ws) < sum_list_with weight ws)%nat.
Proof.
  revert i. induction ws as [|v ws IH]; intros [|i]; [done|done|simpl; intros [= ->]; lia|].
  simpl. intros Hi Hw. specialize (IH i Hi Hw). lia.
Qed.

Lemma step_weight s s' :
  step s s' → (sum_list_with weight (workers s') < sum_list_with weight (workers s))%nat.
Proof.
  destruct 1 as [i w w' ws t t' Hi Hw%statement_weight|i w ws t Hi Hw|i e b mine ws t Hi]; simpl;
    (eapply weight_insert; [done|]); [done| |simpl; lia].
  destruct w; simpl; [lia|lia|by destruct (Hw Logic.I)..].
Qed.

Lemma server_ends s : sn step s.
Proof.
  remember (sum_list_with weight (workers s)) as n eqn:En. revert s En.
  induction (lt_wf n) as [n _ IH]. intros s ->. constructor. intros s' Hs%step_weight. by eapply IH.
Qed.

Definition is_writing (w : worker) : bool := match w with Writing _ _ _ _ => true | _ => false end.
Definition is_starting (w : worker) : bool := match w with Starting _ => true | _ => false end.

(** Whoever has written its head can go on; if there is no one, every id is
    free. *)
Lemma someone_moves s :
  Forall ended (workers s)
  ∨ ∃ i w w' t', workers s !! i = Some w ∧ statement (workers s) w (committed s) w' t'.
Proof.
  destruct s as [ws t]. simpl.
  destruct (decide (Exists (λ w, is_writing w = true) ws))
    as [(w & Hin & Hw)%Exists_exists|Hno].
  { right. apply list_elem_of_lookup in Hin as [i Hi]. destruct w as [|e b mine rest| |]; [done| |done..].
    destruct rest as [|l rest]; [eexists i, _, _, _; split; [done|constructor]|].
    destruct (insert_line b e l mine) as [[[]|x] mine'] eqn:El;
      (eexists i, _, _, _; split; [done|]); [by eapply line_written|by eapply line_refused]. }
  destruct (decide (Exists (λ w, is_starting w = true) ws))
    as [(w & Hin & Hw)%Exists_exists|Hno'].
  - right. apply list_elem_of_lookup in Hin as [i Hi]. destruct w as [e| | |]; [|done..].
    destruct (pg_uuid (entry_id e)) as [b|] eqn:Eu;
      [|eexists i, _, _, _; split; [done|by constructor]].
    assert (is_free b ws) as Hf.
    { apply Forall_forall. intros w Hw' Hh. apply Hno, Exists_exists. exists w. by destruct w. }
    destruct (insert_head b e t) as [[[]|x] t'] eqn:Eh;
      (eexists i, _, _, _; split; [done|]); [by eapply head_written| |];
      (assert (t' = t) as -> by (unfold insert_head in Eh; repeat case_match; by simplify_eq));
      [by eapply head_exists|by eapply head_refused].
  - left. apply Forall_forall. intros w Hin. destruct w as [e|e b mine rest|r|landed];
      [destruct Hno'|destruct Hno|done|done]; apply Exists_exists; by eexists.
Qed.

(** ** What serial calls leave *)
Lemma booked_stays es order t i e0 :
  pg_ok t → pg_booked t i = Some e0 →
  pg_booked (in_turn (calls es) order t).2 i = Some e0
  ∧ ∀ k e, (k, Ok true) ∈ (in_turn (calls es) order t).1 → es !! k = Some e →
      pg_uuid (entry_id e) ≠ pg_uuid i.
Proof.
  revert t. induction order as [|x order IH]; intros t Ht Hi; simpl; [by split; [|set_solver]|].
  destruct (es !! x) as [ex|] eqn:Ex; rewrite calls_lookup, Ex; simpl; [|by apply IH].
  destruct (pg_insert ex t) as [r t1] eqn:E1.
  assert (pg_ok t1 ∧ pg_booked t1 i = Some e0 ∧ (r = Ok true → pg_uuid (entry_id ex) ≠ pg_uuid i))
    as (Ht1 & Hi1 & Hr).
  { split; [exact (insert_ok (L := tables) _ _ _ _ Ht E1)|].
    apply pg_insert_cases in E1 as Hc.
    destruct Hc as [(? & -> & -> & _)|(b & Eb & [(-> & -> & _)|(c & -> & _)])]; [done..|].
    destruct (pg_insert_booked _ _ _ Ht E1) as (b' & c' & Eb' & _ & Hn & Hall).
    assert (pg_uuid (entry_id ex) ≠ pg_uuid i) as Hne.
    { intros Heq. unfold pg_booked in Hn, Hi. rewrite Heq in Hn. destruct (pg_uuid i); [|done].
      simpl in *. by destruct (head_of t l). }
    split; [|done]. rewrite Hall, decide_False; [done|]. congruence. }
  destruct (IH t1 Ht1 Hi1) as [H1 H2]. destruct (in_turn (calls es) order t1) as [rs t2]. simpl in *.
  split; [done|]. intros k e [[= -> <-]|Hin]%elem_of_cons He; [|by eapply H2].
  rewrite Ex in He. injection He as <-. by apply Hr.
Qed.

(** A call that returned True found its id free, booked its entry and is the
    only one of its id to do so; one that returned False found its id booked. *)
Lemma answers_true es order t k e b :
  pg_ok t → NoDup order → (k, Ok true) ∈ (in_turn (calls es) order t).1 →
  es !! k = Some e → pg_uuid (entry_id e) = Some b →
  pg_booked t (entry_id e) = None
  ∧ (∃ c, char3 (je_currency e) = Some c
      ∧ pg_booked (in_turn (calls es) order t).2 (entry_id e)
        = Some (JournalEntry (entry_id e) (je_tenant_id e) c (lines e) (memo e)))
  ∧ ∀ k' e', (k', Ok true) ∈ (in_turn (calls es) order t).1 → es !! k' = Some e' →
      pg_uuid (entry_id e') = Some b → k' = k.
Proof.
  intros Ht Hnd. revert t Ht. induction Hnd as [|x order Hx Hnd IH]; intros t Ht; simpl; [set_solver|].
  destruct (es !! x) as [ex|] eqn:Ex; rewrite calls_lookup, Ex; simpl; [|by apply IH].
  destruct (pg_insert ex t) as [r t1] eqn:E1.
  assert (pg_ok t1) as Ht1 by exact (insert_ok (L := tables) _ _ _ _ Ht E1).
  pose proof (booked_stays es order t1) as Hstay. specialize (IH t1 Ht1).
  destruct (in_turn (calls es) order t1) as [rs t2]. simpl in *.
  assert (Hwon : r = Ok true → ∃ b c, pg_uuid (entry_id ex) = Some b
    ∧ char3 (je_currency ex) = Some c ∧ pg_booked t (entry_id ex) = None
    ∧ (∀ i, pg_uuid i = Some b → pg_booked t1 i
         = Some (JournalEntry i (je_tenant_id ex) c (lines ex) (memo ex)))).
  { intros ->. destruct (pg_insert_booked _ _ _ Ht E1) as (b' & c & Eb & Ec & Hn & Hall).
    exists b', c. split_and!; [done..|]. intros i Hi. by rewrite Hall, decide_True. }
  intros [[= -> <-]|Hin]%elem_of_cons He Hb.
  - rewrite Ex in He. injection He as <-. destruct (Hwon eq_refl) as (b' & c & Eb & Ec & Hn & Hall).
    rewrite Eb in Hb. injection Hb as ->. split; [done|].
    destruct (Hstay _ _ Ht1 (Hall _ Eb)) as [H1 H2]. split; [by exists c|].
    intros k' e' [[= ->]|Hin']%elem_of_cons He' Hb'; [done|].
    destruct (H2 k' e' Hin' He'). by rewrite Eb.
  - destruct (IH Hin He Hb) as (Hn & Hbk & Hone).
    assert (Hne : r = Ok true → pg_uuid (entry_id ex) ≠ Some b).
    { intros Hr Hu. destruct (Hwon Hr) as (b' & c & Eb & _ & _ & Hall).
      rewrite Hu in Eb. injection Eb as <-. by rewrite (Hall _ Hb) in Hn. }
    split; [|split; [done|]].
    + destruct (pg_booked t (entry_id e)) as [e0|] eqn:E0; [|done].
      destruct (booked_stays es [x] t (entry_id e) e0 Ht E0) as [H1 _]. cbn [in_turn] in H1.
      rewrite calls_lookup, Ex in H1. simpl in H1. rewrite E1 in H1.
      simpl in H1. congruence.
    + intros k' e' [[= -> <-]|Hin']%elem_of_cons He' Hb'; [|by eapply Hone].
      rewrite Ex in He'. injection He' as <-. by destruct (Hne eq_refl).
Qed.

Lemma answers_false es order t k e :
  pg_ok t → (k, Ok false) ∈ (in_turn (calls es) order t).1 → es !! k = Some e →
  is_Some (pg_booked (in_turn (calls es) order t).2 (entry_id e)).
Proof.
  intros Ht Hin He. apply in_turn_result in Hin as (before & after & c & t1 & -> & Hc & <- & Hr & ->).
  rewrite (lookup_calls _ _ _ He) in Hc. injection Hc as <-. simpl in Hr |- *.
  set (t1 := (in_turn (calls es) before t).2) in *.
  assert (Ht1 : pg_ok t1).
  { subst t1. clear -Ht. revert t Ht. induction before as [|x l IH]; intros t Ht; [done|]. simpl.
    destruct (calls es !! x) as [c|] eqn:Ec; [|by apply IH].
    rewrite calls_lookup in Ec. apply fmap_Some in Ec as (ex & _ & ->).
    simpl. destruct (pg_insert ex t) as [r t1] eqn:E1.
    specialize (IH t1 (insert_ok (L := tables) _ _ _ _ Ht E1)). by destruct (in_turn _ l t1). }
  destruct (pg_insert e t1) as [r t2] eqn:E. simpl in *. subst r.
  assert (Hd : t2 = t1 ∧ is_Some (pg_booked t1 (entry_id e))) by exact (insert_dup (L := tables) t1 e t2 E).
  destruct Hd as [-> [e0 H0]].
  destruct (booked_stays es after t1 (entry_id e) e0 Ht1 H0) as [H1 _]. by exists e0.
Qed.

(** ** Schedules that run

    A turn of a worker, if it need not wait, or its connection breaking, with
    its rows committed or not. *)
Inductive event : Type := Turn (i : nat) | Break (i : nat) (landed : bool).

Definition take_turn (ws : list worker) (w : worker) (t : tables) : option (worker * tables) :=
  match w with
  | Starting e =>
      match pg_uuid (entry_id e) with
      | None => Some (Finished (raise_r DatabaseError "invalid input syntax for type uuid"), t)
      | Some b =>
          match insert_head b e t with
          | (Err x, _) => Some (Finished (Err x), t)
          | (Ok false, _) => Some (Finished (Ok false), t)
          | (Ok true, _) =>
              if forallb (λ w, match w with Writing _ b' _ _ => negb (bool_decide (b' = b)) | _ => true end) ws
              then Some (Writing e b (insert_head b e no_rows).2 (lines e), t) else None
          end
      end
  | Writing e b mine (l :: rest) =>
      match insert_line b e l mine with
      | (Ok _, mine') => Some (Writing e b mine' rest, t)
      | (Err x, _) => Some (Finished (Err x), t)
      end
  | Writing e b mine [] => Some (Finished (Ok true), add_rows t mine)
  | Finished _ | Lost _ => None
  end.

Definition happen (x : event) (s : server) : option server :=
  match x with
  | Turn i =>
      w ← workers s !! i; o ← take_turn (workers s) w (committed s);
      Some (Server (<[i := o.1]> (workers s)) o.2)
  | Break i landed =>
      w ← workers s !! i;
      match w, landed with
      | Writing _ _ mine [], true =>
          Some (Server (<[i := Lost true]> (workers s)) (add_rows (committed s) mine))
      | Starting _, false | Writing _ _ _ _, false =>
          Some (Server (<[i := Lost false]> (workers s)) (committed s))
      | _, _ => None
      end
  end.

Definition schedule (l : list event) (s : server) : option server :=
  foldl (λ o x, s ← o; happen x s) (Some s) l.

Lemma take_turn_statement ws w t w' t' :
  take_turn ws w t = Some (w', t') → statement ws w t w' t'.
Proof.
  destruct w as [e|e b mine [|l rest]|r|]; simpl; [|by intros [= <- <-]; constructor| |done..].
  - destruct (pg_uuid _) as [b|] eqn:Eu; [|by intros [= <- <-]; constructor].
    destruct (insert_head b e t) as [[[]|x] u] eqn:Eh.
    + destruct (forallb _ ws) eqn:Ef; [|done]. intros [= <- <-]. eapply head_written; [done..|].
      apply Forall_forall. intros w Hin Hh. rewrite forallb_forall in Ef.
      apply list_elem_of_In, Ef in Hin. destruct w; try done. simpl in Hh. subst.
      by rewrite bool_decide_eq_true_2 in Hin.
    + assert (u = t) as -> by (unfold insert_head in Eh; repeat case_match; by simplify_eq).
      intros [= <- <-]. by eapply head_exists.
    + assert (u = t) as -> by (unfold insert_head in Eh; repeat case_match; by simplify_eq).
      intros [= <- <-]. by eapply head_refused.
  - destruct (insert_line b e l mine) as [[[]|x] mine'] eqn:El; intros [= <- <-];
      [by eapply line_written|by eapply line_refused].
Qed.

Lemma happen_step x s s' : happen x s = Some s' → step s s'.
Proof.
  destruct s as [ws t], x as [i|i landed]; simpl; destruct (ws !! i) as [w|] eqn:Hi; simpl; try done.
  - destruct (take_turn ws w t) as [[w' t']|] eqn:Et; simpl; [|done]. intros [= <-].
    econstructor; [done|]. by apply take_turn_statement.
  - destruct w as [e|e b mine [|l rest]|r|l], landed; intros [= <-];
      first [by eapply step_lost_in_commit|eapply step_lost; [done|by intros []]].
Qed.

Lemma schedule_steps l s s' : schedule l s = Some s' → rtc step s s'.
Proof.
  unfold schedule. revert s. induction l as [|x l IH]; intros s; simpl; [by intros [= <-]|].
  destruct (happen x s) as [s1|] eqn:Ex.
  - intros E. eapply rtc_l; [by apply (happen_step x)|by apply IH].
  - intros E. exfalso. revert E. clear. induction l as [|y l IH]; simpl; [done|exact IH].
Qed.

(** C10: concurrent posts are posts one after another.  Workers insert entries
    through [insert_if_absent] on the same database, their statements
    interleaved in any way, some of them waiting on the id of another and some
    losing their connection, before or during the COMMIT.  Every run comes to an end; as long as someone is
    not done, someone can go on without waiting; and at every moment the
    committed tables, and all the answers given so far, are those of the calls
    that have answered, and of those whose commit went through unheard, made as
    single steps one after another. *)
Theorem concurrent_posts_serialize es t s :
  pg_ok t → rtc step (start es t) s →
  sn step s
  ∧ (Forall ended (workers s)
     ∨ ∃ i w w' t', workers s !! i = Some w ∧ statement (workers s) w (committed s) w' t')
  ∧ ∃ order rs, NoDup order ∧ in_turn (calls es) order t = (rs, committed s)
      ∧ ∀ k r, settled s k r ↔ (k, r) ∈ rs.
Proof.
  intros Ht Hs. split; [apply server_ends|]. split; [apply someone_moves|].
  destruct (serial_steps es t s Ht Hs) as (order & rs & H1).
  exists order, rs. by destruct H1.
Qed.

(** C9: an entry is posted once, whole, by one worker.  At every moment of any
    interleaving, the entries that were on the books are on the books; a worker
    that inserted its entry, whether it was told so or lost its connection during
    the COMMIT, found the id free, is the only one of that id to insert, and the
    books hold its entry with all its lines in their order; and a worker that was
    told the entry was there already is right. *)
Theorem one_post_wins es t s :
  pg_ok t → rtc step (start es t) s →
  (∀ i e0, pg_booked t i = Some e0 → pg_booked (committed s) i = Some e0)
  ∧ (∀ k e b, es !! k = Some e → settled s k (Ok true) →
       pg_uuid (entry_id e) = Some b →
       pg_booked t (entry_id e) = None
       ∧ (∃ c, char3 (je_currency e) = Some c ∧ pg_booked (committed s) (entry_id e)
            = Some (JournalEntry (entry_id e) (je_tenant_id e) c (lines e) (memo e)))
       ∧ ∀ k' e', es !! k' = Some e' → settled s k' (Ok true) →
           pg_uuid (entry_id e') = Some b → k' = k)
  ∧ (∀ k e, es !! k = Some e → settled s k (Ok false) →
       is_Some (pg_booked (committed s) (entry_id e))).
Proof.
  intros Ht Hs. destruct (serial_steps es t s Ht Hs) as (order & rs & [Hturn Hnd Hrs _ _ _ _]).
  split_and!.
  - intros i e0 Hi. pose proof (proj1 (booked_stays es order t i e0 Ht Hi)) as H1. by rewrite Hturn in H1.
  - intros k e b He Hk%Hrs Hb. pose proof (answers_true es order t k e b Ht Hnd) as H1.
    rewrite Hturn in H1. destruct (H1 Hk He Hb) as (Hn & Hc & Hone). split_and!; [done..|].
    intros k' e' He' Hk'%Hrs. by eapply Hone.
  - intros k e He Hk%Hrs. pose proof (answers_false es order t k e Ht) as H1. rewrite Hturn in H1.
    by apply H1.
Qed.
End server.

(** ** Three workers on one entry

    The first has inserted the head and a line when its connection breaks; the
    second posts the entry; the third finds it there. *)
Section witnesses.
#[local] Existing Instance demo_server.

Definition rent : journal_entry :=
  JournalEntry "00000000-0000-4000-8000-00000000000c" "acme" "USD"
    [JournalLine "rent" DEBIT 900; JournalLine "bank" CREDIT 900] (Some "march").

Definition three_posts : list journal_entry := [rent; rent; rent].

Definition mishap : list event :=
  [Turn 0; Turn 0; Break 0 false; Turn 1; Turn 1; Turn 1; Turn 1; Turn 2]%nat.

(** A connection lost during the COMMIT: the entry is on the books, and the next
    worker finds it there. *)
Example unheard_commit :
  workers <$> schedule [Turn 0; Turn 0; Turn 0; Break 0 true; Turn 1]%nat (start [rent; rent] no_rows)
  = Some [Lost true; Finished (Ok false)].
Proof. vm_compute. reflexivity. Qed.

(** While the first holds the id, the others wait. *)
Example others_wait :
  (s ← schedule [Turn 0; Turn 0]%nat (start three_posts no_rows); happen (Turn 1) s) = None.
Proof. vm_compute. reflexivity. Qed.

Definition after_mishap : server := default (start [] no_rows) (schedule mishap (start three_posts no_rows)).

Lemma mishap_steps : rtc step (start three_posts no_rows) after_mishap.
Proof. apply (schedule_steps mishap). vm_compute. reflexivity. Qed.

Lemma no_rows_ok : pg_ok no_rows.
Proof. split; [constructor|]. intros r Hr. by apply elem_of_nil in Hr. Qed.

Lemma concurrent_posts_serialize_witness :
  workers after_mishap = [Lost false; Finished (Ok true); Finished (Ok false)]
  ∧ sn step after_mishap
  ∧ ∃ order rs, NoDup order ∧ in_turn (calls three_posts) order no_rows = (rs, committed after_mishap).
Proof.
  split; [vm_compute; reflexivity|].
  destruct (concurrent_posts_serialize three_posts no_rows after_mishap no_rows_ok mishap_steps)
    as (Hsn & _ & order & rs & Hnd & Hturn & _).
  split; [exact Hsn|]. exists order, rs. exact (conj Hnd Hturn).
Defined.

Lemma one_post_wins_witness :
  pg_booked no_rows (entry_id rent) = None
  ∧ (∃ c, char3 "USD" = Some c ∧ pg_booked (committed after_mishap) (entry_id rent)
       = Some (JournalEntry (entry_id rent) "acme" c (lines rent) (Some "march")))
  ∧ is_Some (pg_booked (committed after_mishap) (entry_id rent)).
Proof.
  destruct (one_post_wins three_posts no_rows after_mishap no_rows_ok mishap_steps) as (_ & Ht & Hf).
  assert (Hu : ∃ b, pg_uuid (entry_id rent) = Some b) by (eexists; vm_compute; reflexivity).
  destruct Hu as [b Hb].
  assert (H1 : settled after_mishap 1 (Ok true)) by (vm_compute; reflexivity).
  assert (H2 : settled after_mishap 2 (Ok false)) by (vm_compute; reflexivity).
  destruct (Ht 1%nat rent b eq_refl H1 Hb) as (Hn & Hc & _).
  split; [exact Hn|]. split; [exact Hc|]. exact (Hf 2%nat rent eq_refl H2).
Defined.
End witnesses.
