(* ===== verification/SignedWrite.v ===== *)
(** * A signed write, end to end (agents/forge/netsuite.py with agents/vault/service.py)

    The NetSuite client of NetSuite.v run against the Vault service of
    VaultService.v: what the client posts travels as text to the service's
    [do_POST], and what [_send] writes travels back as text to the client, which
    reads it again.  The transport routes by address, so a fact about the
    requests made is a fact about both programs at once: which signature a write
    carries, who may have one, and that every refusal of the service leaves the
    ERP untouched. *)

From S2P Require Import Prelude PyStr PyFloat PyVal Json JsonText JsonFacts PyDecimal JsonFloat Http Digest PyTime Contract Registry Metrics HashChain EventStore Agent Vault VaultService Write NetSuite.
Local Open Scope string_scope.

(** ** Messages *)

(** The service's answers are JSON. *)
Definition send_json (a : Z * pydict) : Http.message := send_reply a.1 (Json a.2) "application/json".

(** [httpx]: how a JSON body is written, and how a header's value arrives, or
    what is raised instead: a value outside ASCII cannot be encoded
    (UnicodeEncodeError), one with a line break breaks the protocol
    (LocalProtocolError, an HTTPError).  The laws are what the client relies on:
    the body is read back by [json.loads] as the value given, and a value of
    visible characters arrives unchanged. *)
Class Httpx : Type := {
  encode_json : pyval → string;
  header_value : string → result string;
}.

Class HttpxLaws `{Httpx} : Prop := {
  encode_read v : wf_val v → loads (encode_json v) = Some v;
  header_arrives s : plain s = true → header_value s = Ok s;
}.

(** [response.json()] is [json.loads] of the body. *)
Definition received (m : Http.message) : http_response :=
  HttpResponse (ms_status m)
    (match loads (ms_body m) with
     | Some v => Ok v
     | None => raise_r JSONDecodeError "Expecting value"
     end)
    (ms_body m) (dget "Location" (ms_headers m)).

(** The one header the service looks at. *)
Definition delivered_auth `{Httpx} (q : http_request) : result (option string) :=
  match dget AUTH_HEADER (rq_headers q) with
  | Some secret => Some <$> header_value secret
  | None => Ok None
  end.

(** A request as the service reads it; [httpx] raises before anything is sent
    when the header has no form on the wire. *)
Definition delivered `{Httpx} (host : string) (q : http_request) : result VaultService.request :=
  let body := match rq_json q with Some v => encode_json v | None => EmptyString end in
  auth ← delivered_auth q;
  Ok (VaultService.Request (removeprefix host (rq_url q)) auth
        (match rq_json q with Some _ => Some (nat_str (String.length body)) | None => None end) body).

Section wired.
Context `{Externals} `{Nonces} `{Httpx} `{CredentialStore C} {T : Type}.
Variable host : string.
(** The vault and the clocks when a request arrives, after those before it. *)
Variable at_arrival : list http_request → vault C * world T.
Variables (api_secret : string) (allowlist : list string).
Variable erp : list http_request → http_request → result http_response.

(** The service's handlers, when the request gets that far.  An exception of a handler closes the connection
    without an answer, which [httpx] reports as an [HTTPError]; a verb without
    a handler is answered 501 by the server itself. *)
Definition vault_answers (log : list http_request) (q : http_request) : result http_response :=
  rq ← delivered host q;
  if String.eqb (rq_method q) "POST" then
    let '(v, w) := at_arrival log in
    match (do_POST v api_secret allowlist rq w).1 with
    | Ok a => Ok (received (send_json a))
    | Err _ => raise_r HTTPError "Server disconnected without sending a response."
    end
  else if String.eqb (rq_method q) "GET" then
    Ok (received (send_json (do_GET (removeprefix host (rq_url q)))))
  else Ok (received (Http.Message 501 [] "Unsupported method")).

(** The host of the URL answers. *)
Definition wired : Transport := λ log q,
  if startswith (host +:+ "/") (rq_url q) then vault_answers log q else erp log q.
End wired.

(** ** The header is plain text *)

Lemma Ok_inj {A} (a b : A) : Ok a = Ok b → a = b.
Proof. congruence. Qed.

Lemma plain_ascii s : plain s = true → ascii_str s = true.
Proof.
  induction s as [|c s IH]; [done|]. cbn [plain ascii_str]. cbv zeta.
  rewrite !andb_true_iff, N.ltb_lt, N.ltb_lt. intros [[_ Hc] Hs]. split; [lia|auto].
Qed.

Lemma percent_ascii s : ascii_str (percent s) = true.
Proof.
  induction s as [|c s IH]; simpl; [done|]. rewrite ascii_str_app, IH, andb_true_r.
  pose proof (N_ascii_bounded c) as Hc. revert Hc. generalize (N_of_ascii c). intros n Hn.
  assert (Hall : forallb (λ n, ascii_str (percent_byte n)) (map N.of_nat (seq 0 256)) = true)
    by (vm_compute; reflexivity).
  rewrite forallb_forall in Hall. apply Hall, List.in_map_iff.
  exists (N.to_nat n). rewrite N2Nat.id. split; [done|]. apply List.in_seq. lia.
Qed.

Lemma join_ascii sep l :
  ascii_str sep = true → Forall (λ s, ascii_str s = true) l → ascii_str (join sep l) = true.
Proof.
  intros Hs. induction 1 as [|x [|y l] Hx Hl IH]; [done|done|].
  rewrite join_cons2, !ascii_str_app, Hx, Hs, IH. done.
Qed.

Lemma oauth_header_ascii creds method url params nonce ts header :
  oauth_header creds method url params nonce ts = Ok header →
  valid_str header ∧ header ≠ EmptyString.
Proof.
  unfold oauth_header. intros E.
  repeat (apply result_bind_ok in E as (? & _ & E)).  apply Ok_inj in E as <-.
  split; [|done]. apply ascii_str_valid. rewrite ascii_str_app. apply andb_true_iff. split; [done|].
  apply join_ascii; [done|]. apply Forall_cons. split.
  - cbv beta zeta. by rewrite !ascii_str_app, percent_ascii.
  - apply Forall_map, Forall_forall. intros kv _. cbv beta zeta. unfold percent_val.
    by rewrite !ascii_str_app, !percent_ascii.
Qed.

(** ** The request arrives *)

Lemma read_body_delivered `{Httpx} `{!HttpxLaws} host q rq v :
  delivered host q = Ok rq → rq_json q = Some v → wf_val v →
  read_body rq = Ok (encode_json v) ∧ loads (encode_json v) = Some v.
Proof.
  intros Hd Hq Hv. pose proof (encode_read v Hv) as Hl. split; [|done].
  unfold delivered in Hd. apply result_bind_ok in Hd as (auth & _ & [= <-]).
  unfold read_body. rewrite Hq. cbn [VaultService.rq_content_length VaultService.rq_body].
  set (text := encode_json v) in *.
  assert (Hne : text ≠ EmptyString) by (intros E; by rewrite E in Hl).
  destruct text as [|a t]; [done|]. set (text := String a t) in *.
  assert (Hs : ∃ b u, nat_str (String.length text) = String b u).
  { unfold nat_str. destruct (Z_str_nat (Z.of_nat (String.length text)) ltac:(lia))
      as (b & u & E & _). eauto. }
  destruct Hs as (b & u & Hs). rewrite Hs, <-Hs, py_int_nat_str.
  unfold mbind, result_bind. cbn beta iota.
  rewrite (proj2 (Z.ltb_ge _ 0)) by lia. rewrite (proj2 (Z.eqb_neq _ 0)) by (simpl; lia).
  rewrite Nat2Z.id, substring_all. done.
Qed.

(** What the client asks the service to sign. *)
Definition signing_body (op : write_operation) (method url : string) : pydict :=
  [("tenant_id", VStr (wo_tenant_id op)); ("erp_platform", VStr (erp_platform op));
   ("method", VStr method); ("url", VStr url)].

Lemma signing_body_wf op method url :
  valid_str (wo_tenant_id op) → valid_str (erp_platform op) → valid_str method → valid_str url →
  wf_val (VDict (signing_body op method url)).
Proof.
  intros. apply wf_val_dict. split; [apply (bool_decide_eq_true _); vm_compute; done|].
  unfold signing_body. rewrite !Forall_cons, Forall_nil. cbn [fst snd].
  split_and!; try done; by apply ascii_str_valid.
Qed.

(** The secret on the wire decides whether the request arrives. *)
Lemma sign_delivered `{Httpx} c op method url :
  match header_value (vault_secret c) with
  | Ok secret => ∃ rq, delivered (vault_url c) (NetSuite.sign_request c op method url) = Ok rq
      ∧ VaultService.rq_path rq = "/sign" ∧ VaultService.rq_auth rq = Some secret
  | Err e => delivered (vault_url c) (NetSuite.sign_request c op method url) = Err e
  end.
Proof.
  unfold delivered, delivered_auth.
  change (dget AUTH_HEADER (rq_headers (NetSuite.sign_request c op method url)))
    with (Some (vault_secret c)). cbv beta iota zeta.
  destruct (header_value (vault_secret c)) as [secret|e]; [|done].
  eexists. split; [done|]. split; [apply removeprefix_app|done].
Qed.

(** The answer to a sign request is that of [sign] behind the gate. *)
Lemma do_POST_sign `{Externals} `{Nonces} `{Httpx} `{!HttpxLaws} `{CredentialStore C} {T}
    (v : vault C) api_secret allowlist c op method url (w : world T) rq secret :
  delivered (vault_url c) (NetSuite.sign_request c op method url) = Ok rq →
  VaultService.rq_path rq = "/sign" → VaultService.rq_auth rq = Some secret →
  wf_val (VDict (signing_body op method url)) →
  do_POST v api_secret allowlist rq w =
  (if str_empty api_secret then (Ok (503%Z, error_body "vault authentication not configured"), w)
   else if negb (verify_shared_secret (Some secret) api_secret)
   then (Ok (401%Z, error_body "unauthorized"), w)
   else if negb (bool_decide (allowlist = [] ∨ wo_tenant_id op ∈ allowlist))
   then (Ok (403%Z, error_body "tenant not permitted"), w)
   else VaultService.sign v (signing_body op method url) w).
Proof.
  intros Hd Hp Ha Hw.
  destruct (read_body_delivered _ _ _ (VDict (signing_body op method url)) Hd eq_refl Hw) as [Hr Hl].
  unfold do_POST, refusal. rewrite Hp, Ha. cbn [bool_decide]. 
  rewrite bool_decide_true by set_solver. cbn [negb].
  destruct (str_empty api_secret); [done|].
  destruct (verify_shared_secret _ _); cbn [negb]; [|done].
  unfold mbind, M_bind, of_result. rewrite Hr, Hl.
  assert (Ht : tenant_permitted allowlist (signing_body op method url)
             = Ok (bool_decide (allowlist = [] ∨ wo_tenant_id op ∈ allowlist))).
  { unfold tenant_permitted. destruct allowlist as [|t l]; [by rewrite bool_decide_true by (by left)|].
    cbn -[bool_decide]. f_equal. apply bool_decide_ext. naive_solver. }
  rewrite Ht. by destruct (bool_decide _).
Qed.

(** ** The answer comes back *)

(** A 200 of the service carries the header and the expiry, nothing more; the
    header is made with the credentials stored for the tenant and platform. *)
Lemma sign_granted `{Externals} `{Nonces} `{CredentialStore C} {T} (v : vault C) op method url
    payload (w w' : world T) :
  VaultService.sign v (signing_body op method url) w = (Ok (200%Z, payload), w') →
  ∃ header expiry, payload = [("authorization_header", VStr header); ("expires_at", VFloat expiry)]
    ∧ ∃ k creds nonce ts,
        lookup_credentials (wo_tenant_id op) (erp_platform op) v = Ok (k, creds)
        ∧ oauth_header creds method url None nonce ts = Ok header.
Proof.
  unfold VaultService.sign.
  change (get_or "tenant_id" VNone _) with (VStr (wo_tenant_id op)).
  change (get_or "erp_platform" VNone _) with (VStr (erp_platform op)).
  change (get_or "method" VNone _) with (VStr method). change (get_or "url" VNone _) with (VStr url).
  destruct (nonempty_str (VStr (wo_tenant_id op))) as [t|] eqn:Et; [|done].
  destruct (nonempty_str (VStr (erp_platform op))) as [p|] eqn:Ep; [|done].
  destruct (nonempty_str (VStr method)) as [m|] eqn:Em; [|done].
  destruct (nonempty_str (VStr url)) as [u|] eqn:Eu; [|done].
  apply nonempty_str_Some in Et as [[= <-] _], Ep as [[= <-] _], Em as [[= <-] _], Eu as [[= <-] _].
  intros E. apply answer_or_200 in E; [|apply vault_error_not_200].
  apply M_bind_ok in E as (tk & w1 & Ek & E). apply M_bind_ok in E as (ps & w2 & Ep & E).
  apply M_bind_ok in E as (h & w3 & Eh & E). apply M_ret_ok in E as [E _].
  destruct (vend_token_ok _ _ _ _ _ _ Ek) as (k & creds & Hl & Hsg & _).
  destruct (authorization_header_ok _ _ _ _ _ _ _ Eh) as (_ & nonce & ts & Ho).
  rewrite Hsg in Ho. injection Ep as <- <-. injection E as <-. by exists h, (tk_expires_at tk); eauto 10.
Qed.

(** The client reads the header the service sent. *)
Lemma received_header (payload : pydict) header expiry :
  payload = [("authorization_header", VStr header); ("expires_at", VFloat expiry)] →
  valid_str header →
  ∃ body, rs_json (received (send_json (200%Z, payload))) = Ok (VDict body)
    ∧ get_or "authorization_header" VNone body = VStr header.
Proof.
  intros -> Hh. destruct (loads_text_float Spaced "authorization_header" header "expires_at" expiry)
    as (x & _ & Hl); [by apply ascii_str_valid|done|by apply ascii_str_valid|].
  eexists. unfold received.
  match type of Hl with loads ?t = _ => change (ms_body _) with t end.
  cbn [rs_json]. rewrite Hl. by split.
Qed.

Section end_to_end.
Context `{Externals} `{Nonces} `{Httpx} `{!HttpxLaws} `{CredentialStore C} {T : Type}.
Variable c : client.
Variable at_arrival : list http_request → vault C * world T.
Variables (api_secret : string) (allowlist : list string).
Variable erp : list http_request → http_request → result http_response.
#[local] Notation network := (wired (vault_url c) at_arrival api_secret allowlist erp).

(** The service may sign for the write: the secret that arrives is its own,
    the tenant is permitted, and [header] is the signature of the stored
    credentials for exactly this verb and URL. *)
Definition granted (log : net) (op : write_operation) (method url header : string) : Prop :=
  api_secret ≠ EmptyString ∧ header_value (vault_secret c) = Ok api_secret
  ∧ (allowlist = [] ∨ wo_tenant_id op ∈ allowlist)
  ∧ ∃ k creds nonce ts,
      lookup_credentials (wo_tenant_id op) (erp_platform op) (at_arrival log).1 = Ok (k, creds)
      ∧ oauth_header creds method url None nonce ts = Ok header.

Lemma sign_routed op method url log :
  network log (sign_request c op method url)
  = vault_answers (vault_url c) at_arrival api_secret allowlist log (sign_request c op method url).
Proof.
  unfold wired, sign_request. cbn [rq_url].
  change (vault_url c +:+ "/sign") with (vault_url c +:+ "/" +:+ "sign").
  by rewrite <-str_app_assoc, startswith_app.
Qed.

(** The two sides of one signing: the client has the service's header, or the
    service said no and the client raises ErpWriteError, or the secret has no
    form on the wire and what [httpx] raises escapes. *)
Lemma sign_wired op method url log r log' :
  wf_val (VDict (signing_body op method url)) →
  NetSuite.sign (H := network) c op method url log = (r, log') →
  log' = (log ++ [sign_request c op method url])%list
  ∧ ((∃ msg, r = raise_r ErpWriteError msg)
     ∨ (∃ e, header_value (vault_secret c) = Err e ∧ isinstance e HTTPError = false ∧ r = Err e)
     ∨ ∃ header, r = Ok header ∧ granted log op method url header).
Proof.
  intros Hw. unfold NetSuite.sign, mbind at 1, M_bind at 1. rewrite send_or_fail_run.
  unfold transport. rewrite sign_routed. unfold vault_answers, mbind at 1, result_bind.
  pose proof (sign_delivered c op method url) as Hd.
  destruct (header_value (vault_secret c)) as [secret|e] eqn:Ehv.
  2:{ rewrite Hd. destruct (isinstance e HTTPError) eqn:Ee; intros [= <- <-];
        (split; [done|]); [left; by eexists|right; left; by exists e]. }
  destruct Hd as (rq & Hd & Hp' & Ha). rewrite Hd.
  change (String.eqb (rq_method (sign_request c op method url)) "POST") with true. cbv iota.
  destruct (at_arrival log) as [v w] eqn:Ea.
  rewrite (do_POST_sign v api_secret allowlist c op method url w rq secret Hd Hp' Ha Hw).
  destruct (str_empty api_secret) eqn:Es; [intros [= <- <-]; split; [done|left; by eexists]|].
  destruct (verify_shared_secret _ _) eqn:Ev; cbn [negb];
    [|intros [= <- <-]; split; [done|left; by eexists]].
  apply verify_shared_secret_spec in Ev as [[= Ev] Hne].
  case_bool_decide as Hp; cbn [negb]; [|intros [= <- <-]; split; [done|left; by eexists]].
  destruct (VaultService.sign v _ w) as [[[status payload]|e] w'] eqn:Esg; cbn [fst];
    [|intros [= <- <-]; split; [done|left; by eexists]].
  change (rs_status_code (received (send_json (status, payload)))) with status.
  destruct (Z.eqb_spec status 200) as [->|Hs]; cbn [negb];
    [|intros [= <- <-]; split; [done|left; by eexists]].
  destruct (sign_granted _ _ _ _ _ _ _ Esg)
    as (header & expiry & Hpay & k & creds & nonce & ts & Hl & Ho).
  destruct (oauth_header_ascii _ _ _ _ _ _ _ Ho) as [Hv Hh].
  destruct (received_header payload header expiry Hpay Hv) as (body & Hj & Hb).
  unfold mbind, M_bind, of_result. rewrite Hj.
  unfold authorization_of. rewrite Hb. destruct header as [|a t]; [done|].
  intros [= <- <-]. split; [done|]. right. right. exists (String a t). split; [done|].
  split_and!; try done; [by rewrite Ehv, Ev|]. rewrite Ea. by exists k, creds, nonce, ts.
Qed.

End end_to_end.

(** C3: a write is signed by the tenant's own credentials or not at all.  The
    client run against the Vault service: either nothing is sent; or only the
    request to sign is, and the write fails with ErpWriteError; or the secret
    the client presents is the service's, the tenant is one the service may
    sign for, and the PUT that follows, to the URL of the write's own address,
    carries the OAuth header of the credentials stored for the write's tenant
    and platform, made for PUT and for that URL; the write then succeeds exactly
    when the answer is 2xx.  No failure of the service is anything but an
    ErpWriteError.  The one exception that escapes is the client's own: a
    configured secret that cannot be written in a header, on which [httpx] raises
    something other than an HTTPError; nothing is sent then either (the log holds
    what [httpx] was asked to send). *)
Theorem write_signed_by_vault `{Externals} `{Nonces} `{Httpx} `{!HttpxLaws} `{CredentialStore C} {T}
    c (at_arrival : list http_request → vault C * world T) api_secret allowlist erp op log r log' :
  valid_str (wo_tenant_id op) → valid_str (erp_platform op) → valid_str (record_url c op) →
  let network := wired (vault_url c) at_arrival api_secret allowlist erp in
  let asked := sign_request c op "PUT" (record_url c op) in
  NetSuite.apply (H := network) c op log = (r, log') →
  ((log' = log ∨ log' = log ++ [asked]) ∧ ∃ msg, r = raise_r ErpWriteError msg)%list
  ∨ (log' = log ++ [asked] ∧ ∃ e, header_value (vault_secret c) = Err e
       ∧ isinstance e HTTPError = false ∧ r = Err e)%list
  ∨ ∃ header, granted c at_arrival api_secret allowlist log op "PUT" (record_url c op) header
      ∧ log' = (log ++ [asked; put_request c op header])%list
      ∧ (is_ok r = true ↔ ∃ rs, network (log ++ [asked])%list (put_request c op header) = Ok rs
            ∧ (200 ≤ rs_status_code rs < 300)%Z ∧ r = Ok (confirmation op rs)).
Proof.
  intros Ht Hp Hu network asked E.
  destruct (decide (missing_config c = [])) as [Hc|Hc].
  2:{ destruct (apply_refused (H := network) c op log (or_introl Hc)) as [msg Em].
      rewrite Em in E. injection E as <- <-. left. eauto. }
  destruct (addressed op) eqn:Ha.
  2:{ destruct (apply_refused (H := network) c op log (or_intror Ha)) as [msg Em].
      rewrite Em in E. injection E as <- <-. left. eauto. }
  rewrite (apply_run (H := network)) in E by done.
  destruct (NetSuite.sign (H := network) c op "PUT" (record_url c op) log) as [s log1] eqn:Es.
  apply sign_wired in Es as [-> Hs];
    [|by apply signing_body_wf; [..|by apply ascii_str_valid|]].
  destruct Hs as [[msg ->]|[(e & He & Hc' & ->)|(header & -> & Hg)]].
  { injection E as <- <-. left. eauto. }
  { injection E as <- <-. right. left. eauto. }
  apply upsert_run in E as [-> Hok]. rewrite <-(assoc_L (++)%list). right. right. by exists header.
Qed.

(** ** A write that is in order goes through *)

Lemma required_present creds f :
  missing_fields creds = [] → f ∈ REQUIRED_FIELDS → ∃ v, getitem f creds = Ok v.
Proof.
  intros Hm Hf. unfold getitem. destruct (dget f creds) as [v|] eqn:E; [by exists v|].
  apply dget_None in E. assert (f ∈ missing_fields creds) as Hin.
  { unfold missing_fields. rewrite sorted_strs_perm. by apply list_elem_of_filter. }
  rewrite Hm in Hin. by apply not_elem_of_nil in Hin.
Qed.

Lemma oauth_header_total creds method url params nonce ts :
  missing_fields creds = [] → ∃ header, oauth_header creds method url params nonce ts = Ok header.
Proof.
  intros Hm. unfold oauth_header, mbind, result_bind.
  repeat match goal with
  | |- context [getitem ?f creds] =>
      destruct (required_present creds f Hm) as [? ->]; [unfold REQUIRED_FIELDS; set_solver|]
  end. by eexists.
Qed.

Lemma issue_total tenant_id platform creds issued_at lifetime :
  missing_fields creds = [] →
  ∃ t, issue tenant_id platform creds None issued_at lifetime = Ok t
    ∧ tk_expires_at t = fadd issued_at (float_of_Z lifetime) ∧ tk_signer t = oauth_header creds.
Proof.
  intros Hm. unfold issue, mbind, result_bind.
  repeat match goal with
  | |- context [getitem ?f creds] =>
      destruct (required_present creds f Hm) as [? ->]; [unfold REQUIRED_FIELDS; set_solver|]
  end. by eexists.
Qed.

(** Complete credentials, and a token that is still alive when it is used. *)
Lemma sign_total `{Externals} `{Nonces} `{CredentialStore C} {T} (v : vault C) op method url
    (w : world T) k creds z :
  wo_tenant_id op ≠ EmptyString → erp_platform op ≠ EmptyString → method ≠ EmptyString →
  url ≠ EmptyString →
  lookup_credentials (wo_tenant_id op) (erp_platform op) v = Ok (k, creds) →
  missing_fields creds = [] →
  let n := w_tick w in
  fleb (fadd (clock_time n) (float_of_Z (vt_default_ttl v))) (clock_time (S n)) = false →
  float_trunc (clock_time (S (S (S n)))) = Ok z →
  ∃ header expiry w', oauth_header creds method url None (token_hex (S (S n))) (Z_str z) = Ok header
    ∧ VaultService.sign v (signing_body op method url) w
      = (Ok (200%Z, [("authorization_header", VStr header); ("expires_at", VFloat expiry)]), w').
Proof.
  intros Ht Hp Hm Hu Hl Hc n Halive Hz.
  destruct (oauth_header_total creds method url None (token_hex (S (S n))) (Z_str z) Hc) as [header Ho].
  destruct (issue_total (wo_tenant_id op) k creds (clock_time n) (vt_default_ttl v) Hc)
    as (t & Hi & He & Hsg).
  exists header, (tk_expires_at t). eexists. split; [done|].
  unfold VaultService.sign.
  change (get_or "tenant_id" VNone _) with (VStr (wo_tenant_id op)).
  change (get_or "erp_platform" VNone _) with (VStr (erp_platform op)).
  change (get_or "method" VNone _) with (VStr method). change (get_or "url" VNone _) with (VStr url).
  rewrite !(proj2 (nonempty_str_Some _ _)) by done.
  assert (Hv : vend_token v (wo_tenant_id op) (erp_platform op) None None None w = (Ok t, tick w)).
  { unfold vend_token, mbind, M_bind, of_result. rewrite Hl. unfold fresh. cbn [default fst snd].
    fold n. by rewrite Hi. }
  assert (Hh : authorization_header t method url None None None None (tick w)
             = (Ok header, tick (tick (tick (tick w))))).
  { unfold authorization_header, mbind, M_bind, fresh. cbn [tick w_tick]. fold n.
    unfold is_expired. rewrite He, Halive. cbn [tick w_tick]. unfold of_result. cbn [tick w_tick].
    fold n. rewrite Hz. unfold mret, M_ret. by rewrite Hsg, Ho. }
  unfold answer_or, mbind, M_bind. rewrite Hv. unfold of_result. cbn [params_of].
  change (params_of (signing_body op method url)) with (Ok (A := option pydict) None).
  cbv iota. rewrite Hh. reflexivity.
Qed.

(** What the deployment has to have in order for one write: the client knows
    both addresses and the service's secret, the tenant may be signed for, its
    credentials are complete, and the clock moves less than a token's life
    between vending it and using it. *)
Definition in_order `{Externals} `{Httpx} `{CredentialStore C} {T} c
    (at_arrival : list http_request → vault C * world T) api_secret allowlist
    (log : net) (op : write_operation) (creds : pydict) (z : Z) : Prop :=
  let '(v, w) := at_arrival log in
  let n := w_tick w in
  missing_config c = [] ∧ addressed op = true
  ∧ vault_secret c = api_secret ∧ plain api_secret = true
  ∧ (allowlist = [] ∨ wo_tenant_id op ∈ allowlist)
  ∧ wo_tenant_id op ≠ EmptyString
  ∧ (∃ k, lookup_credentials (wo_tenant_id op) (erp_platform op) v = Ok (k, creds))
  ∧ missing_fields creds = []
  ∧ fleb (fadd (clock_time n) (float_of_Z (vt_default_ttl v))) (clock_time (S n)) = false
  ∧ float_trunc (clock_time (S (S (S n)))) = Ok z.

Lemma normalize_nonempty p k : normalize_platform p = Ok k → p ≠ EmptyString.
Proof. intros E ->. discriminate E. Qed.

Lemma missing_config_secret c : missing_config c = [] → vault_secret c ≠ EmptyString.
Proof.
  unfold missing_config. rewrite !filter_cons, filter_nil. cbn [snd].
  intros E Hs. rewrite Hs in E. repeat case_decide; done.
Qed.

(** C6: a write in order goes through.  With the client and the service
    configured alike, the tenant permitted and its stored credentials complete,
    the service signs while the token is alive, the client takes the header out
    of the answer's text and sends it: what [apply] returns is the confirmation
    of the ERP's 2xx answer to exactly the signed PUT, after exactly the two
    requests. *)
Theorem write_goes_through `{Externals} `{Nonces} `{Httpx} `{!HttpxLaws} `{CredentialStore C} {T}
    c (at_arrival : list http_request → vault C * world T) api_secret allowlist erp op log creds z :
  valid_str (wo_tenant_id op) → valid_str (erp_platform op) → valid_str (record_url c op) →
  in_order c at_arrival api_secret allowlist log op creds z →
  let network := wired (vault_url c) at_arrival api_secret allowlist erp in
  let asked := sign_request c op "PUT" (record_url c op) in
  let nonce := token_hex (S (S (w_tick (at_arrival log).2))) in
  ∃ header, oauth_header creds "PUT" (record_url c op) None nonce (Z_str z) = Ok header
    ∧ ∀ rs, network (log ++ [asked])%list (put_request c op header) = Ok rs →
        (200 ≤ rs_status_code rs < 300)%Z →
        NetSuite.apply (H := network) c op log
        = (Ok (confirmation op rs), log ++ [asked; put_request c op header])%list.
Proof.
  intros Ht Hp Hu Hin network asked nonce. subst nonce. unfold in_order in Hin.
  destruct (at_arrival log) as [v w] eqn:Ea. cbn [snd].
  destruct Hin as (Hc & Had & Hsec & Hpl & Hal & Hne & (k & Hl) & Hcr & Halive & Hz).
  pose proof (missing_config_secret c Hc) as Hs.
  assert (Hplat : erp_platform op ≠ EmptyString).
  { unfold lookup_credentials in Hl. apply result_bind_ok in Hl as (p & Hn & _).
    by eapply normalize_nonempty. }
  assert (Hurl : record_url c op ≠ EmptyString) by (intros E%str_app_empty; done).
  destruct (sign_total v op "PUT" (record_url c op) w k creds z)
    as (header & expiry & w' & Ho & Esg); try done.
  exists header. split; [done|]. intros rs Hrs H2xx.
  destruct (oauth_header_ascii _ _ _ _ _ _ _ Ho) as [Hv Hh].
  remember [("authorization_header", VStr header); ("expires_at", VFloat expiry)] as payload eqn:Hpay.
  destruct (received_header payload header expiry Hpay Hv) as (body & Hj & Hb).
  assert (Hw : wf_val (VDict (signing_body op "PUT" (record_url c op))))
    by (apply signing_body_wf; [done|done|by apply ascii_str_valid|done]).
  assert (Hr : network log asked = Ok (received (send_json (200%Z, payload)))).
  { unfold network, asked. rewrite sign_routed. unfold vault_answers, mbind at 1, result_bind.
    pose proof (sign_delivered c op "PUT" (record_url c op)) as Hd.
    rewrite Hsec, header_arrives in Hd by done. destruct Hd as (rq & Hd & Hp' & Ha). rewrite Hd.
    change (String.eqb (rq_method (sign_request c op "PUT" (record_url c op))) "POST") with true.
    cbv iota.
    rewrite Ea, (do_POST_sign v api_secret allowlist c op "PUT" (record_url c op) w rq api_secret Hd Hp' Ha Hw).
    destruct api_secret as [|a t]; [by rewrite Hsec in Hs|]. cbn [str_empty].
    rewrite (proj2 (verify_shared_secret_spec _ _)) by done. cbn [negb].
    rewrite bool_decide_true by done. cbn [negb]. by rewrite Esg. }
  rewrite (apply_run (H := network)) by done.
  assert (Hsign : NetSuite.sign (H := network) c op "PUT" (record_url c op) log
                = (Ok header, (log ++ [asked])%list)).
  { unfold NetSuite.sign, mbind, M_bind. rewrite send_or_fail_run. unfold transport. fold asked.
    rewrite Hr. change (rs_status_code (received (send_json (200%Z, payload)))) with 200%Z.
    cbn [negb Z.eqb Pos.eqb].
    unfold of_result.
    match type of Hj with ?l = _ =>
      match goal with |- context [rs_json ?r] => change (rs_json r) with l end end.
    rewrite Hj. unfold authorization_of. rewrite Hb. by destruct header. }
  rewrite Hsign. unfold upsert, mbind, M_bind. rewrite send_or_fail_run. unfold transport.
  rewrite Hrs. unfold is_2xx.
  rewrite (proj2 (Z.leb_le 200 _)), (proj2 (Z.ltb_lt _ 300)) by lia. cbn [andb negb].
  unfold mret, M_ret. by rewrite <-(assoc_L (++)%list).
Qed.

(** ** A concrete deployment *)
Module SignedDemo.
#[export] Instance httpx : Httpx := {|
  encode_json := dumps Compact;
  header_value s := if ascii_str s then Ok s else raise_r UnicodeError "'ascii' codec can't encode";
|}.
#[export] Instance httpx_laws : HttpxLaws.
Proof.
  split; [exact (loads_dumps Compact)|]. intros s Hs. cbn [header_value httpx].
  by rewrite (plain_ascii s Hs).
Qed.

(** The service holds acme's credentials; NetSuite creates what it is sent. *)
Definition at_arrival (log : list http_request) : vault InMemoryCredentialStore.memory_blobs * world InMemoryEventStore.store :=
  (VaultDemo.vault_with "x", AgentDemo.world0).

Definition network (secret : string) : Transport :=
  wired (H := Demo.externals) (H0 := VaultDemo.nonces) (vault_url NetSuiteDemo.the_client) at_arrival
    secret ["acme"] NetSuiteDemo.good.
End SignedDemo.

Section witnesses.
Import SignedDemo NetSuiteDemo WriteDemo.

Lemma write_signed_by_vault_witness :
  let '(r, log') := NetSuite.apply (H := network "s3cret") the_client (op "a") [] in
  is_ok r = true ∧ length log' = 2%nat
  ∧ ∃ header, granted the_client at_arrival "s3cret" ["acme"] [] (op "a") "PUT"
                (record_url the_client (op "a")) header.
Proof.
  destruct (NetSuite.apply (H := network "s3cret") the_client (op "a") []) as [r log'] eqn:E.
  assert (Hc : is_ok r = true ∧ length log' = 2%nat).
  { replace r with (NetSuite.apply (H := network "s3cret") the_client (op "a") []).1 by (rewrite E; reflexivity).
    replace log' with (NetSuite.apply (H := network "s3cret") the_client (op "a") []).2 by (rewrite E; reflexivity).
    vm_compute. split; reflexivity. }
  split; [apply Hc|]. split; [apply Hc|].
  destruct (write_signed_by_vault (H := Demo.externals) (H0 := VaultDemo.nonces)
      the_client at_arrival "s3cret" ["acme"] good (op "a") [] r log')
    as [[_ [msg Hr]]|[(_ & e & _ & _ & Hr)|(header & Hg & _)]];
    [by apply ascii_str_valid..|exact E| | |].
  - exfalso. rewrite Hr in Hc. destruct Hc as [Hc _]. discriminate Hc.
  - exfalso. rewrite Hr in Hc. destruct Hc as [Hc _]. discriminate Hc.
  - exists header. exact Hg.
Defined.

(** With another secret nothing is signed and nothing is sent. *)
Example other_secret_refused :
  let '(r, log') := NetSuite.apply (H := network "other") the_client (op "a") [] in
  match r with Err e => exn_cls e = ErpWriteError | Ok _ => False end
  ∧ map rq_method log' = ["POST"].
Proof. vm_compute. split; reflexivity. Qed.

(** A secret outside ASCII does not even leave the client. *)
Example unwritable_secret_escapes :
  let secret := utf8_encode [8364%N] in
  let c := Client (vault_url the_client) secret (base the_client) in
  let '(r, log') := NetSuite.apply (H := network secret) c (op "a") [] in
  match r with Err e => exn_cls e = UnicodeError ∧ isinstance e ErpWriteError = false | Ok _ => False end
  ∧ map rq_method log' = ["POST"].
Proof. vm_compute. repeat split; reflexivity. Qed.

Lemma write_goes_through_witness :
  let '(r, log') := NetSuite.apply (H := network "s3cret") the_client (op "a") [] in
  is_ok r = true ∧ map rq_method log' = ["POST"; "PUT"].
Proof.
  destruct (write_goes_through (H := Demo.externals) (H0 := VaultDemo.nonces)
      the_client at_arrival "s3cret" ["acme"] good (op "a") [] (VaultDemo.creds "x") 3)
    as (header & _ & Hrun); [by apply ascii_str_valid..| |].
  - repeat split; try (vm_compute; reflexivity); try discriminate.
    + right. by left.
    + exists "netsuite". vm_compute. reflexivity.
  - unfold network. rewrite (Hrun (HttpResponse 204 (raise_r JSONDecodeError "Expecting value") EmptyString
               (Some "/record/1")) eq_refl ltac:(split; [discriminate|reflexivity])).
    split; reflexivity.
Defined.
End witnesses.
