(* ===== verification/DbSchema.v ===== *)
(** * The database of the program (schema_registry/migrations)

    The four migrations and the two scripts that undo them, statement by
    statement in the language of Ddl.v; what they build when the runner of
    Migrate.v brings a new database up; and that the tables they build are the
    ones the stores of Ledger.v and EventStore.v work on: the statements those
    stores send, run against the columns, keys and checks declared here, give
    the answers and the rows the store models give.  The predicate of a partial
    index and the text of a COMMENT have no effect on rows and are left out. *)

From S2P Require Import Prelude PyStr PyFloat PyVal Json JsonText JsonFacts Digest Metrics Registry HashChain Contract EventStore Agent Ledger Ddl.
Local Open Scope string_scope.
Local Open Scope Z_scope.

(** ** The scripts *)

Definition col (name : string) (ty : sql_type) : column := Column name ty false Nothing None.
Definition not_null (k : column) : column :=
  Column (col_name k) (col_type k) true (col_default k) (col_check k).
Definition default_now (k : column) : column :=
  Column (col_name k) (col_type k) (col_not_null k) Now (col_check k).
Definition serial (k : column) : column :=
  Column (col_name k) (col_type k) true Serial (col_check k).
Definition checked (q : check) (k : column) : column :=
  Column (col_name k) (col_type k) (col_not_null k) (col_default k) (Some q).

Definition created_at : column := default_now (not_null (col "created_at" TIMESTAMPTZ)).

Definition schema_registry_table : table :=
  Table [not_null (col "subject" TEXT); not_null (col "version" INTEGER);
         not_null (col "json_schema" JSONB); created_at]
    ["subject"; "version"] [].

Definition event_log_table : table :=
  Table [not_null (col "id" UUID); not_null (col "subject" TEXT);
         not_null (col "schema_version" INTEGER); not_null (col "source" TEXT);
         col "correlation_id" UUID; not_null (col "payload" JSONB); created_at]
    ["id"] [ForeignKey ["subject"; "schema_version"] "schema_registry" ["subject"; "version"]].

Definition event_deadletter_table : table :=
  Table [not_null (col "id" UUID); not_null (col "subject" TEXT); not_null (col "source" TEXT);
         not_null (col "raw" JSONB); not_null (col "error" TEXT); created_at]
    ["id"] [].

Definition m0001_init : list statement :=
  [Create_table "schema_registry" schema_registry_table;
   Comment_on "schema_registry";
   Create_table "event_log" event_log_table;
   Create_index "idx_event_log_subject" (Index "event_log" ["subject"] false);
   Create_index "idx_event_log_correlation" (Index "event_log" ["correlation_id"] false);
   Create_table "event_deadletter" event_deadletter_table].

Definition journal_entry_table : table :=
  Table [not_null (col "entry_id" UUID); not_null (col "currency" (CHAR 3)); col "memo" TEXT;
         checked Above_zero (not_null (col "total_minor" BIGINT)); created_at]
    ["entry_id"] [].

Definition journal_line_table : table :=
  Table [serial (col "id" BIGINT); not_null (col "entry_id" UUID); not_null (col "account" TEXT);
         checked (One_of ["debit"; "credit"]) (not_null (col "direction" TEXT));
         checked Above_zero (not_null (col "amount_minor" BIGINT))]
    ["id"] [ForeignKey ["entry_id"] "journal_entry" ["entry_id"]].

Definition m0002_ledger : list statement :=
  [Create_table "journal_entry" journal_entry_table;
   Comment_on "journal_entry";
   Create_table "journal_line" journal_line_table;
   Create_index "idx_journal_line_entry" (Index "journal_line" ["entry_id"] false);
   Create_index "idx_journal_line_account" (Index "journal_line" ["account"] false)].

Definition m0003_tenant_isolation : list statement :=
  [Add_column "journal_entry" (col "tenant_id" TEXT);
   Add_column "journal_line" (col "tenant_id" TEXT);
   Backfill "journal_entry" "tenant_id" "unknown";
   Backfill "journal_line" "tenant_id" "unknown";
   Set_not_null "journal_entry" "tenant_id";
   Set_not_null "journal_line" "tenant_id";
   Create_index "idx_journal_entry_tenant" (Index "journal_entry" ["tenant_id"] false);
   Create_index "idx_journal_line_tenant" (Index "journal_line" ["tenant_id"] false);
   Add_column "event_log" (col "tenant_id" TEXT);
   Create_index "idx_event_log_tenant" (Index "event_log" ["tenant_id"] false)].

Definition m0003_down : list statement :=
  [Drop_index "idx_event_log_tenant";
   Drop_column "event_log" "tenant_id";
   Drop_index "idx_journal_line_tenant";
   Drop_index "idx_journal_entry_tenant";
   Drop_column "journal_line" "tenant_id";
   Drop_column "journal_entry" "tenant_id"].

Definition m0004_audit_chain : list statement :=
  [Add_column "event_log" (serial (col "seq" BIGINT));
   Add_column "event_log" (col "chain_hash" TEXT);
   Create_index "idx_event_log_seq" (Index "event_log" ["seq"] true);
   Create_index "idx_event_log_chained" (Index "event_log" ["seq"] false)].

Definition m0004_down : list statement :=
  [Drop_index "idx_event_log_chained";
   Drop_index "idx_event_log_seq";
   Drop_column "event_log" "chain_hash";
   Drop_column "event_log" "seq"].

Definition scripts : list (string * list statement) :=
  [("0001_init.sql", m0001_init); ("0002_ledger.sql", m0002_ledger);
   ("0003_tenant_isolation.sql", m0003_tenant_isolation);
   ("0004_audit_chain.sql", m0004_audit_chain);
   ("0003_tenant_isolation.down.sql", m0003_down); ("0004_audit_chain.down.sql", m0004_down)].

Definition all_up : list statement :=
  (m0001_init ++ m0002_ledger ++ m0003_tenant_isolation ++ m0004_audit_chain)%list.

(** ** What they build *)
Definition tenant_column : column := not_null (col "tenant_id" TEXT).

Definition built : database := Database
  (list_to_map
    [("schema_registry", Relation schema_registry_table []);
     ("event_log", Relation (with_columns (λ l, l ++ [col "tenant_id" TEXT; serial (col "seq" BIGINT);
                                                      col "chain_hash" TEXT])%list event_log_table) []);
     ("event_deadletter", Relation event_deadletter_table []);
     ("journal_entry", Relation (with_columns (λ l, l ++ [tenant_column])%list journal_entry_table) []);
     ("journal_line", Relation (with_columns (λ l, l ++ [tenant_column])%list journal_line_table) [])])
  (list_to_map
    [("idx_event_log_subject", Index "event_log" ["subject"] false);
     ("idx_event_log_correlation", Index "event_log" ["correlation_id"] false);
     ("idx_event_log_tenant", Index "event_log" ["tenant_id"] false);
     ("idx_event_log_seq", Index "event_log" ["seq"] true);
     ("idx_event_log_chained", Index "event_log" ["seq"] false);
     ("idx_journal_line_entry", Index "journal_line" ["entry_id"] false);
     ("idx_journal_line_account", Index "journal_line" ["account"] false);
     ("idx_journal_entry_tenant", Index "journal_entry" ["tenant_id"] false);
     ("idx_journal_line_tenant", Index "journal_line" ["tenant_id"] false)]).

Lemma all_up_builds `{PgServer} : run all_up empty_database = Ok built.
Proof. vm_compute. reflexivity. Qed.

(** ** Posting an entry, as the statements say *)
Section ledger.
Import PostgresLedgerStore.
Context `{PgServer}.

Definition opt_text (o : option string) : value := match o with Some s => SText s | None => SNull end.

(** [insert_if_absent]: the head, and when a row was written the lines. *)
Definition sql_insert_head (e : journal_entry) : M database bool :=
  insert_row "journal_entry"
    [("entry_id", SText (entry_id e)); ("tenant_id", SText (je_tenant_id e));
     ("currency", SText (je_currency e)); ("memo", opt_text (memo e));
     ("total_minor", SInt (total_debits e))] (Some ["entry_id"]).

Definition sql_insert_line (e : journal_entry) (l : journal_line) : M database unit :=
  insert_row "journal_line"
    [("entry_id", SText (entry_id e)); ("tenant_id", SText (je_tenant_id e));
     ("account", SText (account l)); ("direction", SText (direction_value (line_direction l)));
     ("amount_minor", SInt (amount_minor l))] None ;; mret tt.

Definition sql_insert_if_absent (e : journal_entry) : M database bool := transaction (
  written ← sql_insert_head e;
  if written : bool then for_each (lines e) (sql_insert_line e) ;; mret true else mret false).

(** The rows as the store model reads them. *)
Definition text_of (v : value) : option string := match v with SText s => Some s | _ => None end.
Definition text_or_null (v : value) : option (option string) :=
  match v with SText s => Some (Some s) | SNull => Some None | _ => None end.
Definition int_of (v : value) : option Z := match v with SInt z => Some z | _ => None end.
Definition uuid_of (v : value) : option (list N) := match v with SUuid b => Some b | _ => None end.

Definition head_of_row (r : gmap string value) : option head_row :=
  b ← uuid_of (cell "entry_id" r); t ← text_of (cell "tenant_id" r); c ← text_of (cell "currency" r);
  m ← text_or_null (cell "memo" r); z ← int_of (cell "total_minor" r);
  Some (HeadRow b t c m z).

Definition line_of_row (r : gmap string value) : option line_row :=
  b ← uuid_of (cell "entry_id" r); t ← text_of (cell "tenant_id" r); a ← text_of (cell "account" r);
  d ← text_of (cell "direction" r); z ← int_of (cell "amount_minor" r);
  Some (LineRow b t a d z).

(** Serial numbers count the rows. *)
Definition numbered (c : string) (rs : list (gmap string value)) : Prop :=
  ∀ n r, rs !! n = Some r → cell c r = SInt (Z.of_nat (S n)).

(** The database holds the tables of the ledger's store. *)
Definition holds_ledger (db : database) (t : tables) : Prop :=
  ∃ heads ls,
    db_relations db !! "journal_entry" = Some (Relation (with_columns (λ l, l ++ [tenant_column])%list journal_entry_table) heads)
    ∧ db_relations db !! "journal_line" = Some (Relation (with_columns (λ l, l ++ [tenant_column])%list journal_line_table) ls)
    ∧ db_indexes db = db_indexes built
    ∧ mapM head_of_row heads = Some (journal_entries t)
    ∧ mapM line_of_row ls = Some (journal_lines t)
    ∧ numbered "id" ls.

(** Texts that PostgreSQL stores: no NUL in them. *)
Definition storable_entry (e : journal_entry) : Prop :=
  storable (je_tenant_id e) = true ∧ storable (je_currency e) = true
  ∧ (∀ m, memo e = Some m → storable m = true)
  ∧ Forall (λ l, storable (account l) = true) (lines e).

Lemma utf8_decode_nil s : utf8_decode s = [] → s = EmptyString.
Proof. destruct s as [|c s]; [done|]. simpl. by repeat case_match. Qed.

Lemma char3_n s : char3 s = char_n 3 s.
Proof.
  unfold char3, char_n. destruct (utf8_decode s) as [|a [|b [|c [|d l]]]] eqn:E; simpl.
  - by rewrite (utf8_decode_nil s E).
  - done.
  - done.
  - by rewrite str_app_nil_r.
  - done.
Qed.

Lemma positive_bigint_column z : positive_bigint z = within 64 z && (0 <? z).
Proof. unfold positive_bigint, within. change (2 ^ (64 - 1)) with (2 ^ 63). lia. Qed.

Notation entry_table := (with_columns (λ l, l ++ [tenant_column])%list journal_entry_table).
Notation line_table := (with_columns (λ l, l ++ [tenant_column])%list journal_line_table).

Lemma opt_text_coerced m : (∀ s, m = Some s → storable s = true) → coerce TEXT (opt_text m) = Some (opt_text m).
Proof. destruct m as [s|]; [|done]. intros Hs. simpl. by rewrite Hs. Qed.

Lemma head_made e n :
  storable_entry e →
  make_row entry_table n
    [("entry_id", SText (entry_id e)); ("tenant_id", SText (je_tenant_id e));
     ("currency", SText (je_currency e)); ("memo", opt_text (memo e));
     ("total_minor", SInt (total_debits e))]
  = b ← pg_uuid (entry_id e); c ← char3 (je_currency e);
    if positive_bigint (total_debits e) then
      Some (list_to_map [("entry_id", SUuid b); ("currency", SText c); ("memo", opt_text (memo e));
              ("total_minor", SInt (total_debits e)); ("created_at", STime (pg_now n));
              ("tenant_id", SText (je_tenant_id e))])
    else None.
Proof.
  intros (Ht & Hc & Hm & _). rewrite positive_bigint_column, char3_n.
  unfold make_row, column_value. cbn -[coerce bool_decide within list_to_map Z.ltb positive_bigint char_n].
  rewrite (opt_text_coerced (memo e) Hm).
  unfold coerce. rewrite Ht, Hc.
  destruct (pg_uuid (entry_id e)) as [b|]; [|done].
  destruct (char_n 3 (je_currency e)) as [c|]; [|done].
  unfold mbind, option_bind, mret, option_ret, fmap, option_fmap, option_map.
  destruct (within 64 (total_debits e)); [|done]. cbn -[list_to_map Z.ltb].
  by destruct (0 <? total_debits e).
Qed.

Lemma line_made e l n :
  storable (je_tenant_id e) = true → storable (account l) = true →
  make_row line_table n
    [("entry_id", SText (entry_id e)); ("tenant_id", SText (je_tenant_id e));
     ("account", SText (account l)); ("direction", SText (direction_value (line_direction l)));
     ("amount_minor", SInt (amount_minor l))]
  = b ← pg_uuid (entry_id e);
    if positive_bigint (amount_minor l) then
      Some (list_to_map [("id", SInt (Z.of_nat (S n))); ("entry_id", SUuid b); ("account", SText (account l));
              ("direction", SText (direction_value (line_direction l)));
              ("amount_minor", SInt (amount_minor l)); ("tenant_id", SText (je_tenant_id e))])
    else None.
Proof.
  intros Ht Ha. rewrite positive_bigint_column.
  unfold make_row, column_value. cbn -[coerce within list_to_map Z.ltb Z.of_nat bool_decide direction_value].
  unfold coerce. rewrite Ht, Ha. destruct (pg_uuid (entry_id e)) as [b|]; [|done].
  unfold mbind, option_bind, mret, option_ret, fmap, option_fmap, option_map.
  destruct (line_direction l); cbn -[list_to_map Z.ltb within Z.of_nat];
    (destruct (within 64 (amount_minor l)); [|done]); cbn -[list_to_map Z.ltb Z.of_nat];
    by destruct (0 <? amount_minor l).
Qed.

(** ** Simulation *)

(** The same answer, or both refused by the database. *)
Definition same_answer {A} (r r' : result A) : Prop :=
  match r, r' with
  | Ok a, Ok b => a = b
  | Err x, Err y => exn_cls x = DatabaseError ∧ exn_cls y = DatabaseError
  | _, _ => False
  end.

Lemma mapM_snoc {A B} (f : A → option B) l a (ys : list B) y :
  mapM f l = Some ys → f a = Some y → mapM f (l ++ [a])%list = Some (ys ++ [y])%list.
Proof.
  rewrite !mapM_Some. intros Hl Ha. apply Forall2_app; [done|]. by constructor.
Qed.

Lemma taken_mapM {B} (f : gmap string value → option B) (k : B → list N) c b r rs (ys : list B) :
  (∀ x y, f x = Some y → cell c x = SUuid (k y)) → cell c r = SUuid b → mapM f rs = Some ys →
  taken [c] r rs = bool_decide (b ∈ k <$> ys).
Proof.
  intros Hf Hr. rewrite mapM_Some. induction 1 as [|x y rs ys Hx Hrest IH]; [done|].
  cbn [taken existsb]. change (existsb (same_key [c] r) rs) with (taken [c] r rs). rewrite IH.
  unfold same_key, key_of. cbn [map existsb]. rewrite Hr, (Hf _ _ Hx). cbn [null orb negb].
  rewrite andb_true_r, fmap_cons. apply Bool.eq_true_iff_eq. rewrite orb_true_iff, !bool_decide_eq_true, elem_of_cons.
  split; intros [E|?]; auto; left; congruence.
Qed.

Lemma head_of_row_id x h : head_of_row x = Some h → cell "entry_id" x = SUuid (h_entry_id h).
Proof.
  unfold head_of_row. destruct (cell "entry_id" x); try done. simpl.
  intros E. by simplify_option_eq.
Qed.

Lemma no_unique_keys db name :
  db_indexes db = db_indexes built → name = "journal_entry" ∨ name = "journal_line" →
  unique_keys name db = [].
Proof. unfold unique_keys. intros ->. intros [->| ->]; vm_compute; reflexivity. Qed.

Lemma insert_head_refines e b db t r t' :
  storable_entry e → pg_uuid (entry_id e) = Some b → holds_ledger db t →
  insert_head b e t = (r, t') →
  ∃ r' db', sql_insert_head e db = (r', db') ∧ holds_ledger db' t' ∧ same_answer r r'.
Proof.
  intros He Hb (heads & ls & Hh & Hl & Hix & Mh & Ml & Hn). unfold sql_insert_head, insert_row.
  rewrite Hh. cbn [rel_table rel_rows]. rewrite head_made, Hb by done. cbn [mbind option_bind].
  unfold insert_head. intros E.
  assert (Hsame : holds_ledger db t) by (by exists heads, ls).
  destruct (char3 (je_currency e)) as [c|]; cbn [mbind option_bind];
    [|injection E as <- <-; by eexists _, _].
  destruct (positive_bigint (total_debits e)); [|injection E as <- <-; by eexists _, _].
  set (row := list_to_map _).
  assert (Hid : cell "entry_id" row = SUuid b) by reflexivity.
  assert (Hrow : head_of_row row = Some (HeadRow b (je_tenant_id e) c (memo e) (total_debits e))).
  { subst row. destruct (memo e); reflexivity. }
  change (primary_key entry_table) with ["entry_id"]. rewrite bool_decide_true by done. cbn [negb].
  rewrite (taken_mapM head_of_row h_entry_id "entry_id" b row heads _ head_of_row_id Hid Mh).
  case_decide as Hin; [rewrite bool_decide_true by done|rewrite bool_decide_false by done].
  { injection E as <- <-. by eexists _, _. }
  rewrite no_unique_keys by auto. cbn [existsb].
  change (foreign_keys entry_table) with (@nil foreign_key). cbn [forallb].
  injection E as <- <-. eexists _, _. split; [done|]. split; [|done].
  exists (heads ++ [row])%list, ls. unfold put. cbn [db_relations db_indexes].
  rewrite lookup_insert_eq, lookup_insert_ne by done. split_and!; try done.
  by apply mapM_snoc.
Qed.

Lemma taken_numbered c r rs :
  numbered c rs → cell c r = SInt (Z.of_nat (S (length rs))) → taken [c] r rs = false.
Proof.
  intros Hn Hr. unfold taken. apply not_true_is_false. intros (x & Hx & Hk)%existsb_exists.
  apply list_elem_of_In, list_elem_of_lookup_1 in Hx as [i Hi]. pose proof (Hn _ _ Hi) as Hxi.
  apply lookup_lt_Some in Hi. unfold same_key, key_of in Hk. cbn [map existsb] in Hk.
  rewrite Hr, Hxi in Hk. apply andb_true_iff in Hk as [Hk _]. apply bool_decide_eq_true in Hk.
  injection Hk as Hk. lia.
Qed.

Lemma numbered_snoc c r rs :
  numbered c rs → cell c r = SInt (Z.of_nat (S (length rs))) → numbered c (rs ++ [r]).
Proof.
  intros Hn Hr i x Hi. apply lookup_app_Some in Hi as [Hi|[Hl Hi]]; [by apply Hn|].
  apply list_lookup_singleton_Some in Hi as [Hi <-]. rewrite Hr. do 2 f_equal. lia.
Qed.

Lemma insert_line_refines e b l db t r t' :
  storable (je_tenant_id e) = true → storable (account l) = true →
  pg_uuid (entry_id e) = Some b → b ∈ h_entry_id <$> journal_entries t → holds_ledger db t →
  insert_line b e l t = (r, t') →
  ∃ r' db', sql_insert_line e l db = (r', db') ∧ holds_ledger db' t' ∧ same_answer r r'.
Proof.
  intros Ht Ha Hb Hin (heads & ls & Hh & Hl & Hix & Mh & Ml & Hn).
  assert (Hsame : holds_ledger db t) by (by exists heads, ls).
  unfold sql_insert_line, mbind, M_bind, insert_row. rewrite Hl. cbn [rel_table rel_rows].
  rewrite line_made, Hb by done. cbn [mbind option_bind]. unfold insert_line. intros E.
  destruct (positive_bigint (amount_minor l)); [|injection E as <- <-; by eexists _, _].
  set (row := list_to_map _).
  assert (Hid : cell "id" row = SInt (Z.of_nat (S (length ls)))) by reflexivity.
  assert (Hrow : line_of_row row = Some (line_row_of b e l)) by reflexivity.
  change (primary_key line_table) with ["id"]. rewrite taken_numbered by done.
  rewrite no_unique_keys by auto. cbn [existsb].
  assert (Hfk : forallb (references db row) (foreign_keys line_table) = true).
  { change (foreign_keys line_table) with [ForeignKey ["entry_id"] "journal_entry" ["entry_id"]].
    cbn [forallb]. rewrite andb_true_r. unfold references, rows_of. cbn [fk_columns fk_table fk_target].
    rewrite Hh. cbn [rel_rows]. apply orb_true_iff. right. apply existsb_exists.
    apply list_elem_of_fmap in Hin as (h & -> & Hin). apply mapM_Some in Mh.
    apply list_elem_of_lookup_1 in Hin as [i Hi].
    destruct (Forall2_lookup_r _ _ _ _ _ Mh Hi) as (x & Hx & Hxh). exists x.
    split; [by apply list_elem_of_In; eapply list_elem_of_lookup_2|].
    apply bool_decide_eq_true. unfold key_of. cbn [map]. by rewrite (head_of_row_id _ _ Hxh). }
  rewrite Hfk. injection E as <- <-. eexists _, _. split; [done|]. split; [|done].
  exists heads, (ls ++ [row])%list. unfold put. cbn [db_relations db_indexes].
  rewrite lookup_insert_eq, lookup_insert_ne by done. split_and!; try done.
  - by apply mapM_snoc.
  - by apply numbered_snoc.
Qed.

Lemma insert_lines_refine e b todo db t r t' :
  storable (je_tenant_id e) = true → Forall (λ l, storable (account l) = true) todo →
  pg_uuid (entry_id e) = Some b → b ∈ h_entry_id <$> journal_entries t → holds_ledger db t →
  for_each todo (insert_line b e) t = (r, t') →
  ∃ r' db', for_each todo (sql_insert_line e) db = (r', db') ∧ holds_ledger db' t' ∧ same_answer r r'.
Proof.
  intros Ht Ha Hb. revert db t. induction Ha as [|l todo Hl Ha IH]; intros db t Hin Hdb.
  { intros [= <- <-]. by eexists _, _. }
  cbn [for_each]. unfold mbind, M_bind. intros E.
  destruct (insert_line b e l t) as [r1 t1] eqn:E1.
  destruct (insert_line_refines e b l db t r1 t1) as (r1' & db1 & Es & Hdb1 & Hans); [done..|].
  rewrite Es. destruct r1 as [[]|x], r1' as [[]|y]; try done.
  - apply (IH db1 t1); [|done|done]. unfold insert_line in E1.
    destruct (positive_bigint _); [|done]. by injection E1 as <-.
  - injection E as <- <-. by eexists _, _.
Qed.

Lemma insert_head_there b e t t' : insert_head b e t = (Ok true, t') → b ∈ h_entry_id <$> journal_entries t'.
Proof.
  unfold insert_head. destruct (char3 _); [|done]. destruct (positive_bigint _); [|done].
  case_decide; [done|]. intros [= <-]. cbn [journal_entries]. rewrite fmap_app. apply elem_of_app.
  right. by left.
Qed.

(** C11: the store's tables are the migrated tables.  The database the four
    migrations build holds the empty tables of the ledger's store; and on any
    database that holds the store's tables, the transaction of
    [insert_if_absent], its statements run against the declared columns, types,
    defaults, NOT NULLs, CHECKs, keys and references, answers what the store
    model answers (or both are refused by the database), and leaves a database
    that holds the tables the model leaves.  The entry's texts are taken to
    hold no NUL, which PostgreSQL refuses. *)
Theorem ledger_on_tables :
  run all_up empty_database = Ok built ∧ holds_ledger built (Tables [] [])
  ∧ ∀ e db t, storable_entry e → holds_ledger db t →
      ∃ r' db', sql_insert_if_absent e db = (r', db') ∧ holds_ledger db' (pg_insert e t).2
                ∧ same_answer (pg_insert e t).1 r'.
Proof.
  split; [apply all_up_builds|]. split.
  { exists [], []. split_and!; try reflexivity. intros n r Hr. by rewrite lookup_nil in Hr. }
  intros e db t He Hdb. unfold pg_insert, sql_insert_if_absent, transaction.
  destruct (pg_uuid (entry_id e)) as [b|] eqn:Eb.
  2:{ assert (Hno : sql_insert_head e db = (db_error "a value was refused", db)).
      { destruct Hdb as (heads & ls & Hh & _). unfold sql_insert_head, insert_row. rewrite Hh.
        by rewrite head_made, Eb by done. }
      unfold mbind, M_bind. rewrite Hno. by eexists _, _. }
  unfold mbind, M_bind. destruct (insert_head b e t) as [r1 t1] eqn:E1.
  destruct (insert_head_refines e b db t r1 t1) as (r1' & db1 & Es & Hdb1 & Hans); [done..|].
  rewrite Es. destruct r1 as [[]|x], r1' as [w|y]; try done; [simpl in Hans; subst w|simpl in Hans; subst w|by eexists _, _].
  2:{ by eexists _, _. }
  destruct (for_each (lines e) (insert_line b e) t1) as [r2 t2] eqn:E2.
  destruct He as (Ht & Hc & Hm & Ha).
  destruct (insert_lines_refine e b (lines e) db1 t1 r2 t2) as (r2' & db2 & Es2 & Hdb2 & Hans2);
    [done|done|done|by eapply insert_head_there|done|done|].
  rewrite Es2. destruct r2 as [[]|x], r2' as [[]|y]; try done; by eexists _, _.
Qed.
End ledger.

(** ** Recording an event, as the statements say *)
Section events.
Context `{PgServer}.
Import PostgresEventStore.

Definition opt_uuid (o : option (list N)) : value := match o with Some b => SUuid b | None => SNull end.

Definition seq_of (r : gmap string value) : Z := default 0 (int_of (cell "seq" r)).

(** [WHERE chain_hash IS NOT NULL ORDER BY seq DESC LIMIT 1]. *)
Fixpoint newest (rs : list (gmap string value)) : option (gmap string value) :=
  match rs with
  | [] => None
  | r :: rs =>
      let x := newest rs in
      if is_null "chain_hash" r then x else
      match x with
      | Some y => if seq_of y <? seq_of r then Some r else x
      | None => Some r
      end
  end.

Definition select_tip (db : database) : string :=
  default GENESIS_HASH (r ← newest (rows_of "event_log" db); text_of (cell "chain_hash" r)).

Definition sql_record_event (e : event) : M database unit := transaction (
  prev ← gets select_tip;
  insert_row "event_log"
    [("id", opt_uuid (as_uuid (VStr (ev_id e)))); ("subject", SText (ev_subject e));
     ("schema_version", SInt (ev_schema_version e)); ("source", SText (ev_source e));
     ("correlation_id", opt_uuid (as_uuid (opt_str (ev_correlation_id e))));
     ("tenant_id", opt_text (ev_tenant_id e)); ("payload", SJson (ev_payload e));
     ("chain_hash", SText (chain_hash prev (chain_envelope e)))] (Some ["id"]) ;;
  mret tt).

Definition uuid_or_null (v : value) : option (option (list N)) :=
  match v with SUuid b => Some (Some b) | SNull => Some None | _ => None end.
Definition json_of (v : value) : option pydict := match v with SJson d => Some d | _ => None end.
Definition time_of (v : value) : option string := match v with STime t => Some t | _ => None end.

Definition event_of_row (r : gmap string value) : option row :=
  i ← uuid_of (cell "id" r); s ← text_of (cell "subject" r); v ← int_of (cell "schema_version" r);
  src ← text_of (cell "source" r); c ← uuid_or_null (cell "correlation_id" r);
  t ← text_or_null (cell "tenant_id" r); p ← json_of (cell "payload" r);
  h ← text_or_null (cell "chain_hash" r); n ← int_of (cell "seq" r); at_ ← time_of (cell "created_at" r);
  Some (Row i s v src c t p h n at_).

Notation event_table := (with_columns (λ l, l ++ [col "tenant_id" TEXT; serial (col "seq" BIGINT);
                                                   col "chain_hash" TEXT])%list event_log_table).

(** [record_deadletter]: the fields of the envelope as the driver passes them. *)
Definition sql_record_deadletter (envelope : pydict) : M database unit := transaction (
  subject ← of_result (as_opt_str (get_or "subject" VNone envelope));
  source ← of_result (as_opt_str (get_or "source" VNone envelope));
  error ← of_result (as_opt_str (get_or "error" VNone envelope));
  insert_row "event_deadletter"
    [("id", opt_uuid (as_uuid (get_or "id" VNone envelope))); ("subject", opt_text subject);
     ("source", opt_text source); ("raw", SJson envelope); ("error", opt_text error)] (Some ["id"]) ;;
  mret tt).

Definition dead_of_row (r : gmap string value) : option dead_row :=
  i ← uuid_of (cell "id" r); s ← text_of (cell "subject" r); src ← text_of (cell "source" r);
  raw ← json_of (cell "raw" r); e ← text_of (cell "error" r);
  Some (DeadRow i s src raw e).

(** The database holds the event log and the schema keys of the event store,
    and its dead letters. *)
Definition holds_log (db : database) (t : tables) : Prop :=
  ∃ rs keys,
    db_relations db !! "event_log" = Some (Relation event_table rs)
    ∧ db_relations db !! "schema_registry" = Some (Relation schema_registry_table keys)
    ∧ db_indexes db = db_indexes built
    ∧ mapM event_of_row rs = Some (event_log t)
    ∧ numbered "seq" rs
    ∧ ∀ s v, (s, v) ∈ schemas t ↔ Exists (λ k, key_of ["subject"; "version"] k = [SText s; SInt v]) keys.

Definition holds_quarantine (db : database) (t : tables) : Prop :=
  ∃ ds, db_relations db !! "event_deadletter" = Some (Relation event_deadletter_table ds)
    ∧ mapM dead_of_row ds = Some (event_deadletter t).

Definition holds_events (db : database) (t : tables) : Prop := holds_log db t ∧ holds_quarantine db t.

Definition storable_event (e : event) : Prop :=
  storable (ev_subject e) = true ∧ storable (ev_source e) = true
  ∧ (∀ t, ev_tenant_id e = Some t → storable t = true)
  ∧ within 32 (ev_schema_version e) = true.

Definition storable_envelope (envelope : pydict) : Prop :=
  Forall (λ k, ∃ o, as_opt_str (get_or k VNone envelope) = Ok o ∧ (∀ s, o = Some s → storable s = true))
    ["subject"; "source"; "error"].

(** A chain hash is hex digits. *)
Lemma storable_app a b : storable (a +:+ b) = storable a && storable b.
Proof. induction a as [|c a IH]; simpl; [done|]. by rewrite IH, andb_assoc. Qed.

Lemma storable_hex2 n : (n < 256)%N → storable (hex2 n) = true.
Proof.
  intros Hn. assert (Hall : forallb (λ n, storable (hex2 n)) (map N.of_nat (seq 0 256)) = true)
    by (vm_compute; reflexivity).
  rewrite forallb_forall in Hall. apply Hall, in_map_iff. exists (N.to_nat n). rewrite N2Nat.id.
  split; [done|]. apply in_seq. lia.
Qed.

Lemma be_bytes_small k n : Forall (λ b, (b < 256)%N) (be_bytes k n).
Proof.
  revert n. induction k as [|k IH]; intros n; [constructor|]. simpl. apply Forall_app.
  split; [apply IH|]. constructor; [|constructor].
  change 255%N with (N.ones 8). rewrite N.land_ones. by apply N.mod_lt.
Qed.

Lemma storable_hexdigest l : Forall (λ b, (b < 256)%N) l → storable (hexdigest l) = true.
Proof. induction 1 as [|b l Hb Hl IH]; [done|]. cbn [hexdigest]. by rewrite storable_app, storable_hex2, IH. Qed.

Lemma storable_chain_hash prev e : storable (chain_hash prev e) = true.
Proof.
  unfold chain_hash, sha256_hex. rewrite storable_app. apply andb_true_iff. split; [done|].
  apply storable_hexdigest. unfold sha256. generalize (foldl compress256 h256 (blocks_of (bytes_of (material prev e)))).
  intros l. induction l as [|w l IH]; [constructor|].
  change (mbind (be_bytes 4) (w :: l)) with (be_bytes 4 w ++ mbind (be_bytes 4) l)%list.
  apply Forall_app. split; [apply be_bytes_small|exact IH].
Qed.

Lemma event_made e h n :
  storable_event e → storable h = true →
  make_row event_table n
    [("id", opt_uuid (as_uuid (VStr (ev_id e)))); ("subject", SText (ev_subject e));
     ("schema_version", SInt (ev_schema_version e)); ("source", SText (ev_source e));
     ("correlation_id", opt_uuid (as_uuid (opt_str (ev_correlation_id e))));
     ("tenant_id", opt_text (ev_tenant_id e)); ("payload", SJson (ev_payload e)); ("chain_hash", SText h)]
  = b ← as_uuid (VStr (ev_id e)); p ← jsonb (ev_payload e);
    Some (list_to_map [("id", SUuid b); ("subject", SText (ev_subject e));
      ("schema_version", SInt (ev_schema_version e)); ("source", SText (ev_source e));
      ("correlation_id", opt_uuid (as_uuid (opt_str (ev_correlation_id e)))); ("payload", SJson p);
      ("created_at", STime (pg_now n)); ("tenant_id", opt_text (ev_tenant_id e));
      ("seq", SInt (Z.of_nat (S n))); ("chain_hash", SText h)]).
Proof.
  intros (Hs & Hsrc & Ht & Hv) Hh. unfold make_row, column_value.
  cbn -[coerce within list_to_map Z.of_nat as_uuid].
  rewrite (opt_text_coerced _ Ht). unfold coerce. rewrite Hs, Hsrc, Hv, Hh.
  unfold mbind, option_bind, mret, option_ret, fmap, option_fmap, option_map.
  destruct (as_uuid (VStr (ev_id e))) as [b|]; [|done]. cbn [opt_uuid].
  destruct (jsonb (ev_payload e)) as [p|]; [|by destruct (as_uuid (opt_str (ev_correlation_id e)))].
  by destruct (as_uuid (opt_str (ev_correlation_id e))).
Qed.

Lemma event_of_row_fields x r :
  event_of_row x = Some r →
  cell "id" x = SUuid (row_id r) ∧ text_or_null (cell "chain_hash" x) = Some (row_chain_hash r).
Proof.
  unfold event_of_row. destruct (cell "id" x); try done. cbn [uuid_of mbind option_bind].
  intros E. by simplify_option_eq.
Qed.

Lemma newest_last n rs hs :
  (∀ i r, rs !! i = Some r → seq_of r = n + Z.of_nat i) →
  Forall2 (λ r h, text_or_null (cell "chain_hash" r) = Some h) rs hs →
  (newest rs ≫= λ r, text_of (cell "chain_hash" r)) = last (omap id hs)
  ∧ ∀ y, newest rs = Some y → n ≤ seq_of y ∧ is_Some (text_of (cell "chain_hash" y)).
Proof.
  intros Hn Hf. revert n Hn. induction Hf as [|r h rs hs Hr Hf IH]; intros n Hn; [done|].
  destruct (IH (n + 1)) as [IH1 IH2].
  { intros i x Hx. rewrite (Hn (S i) x Hx). lia. }
  pose proof (Hn 0%nat r eq_refl) as Hseq. cbn [newest]. unfold is_null.
  destruct (cell "chain_hash" r) as [|s| | | |] eqn:Ec; try done; simpl in Hr; injection Hr as <-; cbn [null].
  - split; [exact IH1|]. intros y Hy. destruct (IH2 y Hy). split; [lia|done].
  - change (omap id (Some s :: hs)) with (s :: omap id hs).
    destruct (newest rs) as [y|] eqn:Ey.
    + destruct (IH2 y eq_refl) as [Hy [u Hu]]. rewrite (proj2 (Z.ltb_ge (seq_of y) (seq_of r))) by lia. split.
      * simpl in IH1 |- *. rewrite IH1. rewrite Hu in IH1. by destruct (omap id hs).
      * intros y' [= <-]. split; [lia|by exists u].
    + simpl in IH1 |- *. rewrite Ec. split.
      * symmetry in IH1. apply last_None in IH1. by rewrite IH1.
      * intros y' [= <-]. rewrite Ec. split; [lia|by eexists].
Qed.

Lemma tip_selected db t : holds_log db t → select_tip db = last_hash t.
Proof.
  intros (rs & keys & Hr & _ & _ & Hm & Hn & _). unfold select_tip, rows_of, last_hash, tip.
  rewrite Hr. cbn [rel_rows]. apply mapM_Some in Hm.
  destruct (newest_last 1 rs (row_chain_hash <$> event_log t)) as [E _].
  - intros i r Hi. unfold seq_of. rewrite (Hn _ _ Hi). simpl. lia.
  - apply Forall2_fmap_r. eapply Forall2_impl; [exact Hm|]. intros x r Hx. simpl.
    by apply event_of_row_fields.
  - f_equal. rewrite E. f_equal. clear. induction (event_log t) as [|r l IH]; [done|].
    rewrite fmap_cons. cbn [omap list_omap id]. rewrite <-IH. by destruct (row_chain_hash r).
Qed.

Lemma event_recorded e db t :
  storable_event e → holds_events db t →
  ∃ r' db', sql_record_event e db = (r', db') ∧ holds_events db' (pg_record e t).2
            ∧ same_answer (pg_record e t).1 r'.
Proof.
  intros He Hdb. pose proof (tip_selected db t (proj1 Hdb)) as Htip. pose proof Hdb as Hsame.
  destruct Hdb as [Hlog (ds & Hd & Hdm)]. destruct Hlog as (rs & keys & Hr & Hk & Hix & Hm & Hn & Hkeys).
  unfold sql_record_event, pg_record, transaction, mbind, M_bind, gets, insert_row. rewrite Htip, Hr.
  set (h := chain_hash _ _). rewrite event_made by (done || apply storable_chain_hash).
  destruct (as_uuid (VStr (ev_id e))) as [b|]; cbn [mbind option_bind]; [|by eexists _, _].
  destruct (jsonb (ev_payload e)) as [p|]; cbn [mbind option_bind]; [|by eexists _, _].
  set (x := list_to_map _). cbn [rel_table rel_rows].
  assert (Hid : cell "id" x = SUuid b) by reflexivity.
  change (primary_key event_table) with ["id"]. rewrite bool_decide_true by done. cbn [negb].
  rewrite (taken_mapM event_of_row row_id "id" b x rs (event_log t)); [|intros ? ? E; apply (event_of_row_fields _ _ E)|done|done].
  case_decide as Hin; [rewrite bool_decide_true by done|rewrite bool_decide_false by done].
  { by eexists _, _. }
  assert (Hu : unique_keys "event_log" db = [["seq"]])
    by (unfold unique_keys; rewrite Hix; vm_compute; reflexivity).
  rewrite Hu. cbn [existsb]. rewrite taken_numbered by done. cbn [orb].
  assert (Hlen : length rs = length (event_log t)) by (apply mapM_Some in Hm; by eapply Forall2_length).
  assert (Hfk : forallb (references db x) (foreign_keys event_table)
                = bool_decide ((ev_subject e, ev_schema_version e) ∈ schemas t)).
  { change (foreign_keys event_table) with
      [ForeignKey ["subject"; "schema_version"] "schema_registry" ["subject"; "version"]].
    cbn [forallb]. rewrite andb_true_r. unfold references, rows_of. cbn [fk_columns fk_table fk_target].
    rewrite Hk. cbn [rel_rows]. change (key_of ["subject"; "schema_version"] x)
      with [SText (ev_subject e); SInt (ev_schema_version e)]. cbn [existsb null orb].
    apply Bool.eq_true_iff_eq. rewrite bool_decide_eq_true, Hkeys, existsb_exists, Exists_exists.
    setoid_rewrite list_elem_of_In. by setoid_rewrite bool_decide_eq_true. }
  rewrite Hfk. case_decide as Hs; [rewrite bool_decide_true by done|rewrite bool_decide_false by done];
    [|by eexists _, _].
  eexists _, _. split; [done|]. split; [|done].
  split; [|exists ds; unfold put; cbn [db_relations snd event_deadletter]; by rewrite lookup_insert_ne].
  exists (rs ++ [x])%list, keys. unfold put. cbn [db_relations db_indexes fst snd event_log schemas].
  rewrite lookup_insert_eq, lookup_insert_ne by done. split_and!; try done.
  - apply mapM_snoc; [done|]. subst x. rewrite <-Hlen.
    by destruct (ev_tenant_id e), (as_uuid (opt_str (ev_correlation_id e))).
  - by apply numbered_snoc.
Qed.

(** The row of a dead letter. *)
Lemma dead_made env o1 o2 o3 n :
  (∀ s, o1 = Some s → storable s = true) → (∀ s, o2 = Some s → storable s = true) →
  (∀ s, o3 = Some s → storable s = true) →
  make_row event_deadletter_table n
    [("id", opt_uuid (as_uuid (get_or "id" VNone env))); ("subject", opt_text o1);
     ("source", opt_text o2); ("raw", SJson env); ("error", opt_text o3)]
  = b ← as_uuid (get_or "id" VNone env); p ← jsonb env; s ← o1; src ← o2; er ← o3;
    Some (list_to_map [("id", SUuid b); ("subject", SText s); ("source", SText src); ("raw", SJson p);
      ("error", SText er); ("created_at", STime (pg_now n))]).
Proof.
  intros H1 H2 H3. unfold make_row, column_value.
  cbn -[coerce list_to_map as_uuid get_or].
  rewrite (opt_text_coerced _ H1), (opt_text_coerced _ H2), (opt_text_coerced _ H3). unfold coerce.
  unfold mbind, option_bind, mret, option_ret, fmap, option_fmap, option_map.
  destruct (as_uuid _) as [b|]; [|done]. cbn [opt_uuid].
  by destruct (jsonb env) as [p|], o1, o2, o3.
Qed.

Lemma dead_letter_recorded env db t :
  storable_envelope env → holds_events db t →
  ∃ r' db', sql_record_deadletter env db = (r', db') ∧ holds_events db' (pg_record_dead env t).2
            ∧ same_answer (pg_record_dead env t).1 r'.
Proof.
  intros He Hdb. pose proof Hdb as [(rs & keys & Hr & Hk & Hix & Hlog) (ds & Hd & Hm)].
  apply Forall_cons in He as [(o1 & E1 & S1) He]. apply Forall_cons in He as [(o2 & E2 & S2) He].
  apply Forall_cons in He as [(o3 & E3 & S3) _].
  unfold sql_record_deadletter, pg_record_dead, dead_row_of, column, transaction, of_result, mbind, M_bind, insert_row.
  rewrite E1, E2, E3, Hd, dead_made by done.
  destruct (as_uuid _) as [b|]; cbn [mbind option_bind]; [|by eexists _, _].
  destruct (jsonb env) as [p|]; cbn [mbind option_bind]; [|by eexists _, _].
  destruct o1 as [s1|]; cbn [mbind option_bind result_bind]; [|by eexists _, _].
  destruct o2 as [s2|]; cbn [mbind option_bind result_bind]; [|by eexists _, _].
  destruct o3 as [s3|]; cbn [mbind option_bind result_bind]; [|by eexists _, _].
  set (x := list_to_map _). cbn [rel_table rel_rows].
  change (primary_key event_deadletter_table) with ["id"]. rewrite bool_decide_true by done. cbn [negb].
  rewrite (taken_mapM dead_of_row dead_id "id" b x ds (event_deadletter t)); [| |done|done].
  2:{ intros y d E. unfold dead_of_row in E. destruct (cell "id" y); try done.
      cbn [uuid_of mbind option_bind] in E. by simplify_option_eq. }
  cbn [dead_id]. case_decide as Hin; [rewrite bool_decide_true by done|rewrite bool_decide_false by done].
  { by eexists _, _. }
  assert (Hu : unique_keys "event_deadletter" db = [])
    by (unfold unique_keys; rewrite Hix; vm_compute; reflexivity).
  rewrite Hu. change (foreign_keys event_deadletter_table) with (@nil foreign_key). cbn [existsb forallb].
  eexists _, _. split; [done|]. split; [|done]. split.
  - exists rs, keys. unfold put. cbn [db_relations db_indexes fst snd event_log schemas].
    by rewrite !lookup_insert_ne.
  - exists (ds ++ [x])%list. unfold put. cbn [db_relations snd event_deadletter].
    rewrite lookup_insert_eq. split; [done|]. by apply mapM_snoc.
Qed.

(** C12: the event store works on the migrated tables.  On any database that
    holds the event log, the dead letters and the schema keys of the store, the
    transactions of [record_event] (its SELECT of the newest hash, its INSERT)
    and of [record_deadletter], run against the declared columns, identity, keys
    and the reference to the schema table, answer what the store model answers
    (or both are refused), and leave a database that holds what the model
    leaves; the database the migrations build holds the empty store.  Texts are
    taken to hold no NUL, a schema version to fit an INTEGER, and the texts of
    an envelope to be texts or missing. *)
Theorem events_on_tables :
  holds_events built (Tables [] [] ∅)
  ∧ ∀ db t, holds_events db t →
      (∀ e, storable_event e → ∃ r' db', sql_record_event e db = (r', db')
         ∧ holds_events db' (pg_record e t).2 ∧ same_answer (pg_record e t).1 r')
      ∧ (∀ env, storable_envelope env → ∃ r' db', sql_record_deadletter env db = (r', db')
         ∧ holds_events db' (pg_record_dead env t).2 ∧ same_answer (pg_record_dead env t).1 r').
Proof.
  split.
  - split; [|by exists []]. exists [], []. split_and!; try reflexivity; [intros n r Hr; by rewrite lookup_nil in Hr|].
    intros s v. rewrite Exists_nil. set_solver.
  - intros db t Hdb. split; intros; [by apply event_recorded|by apply dead_letter_recorded].
Qed.
End events.

(** ** Examples *)
Section witnesses.
Import EventStore.PostgresEventStore.
Import Ledger.PostgresLedgerStore.
#[local] Existing Instance demo_server.

Definition march_rent : journal_entry :=
  JournalEntry uuid0 "acme" "USD" [JournalLine "rent" DEBIT 900; JournalLine "bank" CREDIT 900] (Some "march").

Lemma ledger_on_tables_witness :
  ∃ db', sql_insert_if_absent march_rent built = (Ok true, db')
    ∧ holds_ledger db' (pg_insert march_rent (Tables [] [])).2.
Proof.
  destruct ledger_on_tables as (_ & Hb & Hall).
  destruct (Hall march_rent built (Tables [] [])) as (r' & db' & E & Hdb & Hr); [|exact Hb|].
  - split; [reflexivity|]. split; [reflexivity|]. split; [by intros m [= <-]|]. by repeat constructor.
  - exists db'. split; [|exact Hdb]. rewrite E.
    assert (Hok : (pg_insert march_rent (Tables [] [])).1 = Ok true) by (vm_compute; reflexivity).
    rewrite Hok in Hr. clear -Hr. destruct r' as [b|]; [by simpl in Hr; subst|done].
Defined.

(** The schema of the event, registered. *)
Definition registered : database :=
  (insert_row "schema_registry"
     [("subject", SText "ledger.posted"); ("version", SInt 1); ("json_schema", SJson [])] None built).2.

Definition registered_rows : list (gmap string value) := rows_of "schema_registry" registered.

Lemma registered_holds : holds_events registered tables0.
Proof.
  split; [|exists []; split; vm_compute; reflexivity].
  exists [], registered_rows. split_and!; try (vm_compute; reflexivity).
  - intros n r Hr. by rewrite lookup_nil in Hr.
  - intros s v. unfold tables0. cbn [schemas]. rewrite elem_of_singleton.
    assert (Hk : key_of ["subject"; "version"] <$> registered_rows = [[SText "ledger.posted"; SInt 1]])
      by (vm_compute; reflexivity).
    destruct registered_rows as [|k [|? ?]]; [done| |done]. rewrite !fmap_cons in Hk.
    assert (Hc : key_of ["subject"; "version"] k = [SText "ledger.posted"; SInt 1]) by congruence.
    rewrite Exists_cons, Exists_nil, Hc. split; [intros [= -> ->]; by left|intros [[= -> ->]|[]]; done].
Qed.

Lemma events_on_tables_witness :
  ∃ db', sql_record_event (posted_event uuid0) registered = (Ok tt, db')
    ∧ holds_events db' (pg_record (posted_event uuid0) tables0).2.
Proof.
  destruct events_on_tables as (_ & Hall).
  destruct (proj1 (Hall registered tables0 registered_holds) (posted_event uuid0)) as (r' & db' & E & Hdb & Hr).
  - split; [reflexivity|]. split; [reflexivity|]. split; [by intros t [= <-]|reflexivity].
  - exists db'. split; [|exact Hdb]. rewrite E.
    assert (Hok : (pg_record (posted_event uuid0) tables0).1 = Ok tt) by (vm_compute; reflexivity).
    rewrite Hok in Hr. clear -Hr. destruct r' as [[]|]; [done|]. by simpl in Hr.
Defined.
End witnesses.
