(* ===== verification/Upgrade.v ===== *)
(** * Upgrading a database in use (scripts/migrate.py on schema_registry/migrations)

    The tenant and the audit-chain migrations of DbSchema.v on tables that have
    rows in them, and the runner of Migrate.v on the directory of the
    repository: what it builds, what it leaves alone, and that rolling back
    gives the database there was. *)

From S2P Require Import Prelude PyStr PyFloat PyVal Json JsonText JsonFacts Digest Metrics Files Migrate Registry HashChain Contract EventStore Agent Ledger Ddl DbSchema.
Local Open Scope string_scope.
Local Open Scope Z_scope.

(** ** Upgrading a database with rows in it *)
Section upgrade.
Context `{PgServer}.

Lemma run_step st l db db1 : exec st db = Ok db1 → run (st :: l) db = run l db1.
Proof. intros E. cbn [run]. by rewrite E. Qed.

(** A column that every row can be given. *)
Lemma add_cells_total n c rs :
  (∀ n, is_Some (column_value n [] c)) → ∃ rs', add_cells n c rs = Some rs'.
Proof.
  intros Hc. revert n. induction rs as [|r rs IH]; intros n; [by eexists|]. cbn [add_cells].
  destruct (Hc n) as [v ->]. destruct (IH (S n)) as [rs' ->]. by eexists.
Qed.

(** Numbering the rows makes them distinct. *)
Lemma add_serial n c rs rs' :
  col_default c = Serial → add_cells n c rs = Some rs' →
  ∀ i r, rs' !! i = Some r → cell (col_name c) r = SInt (Z.of_nat (S (n + i))).
Proof.
  intros Hd. revert n rs'. induction rs as [|r rs IH]; intros n rs'; [intros [= <-] i x Hx; by rewrite lookup_nil in Hx|].
  cbn [add_cells]. destruct (column_value n [] c) as [v|] eqn:Ev; [|done]. cbn [mbind option_bind].
  destruct (add_cells (S n) c rs) as [rs1|] eqn:Ea; [|done]. cbn [mbind option_bind]. intros [= <-] [|i] x Hx.
  - injection Hx as <-. rewrite cell_insert_eq, Nat.add_0_r. unfold column_value in Ev. cbn [dget mbind option_bind] in Ev.
    rewrite Hd in Ev. cbn [filled null] in Ev. rewrite andb_false_r in Ev.
    destruct (match col_check c with Some k => _ | None => _ end); [|done]. by injection Ev as <-.
  - rewrite (IH _ _ Ea i x Hx). do 3 f_equal. lia.
Qed.

Lemma add_cells_other n c rs rs' d :
  d ≠ col_name c → add_cells n c rs = Some rs' → (cell d <$> rs') = (cell d <$> rs).
Proof.
  intros Hne. revert n rs'. induction rs as [|r rs IH]; intros n rs'; [by intros [= <-]|].
  cbn [add_cells]. destruct (column_value n [] c) as [v|]; [|done]. cbn [mbind option_bind].
  destruct (add_cells (S n) c rs) as [rs1|] eqn:Ea; [|done]. cbn [mbind option_bind]. intros [= <-].
  rewrite !fmap_cons, cell_insert_ne by done. f_equal. by eapply IH.
Qed.

Lemma distinct_numbered c rs :
  NoDup (cell c <$> rs) → distinct_rows [c] rs = true.
Proof.
  induction rs as [|r rs IH]; [done|]. rewrite fmap_cons. intros [Hn Hd]%NoDup_cons. cbn [distinct_rows].
  rewrite IH by done. rewrite andb_true_r. apply negb_true_iff, not_true_is_false.
  intros (x & Hx & Hk)%existsb_exists. apply Hn. apply list_elem_of_fmap. exists x.
  split; [|by apply list_elem_of_In]. unfold same_key, key_of in Hk. cbn [map] in Hk.
  apply andb_true_iff in Hk as [Hk _]. apply bool_decide_eq_true in Hk. by injection Hk.
Qed.

Lemma numbered_distinct c rs : numbered c rs → NoDup (cell c <$> rs).
Proof.
  intros Hn. apply NoDup_alt. intros i j v Hi Hj.
  apply list_lookup_fmap_Some in Hi as (x & Hxv & Hx), Hj as (y & Hyv & Hy).
  rewrite (Hn _ _ Hx) in Hxv. rewrite (Hn _ _ Hy), Hxv in Hyv. injection Hyv as E. lia.
Qed.

(** The same tables and indexes, whatever the rows. *)
Definition alike (cat db : database) : Prop :=
  db_indexes db = db_indexes cat ∧ rel_table <$> db_relations db = rel_table <$> db_relations cat.

Definition at_stage (db0 db : database) : Prop := sound db ∧ alike db0 db.

Lemma alike_table cat db name rel :
  alike cat db → db_relations cat !! name = Some rel →
  ∃ rs, db_relations db !! name = Some (Relation (rel_table rel) rs).
Proof.
  intros [_ Ht] E. apply (f_equal (lookup name)) in Ht. rewrite !lookup_fmap, E in Ht. simpl in Ht.
  destruct (db_relations db !! name) as [[t rs]|]; [|done]. injection Ht as ->. by exists rs.
Qed.

Lemma alike_none cat db name : alike cat db → db_relations cat !! name = None → db_relations db !! name = None.
Proof.
  intros [_ Ht] E. apply (f_equal (lookup name)) in Ht. rewrite !lookup_fmap, E in Ht.
  by destruct (db_relations db !! name).
Qed.

Lemma alike_put cat db name t rs rs' : alike cat db → alike (put name (Relation t rs) cat) (put name (Relation t rs') db).
Proof. intros [Hi Ht]. split; [done|]. unfold put. cbn [db_relations]. by rewrite !fmap_insert, Ht. Qed.

(** Writing a row changes no table. *)
Lemma insert_alike cat name given conflict db r db' :
  alike cat db → insert_row name given conflict db = (r, db') → alike cat db'.
Proof.
  intros [Hi Ht]. unfold insert_row. destruct (db_relations db !! name) as [[t rs]|] eqn:En; [|by intros [= _ <-]].
  destruct (make_row t (length rs) given) as [x|]; [|by intros [= _ <-]].
  repeat case_match; intros [= _ <-]; try done; split; try done; unfold put; cbn [db_relations];
    rewrite <-Ht, fmap_insert; apply insert_id; by rewrite lookup_fmap, En.
Qed.

(** What the rows have to allow for a statement to be accepted. *)
Definition rows_allow (st : statement) (db : database) : Prop :=
  match st with
  | Add_column _ c => ∀ n, is_Some (column_value n [] c)
  | Set_not_null name c => Forall (λ r, is_null c r = false) (rows_of name db)
  | Create_index _ i => ix_unique i = true → distinct_rows (ix_columns i) (rows_of (ix_table i) db) = true
  | _ => True
  end.

(** A statement that the tables accept and the rows allow is accepted. *)
Lemma exec_alike st cat cat' db :
  alike cat db → exec st cat = Ok cat' → rows_allow st db →
  ∃ db', exec st db = Ok db' ∧ alike cat' db'.
Proof.
  intros Ha E Hr. pose proof Ha as [Hi Ht].
  assert (Hdb : ∀ name rel, db_relations cat !! name = Some rel →
    ∃ rs, db_relations db !! name = Some (Relation (rel_table rel) rs)) by (intros; by eapply alike_table).
  destruct st as [name t|name c|name c|name c text|name c|ix i|ix|name]; cbn [exec] in *;
    unfold on_table in *.
  - destruct (db_relations cat !! name) as [rel|] eqn:En.
    { injection E as <-. destruct (Hdb _ _ En) as [rs ->]. by exists db. }
    rewrite (alike_none cat db name Ha En). destruct (forallb _ (foreign_keys t)) eqn:Ef; [|done].
    injection E as <-.
    assert (forallb (λ k, bool_decide (is_Some (db_relations db !! fk_table k))) (foreign_keys t) = true) as ->.
    { rewrite forallb_forall in *. intros k Hk. apply Ef, bool_decide_eq_true in Hk as [rel Hk].
      apply bool_decide_eq_true. destruct (Hdb _ _ Hk) as [rs ->]. done. }
    eexists. split; [done|]. by apply alike_put.
  - destruct (db_relations cat !! name) as [rel|] eqn:En; [|done]. destruct (Hdb _ _ En) as [rs Er].
    rewrite Er. cbn [rel_table rel_rows]. case_bool_decide; [injection E as <-; by exists db|].
    destruct (add_cells 0 c (rel_rows rel)) as [rs0|]; [|done]. injection E as <-.
    destruct (add_cells_total 0 c rs Hr) as [rs' ->]. eexists. split; [done|]. by apply alike_put.
  - destruct (db_relations cat !! name) as [rel|] eqn:En; [|done]. destruct (Hdb _ _ En) as [rs Er].
    rewrite Er. cbn [rel_table rel_rows]. destruct (negb _); [injection E as <-; by exists db|].
    destruct (in_key _ _); [done|]. injection E as <-. eexists. split; [done|].
    split; cbn [db_relations db_indexes]; [by rewrite Hi|by rewrite !fmap_insert, Ht].
  - destruct (db_relations cat !! name) as [rel|] eqn:En; [|done]. destruct (Hdb _ _ En) as [rs Er].
    rewrite Er. cbn [rel_table rel_rows]. destruct (find_column c _) as [k|]; [|done].
    destruct (column_value 0 _ k) as [v|]; [|done]. injection E as <-. eexists. split; [done|].
    by apply alike_put.
  - destruct (db_relations cat !! name) as [rel|] eqn:En; [|done]. destruct (Hdb _ _ En) as [rs Er].
    rewrite Er. cbn [rel_table rel_rows]. destruct (negb _); [done|].
    destruct (existsb _ (rel_rows rel)); [done|]. injection E as <-.
    unfold rows_allow, rows_of in Hr. rewrite Er in Hr. rewrite existsb_none by done.
    eexists. split; [done|]. by apply alike_put.
  - rewrite Hi. destruct (db_indexes cat !! ix); [injection E as <-; by exists db|].
    destruct (db_relations cat !! ix_table i) as [rel|] eqn:En; [|done]. destruct (Hdb _ _ En) as [rs Er].
    rewrite Er. cbn [rel_table rel_rows]. destruct (forallb _ (ix_columns i)); [|done].
    destruct (ix_unique i && _); [done|]. injection E as <-.
    unfold rows_allow, rows_of in Hr. rewrite Er in Hr. cbn [rel_rows] in Hr.
    destruct (ix_unique i); [rewrite Hr by done|]; (eexists; split; [done|]; by split).
  - injection E as <-. eexists. split; [done|]. split; cbn [db_relations db_indexes]; [by rewrite Hi|done].
  - destruct (db_relations cat !! name) as [rel|] eqn:En; [|done]. destruct (Hdb _ _ En) as [rs ->].
    injection E as <-. by exists db.
Qed.

(** The same for a script of which no statement looks at the rows. *)
Definition looks_at_rows (st : statement) : bool :=
  match st with Add_column _ _ | Set_not_null _ _ => true | Create_index _ i => ix_unique i | _ => false end.

Lemma run_alike l cat cat' db :
  forallb (λ st, negb (looks_at_rows st)) l = true → alike cat db → run l cat = Ok cat' →
  ∃ db', run l db = Ok db' ∧ alike cat' db'.
Proof.
  revert cat db. induction l as [|st l IH]; intros cat db; [intros _ Ha [= <-]; by exists db|].
  cbn [forallb run]. intros [Hst%negb_true_iff Hl]%andb_true_iff Ha (cat1 & E1 & E)%result_bind_ok.
  destruct (exec_alike st cat cat1 db Ha E1) as (db1 & Ed & Ha1).
  { destruct st; try done. simpl in *. congruence. }
  rewrite Ed. by apply (IH cat1 db1).
Qed.

Lemma stage_table_back db0 db name rel :
  at_stage db0 db → db_relations db !! name = Some rel →
  ∃ rel0, db_relations db0 !! name = Some rel0 ∧ rel_table rel0 = rel_table rel.
Proof.
  intros (_ & _ & Ht) E. apply (f_equal (lookup name)) in Ht. rewrite !lookup_fmap, E in Ht. simpl in Ht.
  destruct (db_relations db0 !! name) as [rel0|]; [|done]. injection Ht as ->. by exists rel0.
Qed.

Lemma stage_indexed db0 db : at_stage db0 db → indexed db0 → indexed db.
Proof.
  intros Hst Hi ix i E. pose proof Hst as (_ & Hx & _). rewrite Hx in E.
  destruct (Hi ix i E) as (rel & Hr & Hc).
  destruct (alike_table db0 db _ rel (proj2 Hst) Hr) as [rs' Hr']. by eexists.
Qed.

Lemma stage_lacks down db0 db : at_stage db0 db → lacks down db0 → lacks down db.
Proof.
  intros Hst [Hc Hx]. pose proof Hst as (_ & Hi & _). split.
  - intros name rel c E Hd. destruct (stage_table_back db0 db name rel Hst E) as (rel0 & E0 & <-).
    by apply (Hc name rel0).
  - intros ix Hd. rewrite Hi. by apply Hx.
Qed.

(** [lacks], as a test. *)
Definition lacks_test (down : list statement) (db : database) : bool :=
  forallb (λ st, match st with
    | Drop_column n c => match db_relations db !! n with
                         | Some rel => negb (existsb (String.eqb c) (names (rel_table rel)))
                         | None => true
                         end
    | Drop_index ix => match db_indexes db !! ix with None => true | Some _ => false end
    | _ => true
    end) down.

Lemma lacks_tested down db : lacks_test down db = true → lacks down db.
Proof.
  unfold lacks_test. rewrite forallb_forall. intros Ht. split.
  - intros name rel c E (st & Hst & Hd)%existsb_exists. specialize (Ht st Hst).
    destruct st; try done. apply andb_true_iff in Hd as [->%String.eqb_eq ->%String.eqb_eq].
    rewrite E in Ht. apply negb_true_iff, not_true_iff_false in Ht. intros Hin. apply Ht, existsb_exists.
    exists c. split; [by apply list_elem_of_In|by rewrite String.eqb_refl].
  - intros ix (st & Hst & Hd)%existsb_exists. specialize (Ht st Hst). destruct st; try done.
    apply String.eqb_eq in Hd as ->. by destruct (db_indexes db !! ix).
Qed.

Lemma indexed_empty : indexed empty_database.
Proof. intros ix i E. unfold empty_database in E. cbn [db_indexes] in E. by rewrite lookup_empty in E. Qed.

Lemma added_rows name c rel db db' :
  db_relations db !! name = Some rel → col_name c ∉ names (rel_table rel) →
  exec (Add_column name c) db = Ok db' → add_cells 0 c (rel_rows rel) = Some (rows_of name db').
Proof.
  intros Er Hc. cbn [exec]. unfold on_table. rewrite Er, bool_decide_false by done.
  destruct (add_cells 0 c (rel_rows rel)) as [rs|]; [|done]. intros [= <-].
  unfold rows_of, put. cbn [db_relations]. by rewrite lookup_insert_eq.
Qed.

(** A back-filled column has a value in every row, after whatever keeps columns. *)
Lemma backfilled name c text st db db1 db2 :
  drops st = false → exec (Backfill name c text) db = Ok db1 → exec st db1 = Ok db2 →
  Forall (λ r, is_null c r = false) (rows_of name db2).
Proof.
  intros Hst E1 E2. assert (Hb : settled (Backfill name c text) db1) by by eapply (exec_settles _ db).
  destruct (settled_stays _ _ _ _ Hst Hb E2) as (rel & k & v & E & _ & _ & Hn).
  unfold rows_of. by rewrite E.
Qed.

Lemma tenant_isolation_runs cat cat' db :
  run m0003_tenant_isolation cat = Ok cat' → alike cat db →
  ∃ db', run m0003_tenant_isolation db = Ok db' ∧ alike cat' db'.
Proof.
  unfold m0003_tenant_isolation. cbn [run]. intros E Ha.
  apply result_bind_ok in E as (cat1 & C1 & E). apply result_bind_ok in E as (cat2 & C2 & E).
  apply result_bind_ok in E as (cat3 & C3 & E). apply result_bind_ok in E as (cat4 & C4 & E).
  apply result_bind_ok in E as (cat5 & C5 & E). apply result_bind_ok in E as (cat6 & C6 & E).
  apply result_bind_ok in E as (cat7 & C7 & E). apply result_bind_ok in E as (cat8 & C8 & E).
  apply result_bind_ok in E as (cat9 & C9 & E). apply result_bind_ok in E as (cat10 & C10 & [= <-]).
  destruct (exec_alike _ _ _ _ Ha C1) as (db1 & E1 & H1); [by eexists|].
  destruct (exec_alike _ _ _ _ H1 C2) as (db2 & E2 & H2); [by eexists|].
  destruct (exec_alike _ _ _ _ H2 C3) as (db3 & E3 & H3); [done|].
  destruct (exec_alike _ _ _ _ H3 C4) as (db4 & E4 & H4); [done|].
  assert (S4 : Forall (λ r, is_null "tenant_id" r = false) (rows_of "journal_entry" db4))
    by (eapply backfilled; [|exact E3|exact E4]; done).
  destruct (exec_alike _ _ _ _ H4 C5 S4) as (db5 & E5 & H5).
  assert (T5 : Forall (λ r, is_null "tenant_id" r = false) (rows_of "journal_line" db5))
    by (eapply backfilled; [|exact E4|exact E5]; done).
  destruct (exec_alike _ _ _ _ H5 C6 T5) as (db6 & E6 & H6).
  destruct (exec_alike _ _ _ _ H6 C7) as (db7 & E7 & H7); [done|].
  destruct (exec_alike _ _ _ _ H7 C8) as (db8 & E8 & H8); [done|].
  destruct (exec_alike _ _ _ _ H8 C9) as (db9 & E9 & H9); [by eexists|].
  destruct (exec_alike _ _ _ _ H9 C10) as (db10 & E10 & H10); [done|].
  exists db10. split; [|done].
  rewrite E1. cbn [mbind result_bind]. rewrite E2. cbn [mbind result_bind]. rewrite E3. cbn [mbind result_bind].
  rewrite E4. cbn [mbind result_bind]. rewrite E5. cbn [mbind result_bind]. rewrite E6. cbn [mbind result_bind].
  rewrite E7. cbn [mbind result_bind]. rewrite E8. cbn [mbind result_bind]. rewrite E9. cbn [mbind result_bind].
  by rewrite E10.
Qed.

Lemma audit_chain_runs cat cat' db :
  run m0004_audit_chain cat = Ok cat' → lacks m0004_down cat → alike cat db →
  ∃ db', run m0004_audit_chain db = Ok db' ∧ alike cat' db'.
Proof.
  unfold m0004_audit_chain. cbn [run]. intros E [Hl _] Ha.
  apply result_bind_ok in E as (cat1 & C1 & E). apply result_bind_ok in E as (cat2 & C2 & E).
  apply result_bind_ok in E as (cat3 & C3 & E). apply result_bind_ok in E as (cat4 & C4 & [= <-]).
  destruct (db_relations cat !! "event_log") as [rel|] eqn:Er;
    [|revert C1; cbn [exec]; unfold on_table; by rewrite Er].
  pose proof (Hl _ _ "seq" Er eq_refl) as Hs. pose proof (Hl _ _ "chain_hash" Er eq_refl) as Hc. clear Hl.
  destruct (alike_table _ _ _ _ Ha Er) as [rs Ed].
  destruct (exec_alike _ _ _ _ Ha C1) as (db1 & E1 & H1); [by eexists|].
  pose proof (added_rows "event_log" (serial (col "seq" BIGINT)) _ db db1 Ed Hs E1) as A1.
  destruct (exec_alike _ _ _ _ H1 C2) as (db2 & E2 & H2); [by eexists|].
  assert (Hd : distinct_rows ["seq"] (rows_of "event_log" db2) = true).
  { apply distinct_numbered.
    assert (Er1 : ∃ t1, db_relations db1 !! "event_log" = Some (Relation t1 (rows_of "event_log" db1))
                        ∧ "chain_hash" ∉ names t1).
    { revert E1. cbn [exec]. unfold on_table. rewrite Ed. cbn [rel_table rel_rows].
      rewrite bool_decide_false by done. destruct (add_cells 0 _ rs) as [rs1|]; [|done]. intros [= <-].
      unfold rows_of, put. cbn [db_relations]. rewrite lookup_insert_eq. eexists. split; [done|].
      rewrite names_app, elem_of_app. intros [?|Hin]; [done|]. simpl in Hin. set_solver. }
    destruct Er1 as (t1 & Er1 & Hc1).
    pose proof (added_rows "event_log" (col "chain_hash" TEXT) _ db1 db2 Er1 Hc1 E2) as A2.
    rewrite (add_cells_other 0 (col "chain_hash" TEXT) _ _ "seq" ltac:(done) A2).
    apply numbered_distinct. intros n r Hr. exact (add_serial 0 (serial (col "seq" BIGINT)) _ _ eq_refl A1 n r Hr). }
  destruct (exec_alike _ _ _ _ H2 C3 (λ _, Hd)) as (db3 & E3 & H3).
  destruct (exec_alike _ _ _ _ H3 C4) as (db4 & E4 & H4); [done|].
  exists db4. split; [|done].
  rewrite E1. cbn [mbind result_bind]. rewrite E2. cbn [mbind result_bind]. rewrite E3. cbn [mbind result_bind].
  by rewrite E4.
Qed.

(** A migration and its rollback run on the tables the scripts before them build. *)
Definition fits_after (before up down : list statement) : bool :=
  match run before empty_database with
  | Ok cat =>
      lacks_test down cat
      && match run up cat with
         | Ok cat' => match run down cat' with Ok _ => true | _ => false end
         | _ => false
         end
  | _ => false
  end.

Lemma fits_after_runs before up down cat :
  fits_after before up down = true → run before empty_database = Ok cat →
  lacks down cat ∧ ∃ cat' cat'', run up cat = Ok cat' ∧ run down cat' = Ok cat''.
Proof.
  unfold fits_after. intros E Ec. rewrite Ec in E. apply andb_true_iff in E as [Hl E].
  split; [by apply lacks_tested|]. destruct (run up cat) as [cat'|]; [|done].
  destruct (run down cat') as [cat''|] eqn:E2; [|done]. by exists cat', cat''.
Qed.

(** On a database with the tables of the scripts before it, whatever rows that fit
    them it has, each of the two migrations is accepted; run again it changes
    nothing; and the script that undoes it is accepted and gives back exactly
    the database there was, every row and definition. *)
Lemma upgrades_keep_data up down before cat db :
  (before, up, down) ∈ [(m0001_init ++ m0002_ledger, m0003_tenant_isolation, m0003_down);
                        (m0001_init ++ m0002_ledger ++ m0003_tenant_isolation, m0004_audit_chain, m0004_down)]%list →
  run before empty_database = Ok cat → at_stage cat db →
  ∃ db1, run up db = Ok db1 ∧ sound db1 ∧ run up db1 = Ok db1 ∧ run down db1 = Ok db
    ∧ ∀ cat1, run up cat = Ok cat1 → alike cat1 db1.
Proof.
  intros Hin Ec Hst. pose proof Hst as [Hs Ha].
  assert (Hfit : fits_after before up down = true).
  { rewrite !elem_of_cons, elem_of_nil in Hin. destruct Hin as [E|[E|[]]]; injection E as -> -> ->;
      vm_compute; reflexivity. }
  destruct (fits_after_runs _ _ _ _ Hfit Ec) as (Hl & cat' & cat'' & E1 & E2).
  assert (Hup : ∃ db1, run up db = Ok db1 ∧ alike cat' db1).
  { rewrite !elem_of_cons, elem_of_nil in Hin. destruct Hin as [E|[E|[]]]; injection E as -> -> ->;
      [by eapply tenant_isolation_runs|by eapply audit_chain_runs]. }
  destruct Hup as (db1 & D1 & Ha1).
  assert (Hi : indexed cat) by (eapply run_indexed; [apply indexed_empty|exact Ec]).
  assert (Htests : forallb declares_once (up ++ down) = true ∧ forallb (λ st, negb (drops st)) up = true
    ∧ forallb drops down = true ∧ forallb (undone_by down) (up ++ down) = true
    ∧ forallb (λ st, negb (looks_at_rows st)) down = true).
  { rewrite !elem_of_cons, elem_of_nil in Hin. destruct Hin as [E|[E|[]]]; injection E as -> -> ->;
      split_and!; vm_compute; reflexivity. }
  destruct Htests as (Ho & Hk & Hd & Hu & Hlook).
  destruct (run_alike down cat' cat'' db1 Hlook Ha1 E2) as (db2 & D2 & _).
  exists db1. split_and!; [done| |by eapply run_again| |intros ?; rewrite E1; by intros [= <-]].
  - rewrite forallb_app in Ho. apply andb_true_iff in Ho as [Ho _]. by eapply run_sound.
  - rewrite D2. f_equal. eapply (run_undone up down db db1 db2); try done;
      [by eapply stage_indexed|by eapply stage_lacks].
Qed.
End upgrade.

(** ** The runner on the directory of the repository

    What PostgreSQL reads in a text is a parameter; of the texts in the
    directory it is taken to read the statements of DbSchema.v. *)
Definition directory (texts : string → string) : gmap string string :=
  list_to_map ((λ s, (s.1, texts s.1)) <$> scripts).

Definition reads_scripts (texts : string → string) (reads : string → option (list statement)) : Prop :=
  Forall (λ s, reads (texts s.1) = Some s.2) scripts.

Section runner.
Context `{PgServer} (texts : string → string) (reads : string → option (list statement)).

Definition reading : Sql database := λ text db,
  match reads text with
  | Some l => run l db
  | None => raise_r DatabaseError "syntax error"
  end.
#[local] Existing Instance reading.

Definition m1 : migration := Migration "0001" "init" "0001_init.sql".
Definition m2 : migration := Migration "0002" "ledger" "0002_ledger.sql".
Definition m3 : migration := Migration "0003" "tenant_isolation" "0003_tenant_isolation.sql".
Definition m4 : migration := Migration "0004" "audit_chain" "0004_audit_chain.sql".
Definition recorded (ms : list migration) : list (string * string) := (λ m, (version m, name m)) <$> ms.

Lemma directory_discovers : discover_migrations (directory texts) = Ok [m1; m2; m3; m4].
Proof. vm_compute. reflexivity. Qed.

Lemma script_read n l :
  reads_scripts texts reads → (n, l) ∈ scripts → reads (texts n) = Some l.
Proof. unfold reads_scripts. rewrite Forall_forall. intros Hr Hin. exact (Hr _ Hin). Qed.

(** One migration, applied and recorded. *)
Lemma one_applied m l rows d d1 :
  reads_scripts texts reads → (path m, l) ∈ scripts → directory texts !! path m = Some (texts (path m)) →
  run l d = Ok d1 → version m ∉ rows.*1 →
  apply_one (directory texts) m (Migrate.Database d (Some rows))
  = (Ok tt, Migrate.Database d1 (Some (rows ++ [(version m, name m)])%list)).
Proof.
  intros Hr Hin Hf E Hv. unfold apply_one, transaction, read_text. rewrite Hf.
  unfold mbind, M_bind, mret, M_ret, execute, insert_migration, sql_exec, reading. cbn [Migrate.db_data Migrate.db_migrations].
  rewrite (script_read _ _ Hr Hin), E. cbn [Migrate.db_data Migrate.db_migrations]. by rewrite bool_decide_false.
Qed.

(** The last migration, undone and forgotten. *)
Lemma last_undone m up down rows d d1 :
  reads_scripts texts reads → m ∈ [m3; m4] → (path m, up) ∈ scripts → (down_path m, down) ∈ scripts →
  Forall (λ w, str_le w (version m)) rows.*1 → version m ∉ rows.*1 →
  run up d = Ok d1 → run down d1 = Ok d →
  rollback_last (directory texts) (Migrate.Database d1 (Some (rows ++ [(version m, name m)])%list))
  = (Ok (Some (version m)), Migrate.Database d (Some rows)).
Proof.
  intros Hr Hm Hup Hdown Hle Hv E1 E2.
  assert (Hf : directory texts !! path m = Some (texts (path m))
    ∧ directory texts !! down_path m = Some (texts (down_path m))
    ∧ List.find (λ m', String.eqb (version m') (version m)) [m1; m2; m3; m4] = Some m).
  { rewrite !elem_of_cons, elem_of_nil in Hm. destruct Hm as [->|[->|[]]]; split_and!; vm_compute; reflexivity. }
  destruct Hf as (Hp & Hd & Hf).
  eapply (rollback_undoes _ _ m _ _ (Migrate.Database d (Some rows)) _ rows directory_discovers Hf eq_refl Hle Hp Hd).
  - cbn [Migrate.db_data]. unfold sql_exec, reading. rewrite (script_read _ _ Hr Hup), (script_read _ _ Hr Hdown), E1.
    by intros ? [= <-].
  - by eapply one_applied.
Qed.

Lemma scripts_app l1 l2 db : run (l1 ++ l2) db = db1 ← run l1 db; run l2 db1.
Proof.
  revert db. induction l1 as [|st l1 IH]; intros db; [done|]. cbn [app run].
  destruct (exec st db) as [db1|]; [|done]. exact (IH db1).
Qed.

(** The loop over migrations that are all accepted. *)
Lemma all_applied ms scs done rows applied d d1 :
  reads_scripts texts reads → Forall2 (λ m l, (path m, l) ∈ scripts) ms scs →
  Forall (λ m, directory texts !! path m = Some (texts (path m))) ms →
  Forall (λ m, version m ∉ done) ms → NoDup (rows.*1 ++ (version <$> ms)) →
  run (concat scs) d = Ok d1 →
  apply_from (directory texts) done ms applied (Migrate.Database d (Some rows))
  = (Ok (applied ++ (version <$> ms))%list, Migrate.Database d1 (Some (rows ++ recorded ms)%list)).
Proof.
  intros Hr Hs. revert rows applied d. induction Hs as [|m l ms scs Hin Hs IH]; intros rows applied d.
  { intros _ _ _ [= <-]. cbn [apply_from]. by rewrite !app_nil_r. }
  intros [Hp Hps]%Forall_cons [Hd Hds]%Forall_cons Hn. cbn [concat]. rewrite scripts_app.
  intros (d2 & E1 & E2)%result_bind_ok. cbn [apply_from]. rewrite bool_decide_false by done.
  rewrite fmap_cons in Hn. assert (Hv : version m ∉ rows.*1).
  { apply NoDup_app in Hn as (_ & Hn & _). intros Hm. apply (Hn _ Hm). by left. }
  rewrite (M_bind_run _ _ _ _ _ (one_applied m l rows d d2 Hr Hin Hp E1 Hv)).
  rewrite (IH (rows ++ [(version m, name m)])%list (applied ++ [version m])%list d2); try done.
  - unfold recorded. rewrite !fmap_cons. by rewrite <-!(assoc_L (++)).
  - rewrite fmap_app, <-(assoc_L (++)). exact Hn.
Qed.

(** C36: the runner upgrades a database in use and can take the upgrade back.  On
    the directory of the repository a new database ends with the tables and
    indexes of [built], its four migrations recorded.  A database that has the
    tables of the first two migrations, whatever rows that fit them it holds,
    is upgraded by the other two: its rows then fit the tables of [built], so
    every journal row has a tenant; running the runner again changes nothing;
    and two rollbacks give back exactly the database there was, every row,
    definition and recorded version. *)
Theorem runner_upgrades_and_restores :
  reads_scripts texts reads →
  apply_pending (directory texts) (Migrate.Database empty_database None)
  = (Ok ["0001"; "0002"; "0003"; "0004"], Migrate.Database built (Some (recorded [m1; m2; m3; m4])))
  ∧ ∀ cat db, run (m0001_init ++ m0002_ledger) empty_database = Ok cat → sound db → alike cat db →
      ∃ db', let upgraded := Migrate.Database db' (Some (recorded [m1; m2; m3; m4])) in
        apply_pending (directory texts) (Migrate.Database db (Some (recorded [m1; m2])))
        = (Ok ["0003"; "0004"], upgraded)
        ∧ sound db' ∧ alike built db'
        ∧ apply_pending (directory texts) upgraded = (Ok [], upgraded)
        ∧ (latest ← rollback_last (directory texts); earlier ← rollback_last (directory texts);
           mret (latest, earlier)) upgraded
          = (Ok (Some "0004", Some "0003"), Migrate.Database db (Some (recorded [m1; m2]))).
Proof.
  intros Hr. split.
  { rewrite (apply_pending_run _ _ _ directory_discovers).
    apply (all_applied [m1; m2; m3; m4] [m0001_init; m0002_ledger; m0003_tenant_isolation; m0004_audit_chain] [] [] [] empty_database built Hr).
    - apply Forall2_same_length_lookup. split; [done|]. intros i m l Hm Hl.
      apply (list_elem_of_lookup_2 scripts i). do 4 (destruct i as [|i]; [by simplify_eq/=|]). done.
    - repeat constructor.
    - apply (bool_decide_unpack _). vm_compute. exact Logic.I.
    - apply (bool_decide_unpack _). vm_compute. exact Logic.I.
    - exact all_up_builds. }
  intros cat db Ec Hs Ha.
  pose proof all_up_builds as Eb. unfold all_up in Eb. rewrite (assoc_L (++)), scripts_app, Ec in Eb.
  cbn [mbind result_bind] in Eb. rewrite scripts_app in Eb. apply result_bind_ok in Eb as (cat3 & C3 & C4).
  destruct (upgrades_keep_data m0003_tenant_isolation m0003_down (m0001_init ++ m0002_ledger) cat db)
    as (db3 & U3 & S3 & _ & D3 & A3); [by left|done|by split|].
  destruct (upgrades_keep_data m0004_audit_chain m0004_down
    ((m0001_init ++ m0002_ledger) ++ m0003_tenant_isolation) cat3 db3)
    as (db4 & U4 & S4 & _ & D4 & A4); [by right; left| |by split; [|apply A3]|].
  { rewrite scripts_app, Ec. exact C3. }
  exists db4. cbn zeta. split_and!; [|done|by apply A4| |].
  - rewrite (apply_pending_run _ _ _ directory_discovers). cbn [Migrate.db_data].
    refine (all_applied [m3; m4] [m0003_tenant_isolation; m0004_audit_chain] ["0001"; "0002"]
      (recorded [m1; m2]) [] db db4 Hr _ _ _ _ _).
    + by constructor; [apply (list_elem_of_lookup_2 scripts 2)|constructor; [apply (list_elem_of_lookup_2 scripts 3)|]].
    + repeat constructor.
    + apply (bool_decide_unpack _). vm_compute. exact Logic.I.
    + apply (bool_decide_unpack _). vm_compute. exact Logic.I.
    + cbn [concat]. rewrite scripts_app, U3. cbn [mbind result_bind]. by rewrite app_nil_r.
  - by rewrite (apply_pending_run _ _ _ directory_discovers).
  - assert (R4 := last_undone m4 m0004_audit_chain m0004_down (recorded [m1; m2; m3]) db3 db4 Hr ltac:(by right; left)
      (list_elem_of_lookup_2 scripts 3 _ eq_refl)
      (list_elem_of_lookup_2 scripts 5 _ eq_refl)
      ltac:(apply (bool_decide_unpack _); vm_compute; exact Logic.I)
      ltac:(apply (bool_decide_unpack _); vm_compute; exact Logic.I) U4 D4).
    assert (R3 := last_undone m3 m0003_tenant_isolation m0003_down (recorded [m1; m2]) db db3 Hr ltac:(by left)
      (list_elem_of_lookup_2 scripts 2 _ eq_refl)
      (list_elem_of_lookup_2 scripts 4 _ eq_refl)
      ltac:(apply (bool_decide_unpack _); vm_compute; exact Logic.I)
      ltac:(apply (bool_decide_unpack _); vm_compute; exact Logic.I) U3 D3).
    rewrite (M_bind_run _ _ _ _ _ R4), (M_bind_run _ _ _ _ _ R3). done.
Qed.
End runner.

(** ** A directory, and a database with rows *)
Section witnesses.
Import EventStore.PostgresEventStore.
#[local] Existing Instance demo_server.

(** The texts are their names, and are read as the scripts of those names. *)
Definition by_name (text : string) : option (list statement) :=
  snd <$> List.find (λ s, String.eqb s.1 text) scripts.

(** The rent of March, booked before there were tenants. *)
Definition book_rent : M database unit :=
  insert_row "journal_entry"
    [("entry_id", SText uuid0); ("currency", SText "USD"); ("total_minor", SInt 900)] None ;;
  insert_row "journal_line"
    [("entry_id", SText uuid0); ("account", SText "rent"); ("direction", SText "debit");
     ("amount_minor", SInt 900)] None ;; mret tt.

Definition two_scripts : database := 
  match run (m0001_init ++ m0002_ledger) empty_database with Ok db => db | _ => empty_database end.
Definition with_rent : database := (book_rent two_scripts).2.

Lemma book_rent_keeps cat db :
  sound db → alike cat db → sound (book_rent db).2 ∧ alike cat (book_rent db).2.
Proof.
  intros Hs Ha. unfold book_rent, mbind, M_bind.
  destruct (insert_row "journal_entry" _ _ _) as [r1 db1] eqn:E1.
  pose proof (insert_sound _ _ _ _ _ _ Hs E1) as Hs1. pose proof (insert_alike _ _ _ _ _ _ _ Ha E1) as Ha1.
  destruct r1; [|done]. destruct (insert_row "journal_line" _ _ _) as [r2 db2] eqn:E2.
  pose proof (insert_sound _ _ _ _ _ _ Hs1 E2) as Hs2. pose proof (insert_alike _ _ _ _ _ _ _ Ha1 E2) as Ha2.
  by destruct r2.
Qed.

Lemma runner_upgrades_and_restores_witness :
  length (rows_of "journal_line" with_rent) = 1%nat
  ∧ ∃ db', let upgraded := Migrate.Database db' (Some (recorded [m1; m2; m3; m4])) in
      apply_pending (H := reading by_name) (directory id) (Migrate.Database with_rent (Some (recorded [m1; m2])))
      = (Ok ["0003"; "0004"], upgraded)
      ∧ (latest ← rollback_last (H := reading by_name) (directory id);
         earlier ← rollback_last (H := reading by_name) (directory id);
         mret (latest, earlier)) upgraded
        = (Ok (Some "0004", Some "0003"), Migrate.Database with_rent (Some (recorded [m1; m2]))).
Proof.
  split; [vm_compute; reflexivity|].
  assert (Hr : reads_scripts id by_name) by (repeat constructor).
  assert (E : run (m0001_init ++ m0002_ledger) empty_database = Ok two_scripts) by (vm_compute; reflexivity).
  destruct (book_rent_keeps two_scripts two_scripts) as [Hs Ha].
  { eapply run_sound; [|apply sound_empty|exact E]. vm_compute. reflexivity. }
  { split; reflexivity. }
  destruct (proj2 (runner_upgrades_and_restores id by_name Hr) two_scripts with_rent E Hs Ha)
    as (db' & A & _ & _ & _ & R).
  exists db'. cbn zeta. by split.
Defined.
End witnesses.
